(* ===== verification/_CoqProject ===== *)
-Q . S2P
Prelude.v
Errors.v
Types.v
Match.v
Util.v
Features.v
Cluster.v
ClusterGate.v
ClusterLife.v
ClusterDrain.v
ManagedReconciler.v
ManagedController.v
Manager.v
Conditions.v
GoHeap.v
CopySpec.v
DeepCopy.v
StatusCopy.v
Sync.v
SyncOwner.v
SyncSafe.v
SyncEffect.v
SyncRun.v
SyncController.v
Ownership.v
Mesh.v
MeshRun.v
Meta.v
Secret.v
ClusterReconciler.v
RegistryFacts.v
RegistrySync.v
Webhook.v
RuleReconciler.v
RemoteReconciler.v
RegistryRun.v
Watches.v
WatchFacts.v
Converge.v
Refresh.v
RulePeers.v
RuleConverge.v
Scheme.v
WatchRun.v
ConvergeRun.v
RuleConvergeRun.v
Certificate.v
CertFacts.v
Certifier.v
CertifierFacts.v
Config.v
Configure.v
Signals.v
Main.v
MainFacts.v
MainRun.v
