(* ===== verification/Prelude.v ===== *)
(** * Cluster registry controller: a verification development

    ** The program

    The cluster registry controller runs in every cluster of a mesh. A [Cluster]
    resource describes a member; a [ResourceSyncRule] says which objects are copied
    from the peers, and how they are changed on the way. The parts, under src/:

    - api/v1alpha1: the resources, and the matching of objects against rules;
    - controllers: the reconcilers. The cluster reconciler keeps the clusters manager
      in step with the [Cluster] resources and their secrets, and gives every peer its
      controllers. The rule reconciler gives every peer one sync controller per rule.
      The sync reconciler copies objects from a peer to the local cluster. The feature
      reconciler and the remote cluster reconciler follow what a peer says of itself;
    - pkg/clusters: the runtime. The manager maps names to peer clusters; a cluster has
      features, active and pending controllers, a liveness loop and a manager of
      controller-runtime that runs while the peer answers; a managed controller wraps a
      reconciler, its cache, its client and its context;
    - pkg/clustermeta, pkg/util: provider and distribution detection, kubeconfigs,
      secrets, templates; pkg/webhooks, pkg/cert: the validating webhook for [Cluster]
      resources and its certificates; pkg/ratelimit, pkg/signals: small helpers;
    - cmd/manager: the command, which reads its configuration from flags, environment
      and defaults, sets the reconcilers up, and starts the manager.

    ** The files

    - [Prelude]: results, state passing with its notation, map iterations, machine
      integers, blocks that move the state along a preorder ([moves], [moves_tac]),
      shared lemmas.
    - [Errors]: controllers/errors.go and the error values; [Types]: api/v1alpha1 types
      and internal/config/config.go.
    - [Match]: api/v1alpha1/resourcesyncrule_match.go. [Util]: pkg/util/resources.go,
      kubeconfig.go, overlaypatchtemplate.go. [Features]:
      pkg/clusters/cluster_features.go.
    - [Cluster]: pkg/clusters/cluster.go and the life cycle of a controller in
      managed_controller.go, as functions on a world [CWorld] (cluster, heap of
      controllers, contexts, goroutines) and the step relation [cluster_step].
      [ClusterGate]: the gating of controllers by features. [ClusterLife]: manager,
      contexts and liveness over all interleavings. [ClusterDrain]: shutting down.
    - [ManagedReconciler]: managed_reconciler.go. [ManagedController]: the set-up of a
      controller against the interface of a reconciler. [Manager]: manager.go.
    - [Conditions]: controllers/cluster_conditions.go and common.go.
    - [GoHeap]: Go memory, with pointers into structs, slices over arrays and maps.
      [CopySpec]: the blocks of a generated copy, and the contract of a deep copy.
      [DeepCopy]: api/v1alpha1/zz_generated.deepcopy.go. [StatusCopy]:
      UpdateClusterStatus of common.go on pointers.
    - [Sync]: controllers/sync_reconciler.go. [SyncOwner]: the ownership protocol.
      [SyncSafe], [SyncEffect]: effect on the local cluster, against the laws of an
      API server. [SyncRun]: an executable pair of clusters. [SyncController]: the
      pre-checks, and the sync reconciler as an instance of the interface of
      [ManagedController].
    - [Ownership]: the ownership protocol of one object over all clusters, abstractly.
      [Mesh]: the sync reconcilers of many clusters in one world ([mesh_step]: any
      request of any reconciler, any change of a user), which implement the protocol.
      [MeshRun]: an executable mesh.
    - [Meta]: pkg/clustermeta. [Secret]: pkg/util/cluster_secret.go,
      provision_local_cluster.go and the rest of kubeconfig.go.
    - [ClusterReconciler]: controllers/cluster_reconciler.go,
      cluster_reconciler_watches.go and core_syncers.go; [RegistryFacts]: its parts;
      [RegistrySync]: the whole of Reconcile and the clusters manager.
    - [Webhook]: pkg/webhooks/cluster_validator.go. [RuleReconciler]:
      controllers/resource_sync_rule_reconciler.go,
      remote_cluster_feature_reconciler.go and pkg/ratelimit. [RemoteReconciler]:
      controllers/remote_cluster_reconciler.go. [RegistryRun]: an executable registry.
    - [Watches]: the setups of the reconcilers (SetupWithController, SetupWithManager),
      the watches they register, and the requests that an event leads to. [WatchFacts]:
      their theorems; [WatchRun]: runs.
    - [Converge]: the cluster reconciler with its watches and its queue, as a step
      relation; [Refresh]: its refresh interval. [RulePeers], [RuleConverge]: the rule
      reconciler with the clusters manager, the peers and its queue. [ConvergeRun],
      [RuleConvergeRun]: runs.
    - [Scheme]: api/v1alpha1/groupversion_info.go and the [init] functions.
    - [Certificate]: pkg/cert/certificate.go and renewer.go; [CertFacts]: their theorems.
      [Certifier]: pkg/cert/webhook_certifier.go; [CertifierFacts]: its theorems, and runs.
    - [Config]: bindEnvs of cmd/manager/config.go over the type of internal/config, with
      slices that share arrays; [Configure]: initConfiguration and configure.
      [Signals]: pkg/signals. [Main]: cmd/manager/main.go over the operations of the
      other files; [MainFacts]: its theorems; [MainRun]: the command from its defaults
      to the start of the manager.

    ** How the code is modelled

    Definitions keep the names of the source; a method [m] of a type [T] is [T_m] where
    the name alone would be ambiguous. Sequential code is state passing ([ST S A]): the
    state reached before an early return is kept. A fallible call returns a [result] or
    an optional error, nil being [None]; where the code can dereference a nil pointer
    an outer [None] is the panic. The order of a map iteration is an argument: a
    definition [f_in order] is the code with that order, [f] one instance, and the
    theorems hold for all orders where they say so. Code outside src/ (API servers,
    controller-runtime, selectors, JSON, templates, patches, cryptography, the host)
    is a type class of operations; what a theorem relies on is a class of laws, and an
    executable instance shows that the laws can hold ([SyncRun], [MeshRun],
    [RegistryRun], [WatchRun], [MainRun], [CertifierFacts] and the ends of other files).

    A context is the path of numbers from the root context, and it is done when one of
    its prefixes was cancelled. A handler is one atomic step; what runs in goroutines
    and what the environment does are further steps, in any order. Mutexes are
    therefore not modelled, and neither are data races. Logging is left out.

    ** What the theorems show

    - Sync reconciler. Safety: objects of the local cluster that have no owner, or
      belong to another live peer, keep their content ([sync_protects_local_objects]);
      who may create and update ([ownership_rights]); copies do not travel back
      ([no_copy_back]). Function: copies are made and removed
      ([reconcile_creates_copy], [reconcile_deletes_copy]), their content
      ([mutateObject_correct]), the pre-checks ([PreCheck_correct]). The laws of the API
      server ([SyncEnvLaws]) are those of a client that reads through a cache: a read
      returns some version that is visible, which may be old; a deletion may only mark
      an object that has finalizers; a created or updated object is completed by the
      server and gets the annotation of the object reconciler; a status update keeps
      labels and annotations only for the kinds in [status_only]. The theorems say what
      they need of this: that all visible versions are protected, and that the rule
      does not copy the status or the kind is in [status_only]. What happens otherwise
      is shown by [stale_cache_deletes_user_object] and
      [status_of_protected_object_overwritten] in [SyncRun]. The effect of overrides is
      that of the patch library, so the theorems on the content of copies are about
      rules without them.
    - Mesh. Refinement: each request of a reconciler is a step of the ownership
      protocol ([mesh_refines_ownership]). Invariant: owners form no cycle, and every
      copy leads back to an original ([mesh_owners_acyclic]). They hold while the
      clusters see each other, for caches that have caught up when a request is served,
      rules without overrides that leave the kind and the ownership annotation alone,
      status updates that write no metadata, and users who do not claim objects for
      another cluster; [lost_owner_leads_to_self_ownership] shows what a lost peer can
      lead to. Safety: objects of users survive every run ([mesh_keeps_user_objects]),
      which needs only that their visible versions have no owner and the condition on
      status updates.
    - Matching: the matcher against a declarative selection; the scan of the rules, which
      the first error stops ([ResourceSyncRule_Match_correct]).
    - Clusters: a cluster refines an abstract registry of named controllers
      ([cluster_refines_registry]); in every reachable state a controller whose
      requirements are met is active ([gated]), and, while no feature was replaced by a
      different one or after a feature was removed, only such a controller is
      ([strictly_gated]); map orders do not matter; at most one manager; [Stop] reaches every
      context, and the goroutines end after it ([shutdown_terminates]); liveness
      callbacks run on edges; the set-up of a controller ([start_sets_up]), and two
      states from which it does not come back.
    - Registry: the clusters manager follows the resources
      ([manager_follows_resources]), the credentials of a registered cluster, the
      controllers of a rule on all peers ([Reconcile_rule_correct]), the manager's
      operations, conflicts between local clusters, the comparison of two registries,
      conditions and status updates with a round trip through what the API server
      stores of them ([conditions_round_trip]).
    - Watches: a setup registers every watch or fails ([setups_are_complete_or_fail]);
      which events are delivered to the cluster reconciler and which are not, its own
      status updates among them ([cluster_events_delivered]); a new cluster queues the
      rules ([new_clusters_requeue_rules]). Both suppose that listings succeed.
    - Convergence: whatever events, failures and retries come, in any order, a peer
      that is out of step with a [Cluster] resource that is gone, local or disabled
      ([registry_converges]) or with a rule ([rules_converge]) has a request in the
      queue, so that an empty queue means that all are in step. A queue is a list
      without the delays of controller-runtime; a request that fails comes back. The
      refresh interval brings every existing resource back ([resources_are_revisited]).
      [rules_converge] is about runs in which listings succeed and rate limiters can be
      made, for rules that do not have the name of a peer's own controller:
      [rule_replaces_own_controller] and [failed_listing_queues_nothing] show what is
      outside of this.
    - Deep copies: every generated copy reads as its original, is made of new memory
      ([deepcopy_is_fresh]), and neither sees a change of the other
      ([deepcopy_is_isolated]); the value model of status updates is what the code on
      pointers does ([UpdateClusterStatus_refines]).
    - Scheme: the process knows the kinds of the API and of all watches, whatever the
      order of the [init] functions ([scheme_knows_the_api]).
    - Command: the keys bound to the environment ([bindEnvs_binds_all_keys]), the
      sources of a value and the types of the defaults ([configuration_precedence],
      [configure_well_typed]), the steps of [main], of which
      the first that fails ends the process, and what holds at the start
      ([main_starts_only_when_ready]), machine integers ([main_integer_bounds]), signals
      ([signals_stop_the_process]).
    - Webhook and certificates: admission keeps local resources unique; files of a
      certificate read back; a renewal ends the renewals; readiness means that the API
      server trusts the authority of the certificate in use.
    - Helpers: detection tables, metadata, reader secret, GVK text round trip, endpoint
      selection.

    Theorems that are not correctness properties record what the code does where that
    seems not to be meant, such as [AddFeature_replace_leaves_unmet_active],
    [alive_without_manager], [conflict_watch_brings_one] or [failed_renewal_panics].

    ** Bounds

    Nothing is bounded by fuel. Loops over data are structural. The retries of the
    cluster functions and of the token secret are the constants of the source
    (back-off steps). Loops that run until a context is done are step relations, or
    functions of the list of events they see, for every list. Times are integers. The
    arithmetic on machine integers wraps around at its width: the refresh interval
    (int64), the log level (int8) and the port (uint to int).

    ** Not modelled

    deploy/charts/embed.go (embeds files); the accessors of single fields, which are the
    fields here; logging, mutexes and data races. Outside of [DeepCopy] and [StatusCopy]
    API objects are values, without the memory they share. The configuration keys are
    taken as they are spelt: viper compares them without regard to case. Files that were
    written are taken to be readable ([HostLaws]). *)

From stdpp Require Import gmap strings list fin_maps relations.

(** ** Results of fallible Go calls

    A Go function that returns [(T, error)] and whose callers use the first
    value only when the error is nil is a function into [result E T]. *)
Inductive result (E A : Type) : Type :=
| Ok (a : A)
| Err (e : E).
Arguments Ok {E A} a.
Arguments Err {E A} e.

Definition res_map {E A B} (f : A → B) (r : result E A) : result E B :=
  match r with Ok a => Ok (f a) | Err e => Err e end.

(** The error component of a result, as Go's [err] variable (nil is [None]). *)
Definition res_err {E A} (r : result E A) : option E :=
  match r with Ok _ => None | Err e => Some e end.

(** ** Sequential Go code as state passing

    [ST S A] is a statement block that reads and writes the shared state [S]
    (API servers, work queue, fields of the receiver) and leaves a value. The
    state reached before an early return is kept, as in Go. *)
Definition ST (S A : Type) : Type := S → A * S.

Definition st_ret {S A} (a : A) : ST S A := λ s, (a, s).
Definition st_bind {S A B} (c : ST S A) (k : A → ST S B) : ST S B :=
  λ s, let '(a, s') := c s in k a s'.
Definition st_get {S} : ST S S := λ s, (s, s).
Definition st_modify {S} (f : S → S) : ST S unit := λ s, (tt, f s).

Declare Scope go_scope.
Delimit Scope go_scope with go.
Notation "'let!' x ':=' c 'in' k" := (st_bind c (λ x, k))
  (at level 10, x pattern, c at level 100, k at level 200) : go_scope.
Notation "c ';;;' k" := (st_bind c (λ _, k))
  (at level 199, k at level 200, right associativity) : go_scope.
Notation "'return!' a" := (st_ret a) (at level 150, a at level 149) : go_scope.

(** [for _, x := range l { ... }] with a body that may leave the loop early:
    the body yields [Some r] to return [r] from the enclosing function. *)
Fixpoint st_for {S A R} (l : list A) (body : A → ST S (option R)) : ST S (option R) :=
  match l with
  | [] => st_ret None
  | x :: l' =>
      st_bind (body x) (λ r,
        match r with Some v => st_ret (Some v) | None => st_for l' body end)
  end.

(** ** Machine integers

    A signed integer of width [w] is a [Z]; arithmetic and conversions wrap around. *)
Definition wrap_signed (w z : Z) : Z := ((z + 2 ^ (w - 1)) mod 2 ^ w - 2 ^ (w - 1))%Z.
Abbreviation int8 := (wrap_signed 8).
Abbreviation int64 := (wrap_signed 64).

(** ** Go maps

    A nil map reads as the empty map, so both are the empty [gmap]. [range_insert l m]
    is the loop [for k, v := range l { m[k] = v }], [range_delete ks m] the loop
    [for _, k := range ks { delete(m, k) }]. *)
Definition range_insert {V} (l : list (string * V)) (m : gmap string V) : gmap string V :=
  foldl (λ acc kv, <[kv.1 := kv.2]> acc) m l.
Definition range_delete {V} (ks : list string) (m : gmap string V) : gmap string V :=
  foldl (λ acc k, delete k acc) m ks.

(** [m[k]] on a string map: the zero value when the key is missing. *)
Definition map_get (m : gmap string string) (k : string) : string :=
  default "" (m !! k).

(** [len(l) > 0]. *)
Definition nonempty {A} (l : list A) : bool :=
  match l with [] => false | _ :: _ => true end.

(** ** Automation *)

Create HintDb registry.

(** Case analysis on the scrutinee of a match in the goal, keeping its equation. *)
Ltac case_goal :=
  match goal with
  | |- context [match ?x with _ => _ end] => destruct x eqn:?
  end.

Ltac case_hyp H :=
  match type of H with
  | context [match ?x with _ => _ end] => destruct x eqn:?
  end.

(** Split every match of the goal, closing the branches that contradict. *)
Ltac go_cases := repeat (case_goal; simplify_eq/=; try done).

(** ** Blocks that move the state only along a relation *)

Section moves.
Context {S : Type} (R : relation S).

Definition moves {A} (c : ST S A) : Prop := ∀ s, R s (c s).2.
End moves.

Section moves_facts.
Context {S : Type} {R : relation S} `{!PreOrder R}.

Lemma moves_ret {A} (a : A) : moves R (st_ret a).
Proof. intros s. reflexivity. Qed.

Lemma moves_get : moves R (@st_get S).
Proof. intros s. reflexivity. Qed.

Lemma moves_bind {A B} (c : ST S A) (k : A → ST S B) :
  moves R c → (∀ a, moves R (k a)) → moves R (st_bind c k).
Proof.
  intros Hc Hk s. unfold st_bind. specialize (Hc s).
  destruct (c s) as [a s']. simpl in Hc. etrans; [exact Hc|apply Hk].
Qed.

Lemma moves_modify (f : S → S) : (∀ s, R s (f s)) → moves R (st_modify f).
Proof. intros Hf s. apply Hf. Qed.

Lemma moves_for {A B} (l : list A) (body : A → ST S (option B)) :
  (∀ x, moves R (body x)) → moves R (st_for l body).
Proof.
  intros Hb. induction l as [|x l IH]; simpl; [apply moves_ret|].
  apply moves_bind; [apply Hb|]. intros [v|]; [apply moves_ret|exact IH].
Qed.
End moves_facts.

#[export] Hint Resolve moves_ret moves_get moves_bind moves_modify moves_for : registry.

(** Walk a block statement by statement; what is left are the primitive calls. *)
Ltac moves_tac :=
  repeat first
    [ progress intros
    | match goal with H : moves _ _ |- _ => apply H
                    | H : ∀ _, moves _ _ |- _ => apply H
                    | H : ∀ _ _, moves _ _ |- _ => apply H
                    | H : ∀ _ _ _, moves _ _ |- _ => apply H end
    | apply moves_ret | apply moves_get
    | apply moves_for | apply moves_bind
    | match goal with |- moves _ (match ?x with _ => _ end) => destruct x end
    | solve [eauto with registry] ].

(** The Go idiom [_, ok := m[k]]. *)
Lemma present_is_Some {A} (o : option A) :
  match o with Some _ => true | None => false end = true ↔ is_Some o.
Proof. by destruct o; split. Qed.

(** A loop whose body moves along a preorder moves along it. *)
Lemma foldl_preorder {S A} {R : relation S} `{!PreOrder R} (f : S → A → S) l s :
  (∀ s a, R s (f s a)) → R s (foldl f s l).
Proof.
  intros Hf. revert s. induction l as [|a l IH]; intros s; simpl; [reflexivity|].
  etrans; [apply Hf|apply IH].
Qed.

(** Wrapping around changes nothing in the range, and always ends in it. *)
Lemma wrap_signed_id w z : (0 < w)%Z → (- 2 ^ (w - 1) ≤ z < 2 ^ (w - 1))%Z → wrap_signed w z = z.
Proof.
  intros Hw Hz. unfold wrap_signed.
  assert (2 ^ w = 2 * 2 ^ (w - 1))%Z as Hp by (rewrite <-Z.pow_succ_r by lia; f_equal; lia).
  rewrite Z.mod_small by lia. lia.
Qed.

Lemma wrap_signed_range w z : (0 < w)%Z → (- 2 ^ (w - 1) ≤ wrap_signed w z < 2 ^ (w - 1))%Z.
Proof.
  intros Hw. unfold wrap_signed.
  assert (2 ^ w = 2 * 2 ^ (w - 1))%Z as Hp by (rewrite <-Z.pow_succ_r by lia; f_equal; lia).
  pose proof (Z.mod_pos_bound (z + 2 ^ (w - 1)) (2 ^ w)) as Hb.
  assert (0 < 2 ^ (w - 1))%Z by (apply Z.pow_pos_nonneg; lia). lia.
Qed.

(** ** Shared facts on maps *)

Section range_loops.
Context {V : Type}.
Implicit Types (m : gmap string V) (l : list (string * V)).

Lemma range_insert_app l1 l2 m :
  range_insert (l1 ++ l2) m = range_insert l2 (range_insert l1 m).
Proof. apply foldl_app. Qed.

(** The loop writes the last value listed for each key, over the old map. *)
Lemma range_insert_union l m :
  range_insert l m = list_to_map (reverse l) ∪ m.
Proof.
  revert m. induction l as [|[k v] l IH]; intros m; simpl.
  - by rewrite (left_id_L ∅ (∪)).
  - change (range_insert l (<[k:=v]> m) = list_to_map (reverse ((k, v) :: l)) ∪ m).
    rewrite IH, reverse_cons, list_to_map_app. simpl.
    rewrite <-(assoc_L (∪)), insert_empty. f_equal.
    by rewrite <-insert_union_singleton_l.
Qed.

(** Ranging over a map visits its entries in an unspecified order; the
    resulting map does not depend on it. *)
Lemma range_insert_order l (a m : gmap string V) :
  l ≡ₚ map_to_list a → range_insert l m = a ∪ m.
Proof.
  intros Hl. rewrite range_insert_union. f_equal.
  assert (Hr : reverse l ≡ₚ map_to_list a) by (by rewrite reverse_Permutation).
  rewrite <-(list_to_map_to_list a). apply list_to_map_proper; [|done].
  rewrite Hr. apply NoDup_fst_map_to_list.
Qed.

Lemma range_delete_lookup ks m k :
  range_delete ks m !! k = if decide (k ∈ ks) then None else m !! k.
Proof.
  revert m. induction ks as [|k' ks IH]; intros m; simpl.
  - done.
  - change (range_delete ks (delete k' m) !! k = if decide (k ∈ k' :: ks) then None else m !! k).
    rewrite IH. destruct (decide (k = k')) as [->|Hne].
    + rewrite lookup_delete_eq.
      destruct (decide (k' ∈ k' :: ks)) as [|Hn]; [by case_decide|set_solver].
    + rewrite lookup_delete_ne by done.
      repeat case_decide; set_solver.
Qed.
End range_loops.

Lemma map_get_insert_eq m k v : map_get (<[k:=v]> m) k = v.
Proof. unfold map_get. by rewrite lookup_insert_eq. Qed.

Lemma map_get_insert_ne m k k' v : k ≠ k' → map_get (<[k:=v]> m) k' = map_get m k'.
Proof. intros. unfold map_get. by rewrite lookup_insert_ne. Qed.

Lemma map_get_delete_ne m k k' : k ≠ k' → map_get (delete k m) k' = map_get m k'.
Proof. intros. unfold map_get. by rewrite lookup_delete_ne. Qed.
