(* ===== verification/Errors.v ===== *)
(** * Errors

    Go error values as the controllers build and inspect them: the sentinel
    values, API status errors, the two "unknown" detection errors of
    pkg/clustermeta and the permanent error of controllers/errors.go. The
    annotating functions of emperror.dev/errors and the status predicates of
    k8s.io/apimachinery are the class [ErrorLib]; what the controllers rely on
    is the class [ErrorLaws]. *)

From stdpp Require Import gmap strings list.
From S2P Require Import Prelude.

(** ** Error values *)

Inductive StatusReason : Set :=
| NotFound | AlreadyExists | Conflict | OtherReason (s : string).

#[export] Instance StatusReason_eq_dec : EqDecision StatusReason.
Proof. solve_decision. Defined.

(** The package-level [errors.New] values: compared by identity. *)
Inductive Sentinel : Set :=
| ErrInvalidClusterID | ErrInvalidSecretContent | ErrInvalidSecret
| ErrLocalClusterConflict | ErrClusterNotFound | ErrControllerNotFound.

#[export] Instance Sentinel_eq_dec : EqDecision Sentinel.
Proof. solve_decision. Defined.

Inductive error : Set :=
| errorString (msg : string)
| sentinel (s : Sentinel)
| StatusError (r : StatusReason) (msg : string)
| UnknownProviderError
| UnknownDistributionError
| permanentError (e : error)
| annotated (text : string) (e : error)
| combined (e1 e2 : error).

(** The messages of the sentinels. *)
Definition Sentinel_text (s : Sentinel) : string :=
  match s with
  | ErrInvalidClusterID => "invalid cluster ID"
  | ErrInvalidSecretContent => "could not found k8s config in secret"
  | ErrInvalidSecret => "invalid secret type"
  | ErrLocalClusterConflict => "multiple local clusters are defined"
  | ErrClusterNotFound => "cluster not found"
  | ErrControllerNotFound => "controller not found"
  end.

(** ** controllers/errors.go *)

Definition WrapAsPermanentError (err : error) : error := permanentError err.

(** The method set of [permanentError]: [Cause] and [Unwrap] give the wrapped
    error, [IsPermanent] is constantly true. [IsPermanent] is only ever reached
    through the type assertion [err.(interface{ IsPermanent() bool })], which
    looks at the outermost value and never unwraps. *)
Definition permanentError_Unwrap (w : error) : option error :=
  match w with permanentError e => Some e | _ => None end.

Definition IsPermanent (err : error) : bool :=
  match err with permanentError _ => true | _ => false end.

(** Values that carry a stack trace by construction: [permanentError] embeds one. *)
Definition hasStackTrace (err : error) : bool :=
  match err with permanentError _ => true | _ => false end.

(** The stack of program counters: [frames] are those of the goroutine, from
    [runtime.Callers] outwards, of which at most [maxDepth] are kept. *)
Definition maxDepth : nat := 32.
Definition callers (frames : list Z) (depth : nat) : list Z := take maxDepth (drop (2 + depth) frames).

(** [StackTrace]: the loop [f[i] = Frame(( *s)[i])] over a slice of the same length. *)
Definition StackTrace (s : list Z) : list Z :=
  foldl (λ f i, <[i := default 0%Z (s !! i)]> f) (replicate (length s) 0%Z) (seq 0 (length s)).

(** ** The standard library's [errors.Is] and [errors.As] *)

Fixpoint errors_Is (err : error) (target : Sentinel) : bool :=
  match err with
  | sentinel s => bool_decide (s = target)
  | permanentError e | annotated _ e => errors_Is e target
  | _ => false
  end.

Fixpoint IsUnknownProviderError (err : error) : bool :=
  match err with
  | UnknownProviderError => true
  | permanentError e | annotated _ e => IsUnknownProviderError e
  | _ => false
  end.

Fixpoint IsUnknownDistributionError (err : error) : bool :=
  match err with
  | UnknownDistributionError => true
  | permanentError e | annotated _ e => IsUnknownDistributionError e
  | _ => false
  end.

(** ** The error libraries *)

Class ErrorLib : Type := {
  (** emperror.dev/errors *)
  WrapIf : error → string → error;
  Wrap : error → string → error;
  WithStackIf : error → error;
  WithStack : error → error;
  WithDetails : error → list (string * string) → error;
  Append : option error → error → error;
  Cause : error → error;
  annotation_text : string → string → string;
  (** k8s.io/apimachinery/pkg/api/errors *)
  IsNotFound : error → bool;
  IsAlreadyExists : error → bool;
  IsConflict : error → bool;
}.

Class ErrorLaws `{ErrorLib} : Prop := {
  (** [WithStackIf] leaves an error that already carries a stack trace alone. *)
  WithStackIf_traced e : hasStackTrace e = true → WithStackIf e = e;
  (** [WrapIf] annotates: the root of the chain stays the same. *)
  Cause_WrapIf e m : Cause (WrapIf e m) = Cause e;
  Cause_sentinel s : Cause (sentinel s) = sentinel s;
  (** The status predicates read the reason of an API status error. *)
  IsNotFound_status r m : IsNotFound (StatusError r m) = bool_decide (r = NotFound);
  IsConflict_status r m : IsConflict (StatusError r m) = bool_decide (r = Conflict);
  IsAlreadyExists_status r m :
    IsAlreadyExists (StatusError r m) = bool_decide (r = AlreadyExists);
}.

(** [err.Error()]. *)
Fixpoint error_Error `{ErrorLib} (err : error) : string :=
  match err with
  | errorString msg => msg
  | sentinel s => Sentinel_text s
  | StatusError _ msg => msg
  | UnknownProviderError => "unknown provider"
  | UnknownDistributionError => "unknown distribution"
  | permanentError e => error_Error e
  | annotated text e => annotation_text text (error_Error e)
  | combined e1 e2 => annotation_text (error_Error e1) (error_Error e2)
  end.

(** [errors.Wrap] of nil is nil. *)
Definition Wrap_opt `{ErrorLib} (e : option error) (m : string) : option error :=
  (λ e, Wrap e m) <$> e.
(** [errors.Combine]: nil without errors. *)
Definition Combine `{ErrorLib} (l : list error) : option error :=
  foldl (λ acc e, Some (Append acc e)) None l.

Lemma Combine_cons `{ErrorLib} e l : is_Some (Combine (e :: l)).
Proof.
  unfold Combine. simpl. generalize (Append None e). induction l as [|e' l IH]; intros acc; simpl; eauto.
Qed.

(** ** A concrete pair of libraries, for evaluation on examples *)

Fixpoint chain_Cause (e : error) : error :=
  match e with
  | permanentError e' | annotated _ e' => chain_Cause e'
  | _ => e
  end.

Fixpoint chain_reason (e : error) : option StatusReason :=
  match e with
  | StatusError r _ => Some r
  | permanentError e' | annotated _ e' => chain_reason e'
  | _ => None
  end.

Fixpoint chain_traced (e : error) : bool :=
  match e with
  | permanentError _ => true
  | annotated t e' => bool_decide (t = "stack") || chain_traced e'
  | _ => false
  end.

Definition chain_stack (e : error) : error :=
  if chain_traced e then e else annotated "stack" e.

Definition chain_lib : ErrorLib := {|
  WrapIf e m := chain_stack (annotated m e);
  Wrap e m := annotated "stack" (annotated m e);
  WithStackIf := chain_stack;
  WithStack := annotated "stack";
  WithDetails e _ := annotated "details" e;
  Append es e := match es with Some es => combined es e | None => e end;
  Cause := chain_Cause;
  annotation_text m t := (m ++ ": " ++ t)%string;
  IsNotFound e := bool_decide (chain_reason e = Some NotFound);
  IsAlreadyExists e := bool_decide (chain_reason e = Some AlreadyExists);
  IsConflict e := bool_decide (chain_reason e = Some Conflict);
|}.

Lemma chain_laws : @ErrorLaws chain_lib.
Proof.
  split; simpl; try (intros; apply bool_decide_ext; naive_solver).
  - by intros [].
  - intros e m. unfold chain_stack. by case_match.
  - done.
Qed.

(** ** Facts *)

Section error_facts.
Context `{EL : ErrorLib} `{!ErrorLaws}.

Lemma WithStackIf_permanent e :
  WithStackIf (WrapAsPermanentError e) = WrapAsPermanentError e.
Proof. by apply WithStackIf_traced. Qed.
End error_facts.

(** The loop of [StackTrace] copies the slice. *)
Lemma copy_loop (s f : list Z) k n :
  length f = length s → k + n = length s →
  foldl (λ f i, <[i := default 0%Z (s !! i)]> f) f (seq k n) = (take k f ++ drop k s)%list.
Proof.
  revert k f. induction n as [|n IH]; intros k f Hl Hk; simpl.
  - rewrite drop_ge, app_nil_r, take_ge by lia. done.
  - rewrite IH by (rewrite ?length_insert; lia).
    destruct (lookup_lt_is_Some_2 s k) as [x Hx]; [lia|]. rewrite Hx. simpl.
    rewrite (drop_S s x k) by done.
    rewrite (take_S_r _ _ x) by (apply list_lookup_insert_eq; lia).
    by rewrite take_insert_ge, <-app_assoc by lia.
Qed.

(** A permanent error carries at most 32 frames, those of its creator first. *)
Lemma stack_trace_of_callers frames depth :
  StackTrace (callers frames depth) = take maxDepth (drop (2 + depth) frames)
  ∧ length (StackTrace (callers frames depth)) ≤ maxDepth.
Proof.
  assert (∀ s, StackTrace s = s) as Hid.
  { intros s. unfold StackTrace. rewrite (copy_loop s) by (rewrite ?length_replicate; lia). done. }
  rewrite Hid. split; [done|]. unfold callers. rewrite length_take. lia.
Qed.
