(* ===== verification/Types.v ===== *)
(** * API types

    The data model: api/v1alpha1 (Cluster, ClusterFeature, ResourceSyncRule), the
    Kubernetes object metadata the controllers read and write, and
    internal/config. Go string types are strings and their constants the
    constants of the source; a nil map, slice or pointer is the empty map, the
    empty list or [None]. *)

From stdpp Require Import gmap strings list.
From S2P Require Import Prelude.
Open Scope string_scope.

(** ** Kubernetes objects *)

(** The zero time is [None]. *)
Abbreviation Time := (option Z).

Record NamespacedName := mkNamespacedName { nn_Name : string; nn_Namespace : string }.

#[export] Instance NamespacedName_eq_dec : EqDecision NamespacedName.
Proof. solve_decision. Defined.
#[export] Instance NamespacedName_countable : Countable NamespacedName.
Proof.
  refine (inj_countable' (λ n, (nn_Name n, nn_Namespace n))
            (λ p, mkNamespacedName p.1 p.2) _). by intros [].
Defined.

(** [types.NamespacedName.String()]: namespace, separator, name. *)
Definition NamespacedName_String (n : NamespacedName) : string :=
  nn_Namespace n ++ "/" ++ nn_Name n.

Record GroupVersionKind := mkGVK { Group : string; Version : string; Kind : string }.

#[export] Instance GroupVersionKind_eq_dec : EqDecision GroupVersionKind.
Proof. solve_decision. Defined.
#[export] Instance GroupVersionKind_countable : Countable GroupVersionKind.
Proof.
  refine (inj_countable' (λ g, (Group g, Version g, Kind g))
            (λ p, mkGVK p.1.1 p.1.2 p.2) _). by intros [].
Defined.

Definition GVK_zero : GroupVersionKind := mkGVK "" "" "".

(** [schema.GroupVersionKind.Empty]. *)
Definition GVK_Empty (g : GroupVersionKind) : bool := bool_decide (g = GVK_zero).

(** JSON values: the part of an object outside its type and its metadata. *)
#[warnings="-register-all"]
Inductive json : Set :=
| JNull | JBool (b : bool) | JNum (z : Z) | JStr (s : string)
| JArr (l : list json) | JObj (l : list (string * json)).

Record ObjectMeta := mkObjectMeta {
  om_Name : string;
  om_Namespace : string;
  om_UID : string;
  om_ResourceVersion : string;
  om_Generation : Z;
  om_SelfLink : string;
  om_CreationTimestamp : Time;
  om_DeletionTimestamp : Time;
  om_Labels : gmap string string;
  om_Annotations : gmap string string;
  om_Finalizers : list string;
  om_OwnerReferences : list string;
  om_ManagedFields : list string;
}.

(** A [client.Object]: what [runtime.Object] and [metav1.Object] give access to.
    [obj_type] is the kind of its Go type, [None] for [unstructured.Unstructured];
    [obj_gvk] is what its type meta says. *)
Record Object := mkObject {
  obj_type : option GroupVersionKind;
  obj_gvk : GroupVersionKind;
  obj_meta : ObjectMeta;
  obj_body : json;
  obj_status : json;
}.

Definition obj_key (o : Object) : NamespacedName :=
  mkNamespacedName (om_Name (obj_meta o)) (om_Namespace (obj_meta o)).

Definition set_gvk (g : GroupVersionKind) (o : Object) : Object :=
  mkObject (obj_type o) g (obj_meta o) (obj_body o) (obj_status o).
Definition set_meta (m : ObjectMeta) (o : Object) : Object :=
  mkObject (obj_type o) (obj_gvk o) m (obj_body o) (obj_status o).
Definition with_labels (l : gmap string string) (m : ObjectMeta) : ObjectMeta :=
  mkObjectMeta (om_Name m) (om_Namespace m) (om_UID m) (om_ResourceVersion m)
    (om_Generation m) (om_SelfLink m) (om_CreationTimestamp m) (om_DeletionTimestamp m)
    l (om_Annotations m) (om_Finalizers m) (om_OwnerReferences m) (om_ManagedFields m).
Definition with_annotations (a : gmap string string) (m : ObjectMeta) : ObjectMeta :=
  mkObjectMeta (om_Name m) (om_Namespace m) (om_UID m) (om_ResourceVersion m)
    (om_Generation m) (om_SelfLink m) (om_CreationTimestamp m) (om_DeletionTimestamp m)
    (om_Labels m) a (om_Finalizers m) (om_OwnerReferences m) (om_ManagedFields m).
Definition with_resource_version (rv : string) (m : ObjectMeta) : ObjectMeta :=
  mkObjectMeta (om_Name m) (om_Namespace m) (om_UID m) rv
    (om_Generation m) (om_SelfLink m) (om_CreationTimestamp m) (om_DeletionTimestamp m)
    (om_Labels m) (om_Annotations m) (om_Finalizers m) (om_OwnerReferences m)
    (om_ManagedFields m).

(** [apiutil.GVKForObject]: the kind a client uses for an object. *)
Definition GVKForObject (o : Object) : GroupVersionKind := default (obj_gvk o) (obj_type o).
Definition with_type (t : option GroupVersionKind) (o : Object) : Object :=
  mkObject t (obj_gvk o) (obj_meta o) (obj_body o) (obj_status o).

Definition obj_labels (o : Object) : gmap string string := om_Labels (obj_meta o).
Definition obj_annotations (o : Object) : gmap string string := om_Annotations (obj_meta o).
Definition SetLabels (l : gmap string string) (o : Object) : Object :=
  set_meta (with_labels l (obj_meta o)) o.
Definition SetResourceVersion (rv : string) (o : Object) : Object :=
  set_meta (with_resource_version rv (obj_meta o)) o.

(** Metadata with a name and a namespace and nothing else. *)
Definition named_meta (name ns : string) : ObjectMeta :=
  mkObjectMeta name ns "" "" 0 "" None None ∅ ∅ [] [] [].

(** ** Label selectors (metav1) *)

Record LabelSelectorRequirement := mkLabelSelectorRequirement {
  lsr_Key : string; lsr_Operator : string; lsr_Values : list string }.

Record LabelSelector := mkLabelSelector {
  ls_MatchLabels : gmap string string;
  ls_MatchExpressions : list LabelSelectorRequirement }.

(** ** api/v1alpha1/cluster_types.go *)

Definition SecretTypeClusterRegistry : string := "k8s.cisco.com/cluster-registry-secret".
Definition KubeconfigKey : string := "kubeconfig".

Record AuthInfo := mkAuthInfo { SecretRef : NamespacedName }.

Record KubernetesAPIEndpoint := mkKubernetesAPIEndpoint {
  ClientNetwork : string;
  ServerAddress : string;
  CABundle : string }.

Record ClusterSpec := mkClusterSpec {
  ClusterID : string;
  cs_AuthInfo : AuthInfo;
  KubernetesAPIEndpoints : list KubernetesAPIEndpoint }.

Record Locality := mkLocality {
  Region : string; Regions : list string; Zones : list string }.

Record ClusterMetadata := mkClusterMetadata {
  Provider : string;
  Distribution : string;
  KubeProxyVersions : list string;
  KubeletVersions : list string;
  md_Version : string;
  md_Locality : option Locality }.

Definition ClusterMetadata_zero : ClusterMetadata := mkClusterMetadata "" "" [] [] "" None.

Definition ClusterTypeLocal : string := "Local".
Definition ClusterTypePeer : string := "Peer".

Definition ClusterStateReady : string := "Ready".
Definition ClusterStateFailed : string := "Failed".
Definition ClusterStateDisabled : string := "Disabled".
Definition ClusterStateMissingAuthInfo : string := "MissingAuthInfo".
Definition ClusterStateInvalidAuthInfo : string := "InvalidAuthInfo".

Definition ClusterConditionTypeLocalCluster : string := "LocalCluster".
Definition ClusterConditionTypeLocalConflict : string := "LocalConflict".
Definition ClusterConditionTypeClusterMetadata : string := "ClusterMetadataSet".
Definition ClusterConditionTypeReady : string := "Ready".
Definition ClusterConditionTypeClustersSynced : string := "ClustersSynced".

Definition ConditionTrue : string := "True".
Definition ConditionFalse : string := "False".
Definition ConditionUnknown : string := "Unknown".

Record ClusterCondition := mkClusterCondition {
  cc_Type : string;
  cc_Status : string;
  LastHeartbeatTime : Time;
  LastTransitionTime : Time;
  Reason : string;
  cc_Message : string;
  TrueIsFailure : bool }.

Definition ClusterCondition_zero : ClusterCondition :=
  mkClusterCondition "" "" None None "" "" false.

Record ClusterStatus := mkClusterStatus {
  State : string;
  cst_Message : string;
  cst_Type : string;
  Leader : bool;
  cst_ClusterMetadata : ClusterMetadata;
  Conditions : list ClusterCondition }.

(** [ClusterStatus.Reset]: a fresh peer status that keeps only the conditions. *)
Definition ClusterStatus_Reset (s : ClusterStatus) : ClusterStatus := {|
  State := ClusterStateReady;
  cst_Message := "";
  cst_Type := ClusterTypePeer;
  Leader := false;
  cst_ClusterMetadata := ClusterMetadata_zero;
  Conditions := Conditions s;
|}.

Record Cluster := mkCluster {
  cl_meta : ObjectMeta;
  cl_Spec : ClusterSpec;
  cl_Status : ClusterStatus }.

Definition cl_Name (c : Cluster) : string := om_Name (cl_meta c).
Definition cl_UID (c : Cluster) : string := om_UID (cl_meta c).

Definition with_status (s : ClusterStatus) (c : Cluster) : Cluster :=
  mkCluster (cl_meta c) (cl_Spec c) s.
Definition status_set_State (v : string) (s : ClusterStatus) : ClusterStatus :=
  mkClusterStatus v (cst_Message s) (cst_Type s) (Leader s) (cst_ClusterMetadata s) (Conditions s).
Definition status_set_Message (v : string) (s : ClusterStatus) : ClusterStatus :=
  mkClusterStatus (State s) v (cst_Type s) (Leader s) (cst_ClusterMetadata s) (Conditions s).
Definition status_set_Type (v : string) (s : ClusterStatus) : ClusterStatus :=
  mkClusterStatus (State s) (cst_Message s) v (Leader s) (cst_ClusterMetadata s) (Conditions s).
Definition status_set_Metadata (v : ClusterMetadata) (s : ClusterStatus) : ClusterStatus :=
  mkClusterStatus (State s) (cst_Message s) (cst_Type s) (Leader s) v (Conditions s).
Definition status_set_Conditions (v : list ClusterCondition) (s : ClusterStatus) : ClusterStatus :=
  mkClusterStatus (State s) (cst_Message s) (cst_Type s) (Leader s) (cst_ClusterMetadata s) v.

(** ** api/v1alpha1/cluster_feature_types.go *)

Record ClusterFeatureCR := mkClusterFeatureCR {
  cf_meta : ObjectMeta;
  cf_FeatureName : string }.

(** ** api/v1alpha1/resourcesyncrule_types.go *)

Definition OwnershipAnnotation : string := "cluster-registry.k8s.cisco.com/resource-owner-cluster-id".
Definition OriginalGVKAnnotation : string := "cluster-registry.k8s.cisco.com/original-group-version-kind".
Definition ClusterDisabledAnnotation : string := "cluster-registry.k8s.cisco.com/cluster-disabled".
Definition SyncDisabledAnnotation : string := "cluster-registry.k8s.cisco.com/resource-sync-disabled".

Record ClusterFeatureMatch := mkClusterFeatureMatch {
  FeatureName : string;
  cfm_MatchLabels : gmap string string;
  cfm_MatchExpressions : list LabelSelectorRequirement }.

(** [AnnotationMutations] and [LabelMutations] have the same fields. *)
Record MetaMutations := mkMetaMutations {
  Add : gmap string string; Remove : list string }.

Definition MetaMutations_zero : MetaMutations := mkMetaMutations ∅ [].

(** [resources.K8SResourceOverlayPatch] of operator-tools. *)
Record OverlayPatch := mkOverlayPatch {
  op_Path : option string; op_Value : option string; op_Type : string; op_ParseValue : bool }.

Record Mutations := mkMutations {
  mut_Annotations : option MetaMutations;
  mut_GVK : option GroupVersionKind;
  mut_Labels : option MetaMutations;
  Overrides : list OverlayPatch;
  SyncStatus : bool }.

Definition Mutations_GetGVK (m : Mutations) : GroupVersionKind :=
  match mut_GVK m with Some g => g | None => GVK_zero end.
Definition Mutations_GetAnnotations (m : Mutations) : MetaMutations :=
  match mut_Annotations m with Some a => a | None => MetaMutations_zero end.
Definition Mutations_GetLabels (m : Mutations) : MetaMutations :=
  match mut_Labels m with Some a => a | None => MetaMutations_zero end.

Record AnnotationSelectorRequirement := mkAnnotationSelectorRequirement {
  asr_Key : string; asr_Operator : string; asr_Values : list string }.

Record AnnotationSelector := mkAnnotationSelector {
  MatchAnnotations : gmap string string;
  as_MatchExpressions : list AnnotationSelectorRequirement }.

(** [intstr.IntOrString]: the tag is 0 for an integer, 1 for a string. *)
Definition intstr_Int : Z := 0.
Definition intstr_String : Z := 1.
Record IntOrString := mkIntOrString { ios_Type : Z; IntVal : Z; StrVal : string }.
Definition intstr_FromString (s : string) : IntOrString := mkIntOrString intstr_String 0 s.

Record ContentSelector := mkContentSelector { content_Key : string; content_Value : IntOrString }.

Record SyncRuleMatch := mkSyncRuleMatch {
  srm_Annotations : list AnnotationSelector;
  srm_Content : list ContentSelector;
  srm_Labels : list LabelSelector;
  srm_Namespaces : list string;
  srm_ObjectKey : NamespacedName }.

Record SyncRule := mkSyncRule {
  Matches : list SyncRuleMatch;
  sr_Mutations : Mutations }.

Record ResourceSyncRuleSpec := mkResourceSyncRuleSpec {
  ClusterFeatureMatches : list ClusterFeatureMatch;
  rss_GVK : GroupVersionKind;
  Rules : list SyncRule }.

Record ResourceSyncRule := mkResourceSyncRule {
  rsr_meta : ObjectMeta;
  rsr_Spec : ResourceSyncRuleSpec }.

(** ** internal/config/config.go *)

Record ClusterValidatorWebhook := mkClusterValidatorWebhook {
  Enabled : bool; CertificateDirectory : string; cvw_Name : string; Port : Z }.
Record ClusterController := mkClusterController {
  cc_WorkerCount : Z; RefreshIntervalSeconds : Z }.
Record SyncControllerRateLimit := mkSyncControllerRateLimit {
  MaxKeys : Z; MaxRatePerSecond : Z; MaxBurst : Z }.
Record SyncController := mkSyncController {
  sc_WorkerCount : Z; RateLimit : SyncControllerRateLimit }.

Record LeaderElection := mkLeaderElection {
  le_Enabled : bool; le_Name : string; le_Namespace : string }.
Definition LogFormatConsole : string := "console".
Definition LogFormatJSON : string := "json".
Record Logging := mkLogging { Verbosity : Z; Format : string }.

Record Configuration := mkConfiguration {
  MetricsAddr : string;
  HealthAddr : string;
  cfg_LeaderElection : LeaderElection;
  cfg_Logging : Logging;
  cfg_ClusterController : ClusterController;
  cfg_SyncController : SyncController;
  cfg_Namespace : string;
  ProvisionLocalCluster : string;
  ManageLocalClusterSecret : bool;
  ReaderServiceAccountName : string;
  NetworkName : string;
  APIServerEndpointAddress : string;
  CoreResourcesSourceEnabled : bool;
  cfg_ClusterValidatorWebhook : ClusterValidatorWebhook }.

(** ** Requests and results of a reconciliation (controller-runtime) *)

Abbreviation Request := NamespacedName.

Record Result := mkResult { Requeue : bool; RequeueAfter : Z }.
Definition Result_zero : Result := mkResult false 0.

(** Durations are nanoseconds. *)
Definition time_Second : Z := 1000000000.
