(* ===== verification/Match.v ===== *)
(** * Matching objects against sync rules

    api/v1alpha1/resourcesyncrule_match.go: which objects a [ResourceSyncRule]
    selects, and how the mutations of the selected rules are combined. *)

From stdpp Require Import gmap strings list.
From S2P Require Import Prelude Errors Types.
Open Scope string_scope.

(** ** Libraries the matcher calls *)

(** [metav1.LabelSelectorAsSelector] followed by [Matches]: a selector is either
    invalid or a predicate on label sets. *)
Class SelectorLib : Type := {
  LabelSelectorAsSelector : LabelSelector → result error (gmap string string → bool) }.

(** A selector library for concrete runs: it knows required labels, and refuses
    every expression. *)
Definition subset_selectors : SelectorLib := {|
  LabelSelectorAsSelector s :=
    match ls_MatchExpressions s with
    | [] => Ok (λ lbls, bool_decide (ls_MatchLabels s ⊆ lbls))
    | _ :: _ => Err (errorString "invalid label selector")
    end |}.

(** The parts of a [gjson.Result] the matcher reads. *)
Record gjson_Result := mkGjson { res_Exists : bool; res_Int : Z; res_String : string }.

(** [encoding/json] on a Kubernetes object, and [gjson.GetBytes]. *)
Class ContentLib : Type := {
  json_Marshal : Object → result error string;
  gjson_GetBytes : string → string → gjson_Result }.

(** ** Matching *)

Section matching.
Context `{SelectorLib, ContentLib}.

(** The label selectors: the loop stops at the first selector that matches. *)
Fixpoint match_labels (sels : list LabelSelector) (lbls : gmap string string)
    : result error bool :=
  match sels with
  | [] => Ok false
  | s :: sels' =>
      match LabelSelectorAsSelector s with
      | Err e => Err e
      | Ok matcher => if matcher lbls then Ok true else match_labels sels' lbls
      end
  end.

Definition AnnotationSelector_convertMatchExpressions (s : AnnotationSelector)
    : list LabelSelectorRequirement :=
  (λ r, mkLabelSelectorRequirement (asr_Key r) (asr_Operator r) (asr_Values r))
    <$> as_MatchExpressions s.

(** The annotation selectors: every selector is looked at, also after a match. *)
Fixpoint match_annotations (found : bool) (sels : list AnnotationSelector)
    (anns : gmap string string) : result error bool :=
  match sels with
  | [] => Ok found
  | s :: sels' =>
      match LabelSelectorAsSelector
              (mkLabelSelector (MatchAnnotations s)
                 (AnnotationSelector_convertMatchExpressions s)) with
      | Err e => Err e
      | Ok matcher => match_annotations (found || matcher anns) sels' anns
      end
  end.

(** One content selector on the marshalled object. *)
Definition content_ok (j : string) (c : ContentSelector) : bool :=
  let res := gjson_GetBytes j (content_Key c) in
  if negb (res_Exists res) then false
  else if bool_decide (ios_Type (content_Value c) = intstr_Int) then
    bool_decide (res_Int res = IntVal (content_Value c))
  else if bool_decide (ios_Type (content_Value c) = intstr_String) then
    bool_decide (res_String res = StrVal (content_Value c))
  else true.

Fixpoint match_content (j : string) (cs : list ContentSelector) : bool :=
  match cs with
  | [] => true
  | c :: cs' => if content_ok j c then match_content j cs' else false
  end.

(** [SyncRuleMatch.Match]. [meta.Accessor] cannot fail here: its argument is a
    [client.Object] at every call. *)
Definition SyncRuleMatch_Match (m : SyncRuleMatch) (obj : Object) : result error bool :=
  let name := om_Name (obj_meta obj) in
  let ns := om_Namespace (obj_meta obj) in
  if bool_decide (nn_Name (srm_ObjectKey m) ≠ "") && bool_decide (nn_Name (srm_ObjectKey m) ≠ name)
  then Ok false else
  if bool_decide (nn_Namespace (srm_ObjectKey m) ≠ "") && bool_decide (nn_Namespace (srm_ObjectKey m) ≠ ns)
  then Ok false else
  if nonempty (srm_Namespaces m) && bool_decide (ns ≠ "")
       && negb (existsb (λ n, bool_decide (ns = n)) (srm_Namespaces m))
  then Ok false else
  match (if nonempty (srm_Labels m) then match_labels (srm_Labels m) (obj_labels obj) else Ok true) with
  | Err e => Err e
  | Ok false => Ok false
  | Ok true =>
      match (if nonempty (srm_Annotations m)
             then match_annotations false (srm_Annotations m) (obj_annotations obj) else Ok true) with
      | Err e => Err e
      | Ok false => Ok false
      | Ok true =>
          if nonempty (srm_Content m) then
            match json_Marshal obj with
            | Err e => Err e
            | Ok j => Ok (match_content j (srm_Content m))
            end
          else Ok true
      end
  end.

(** [SyncRule.Match]: a rule without matches selects everything, otherwise the
    first match that holds decides. *)
Fixpoint any_match (ms : list SyncRuleMatch) (obj : Object) : result error bool :=
  match ms with
  | [] => Ok false
  | m :: ms' =>
      match SyncRuleMatch_Match m obj with
      | Ok true => Ok true
      | Err e => Err e
      | Ok false => any_match ms' obj
      end
  end.

Definition SyncRule_Match (r : SyncRule) (obj : Object) : result error bool :=
  match Matches r with
  | [] => Ok true
  | ms => any_match ms obj
  end.

(** [ResourceSyncRuleSpec.Match] returns the flag, the rules matched so far and
    the error, all three. *)
Record MatchOutcome := mkMatchOutcome {
  mo_ok : bool; mo_rules : list SyncRule; mo_err : option error }.

Fixpoint match_rules (rules : list SyncRule) (obj : Object) (acc : list SyncRule)
    : MatchOutcome :=
  match rules with
  | [] => mkMatchOutcome (nonempty acc) acc None
  | rule :: rules' =>
      match SyncRule_Match rule obj with
      | Err e => mkMatchOutcome false acc (Some e)
      | Ok true => match_rules rules' obj (acc ++ [rule])
      | Ok false => match_rules rules' obj acc
      end
  end.

Definition ResourceSyncRuleSpec_Match (r : ResourceSyncRuleSpec) (obj : Object)
    : MatchOutcome :=
  if bool_decide (obj_gvk obj ≠ rss_GVK r) then mkMatchOutcome false [] None
  else match_rules (Rules r) obj [].

Definition ResourceSyncRule_Match (s : ResourceSyncRule) (obj : Object) : MatchOutcome :=
  ResourceSyncRuleSpec_Match (rsr_Spec s) obj.
End matching.

(** ** Combining the mutations of the matched rules *)

(** Overwrite the fields the mutation names. *)
Definition override_gvk (m gvk : GroupVersionKind) : GroupVersionKind :=
  mkGVK (if bool_decide (Group m ≠ "") then Group m else Group gvk)
        (if bool_decide (Version m ≠ "") then Version m else Version gvk)
        (if bool_decide (Kind m ≠ "") then Kind m else Kind gvk).

Definition MatchedRules_GetMutatedGVK (r : list SyncRule) (gvk : GroupVersionKind)
    : bool * GroupVersionKind :=
  foldl (λ '(mutated, gvk) rule,
           let mGVK := Mutations_GetGVK (sr_Mutations rule) in
           if GVK_Empty mGVK then (mutated, gvk) else (true, override_gvk mGVK gvk))
        (false, gvk) r.

(** The accumulation loop shared by [GetMutationLabels] and [GetMutationAnnotations]. *)
Definition merge_mutations (get : Mutations → MetaMutations) (r : list SyncRule) : MetaMutations :=
  foldl (λ m rule,
           mkMetaMutations
             (range_insert (map_to_list (Add (get (sr_Mutations rule)))) (Add m))
             (Remove m ++ Remove (get (sr_Mutations rule)))%list)
        (mkMetaMutations ∅ []) r.

Definition MatchedRules_GetMutationLabels (r : list SyncRule) : MetaMutations :=
  merge_mutations Mutations_GetLabels r.

Definition MatchedRules_GetMutationAnnotations (r : list SyncRule) : MetaMutations :=
  merge_mutations Mutations_GetAnnotations r.

Definition MatchedRules_GetMutationOverrides (r : list SyncRule) : list OverlayPatch :=
  foldl (λ overrides rule, (overrides ++ Overrides (sr_Mutations rule))%list) [] r.

Fixpoint MatchedRules_GetMutationSyncStatus (r : list SyncRule) : bool :=
  match r with
  | [] => false
  | rule :: r' =>
      if SyncStatus (sr_Mutations rule) then true else MatchedRules_GetMutationSyncStatus r'
  end.

(** ** What a match selects, declaratively *)

Section selection.
Context `{SelectorLib, ContentLib}.

Definition annotation_label_selector (s : AnnotationSelector) : LabelSelector :=
  mkLabelSelector (MatchAnnotations s) (AnnotationSelector_convertMatchExpressions s).

Definition selector_holds (s : LabelSelector) (set : gmap string string) : Prop :=
  ∃ matcher, LabelSelectorAsSelector s = Ok matcher ∧ matcher set = true.

Definition selector_valid (s : LabelSelector) : Prop :=
  ∃ matcher, LabelSelectorAsSelector s = Ok matcher.

(** Reference meaning of one match: every criterion that is present holds; a
    list of selectors holds when one of them does, content selectors hold when
    all of them do, and the namespace list is no constraint on cluster-scoped
    objects. *)
Record selects (m : SyncRuleMatch) (obj : Object) : Prop := {
  sel_name : nn_Name (srm_ObjectKey m) = "" ∨ nn_Name (srm_ObjectKey m) = om_Name (obj_meta obj);
  sel_ns : nn_Namespace (srm_ObjectKey m) = ""
           ∨ nn_Namespace (srm_ObjectKey m) = om_Namespace (obj_meta obj);
  sel_namespaces : srm_Namespaces m = [] ∨ om_Namespace (obj_meta obj) = ""
                   ∨ om_Namespace (obj_meta obj) ∈ srm_Namespaces m;
  sel_labels : srm_Labels m = []
               ∨ Exists (λ s, selector_holds s (obj_labels obj)) (srm_Labels m);
  sel_annotations : srm_Annotations m = []
                    ∨ Exists (λ s, selector_holds (annotation_label_selector s) (obj_annotations obj))
                        (srm_Annotations m);
  sel_content : srm_Content m = []
                ∨ ∃ j, json_Marshal obj = Ok j ∧ Forall (λ c, content_ok j c = true) (srm_Content m) }.

(** The selectors parse and the object marshals. *)
Definition match_well_formed (m : SyncRuleMatch) (obj : Object) : Prop :=
  Forall selector_valid (srm_Labels m)
  ∧ Forall (λ s, selector_valid (annotation_label_selector s)) (srm_Annotations m)
  ∧ ∃ j, json_Marshal obj = Ok j.

(** *** The loops *)

Lemma match_labels_Ok sels set b :
  match_labels sels set = Ok b → b = true ↔ Exists (λ s, selector_holds s set) sels.
Proof.
  induction sels as [|s sels IH]; simpl; intros Hm; simplify_eq.
  { rewrite Exists_nil. done. }
  rewrite Exists_cons. destruct (LabelSelectorAsSelector s) as [f|e] eqn:Hs; [|done].
  assert (Hh : selector_holds s set ↔ f set = true).
  { unfold selector_holds. rewrite Hs. naive_solver. }
  rewrite Hh. destruct (f set) eqn:Hf; simplify_eq; [naive_solver|].
  rewrite (IH Hm). naive_solver.
Qed.

Lemma match_labels_total sels set :
  Forall selector_valid sels → ∃ b, match_labels sels set = Ok b.
Proof.
  induction 1 as [|s sels [f Hs] _ IH]; simpl; [by eauto|].
  rewrite Hs. destruct (f set); eauto.
Qed.

Lemma match_annotations_Ok found sels set b :
  match_annotations found sels set = Ok b →
  b = true ↔ found = true ∨ Exists (λ s, selector_holds (annotation_label_selector s) set) sels.
Proof.
  revert found. induction sels as [|s sels IH]; simpl; intros found Hm; simplify_eq.
  { rewrite Exists_nil. naive_solver. }
  rewrite Exists_cons. fold (annotation_label_selector s) in Hm.
  destruct (LabelSelectorAsSelector (annotation_label_selector s)) as [f|e] eqn:Hs; [|done].
  rewrite (IH _ Hm). unfold selector_holds at 2. rewrite Hs, orb_true_iff. naive_solver.
Qed.

Lemma match_annotations_total found sels set :
  Forall (λ s, selector_valid (annotation_label_selector s)) sels →
  ∃ b, match_annotations found sels set = Ok b.
Proof.
  intros Hv. revert found.
  induction Hv as [|s sels [f Hs] _ IH]; intros found; simpl; [by eauto|].
  fold (annotation_label_selector s). rewrite Hs. apply IH.
Qed.

Lemma match_content_Forall j cs :
  match_content j cs = true ↔ Forall (λ c, content_ok j c = true) cs.
Proof.
  induction cs as [|c cs IH]; simpl; [done|]. rewrite Forall_cons.
  destruct (content_ok j c); naive_solver.
Qed.

Lemma existsb_elem_of (n : string) ns :
  existsb (λ x, bool_decide (n = x)) ns = true ↔ n ∈ ns.
Proof.
  rewrite existsb_exists. setoid_rewrite bool_decide_eq_true.
  setoid_rewrite <-list_elem_of_In. naive_solver.
Qed.
End selection.

Section match_theorems.
Context `{SelectorLib, ContentLib}.

Lemma key_stage_reject (want have : string) :
  (bool_decide (want ≠ "") && bool_decide (want ≠ have)) = true ↔ ¬ (want = "" ∨ want = have).
Proof. rewrite andb_true_iff, !bool_decide_eq_true. naive_solver. Qed.

Lemma namespaces_stage_reject (nss : list string) (ns : string) :
  (nonempty nss && bool_decide (ns ≠ "") && negb (existsb (λ n, bool_decide (ns = n)) nss)) = true
  ↔ ¬ (nss = [] ∨ ns = "" ∨ ns ∈ nss).
Proof.
  rewrite !andb_true_iff, negb_true_iff, bool_decide_eq_true, <-not_true_iff_false, existsb_elem_of.
  destruct nss; simpl; naive_solver.
Qed.

Lemma labels_stage m obj b :
  (if nonempty (srm_Labels m) then match_labels (srm_Labels m) (obj_labels obj) else Ok true) = Ok b →
  b = true ↔ (srm_Labels m = [] ∨ Exists (λ s, selector_holds s (obj_labels obj)) (srm_Labels m)).
Proof.
  destruct (srm_Labels m) as [|s sels]; [simpl; naive_solver|].
  intros Hm. rewrite (match_labels_Ok _ _ _ Hm). naive_solver.
Qed.

Lemma annotations_stage m obj b :
  (if nonempty (srm_Annotations m)
   then match_annotations false (srm_Annotations m) (obj_annotations obj) else Ok true) = Ok b →
  b = true ↔ (srm_Annotations m = []
     ∨ Exists (λ s, selector_holds (annotation_label_selector s) (obj_annotations obj)) (srm_Annotations m)).
Proof.
  destruct (srm_Annotations m) as [|s sels]; [simpl; naive_solver|].
  intros Hm. rewrite (match_annotations_Ok _ _ _ _ Hm). naive_solver.
Qed.

Lemma content_stage m obj b :
  (if nonempty (srm_Content m) then
     match json_Marshal obj with Err e => Err e | Ok j => Ok (match_content j (srm_Content m)) end
   else Ok true) = Ok b →
  b = true ↔ (srm_Content m = []
     ∨ ∃ j, json_Marshal obj = Ok j ∧ Forall (λ c, content_ok j c = true) (srm_Content m)).
Proof.
  destruct (srm_Content m) as [|c cs]; [simpl; naive_solver|].
  destruct (json_Marshal obj) as [j|e]; [|done].
  generalize (match_content_Forall j (c :: cs)). generalize (match_content j (c :: cs)).
  intros b' Hb' [= <-]. rewrite Hb'. naive_solver.
Qed.

(** C25: the verdict of [SyncRuleMatch.Match] is the declarative selection, and no
    error is possible when the selectors are valid and the object marshals. *)
Theorem SyncRuleMatch_Match_correct m obj :
  (∀ b, SyncRuleMatch_Match m obj = Ok b → b = true ↔ selects m obj)
  ∧ (match_well_formed m obj → ∃ b, SyncRuleMatch_Match m obj = Ok b).
Proof.
  unfold SyncRuleMatch_Match. split.
  - intros b.
    destruct (_ && bool_decide (nn_Name _ ≠ _)) eqn:E1;
      [apply key_stage_reject in E1; intros [= <-]; split; [done|by intros []]|].
    destruct (_ && bool_decide (nn_Namespace _ ≠ _)) eqn:E2;
      [apply key_stage_reject in E2; intros [= <-]; split; [done|by intros []]|].
    destruct (nonempty (srm_Namespaces m) && _ && _) eqn:E3;
      [apply namespaces_stage_reject in E3; intros [= <-]; split; [done|by intros []]|].
    rewrite <-not_true_iff_false, key_stage_reject in E1, E2.
    rewrite <-not_true_iff_false, namespaces_stage_reject in E3.
    apply dec_stable in E1, E2, E3.
    destruct (if nonempty (srm_Labels m) then _ else _) as [bl|] eqn:E4; [|done].
    apply labels_stage in E4.
    destruct bl; [|intros [= <-]; split; [done|intros []; naive_solver]].
    destruct (if nonempty (srm_Annotations m) then _ else _) as [ba|] eqn:E5; [|done].
    apply annotations_stage in E5.
    destruct ba; [|intros [= <-]; split; [done|intros []; naive_solver]].
    intros E6%content_stage. rewrite E6. split; [|by intros []].
    intros ?. constructor; naive_solver.
  - intros (Hl & Ha & j & Hj). rewrite Hj.
    destruct (_ && _); [by eauto|]. destruct (_ && _); [by eauto|]. destruct (_ && _); [by eauto|].
    destruct (match_labels_total (srm_Labels m) (obj_labels obj) Hl) as [bl ->].
    destruct (match_annotations_total false (srm_Annotations m) (obj_annotations obj) Ha) as [ba ->].
    destruct (nonempty (srm_Labels m)), bl, (nonempty (srm_Annotations m)), ba, (nonempty (srm_Content m)); eauto.
Qed.

(** *** Rule lists *)

Definition rule_matched (obj : Object) (rule : SyncRule) : bool :=
  match SyncRule_Match rule obj with Ok b => b | Err _ => false end.

Lemma match_rules_ok rules obj acc :
  mo_err (match_rules rules obj acc) = None →
  mo_rules (match_rules rules obj acc)
  = (acc ++ List.filter (rule_matched obj) rules)%list
  ∧ mo_ok (match_rules rules obj acc) = nonempty (mo_rules (match_rules rules obj acc)).
Proof.
  revert acc. induction rules as [|rule rules IH]; intros acc; simpl.
  - by rewrite app_nil_r.
  - unfold rule_matched at 1. destruct (SyncRule_Match rule obj) as [[]|e]; simpl.
    + intros [-> ->]%IH. by rewrite <-app_assoc.
    + intros [-> ->]%IH. done.
    + done.
Qed.

Lemma match_rules_err rules obj acc :
  mo_err (match_rules rules obj acc) ≠ None → mo_ok (match_rules rules obj acc) = false.
Proof.
  revert acc. induction rules as [|rule rules IH]; intros acc; simpl; [done|].
  destruct (SyncRule_Match rule obj) as [[]|e]; naive_solver.
Qed.

(** The scan stops at the first rule that fails. *)
Lemma match_rules_stops pre rule post obj acc e :
  Forall (λ rule, ∃ b, SyncRule_Match rule obj = Ok b) pre → SyncRule_Match rule obj = Err e →
  match_rules (pre ++ rule :: post) obj acc
  = mkMatchOutcome false (acc ++ List.filter (rule_matched obj) pre)%list (Some e).
Proof.
  intros Hpre He. revert acc. induction Hpre as [|x pre [b Hb] _ IH]; intros acc; simpl.
  - by rewrite He, app_nil_r.
  - unfold rule_matched at 1. rewrite Hb. destruct b; rewrite IH; [by rewrite <-app_assoc|done].
Qed.

Lemma match_rules_verdicts rules obj acc :
  Forall (λ rule, ∃ b, SyncRule_Match rule obj = Ok b) rules → mo_err (match_rules rules obj acc) = None.
Proof.
  intros Hv. revert acc. induction Hv as [|x rules [b Hb] _ IH]; intros acc; simpl; [done|].
  rewrite Hb. by destruct b.
Qed.

(** A rule: the first of its matches that selects the object, or fails, decides. *)
Lemma any_match_decides pre m post obj :
  Forall (λ m, SyncRuleMatch_Match m obj = Ok false) pre → SyncRuleMatch_Match m obj ≠ Ok false →
  any_match (pre ++ m :: post) obj = SyncRuleMatch_Match m obj.
Proof.
  intros Hpre Hm. induction Hpre as [|x pre Hx _ IH]; simpl; [|by rewrite Hx].
  by destruct (SyncRuleMatch_Match m obj) as [[]|e].
Qed.

Lemma any_match_none ms obj :
  Forall (λ m, SyncRuleMatch_Match m obj = Ok false) ms → any_match ms obj = Ok false.
Proof. induction 1 as [|x ms Hx _ IH]; simpl; [done|by rewrite Hx]. Qed.

(** C24: [ResourceSyncRule.Match] scans the rules in order. An object of another kind
    matches nothing. When every rule gives a verdict, the outcome is the list of the
    rules that match, in the order of the specification, with the flag set when there
    is one, and no error. At the first rule that fails the scan stops: the outcome is
    that error, with the flag not set and the rules that matched before. A rule without
    matches selects every object; otherwise the first of its matches that does not say
    no decides, by its verdict or its error. *)
Theorem ResourceSyncRule_Match_correct s obj :
  let gives_verdict rule := ∃ b, SyncRule_Match rule obj = Ok b in
  (obj_gvk obj ≠ rss_GVK (rsr_Spec s) → ResourceSyncRule_Match s obj = mkMatchOutcome false [] None)
  ∧ (obj_gvk obj = rss_GVK (rsr_Spec s) →
      (Forall gives_verdict (Rules (rsr_Spec s)) →
        let matched := List.filter (rule_matched obj) (Rules (rsr_Spec s)) in
        ResourceSyncRule_Match s obj = mkMatchOutcome (nonempty matched) matched None)
      ∧ ∀ pre rule post e,
        Rules (rsr_Spec s) = (pre ++ rule :: post)%list → Forall gives_verdict pre → SyncRule_Match rule obj = Err e →
        ResourceSyncRule_Match s obj = mkMatchOutcome false (List.filter (rule_matched obj) pre) (Some e))
  ∧ ∀ rule,
      (Matches rule = [] → SyncRule_Match rule obj = Ok true)
      ∧ (Matches rule ≠ [] → Forall (λ m, SyncRuleMatch_Match m obj = Ok false) (Matches rule) →
         SyncRule_Match rule obj = Ok false)
      ∧ ∀ pre m post, Matches rule = (pre ++ m :: post)%list →
          Forall (λ m, SyncRuleMatch_Match m obj = Ok false) pre → SyncRuleMatch_Match m obj ≠ Ok false →
          SyncRule_Match rule obj = SyncRuleMatch_Match m obj.
Proof.
  simpl. unfold ResourceSyncRule_Match, ResourceSyncRuleSpec_Match. split_and!.
  - intros Hg. by rewrite bool_decide_true.
  - intros Hg. rewrite bool_decide_false by naive_solver. split.
    + intros Hv. pose proof (match_rules_verdicts _ _ [] Hv) as He.
      destruct (match_rules_ok _ _ _ He) as [Hr Hok]. rewrite Hr in Hok. simpl in *.
      destruct (match_rules _ obj []) as [ok rules err]. simpl in *. congruence.
    + intros pre rule post e -> Hpre He. by apply (match_rules_stops pre rule post obj []).
  - intros rule. unfold SyncRule_Match. split_and!.
    + by intros ->.
    + intros Hne Hall. destruct (Matches rule) as [|m ms]; [done|]. exact (any_match_none _ _ Hall).
    + intros pre m post Heq Hpre Hm. rewrite Heq. pose proof (any_match_decides pre m post obj Hpre Hm) as Hd.
      by destruct pre.
Qed.
End match_theorems.

(** ** Combined mutations *)

Definition rule_gvk (rule : SyncRule) : GroupVersionKind := Mutations_GetGVK (sr_Mutations rule).

(** The last non-empty value of a field, or the original one. *)
Definition last_set (f : GroupVersionKind → string) (r : list SyncRule) (dflt : string) : string :=
  foldl (λ acc rule, if bool_decide (f (rule_gvk rule) ≠ "") then f (rule_gvk rule) else acc) dflt r.

Lemma GVK_Empty_spec g : GVK_Empty g = true ↔ Group g = "" ∧ Version g = "" ∧ Kind g = "".
Proof.
  unfold GVK_Empty. rewrite bool_decide_eq_true. destruct g; simpl.
  unfold GVK_zero. naive_solver.
Qed.

Lemma override_gvk_Empty m gvk : GVK_Empty m = true → override_gvk m gvk = gvk.
Proof.
  intros (Hg & Hv & Hk)%GVK_Empty_spec. unfold override_gvk. rewrite Hg, Hv, Hk.
  by destruct gvk.
Qed.

Lemma GetMutatedGVK_app r1 r2 gvk :
  (MatchedRules_GetMutatedGVK (r1 ++ r2) gvk).2
  = (MatchedRules_GetMutatedGVK r2 (MatchedRules_GetMutatedGVK r1 gvk).2).2.
Proof.
  unfold MatchedRules_GetMutatedGVK. rewrite foldl_app.
  destruct (foldl _ (false, gvk) r1) as [b g]. simpl. revert b g.
  induction r2 as [|rule r2 IH]; intros b g; simpl; [done|].
  destruct (GVK_Empty _); [apply IH|]. rewrite IH. symmetry. apply IH.
Qed.

Lemma GetMutatedGVK_cons rule r gvk :
  (MatchedRules_GetMutatedGVK (rule :: r) gvk).2
  = (MatchedRules_GetMutatedGVK r (override_gvk (rule_gvk rule) gvk)).2.
Proof.
  change (rule :: r) with ([rule] ++ r)%list. rewrite GetMutatedGVK_app. f_equal. f_equal.
  unfold MatchedRules_GetMutatedGVK, rule_gvk. simpl.
  destruct (GVK_Empty _) eqn:E; [|done]. simpl. by rewrite override_gvk_Empty.
Qed.

Lemma GetMutatedGVK_fields r gvk :
  (MatchedRules_GetMutatedGVK r gvk).2
  = mkGVK (last_set Group r (Group gvk)) (last_set Version r (Version gvk))
          (last_set Kind r (Kind gvk)).
Proof.
  revert gvk. induction r as [|rule r IH]; intros gvk; [by destruct gvk|].
  rewrite GetMutatedGVK_cons, IH. unfold last_set, override_gvk. simpl. done.
Qed.

Lemma GetMutatedGVK_flag r gvk :
  (MatchedRules_GetMutatedGVK r gvk).1 = existsb (λ rule, negb (GVK_Empty (rule_gvk rule))) r.
Proof.
  unfold MatchedRules_GetMutatedGVK.
  assert (∀ b g, (foldl (λ '(mutated, gvk) rule,
           let mGVK := Mutations_GetGVK (sr_Mutations rule) in
           if GVK_Empty mGVK then (mutated, gvk) else (true, override_gvk mGVK gvk)) (b, g) r).1
         = b || existsb (λ rule, negb (GVK_Empty (rule_gvk rule))) r) as Hf; [|apply Hf].
  induction r as [|rule r IH]; intros b g; simpl; [by rewrite orb_false_r|].
  unfold rule_gvk. destruct (GVK_Empty _); simpl; rewrite IH; [done|]. by rewrite orb_true_r.
Qed.

Lemma GetMutatedGVK_unchanged r gvk :
  (MatchedRules_GetMutatedGVK r gvk).1 = false → (MatchedRules_GetMutatedGVK r gvk).2 = gvk.
Proof.
  rewrite GetMutatedGVK_flag. revert gvk. induction r as [|rule r IH]; intros gvk; simpl; [done|].
  intros [He%negb_false_iff Hr]%orb_false_iff. rewrite GetMutatedGVK_cons, override_gvk_Empty by done. by apply IH.
Qed.

Lemma last_set_nonempty f r d1 d2 :
  last_set f r d1 = last_set f r d2 ∨ (last_set f r d1 = d1 ∧ last_set f r d2 = d2).
Proof.
  revert d1 d2. induction r as [|rule r IH]; intros d1 d2; simpl; [by right|].
  unfold last_set in *. simpl. case_bool_decide; [by left|apply IH].
Qed.

Lemma last_set_idemp f r d : last_set f r (last_set f r d) = last_set f r d.
Proof. destruct (last_set_nonempty f r (last_set f r d) d) as [?|[? ?]]; done. Qed.

(** [GetMutatedGVK] takes, field by field, the last non-empty value that a
    matched rule sets and keeps the others; the flag says whether some rule sets
    one; applying it to its own result changes nothing. *)
Theorem GetMutatedGVK_last_wins r gvk :
  MatchedRules_GetMutatedGVK r gvk
  = (existsb (λ rule, negb (GVK_Empty (rule_gvk rule))) r,
     mkGVK (last_set Group r (Group gvk)) (last_set Version r (Version gvk))
           (last_set Kind r (Kind gvk)))
  ∧ MatchedRules_GetMutatedGVK r (MatchedRules_GetMutatedGVK r gvk).2
    = MatchedRules_GetMutatedGVK r gvk.
Proof.
  assert (Hall : ∀ g, MatchedRules_GetMutatedGVK r g
    = (existsb (λ rule, negb (GVK_Empty (rule_gvk rule))) r,
       mkGVK (last_set Group r (Group g)) (last_set Version r (Version g))
             (last_set Kind r (Kind g)))).
  { intros g. rewrite <-GetMutatedGVK_fields, <-(GetMutatedGVK_flag r g). by destruct (_ r g). }
  split; [apply Hall|]. rewrite !Hall. simpl. by rewrite !last_set_idemp.
Qed.

(** The merged additions and removals. *)
Lemma merge_mutations_snoc get r rule :
  merge_mutations get (r ++ [rule])
  = mkMetaMutations (Add (get (sr_Mutations rule)) ∪ Add (merge_mutations get r))
      (Remove (merge_mutations get r) ++ Remove (get (sr_Mutations rule))).
Proof.
  unfold merge_mutations. rewrite foldl_app. simpl.
  by rewrite (range_insert_order _ (Add (get (sr_Mutations rule)))).
Qed.

Lemma merge_mutations_Add get r k :
  Add (merge_mutations get r) !! k
  = foldl (λ acc rule, match Add (get (sr_Mutations rule)) !! k with Some v => Some v | None => acc end)
      None r.
Proof.
  induction r as [|rule r IH] using rev_ind; [done|].
  rewrite merge_mutations_snoc, foldl_app, <-IH. simpl. rewrite lookup_union.
  by destruct (Add (get (sr_Mutations rule)) !! k), (Add (merge_mutations get r) !! k).
Qed.

Lemma merge_mutations_Remove get r k :
  k ∈ Remove (merge_mutations get r) ↔ ∃ rule, rule ∈ r ∧ k ∈ Remove (get (sr_Mutations rule)).
Proof.
  induction r as [|rule r IH] using rev_ind; [set_solver|].
  rewrite merge_mutations_snoc. simpl. set_solver.
Qed.
