(* ===== verification/Util.v ===== *)
(** * Utilities

    pkg/util: the textual form of a group/version/kind (resources.go), the choice
    of the API endpoint of a cluster and the kubeconfig overrides (kubeconfig.go),
    and the execution of the templates in overlay patches
    (overlaypatchtemplate.go). *)

From Stdlib Require Import Ascii.
From stdpp Require Import gmap strings list.
From S2P Require Import Prelude Errors Types.
Open Scope string_scope.

(** ** resources.go *)

Definition GVKToString (gvk : GroupVersionKind) : string :=
  Kind gvk ++ "." ++ Group gvk ++ "/" ++ Version gvk.

(** [strings.ToLower] on ASCII text. *)
Definition ascii_ToLower (a : Ascii.ascii) : Ascii.ascii :=
  let n := Ascii.nat_of_ascii a in
  if bool_decide (65 ≤ n ≤ 90)%nat then Ascii.ascii_of_nat (n + 32) else a.
Fixpoint strings_ToLower (s : string) : string :=
  match s with
  | EmptyString => EmptyString
  | String a s' => String (ascii_ToLower a) (strings_ToLower s')
  end.

(** [strings.SplitN(s, sep, 2)] for a one-character separator: the parts before and
    after its first occurrence, or no second part. *)
Fixpoint split_first (sep : Ascii.ascii) (s : string) : option (string * string) :=
  match s with
  | EmptyString => None
  | String c s' =>
      if bool_decide (c = sep) then Some ("", s')
      else match split_first sep s' with
           | Some (a, b) => Some (String c a, b)
           | None => None
           end
  end.

Definition ParseGVKFromString (str : string) : option GroupVersionKind :=
  match split_first "."%char str with
  | None => None
  | Some (fp0, fp1) =>
      match split_first "/"%char fp1 with
      | None => None
      | Some (sp0, sp1) => Some (mkGVK sp0 sp1 fp0)
      end
  end.

(** ** kubeconfig.go *)

Definition KubernetesAPIEndpoint_zero : KubernetesAPIEndpoint := mkKubernetesAPIEndpoint "" "" "".

(** The loop of [GetEndpointForClusterByNetwork], with the endpoint chosen so far. *)
Fixpoint endpoint_loop (networkName : string) (endpoint : KubernetesAPIEndpoint)
    (l : list KubernetesAPIEndpoint) : KubernetesAPIEndpoint :=
  match l with
  | [] => endpoint
  | apiEndpoint :: l' =>
      if bool_decide (ClientNetwork apiEndpoint = networkName) then apiEndpoint
      else if bool_decide (ClientNetwork apiEndpoint = "") then endpoint_loop networkName apiEndpoint l'
      else endpoint_loop networkName endpoint l'
  end.

Definition GetEndpointForClusterByNetwork (cluster : Cluster) (networkName : string)
    : KubernetesAPIEndpoint :=
  endpoint_loop networkName KubernetesAPIEndpoint_zero (KubernetesAPIEndpoints (cl_Spec cluster)).

(** [strings.Contains(address, "//")]. *)
Fixpoint contains_slashes (s : string) : bool :=
  match s with
  | String c1 (String c2 _ as s') =>
      if bool_decide (c1 = "/"%char ∧ c2 = "/"%char) then true else contains_slashes s'
  | _ => false
  end.

(** A parsed [net/url.URL]: its scheme, and the rest as the package keeps it. *)
Record URL := mkURL { Scheme : string; url_rest : string }.

(** [net/url]: [Parse] and [URL.String]. *)
Class UrlLib : Type := {
  url_Parse : string → result error URL;
  url_String : URL → string }.

(** The fields of [clientcmd.ConfigOverrides] that are set. *)
Record ConfigOverrides := mkConfigOverrides {
  Server : string; CertificateAuthorityData : string }.
Definition ConfigOverrides_zero : ConfigOverrides := mkConfigOverrides "" "".

Section kubeconfig.
Context `{ErrorLib, UrlLib}.

Definition getURLWithHTTPSScheme (address : string) : result error string :=
  let address := if contains_slashes address then address else "//" ++ address in
  match url_Parse address with
  | Err e => Err e
  | Ok u =>
      let u := if bool_decide (Scheme u = "") then mkURL "https" (url_rest u) else u in
      Ok (url_String u)
  end.

Definition GetKubeconfigOverridesForClusterByNetwork (cluster : Cluster) (networkName : string)
    : result error ConfigOverrides :=
  let overrides := ConfigOverrides_zero in
  if negb (nonempty (KubernetesAPIEndpoints (cl_Spec cluster))) then Ok overrides else
  let endpoint := GetEndpointForClusterByNetwork cluster networkName in
  let withServer :=
    if bool_decide (ServerAddress endpoint ≠ "") then
      match getURLWithHTTPSScheme (ServerAddress endpoint) with
      | Err e => Err (WithStack e)
      | Ok address => Ok (mkConfigOverrides address (CertificateAuthorityData overrides))
      end
    else Ok overrides in
  match withServer with
  | Err e => Err e
  | Ok overrides =>
      if bool_decide (CABundle endpoint ≠ "")
      then Ok (mkConfigOverrides (Server overrides) (CABundle endpoint))
      else Ok overrides
  end.
End kubeconfig.

(** ** overlaypatchtemplate.go *)

(** [text/template] with the sprig functions: parse a text and execute it on a
    datum; and operator-tools' [PointerToString]. *)
Class TemplateLib (data : Type) : Type := {
  template_Parse : string → result error (data → result error string);
  PointerToString : option string → string }.

Section templates.
Context {data : Type} `{TemplateLib data}.

Definition K8SResourceOverlayPatchExecuteTemplate (patch : OverlayPatch) (d : data)
    : result error OverlayPatch :=
  let value := PointerToString (op_Value patch) in
  match template_Parse value with
  | Err e => Err e
  | Ok t =>
      match t d with
      | Err e => Err e
      | Ok out => Ok (mkOverlayPatch (op_Path patch) (Some out) (op_Type patch) (op_ParseValue patch))
      end
  end.

Fixpoint execute_loop (result_ : list OverlayPatch) (patches : list OverlayPatch) (d : data)
    : result error (list OverlayPatch) :=
  match patches with
  | [] => Ok result_
  | p :: patches' =>
      match K8SResourceOverlayPatchExecuteTemplate p d with
      | Err e => Err e
      | Ok p' => execute_loop (result_ ++ [p'])%list patches' d
      end
  end.

Definition K8SResourceOverlayPatchExecuteTemplates (patches : list OverlayPatch) (d : data)
    : result error (list OverlayPatch) :=
  execute_loop [] patches d.
End templates.

(** ** Round trip of the textual form *)

(** [sep] does not occur in [s]. *)
Definition char_free (sep : Ascii.ascii) (s : string) : Prop := split_first sep s = None.

Lemma split_first_app sep a b :
  char_free sep a → split_first sep (a ++ String sep b) = Some (a, b).
Proof.
  unfold char_free. induction a as [|c a IH]; simpl.
  - intros _. by rewrite bool_decide_true.
  - case_bool_decide; [done|]. destruct (split_first sep a) as [[]|]; [done|].
    intros _. by rewrite IH.
Qed.

Lemma split_first_sound sep s a b :
  split_first sep s = Some (a, b) → s = a ++ String sep b ∧ char_free sep a.
Proof.
  revert a b. induction s as [|c s IH]; intros a b; simpl; [done|].
  case_bool_decide as Hc; [intros [= <- <-]; by subst|].
  destruct (split_first sep s) as [[a' b']|]; [|done].
  intros [= <- <-]. destruct (IH a' b' eq_refl) as [-> Hf]. split; [done|].
  unfold char_free. simpl. rewrite bool_decide_false by done. by rewrite Hf.
Qed.

(** Printing a group/version/kind and parsing the text gives it back as soon as
    the kind has no dot and the group no slash; and whatever parses prints back to
    the text it came from. *)
Theorem GVK_round_trip gvk str :
  (char_free "."%char (Kind gvk) → char_free "/"%char (Group gvk) →
     ParseGVKFromString (GVKToString gvk) = Some gvk)
  ∧ (ParseGVKFromString str = Some gvk → GVKToString gvk = str).
Proof.
  unfold ParseGVKFromString, GVKToString. split.
  - intros Hk Hg. change ("." ++ Group gvk ++ "/" ++ Version gvk)
      with (String "."%char (Group gvk ++ String "/"%char (Version gvk))).
    rewrite split_first_app by done. rewrite split_first_app by done. by destruct gvk.
  - destruct (split_first "."%char str) as [[a b]|] eqn:E1; [|done].
    destruct (split_first "/"%char b) as [[c d]|] eqn:E2; [|done].
    intros [= <-]. apply split_first_sound in E1 as [-> _].
    apply split_first_sound in E2 as [-> _]. done.
Qed.

Lemma GVK_round_trip_witness :
  char_free "."%char "Deployment" ∧ char_free "/"%char "apps"
  ∧ ParseGVKFromString (GVKToString (mkGVK "apps" "v1" "Deployment"))
    = Some (mkGVK "apps" "v1" "Deployment").
Proof.
  split_and!; [reflexivity|reflexivity|].
  apply (GVK_round_trip (mkGVK "apps" "v1" "Deployment") ""); reflexivity.
Defined.

(** ** Endpoint choice *)

(** Reference: the first endpoint of the client's network; without one, the last
    endpoint that is not bound to a network; without one, the zero endpoint. *)
Definition endpoint_spec (networkName : string) (l : list KubernetesAPIEndpoint)
    : KubernetesAPIEndpoint :=
  match List.find (λ e, bool_decide (ClientNetwork e = networkName)) l with
  | Some e => e
  | None => default KubernetesAPIEndpoint_zero
              (last (List.filter (λ e, bool_decide (ClientNetwork e = "")) l))
  end.

Lemma endpoint_loop_spec networkName acc l :
  endpoint_loop networkName acc l
  = match List.find (λ e, bool_decide (ClientNetwork e = networkName)) l with
    | Some e => e
    | None => default acc (last (List.filter (λ e, bool_decide (ClientNetwork e = "")) l))
    end.
Proof.
  revert acc. induction l as [|e l IH]; intros acc; simpl; [done|].
  case_bool_decide; [done|]. case_bool_decide; rewrite IH; [|done].
  destruct (List.find _ l); [done|]. rewrite last_cons.
  by destruct (last _).
Qed.

(** [GetEndpointForClusterByNetwork] is the reference choice, and the override
    of the server address is never a network-specific endpoint of another network. *)
Theorem GetEndpointForClusterByNetwork_correct cluster networkName :
  let e := GetEndpointForClusterByNetwork cluster networkName in
  e = endpoint_spec networkName (KubernetesAPIEndpoints (cl_Spec cluster))
  ∧ (ClientNetwork e = networkName ∨ ClientNetwork e = "").
Proof.
  simpl. unfold GetEndpointForClusterByNetwork. rewrite endpoint_loop_spec. split; [done|].
  destruct (List.find _ _) as [e|] eqn:Hf.
  - apply find_some in Hf as [_ Hf]. left. by apply bool_decide_eq_true in Hf.
  - right. destruct (last _) as [e|] eqn:Hl; [|done]. simpl.
    apply last_Some_elem_of, list_elem_of_In, filter_In in Hl as [_ Hl].
    by apply bool_decide_eq_true in Hl.
Qed.

(** ** Template execution *)

Section template_facts.
Context {data : Type} `{TemplateLib data}.

Lemma execute_loop_spec acc patches d :
  execute_loop acc patches d
  = match execute_loop [] patches d with Ok l => Ok (acc ++ l)%list | Err e => Err e end.
Proof.
  revert acc. induction patches as [|p patches IH]; intros acc; simpl.
  { by rewrite app_nil_r. }
  destruct (K8SResourceOverlayPatchExecuteTemplate p d) as [p'|e]; [|done].
  rewrite IH. rewrite (IH [p']). destruct (execute_loop [] patches d); [|done].
  by rewrite <-app_assoc.
Qed.

(** Executing all templates is executing each: on success the patches keep
    their number, order, paths and types; the first failure is the failure. *)
Lemma execute_templates_Forall2 patches d out :
  K8SResourceOverlayPatchExecuteTemplates patches d = Ok out ↔
  Forall2 (λ p q, K8SResourceOverlayPatchExecuteTemplate p d = Ok q) patches out.
Proof.
  unfold K8SResourceOverlayPatchExecuteTemplates. revert out.
  induction patches as [|p patches IH]; intros out; simpl.
  { split; [intros [= <-]; constructor|by intros ->%Forall2_nil_inv_l]. }
  destruct (K8SResourceOverlayPatchExecuteTemplate p d) as [p'|e] eqn:Hp.
  - rewrite execute_loop_spec. split.
    + destruct (execute_loop [] patches d) as [l|]; [|done]. intros [= <-].
      constructor; [done|]. by apply IH.
    + intros (q & l & Hq & Hl & ->)%Forall2_cons_inv_l.
      apply IH in Hl. rewrite Hl. simpl. congruence.
  - split; [done|]. intros (q & l & Hq & _)%Forall2_cons_inv_l. congruence.
Qed.
End template_facts.
