(* ===== verification/Features.v ===== *)
(** * Cluster features

    pkg/clusters/cluster_features.go: the features a peer cluster advertises and
    the requirements a sync controller has on them. *)

From stdpp Require Import gmap strings list.
From S2P Require Import Prelude Errors Types Match.
Open Scope string_scope.

Record clusterFeature := mkClusterFeature {
  feature_UID : string;
  feature_Name : string;
  feature_Labels : gmap string string }.

Definition NewClusterFeature (uid name : string) (labels : gmap string string) : clusterFeature :=
  mkClusterFeature uid name labels.

Record ClusterFeatureRequirement := mkClusterFeatureRequirement {
  cfr_Name : string;
  cfr_MatchLabels : gmap string string;
  cfr_MatchExpressions : list LabelSelectorRequirement }.

Section features.
Context `{SelectorLib}.

(** [ClusterFeatureRequirement.Match], with the features in the order in which the
    map iteration visits them. *)
Fixpoint ClusterFeatureRequirement_Match_in (r : ClusterFeatureRequirement)
    (features : list clusterFeature) : bool :=
  match features with
  | [] => false
  | feature :: features' =>
      if bool_decide (cfr_Name r ≠ "") && bool_decide (cfr_Name r ≠ feature_Name feature)
      then ClusterFeatureRequirement_Match_in r features'
      else if bool_decide (size (cfr_MatchLabels r) = 0) && negb (nonempty (cfr_MatchExpressions r))
      then true
      else
        match LabelSelectorAsSelector (mkLabelSelector (cfr_MatchLabels r) (cfr_MatchExpressions r)) with
        | Err _ => false
        | Ok matcher =>
            if matcher (feature_Labels feature) then true
            else ClusterFeatureRequirement_Match_in r features'
        end
  end.

Definition ClusterFeatureRequirement_Match (r : ClusterFeatureRequirement)
    (features : gmap string clusterFeature) : bool :=
  ClusterFeatureRequirement_Match_in r (map_to_list features).*2.

(** ** Reference meaning *)

Definition requirement_selector (r : ClusterFeatureRequirement) : LabelSelector :=
  mkLabelSelector (cfr_MatchLabels r) (cfr_MatchExpressions r).

(** One feature meets a requirement. *)
Definition meets (r : ClusterFeatureRequirement) (f : clusterFeature) : Prop :=
  (cfr_Name r = "" ∨ cfr_Name r = feature_Name f)
  ∧ ((cfr_MatchLabels r = ∅ ∧ cfr_MatchExpressions r = [])
     ∨ selector_holds (requirement_selector r) (feature_Labels f)).

Lemma Match_in_Exists r fs :
  ClusterFeatureRequirement_Match_in r fs = true ↔ Exists (meets r) fs.
Proof.
  induction fs as [|f fs IH]; simpl; [by rewrite Exists_nil|].
  rewrite Exists_cons. unfold meets at 1.
  destruct (bool_decide _ && bool_decide (_ ≠ feature_Name f)) eqn:E.
  { apply key_stage_reject in E. rewrite IH. naive_solver. }
  rewrite <-not_true_iff_false, key_stage_reject in E. apply dec_stable in E.
  destruct (bool_decide (size _ = 0) && _) eqn:E2.
  { apply andb_true_iff in E2 as [E2 E3]. apply bool_decide_eq_true, map_size_empty_iff in E2.
    destruct (cfr_MatchExpressions r); naive_solver. }
  assert (Hsel : ¬ (cfr_MatchLabels r = ∅ ∧ cfr_MatchExpressions r = [])).
  { intros [Hl He]. rewrite Hl, He in E2. done. }
  fold (requirement_selector r). unfold selector_holds.
  destruct (LabelSelectorAsSelector (requirement_selector r)) as [matcher|e] eqn:Hm.
  - destruct (matcher (feature_Labels f)) eqn:Hf; [naive_solver|]. rewrite IH.
    split; [by right|]. intros [[_ [?|(m' & ? & ?)]]|?]; [by destruct Hsel|congruence|done].
  - split; [done|]. intros [[_ [?|(? & ? & _)]]|Hex]; [by destruct Hsel|done|].
    apply Exists_exists in Hex as (f' & _ & _ & [?|(? & ? & _)]); [by destruct Hsel|congruence].
Qed.

Lemma Match_features r (m : gmap string clusterFeature) :
  ClusterFeatureRequirement_Match r m = true ↔ ∃ uid f, m !! uid = Some f ∧ meets r f.
Proof.
  unfold ClusterFeatureRequirement_Match. rewrite Match_in_Exists, Exists_exists.
  setoid_rewrite list_elem_of_fmap. split.
  - intros (f & ([uid f'] & -> & Hin) & Hm). apply elem_of_map_to_list in Hin. eauto.
  - intros (uid & f & Hl & Hm). exists f. split; [|done].
    exists (uid, f). split; [done|]. by apply elem_of_map_to_list.
Qed.

(** Whether a requirement is met does not depend on the order in which the
    feature map is visited (an invalid selector included); it is met exactly when
    one feature meets it; and it stays met when features are added. *)
Theorem ClusterFeatureRequirement_Match_correct r (m : gmap string clusterFeature) :
  (∀ order, order ≡ₚ (map_to_list m).*2 →
     ClusterFeatureRequirement_Match_in r order = ClusterFeatureRequirement_Match r m)
  ∧ (ClusterFeatureRequirement_Match r m = true ↔ ∃ uid f, m !! uid = Some f ∧ meets r f)
  ∧ (∀ m', m ⊆ m' → ClusterFeatureRequirement_Match r m = true →
       ClusterFeatureRequirement_Match r m' = true).
Proof.
  split_and!.
  - intros order Ho. apply eq_true_iff_eq. unfold ClusterFeatureRequirement_Match.
    rewrite !Match_in_Exists. by rewrite Ho.
  - apply Match_features.
  - intros m' Hsub. rewrite !Match_features. intros (uid & f & Hl & Hm).
    exists uid, f. split; [by eapply lookup_weaken|done].
Qed.

(** The same facts, for use by the components. *)
Lemma Match_mono r (m m' : gmap string clusterFeature) :
  m ⊆ m' → ClusterFeatureRequirement_Match r m = true → ClusterFeatureRequirement_Match r m' = true.
Proof.
  intros Hsub. rewrite !Match_features. intros (uid & f & Hl & Hm).
  exists uid, f. split; [by eapply lookup_weaken|done].
Qed.
End features.
