(* ===== verification/Cluster.v ===== *)
(** * Peer clusters and their managed controllers

    pkg/clusters/cluster.go and the life cycle part of
    pkg/clusters/managed_controller.go. A [CWorld] holds one cluster ([RtCluster]), the
    controllers that its maps point to (a heap, since the same controller value is
    reached from the maps, from its own goroutines and from callers), the contexts
    and the goroutines. Each handler is a function on [CWorld]; the goroutines and
    the environment (API server, ticker) are the step relation [cluster_step]. *)

From stdpp Require Import gmap strings list relations.
From S2P Require Import Prelude Errors Types Match Features.
Open Scope string_scope.

(** ** Contexts

    A [context.Context] is the path of cancellation ids from itself to its root;
    it is done when one of them has been cancelled. *)
Abbreviation ctx := (list nat).

(** ** Controllers *)

(** What [GetReconciler] can return: a sync reconciler, which has a rule, or
    another reconciler. *)
Inductive ManagedReconciler :=
| SyncReconcilerOf (rule : ResourceSyncRule)
| OtherReconciler (name : string).

Record managedController := mkManagedController {
  mc_name : string;
  mc_reconciler : ManagedReconciler;
  ctrlContext : option ctx;
  ctrlContextCancel : option ctx;
  requiredClusterFeatures : list ClusterFeatureRequirement }.

(** [NewManagedController] with [WithRequiredClusterFeatures]. *)
Definition NewManagedController (name : string) (r : ManagedReconciler)
    (features : list ClusterFeatureRequirement) : managedController := {|
  mc_name := name;
  mc_reconciler := r;
  ctrlContext := None;
  ctrlContextCancel := None;
  requiredClusterFeatures := features |}.

(** ** Clusters *)

Abbreviation Ptr := nat.

(** A callback: its name, and whether its call succeeds when [n] calls of callbacks
    of the cluster were made before. *)
Record ClusterFunc := mkClusterFunc {
  cf_name : string;
  cf_ok : nat → bool }.

(** The fields of [clusters.Cluster] with a run-time role. [mgr] says whether the
    manager is non-nil. *)
Record RtCluster := mkRtCluster {
  c_name : string;
  c_ctx : ctx;
  mgrCtx : option ctx;
  mgrCtxCancel : option ctx;
  mgr : bool;
  alive : bool;
  started : bool;
  mgrStopped : bool;
  secretID : option string;
  clusterID : string;
  onAliveFuncs : list ClusterFunc;
  onDeadFuncs : list ClusterFunc;
  features : gmap string clusterFeature;
  kubeconfig : string;
  controllers : gmap string Ptr;
  pendingControllers : gmap string Ptr }.

(** The goroutines: the liveness loop of [Start], the one [StartManager] starts,
    and, per controller, the pre-check loop of [managedController.Start] and the
    run of [managedController.start]. *)
Inductive goroutine :=
| GLiveness | GManager | GCheck (p : Ptr) | GRun (p : Ptr).

#[export] Instance goroutine_eq_dec : EqDecision goroutine.
Proof. solve_decision. Defined.

Record CWorld := mkCWorld {
  next : nat;
  cancelled : gset nat;
  heap : gmap Ptr managedController;
  cl : RtCluster;
  threads : list goroutine;
  func_runs : list string  (** the calls of callbacks, oldest first *) }.

(** *** Field updates *)

Definition set_heap (h : gmap Ptr managedController) (w : CWorld) : CWorld :=
  mkCWorld (next w) (cancelled w) h (cl w) (threads w) (func_runs w).
Definition set_cl (c : RtCluster) (w : CWorld) : CWorld :=
  mkCWorld (next w) (cancelled w) (heap w) c (threads w) (func_runs w).
Definition go (g : goroutine) (w : CWorld) : CWorld :=
  mkCWorld (next w) (cancelled w) (heap w) (cl w) (g :: threads w) (func_runs w).

(** A goroutine returns. *)
Fixpoint remove_one (g : goroutine) (l : list goroutine) : list goroutine :=
  match l with
  | [] => []
  | g' :: l' => if bool_decide (g = g') then l' else g' :: remove_one g l'
  end.
Definition go_end (g : goroutine) (w : CWorld) : CWorld :=
  mkCWorld (next w) (cancelled w) (heap w) (cl w) (remove_one g (threads w)) (func_runs w).

Definition c_set_mgr (mc mcc : option ctx) (m : bool) (c : RtCluster) : RtCluster :=
  mkRtCluster (c_name c) (c_ctx c) mc mcc m (alive c) (started c) (mgrStopped c)
    (secretID c) (clusterID c) (onAliveFuncs c) (onDeadFuncs c) (features c) (kubeconfig c)
    (controllers c) (pendingControllers c).
Definition c_set_alive (b : bool) (c : RtCluster) : RtCluster :=
  mkRtCluster (c_name c) (c_ctx c) (mgrCtx c) (mgrCtxCancel c) (mgr c) b (started c) (mgrStopped c)
    (secretID c) (clusterID c) (onAliveFuncs c) (onDeadFuncs c) (features c) (kubeconfig c)
    (controllers c) (pendingControllers c).
Definition c_set_started (b : bool) (c : RtCluster) : RtCluster :=
  mkRtCluster (c_name c) (c_ctx c) (mgrCtx c) (mgrCtxCancel c) (mgr c) (alive c) b (mgrStopped c)
    (secretID c) (clusterID c) (onAliveFuncs c) (onDeadFuncs c) (features c) (kubeconfig c)
    (controllers c) (pendingControllers c).
Definition c_set_mgrStopped (b : bool) (c : RtCluster) : RtCluster :=
  mkRtCluster (c_name c) (c_ctx c) (mgrCtx c) (mgrCtxCancel c) (mgr c) (alive c) (started c) b
    (secretID c) (clusterID c) (onAliveFuncs c) (onDeadFuncs c) (features c) (kubeconfig c)
    (controllers c) (pendingControllers c).
Definition c_set_clusterID (i : string) (c : RtCluster) : RtCluster :=
  mkRtCluster (c_name c) (c_ctx c) (mgrCtx c) (mgrCtxCancel c) (mgr c) (alive c) (started c)
    (mgrStopped c) (secretID c) i (onAliveFuncs c) (onDeadFuncs c) (features c) (kubeconfig c)
    (controllers c) (pendingControllers c).
Definition c_set_funcs (a d : list ClusterFunc) (c : RtCluster) : RtCluster :=
  mkRtCluster (c_name c) (c_ctx c) (mgrCtx c) (mgrCtxCancel c) (mgr c) (alive c) (started c)
    (mgrStopped c) (secretID c) (clusterID c) a d (features c) (kubeconfig c)
    (controllers c) (pendingControllers c).
Definition c_set_features (f : gmap string clusterFeature) (c : RtCluster) : RtCluster :=
  mkRtCluster (c_name c) (c_ctx c) (mgrCtx c) (mgrCtxCancel c) (mgr c) (alive c) (started c)
    (mgrStopped c) (secretID c) (clusterID c) (onAliveFuncs c) (onDeadFuncs c) f (kubeconfig c)
    (controllers c) (pendingControllers c).
Definition c_set_controllers (m p : gmap string Ptr) (c : RtCluster) : RtCluster :=
  mkRtCluster (c_name c) (c_ctx c) (mgrCtx c) (mgrCtxCancel c) (mgr c) (alive c) (started c)
    (mgrStopped c) (secretID c) (clusterID c) (onAliveFuncs c) (onDeadFuncs c) (features c)
    (kubeconfig c) m p.

Definition mc_set_ctx (x xc : option ctx) (m : managedController) : managedController :=
  mkManagedController (mc_name m) (mc_reconciler m) x xc (requiredClusterFeatures m).

(** *** Contexts *)

Definition Done (x : ctx) (w : CWorld) : bool :=
  existsb (λ i, bool_decide (i ∈ cancelled w)) x.

(** [context.WithCancel(parent)]: the new context, which is its own cancel function. *)
Definition WithCancel (parent : ctx) (w : CWorld) : ctx * CWorld :=
  (next w :: parent,
   mkCWorld (S (next w)) (cancelled w) (heap w) (cl w) (threads w) (func_runs w)).

Definition cancel (x : ctx) (w : CWorld) : CWorld :=
  match x with
  | [] => w
  | i :: _ => mkCWorld (next w) ({[i]} ∪ cancelled w) (heap w) (cl w) (threads w) (func_runs w)
  end.

(** ** managed_controller.go *)

(** [managedController.Stop]. *)
Definition managedController_Stop (p : Ptr) (w : CWorld) : CWorld :=
  match heap w !! p with
  | None => w
  | Some c =>
      let w := match ctrlContextCancel c with Some x => cancel x w | None => w end in
      set_heap (<[p := mc_set_ctx (ctrlContext c) None c]> (heap w)) w
  end.

(** [managedController.Start]: it never fails, the work is left to a goroutine. *)
Definition managedController_Start (parent : ctx) (p : Ptr) (w : CWorld) : CWorld :=
  match heap w !! p with
  | None => w
  | Some c =>
      match ctrlContextCancel c with
      | Some _ => w
      | None =>
          let '(x, w) := WithCancel parent w in
          let w := set_heap (<[p := mc_set_ctx (Some x) (Some x) c]> (heap w)) w in
          go (GCheck p) w
      end
  end.

(** [managedController.Stopped], which dereferences the controller's context:
    [None] is the nil pointer panic. *)
Definition managedController_Stopped (p : Ptr) (w : CWorld) : option ctx :=
  match heap w !! p with None => None | Some c => ctrlContext c end.

(** ** cluster.go *)

Section cluster.
Context `{SelectorLib}.

(** [NewCluster] with the options [WithSecretID], [WithKubeconfig] and [WithOnDeadFunc]
    of the cluster reconciler, in a new world whose parent context is [parent]. *)
Definition NewCluster (parent : ctx) (name : string) (secret : option string)
    (kubeconf : string) (deadFuncs : list ClusterFunc) : CWorld :=
  let id := S (foldr Nat.max 0 parent) in
  mkCWorld (S id) ∅ ∅
    (mkRtCluster name (id :: parent) None None false false false false secret ""
       [] deadFuncs ∅ kubeconf ∅ ∅)
    [] [].

Definition IsAlive (w : CWorld) : bool := alive (cl w).
Definition IsManagerRunning (w : CWorld) : bool := negb (mgrStopped (cl w)) && mgr (cl w).

Definition GetController (name : string) (w : CWorld) : option Ptr := controllers (cl w) !! name.
Definition GetControllers (w : CWorld) : gmap string Ptr := controllers (cl w).
Definition GetPendingControllers (w : CWorld) : gmap string Ptr := pendingControllers (cl w).

(** [GetControllerByGVK]: the loop over the controllers compares their names with the
    group. *)
Fixpoint group_loop (group : string) (order : list (string * Ptr)) : option Ptr :=
  match order with
  | [] => None
  | (name, p) :: order' => if bool_decide (name = group) then Some p else group_loop group order'
  end.
Definition GetControllerByGVK (gvk : GroupVersionKind) (w : CWorld) : option Ptr :=
  group_loop (Group gvk) (map_to_list (controllers (cl w))).
Definition HasController (name : string) (w : CWorld) : bool :=
  match controllers (cl w) !! name with Some _ => true | None => false end.

Definition checkRequiredClusterFeatures (c : managedController) (w : CWorld) : bool :=
  if negb (nonempty (requiredClusterFeatures c)) then true
  else forallb (λ rf, ClusterFeatureRequirement_Match rf (features (cl w))) (requiredClusterFeatures c).

Definition addPendingController (p : Ptr) (w : CWorld) : CWorld :=
  match heap w !! p with
  | None => w
  | Some c => set_cl (c_set_controllers (controllers (cl w))
                        (<[mc_name c := p]> (pendingControllers (cl w))) (cl w)) w
  end.

Definition removePendingControllerByName (name : string) (w : CWorld) : CWorld :=
  set_cl (c_set_controllers (controllers (cl w)) (delete name (pendingControllers (cl w))) (cl w)) w.

(** The context of a running manager; see [mgr_has_ctx] for the second case. *)
Definition start_under_manager (p : Ptr) (w : CWorld) : CWorld :=
  match mgrCtx (cl w) with
  | Some x => managedController_Start x p w
  | None => w
  end.

Definition addController (p : Ptr) (w : CWorld) : CWorld :=
  match heap w !! p with
  | None => w
  | Some c =>
      let name := mc_name c in
      match GetController name w with
      | Some _ => w
      | None =>
          let w := removePendingControllerByName name w in
          let w := set_cl (c_set_controllers (<[name := p]> (controllers (cl w)))
                             (pendingControllers (cl w)) (cl w)) w in
          if IsManagerRunning w then start_under_manager p w else w
      end
  end.

Definition AddController (p : Ptr) (w : CWorld) : CWorld :=
  match heap w !! p with
  | None => w
  | Some c => if checkRequiredClusterFeatures c w then addController p w else addPendingController p w
  end.

Definition RemoveControllerByName (name : string) (w : CWorld) : CWorld :=
  let w := removePendingControllerByName name w in
  match GetController name w with
  | None => w
  | Some p =>
      let w := managedController_Stop p w in
      set_cl (c_set_controllers (delete name (controllers (cl w))) (pendingControllers (cl w)) (cl w)) w
  end.

Definition RemoveController (p : Ptr) (w : CWorld) : CWorld :=
  match heap w !! p with None => w | Some c => RemoveControllerByName (mc_name c) w end.

(** [AddFeature], visiting the pending controllers in the given order. The body
    touches no entry of the pending map but the one it visits, so the iteration
    visits every entry present at its start. *)
Definition AddFeature_in (order : list Ptr) (feature : clusterFeature) (w : CWorld) : CWorld :=
  let w := set_cl (c_set_features (<[feature_UID feature := feature]> (features (cl w))) (cl w)) w in
  foldl (λ w p, AddController p w) w order.

Definition AddFeature (feature : clusterFeature) (w : CWorld) : CWorld :=
  AddFeature_in (map_to_list (pendingControllers (cl w))).*2 feature w.

(** One round of the loop of [RemoveFeature]. *)
Definition demote_if_unmet (p : Ptr) (w : CWorld) : CWorld :=
  match heap w !! p with
  | None => w
  | Some c =>
      if checkRequiredClusterFeatures c w then w
      else addPendingController p (RemoveController p w)
  end.

Definition RemoveFeature_in (order : list Ptr) (uid : string) (w : CWorld) : CWorld :=
  let w := set_cl (c_set_features (delete uid (features (cl w))) (cl w)) w in
  foldl (λ w p, demote_if_unmet p w) w order.

Definition RemoveFeature (uid : string) (w : CWorld) : CWorld :=
  RemoveFeature_in (map_to_list (controllers (cl w))).*2 uid w.

(** *** Liveness and the manager *)

(** The loop of [wait.ExponentialBackoff] over a callback: it is called until it
    succeeds or the steps are used up; [log] lists the calls so far. *)
Fixpoint func_attempts (steps : nat) (f : ClusterFunc) (log : list string) : list string :=
  match steps with
  | 0 => log
  | S steps' =>
      let log' := (log ++ [cf_name f])%list in
      if cf_ok f (length log) then log' else func_attempts steps' f log'
  end.

Definition func_steps : nat := 5.

(** [runClusterFunc]; an error of the last attempt is only logged. *)
Definition runClusterFunc (f : ClusterFunc) (w : CWorld) : CWorld :=
  mkCWorld (next w) (cancelled w) (heap w) (cl w) (threads w) (func_attempts func_steps f (func_runs w)).

Definition AddOnAliveFunc (f : ClusterFunc) (w : CWorld) : CWorld :=
  let w := set_cl (c_set_funcs (onAliveFuncs (cl w) ++ [f])%list (onDeadFuncs (cl w)) (cl w)) w in
  if IsAlive w then runClusterFunc f w else w.

Definition AddOnDeadFunc (f : ClusterFunc) (w : CWorld) : CWorld :=
  set_cl (c_set_funcs (onAliveFuncs (cl w)) (onDeadFuncs (cl w) ++ [f])%list (cl w)) w.

Definition Stop (w : CWorld) : CWorld := cancel (c_ctx (cl w)) w.

Definition stopManager (w : CWorld) : CWorld :=
  match mgrCtx (cl w), mgrCtxCancel (cl w) with
  | Some _, Some x => cancel x w
  | _, _ => w
  end.

Definition StopManager (w : CWorld) : CWorld :=
  let w := stopManager w in set_cl (c_set_mgrStopped true (cl w)) w.

(** [StartManager]; [created] says whether [ctrl.NewManager] succeeded, [order] is
    the order in which the controllers are visited. *)
Definition StartManager_in (order : list Ptr) (created : bool) (w : CWorld) : CWorld :=
  match mgrCtx (cl w) with
  | Some _ => w
  | None =>
      let w := set_cl (c_set_mgrStopped false (cl w)) w in
      let '(x, w) := WithCancel (c_ctx (cl w)) w in
      let w := set_cl (c_set_mgr (Some x) (Some x) created (cl w)) w in
      if negb created then w else
      let w := go GManager w in
      foldl (λ w p, managedController_Start x p w) w order
  end.

Definition StartManager (created : bool) (w : CWorld) : CWorld :=
  StartManager_in (map_to_list (controllers (cl w))).*2 created w.

Definition setAlive (created : bool) (w : CWorld) : CWorld :=
  if alive (cl w) then w else
  let w := if negb (mgrStopped (cl w)) then StartManager created w else w in
  let w := foldl (λ w f, runClusterFunc f w) w (onAliveFuncs (cl w)) in
  set_cl (c_set_alive true (cl w)) w.

Definition setDead (w : CWorld) : CWorld :=
  if negb (alive (cl w)) then w else
  let w := stopManager w in
  let w := foldl (λ w f, runClusterFunc f w) w (onDeadFuncs (cl w)) in
  set_cl (c_set_alive false (cl w)) w.

(** The outcome of one probe: no client, no answer, or the UID of kube-system. *)
Inductive probe := ProbeNoClient | ProbeError | ProbeUID (uid : string).

(** [livenessCheck]: the returned flag says whether an error was returned. *)
Definition livenessCheck (pr : probe) (created : bool) (w : CWorld) : bool * CWorld :=
  match pr with
  | ProbeNoClient | ProbeError => (true, setDead w)
  | ProbeUID uid =>
      let w := setAlive created w in
      (false, set_cl (c_set_clusterID uid (cl w)) w)
  end.

(** [Cluster.Start]: the cluster is started only when the first probe succeeds. *)
Definition Start (pr : probe) (created : bool) (w : CWorld) : bool * CWorld :=
  let '(failed, w) := livenessCheck pr created w in
  if failed then (true, w)
  else (false, go GLiveness (set_cl (c_set_started true (cl w)) w)).

(** ** Goroutines *)

(** The end of the goroutine of [StartManager]. *)
Definition manager_exit (w : CWorld) : CWorld :=
  go_end GManager (set_cl (c_set_mgr None None false (cl w)) w).

(** The end of the goroutine of [managedController.start]. *)
Definition run_exit (p : Ptr) (w : CWorld) : CWorld :=
  match heap w !! p with
  | None => w
  | Some c => go_end (GRun p) (set_heap (<[p := mc_set_ctx None None c]> (heap w)) w)
  end.

(** A successful pre-check: [start] creates the controller and its run goroutine. *)
Definition check_ok (p : Ptr) (w : CWorld) : CWorld :=
  go (GRun p) (go_end (GCheck p) w).

(** The context a controller's goroutine waits on has been cancelled. *)
Definition ctrl_done (p : Ptr) (w : CWorld) : Prop :=
  ∃ c x, heap w !! p = Some c ∧ ctrlContext c = Some x ∧ Done x w = true.

(** The steps of the goroutines and of the environment. *)
Inductive background_step : CWorld → CWorld → Prop :=
| step_tick w pr created :
    GLiveness ∈ threads w →
    background_step w (livenessCheck pr created w).2
| step_liveness_exit w :
    GLiveness ∈ threads w → Done (c_ctx (cl w)) w = true →
    background_step w (go_end GLiveness (let w := setDead w in set_cl (c_set_started false (cl w)) w))
| step_manager_exit w x :
    GManager ∈ threads w → mgrCtx (cl w) = Some x → Done x w = true →
    background_step w (manager_exit w)
| step_check_ok w p :
    GCheck p ∈ threads w → background_step w (check_ok p w)
| step_check_retry w p :
    GCheck p ∈ threads w → background_step w w
| step_check_exit w p :
    GCheck p ∈ threads w → ctrl_done p w → background_step w (go_end (GCheck p) w)
| step_run_abandon w p :
    GRun p ∈ threads w → background_step w (go_end (GRun p) w)
| step_run_exit w p :
    GRun p ∈ threads w → ctrl_done p w → background_step w (run_exit p w).

(** The calls of the other components on a cluster. [New] puts a fresh controller
    on the heap and adds it. *)
Inductive call_step : CWorld → CWorld → Prop :=
| call_new w c p :
    heap w !! p = None → ctrlContext c = None → ctrlContextCancel c = None →
    call_step w (AddController p (set_heap (<[p := c]> (heap w)) w))
| call_AddFeature w f : call_step w (AddFeature f w)
| call_RemoveFeature w uid : call_step w (RemoveFeature uid w)
| call_RemoveController w name : call_step w (RemoveControllerByName name w)
| call_Start w pr created : call_step w (Start pr created w).2
| call_AddOnAliveFunc w f : call_step w (AddOnAliveFunc f w)
| call_AddOnDeadFunc w f : call_step w (AddOnDeadFunc f w)
| call_StartManager w created : call_step w (StartManager created w)
| call_StopManager w : call_step w (StopManager w)
| call_Stop w : call_step w (Stop w).

Definition cluster_step (w w' : CWorld) : Prop := background_step w w' ∨ call_step w w'.
End cluster.
