(* ===== verification/ClusterGate.v ===== *)
(** * Feature gating of the controllers of a peer cluster

    A cluster promises its clients that a registered controller is active exactly
    when the features of the cluster meet its requirements, and pending otherwise.
    Here: this contract, the effect of every call on the abstract registry, and what
    every step keeps of it. [AddFeature] visits the pending controllers only: after a
    feature was replaced an active controller may lack a feature it requires, until the
    next [RemoveFeature]. The invariant [gated] leaves that open, [strictly_gated] does
    not. *)

From stdpp Require Import gmap strings list relations.
From S2P Require Import Prelude Errors Types Match Features Cluster.
Open Scope string_scope.

(** ** The abstract registry *)

Section gate.
Context `{SelectorLib}.

(** All requirements are met by a set of features. *)
Definition met (fs : gmap string clusterFeature) (req : list ClusterFeatureRequirement) : bool :=
  forallb (λ rf, ClusterFeatureRequirement_Match rf fs) req.

(** What never changes in a controller: its name and its requirements. *)
Definition heap_ids (w : CWorld) : gmap Ptr (string * list ClusterFeatureRequirement) :=
  (λ c, (mc_name c, requiredClusterFeatures c)) <$> heap w.

(** All registered controllers, active or pending, by name. *)
Definition registered (w : CWorld) : gmap string Ptr :=
  controllers (cl w) ∪ pendingControllers (cl w).

(** The contract, for all controllers but those of [todo]; the active controllers of
    [ex] need not have the features they require. *)
Record gated_except (ex : Ptr → Prop) (todo : list Ptr) (w : CWorld) : Prop := {
  g_ctrl n p : controllers (cl w) !! n = Some p →
    ∃ req, heap_ids w !! p = Some (n, req) ∧ (ex p ∨ p ∈ todo ∨ met (features (cl w)) req = true);
  g_pend n p : pendingControllers (cl w) !! n = Some p →
    ∃ req, heap_ids w !! p = Some (n, req) ∧ (p ∈ todo ∨ met (features (cl w)) req = false);
  g_disj n : controllers (cl w) !! n = None ∨ pendingControllers (cl w) !! n = None }.

Definition gated (w : CWorld) : Prop := gated_except (λ _, True) [] w.
Definition strictly_gated (w : CWorld) : Prop := gated_except (λ _, False) [] w.

Lemma gated_weaken ex todo w : gated_except ex todo w → gated_except (λ _, True) todo w.
Proof. intros []. split; [|done..]. intros n p Hn. destruct (g_ctrl0 n p Hn) as (req & ? & _). by exists req; auto. Qed.

(** ** Frames *)

Lemma check_met c w : checkRequiredClusterFeatures c w = met (features (cl w)) (requiredClusterFeatures c).
Proof. unfold checkRequiredClusterFeatures, met. by destruct (requiredClusterFeatures c). Qed.

Lemma heap_ids_lookup w p c :
  heap w !! p = Some c → heap_ids w !! p = Some (mc_name c, requiredClusterFeatures c).
Proof. intros Hp. unfold heap_ids. by rewrite lookup_fmap, Hp. Qed.

Lemma heap_ids_inv w p n req :
  heap_ids w !! p = Some (n, req) →
  ∃ c, heap w !! p = Some c ∧ mc_name c = n ∧ requiredClusterFeatures c = req.
Proof. unfold heap_ids. rewrite lookup_fmap. destruct (heap w !! p); naive_solver. Qed.

Lemma heap_ids_set_ctx w p c x xc :
  heap w !! p = Some c →
  (λ c, (mc_name c, requiredClusterFeatures c)) <$> <[p := mc_set_ctx x xc c]> (heap w) = heap_ids w.
Proof.
  intros Hp. unfold heap_ids. rewrite fmap_insert. simpl.
  apply insert_id. by rewrite lookup_fmap, Hp.
Qed.

(** Same registry: maps, features, and the identities of the controllers. *)
Definition same_registry (w w' : CWorld) : Prop :=
  heap_ids w' = heap_ids w ∧ features (cl w') = features (cl w)
  ∧ controllers (cl w') = controllers (cl w) ∧ pendingControllers (cl w') = pendingControllers (cl w).

#[global] Instance same_registry_preorder : PreOrder same_registry.
Proof.
  split; [by intros w|]. intros w1 w2 w3 (?&?&?&?) (?&?&?&?). repeat split; congruence.
Qed.

Lemma same_registry_gated ex todo w w' : same_registry w w' → gated_except ex todo w → gated_except ex todo w'.
Proof. intros (Hi & Hf & Hc & Hp) []. split; rewrite ?Hi, ?Hf, ?Hc, ?Hp; eauto. Qed.

Lemma same_registry_cancel x w : same_registry w (cancel x w).
Proof. by destruct x. Qed.

Lemma same_registry_mcStart x p w : same_registry w (managedController_Start x p w).
Proof.
  unfold managedController_Start. destruct (heap w !! p) as [c|] eqn:Hp; [|done].
  destruct (ctrlContextCancel c); [done|]. repeat split. simpl.
  unfold heap_ids at 1. simpl. by apply heap_ids_set_ctx.
Qed.

Lemma same_registry_mcStop p w : same_registry w (managedController_Stop p w).
Proof.
  unfold managedController_Stop. destruct (heap w !! p) as [c|] eqn:Hp; [|done].
  destruct (ctrlContextCancel c) as [[|i x]|]; repeat split; simpl;
    unfold heap_ids at 1; simpl; by apply heap_ids_set_ctx.
Qed.

Lemma same_registry_start_under p w : same_registry w (start_under_manager p w).
Proof. unfold start_under_manager. destruct (mgrCtx (cl w)); [apply same_registry_mcStart|done]. Qed.

Lemma same_registry_StartManager created w : same_registry w (StartManager created w).
Proof.
  unfold StartManager, StartManager_in. destruct (mgrCtx (cl w)); [done|]. simpl.
  destruct created; [|done]. simpl.
  etrans; [|apply foldl_preorder; intros; apply same_registry_mcStart]. done.
Qed.

Lemma same_registry_setAlive created w : same_registry w (setAlive created w).
Proof.
  unfold setAlive. destruct (alive (cl w)); [done|].
  set (w1 := if negb _ then _ else w).
  assert (H1 : same_registry w w1).
  { unfold w1. destruct (negb _); [apply same_registry_StartManager|done]. }
  etrans; [exact H1|]. etrans; [apply (foldl_preorder (λ w f, runClusterFunc f w) (onAliveFuncs (cl w1)))|]; done.
Qed.

Lemma same_registry_stopManager w : same_registry w (stopManager w).
Proof.
  unfold stopManager. destruct (mgrCtx (cl w)), (mgrCtxCancel (cl w)); try done.
  apply same_registry_cancel.
Qed.

Lemma same_registry_setDead w : same_registry w (setDead w).
Proof.
  unfold setDead. destruct (negb (alive (cl w))); [done|].
  etrans; [apply same_registry_stopManager|].
  etrans; [apply (foldl_preorder (λ w f, runClusterFunc f w) (onDeadFuncs (cl (stopManager w))))|]; done.
Qed.

Lemma same_registry_livenessCheck pr created w : same_registry w (livenessCheck pr created w).2.
Proof.
  destruct pr; simpl; [apply same_registry_setDead..|].
  etrans; [apply same_registry_setAlive|]. done.
Qed.

Lemma same_registry_background w w' : background_step w w' → same_registry w w'.
Proof.
  destruct 1; try done.
  - apply same_registry_livenessCheck.
  - etrans; [apply same_registry_setDead|]. done.
  - unfold run_exit. destruct (heap w !! p) as [c|] eqn:Hp; [|done]. repeat split. simpl.
    unfold heap_ids at 1. simpl. by apply heap_ids_set_ctx.
Qed.
End gate.

#[export] Hint Resolve same_registry_cancel same_registry_mcStart same_registry_mcStop
  same_registry_start_under same_registry_StartManager same_registry_setAlive
  same_registry_setDead same_registry_stopManager : registry.

(** ** Effect of the calls on the registry *)

Section calls.
Context `{SelectorLib}.
Implicit Types (ex : Ptr → Prop).

Lemma AddController_active p c w :
  heap w !! p = Some c → controllers (cl w) !! mc_name c = None →
  met (features (cl w)) (requiredClusterFeatures c) = true →
  heap_ids (AddController p w) = heap_ids w
  ∧ features (cl (AddController p w)) = features (cl w)
  ∧ controllers (cl (AddController p w)) = <[mc_name c := p]> (controllers (cl w))
  ∧ pendingControllers (cl (AddController p w)) = delete (mc_name c) (pendingControllers (cl w)).
Proof.
  intros Hp Hn Hm. unfold AddController, addController, GetController.
  rewrite Hp, check_met, Hm, Hn. simpl.
  set (w1 := set_cl (c_set_controllers (<[mc_name c := p]> _) _ _) _).
  assert (same_registry w1 (if IsManagerRunning w1 then start_under_manager p w1 else w1)) as (Hi&Hf&Hc&Hd).
  { destruct (IsManagerRunning w1); eauto with registry. done. }
  by rewrite Hi, Hf, Hc, Hd.
Qed.

Lemma AddController_pending p c w :
  heap w !! p = Some c →
  met (features (cl w)) (requiredClusterFeatures c) = false →
  heap_ids (AddController p w) = heap_ids w
  ∧ features (cl (AddController p w)) = features (cl w)
  ∧ controllers (cl (AddController p w)) = controllers (cl w)
  ∧ pendingControllers (cl (AddController p w)) = <[mc_name c := p]> (pendingControllers (cl w)).
Proof.
  intros Hp Hm. unfold AddController, addPendingController. by rewrite Hp, check_met, Hm.
Qed.

Lemma RemoveControllerByName_effect n w :
  heap_ids (RemoveControllerByName n w) = heap_ids w
  ∧ features (cl (RemoveControllerByName n w)) = features (cl w)
  ∧ controllers (cl (RemoveControllerByName n w)) = delete n (controllers (cl w))
  ∧ pendingControllers (cl (RemoveControllerByName n w)) = delete n (pendingControllers (cl w)).
Proof.
  unfold RemoveControllerByName, GetController. set (w1 := removePendingControllerByName n w).
  change (controllers (cl w1)) with (controllers (cl w)).
  destruct (controllers (cl w) !! n) as [p|] eqn:Hn.
  - destruct (same_registry_mcStop p w1) as (Hi&Hf&Hc&Hd). simpl. by rewrite Hf, Hc, Hd.
  - by rewrite (delete_id (controllers (cl w))).
Qed.

(** Settling the controller [p], named [n], leaves the entries of other names as they
    were: they are in the remaining list or already right. *)
Lemma settle_ctrl ex p todo n req w :
  gated_except ex (p :: todo) w → heap_ids w !! p = Some (n, req) →
  ∀ m q, m ≠ n → controllers (cl w) !! m = Some q →
  ∃ req', heap_ids w !! q = Some (m, req') ∧ (ex q ∨ q ∈ todo ∨ met (features (cl w)) req' = true).
Proof.
  intros Hg Hid m q Hne Hq. destruct (g_ctrl _ _ _ Hg m q Hq) as (req' & Hr & Hor).
  exists req'. split; [done|]. destruct Hor as [|[Hin|]]; [by left| |by right; right].
  apply elem_of_cons in Hin as [->|]; [congruence|by right; left].
Qed.

Lemma settle_pend ex p todo n req w :
  gated_except ex (p :: todo) w → heap_ids w !! p = Some (n, req) →
  ∀ m q, m ≠ n → pendingControllers (cl w) !! m = Some q →
  ∃ req', heap_ids w !! q = Some (m, req') ∧ (q ∈ todo ∨ met (features (cl w)) req' = false).
Proof.
  intros Hg Hid m q Hne Hq. destruct (g_pend _ _ _ Hg m q Hq) as (req' & Hr & Hor).
  exists req'. split; [done|]. destruct Hor as [Hin|]; [|by right].
  apply elem_of_cons in Hin as [->|]; [congruence|by left].
Qed.

(** Moving the entry [n] between the two maps. *)
Lemma union_move (a b : gmap string Ptr) n p :
  b !! n = Some p → a !! n = None → <[n := p]> a ∪ delete n b = a ∪ b.
Proof.
  intros Hb Ha. apply map_eq. intros m. rewrite !lookup_union.
  destruct (decide (m = n)) as [->|Hne].
  - by rewrite lookup_insert_eq, lookup_delete_eq, Ha, Hb.
  - by rewrite lookup_insert_ne, lookup_delete_ne by done.
Qed.

Lemma union_move_back (a b : gmap string Ptr) n p :
  a !! n = Some p → b !! n = None → delete n a ∪ <[n := p]> (delete n b) = a ∪ b.
Proof.
  intros Ha Hb. apply map_eq. intros m. rewrite !lookup_union.
  destruct (decide (m = n)) as [->|Hne].
  - by rewrite lookup_insert_eq, lookup_delete_eq, Ha, Hb.
  - by rewrite lookup_insert_ne, !lookup_delete_ne by done.
Qed.

(** What one visit of a loop over controllers does to the registry. *)
Record visited (ex : Ptr → Prop) (p : Ptr) (todo : list Ptr) (w w' : CWorld) : Prop := {
  v_gated : gated_except ex todo w';
  v_registered : registered w' = registered w;
  v_features : features (cl w') = features (cl w);
  v_ids : heap_ids w' = heap_ids w }.

Lemma AddController_visit ex p todo w n :
  gated_except ex (p :: todo) w → pendingControllers (cl w) !! n = Some p →
  visited ex p todo w (AddController p w)
  ∧ controllers (cl w) ⊆ controllers (cl (AddController p w))
  ∧ (∀ m q, q ≠ p → pendingControllers (cl w) !! m = Some q →
       pendingControllers (cl (AddController p w)) !! m = Some q).
Proof.
  intros Hg Hn. destruct (g_pend _ _ _ Hg n p Hn) as (req & Hid & _).
  destruct (heap_ids_inv _ _ _ _ Hid) as (c & Hp & <- & <-).
  assert (Hc : controllers (cl w) !! mc_name c = None) by (destruct (g_disj _ _ _ Hg (mc_name c)); congruence).
  destruct (met (features (cl w)) (requiredClusterFeatures c)) eqn:Hm.
  - destruct (AddController_active p c w Hp Hc Hm) as (Hi&Hf&Hct&Hpd). split; [|split].
    + split; unfold registered; rewrite ?Hct, ?Hpd; try done; [|by apply union_move].
      split; rewrite ?Hi, ?Hf, ?Hct, ?Hpd.
      * intros m q [[<- <-]|[Hne Hq]]%lookup_insert_Some; [by eauto|].
        by eapply settle_ctrl.
      * intros m q [Hne Hq]%lookup_delete_Some. by eapply settle_pend.
      * intros m. destruct (decide (m = mc_name c)) as [->|Hne]; [right; apply lookup_delete_eq|].
        rewrite lookup_insert_ne, lookup_delete_ne by done. apply (g_disj _ _ _ Hg).
    + rewrite Hct. by apply insert_subseteq.
    + intros m q Hne Hq. rewrite Hpd, lookup_delete_ne; [done|]. intros <-. congruence.
  - destruct (AddController_pending p c w Hp Hm) as (Hi&Hf&Hct&Hpd).
    rewrite (insert_id _ _ _ Hn) in Hpd. split; [|by rewrite Hct, Hpd].
    split; unfold registered; rewrite ?Hct, ?Hpd; try done.
    split; rewrite ?Hi, ?Hf, ?Hct, ?Hpd.
    + intros m q Hq. eapply settle_ctrl; [done..| |done]. intros ->. congruence.
    + intros m q Hq. destruct (decide (m = mc_name c)) as [->|Hne]; [|by eapply settle_pend].
      rewrite Hn in Hq. simplify_eq. eauto.
    + apply (g_disj _ _ _ Hg).
Qed.

Lemma demote_visit ex p todo w n :
  gated_except ex (p :: todo) w → controllers (cl w) !! n = Some p →
  visited ex p todo w (demote_if_unmet p w)
  ∧ (∀ m q, q ≠ p → controllers (cl w) !! m = Some q →
       controllers (cl (demote_if_unmet p w)) !! m = Some q).
Proof.
  intros Hg Hn. destruct (g_ctrl _ _ _ Hg n p Hn) as (req & Hid & _).
  destruct (heap_ids_inv _ _ _ _ Hid) as (c & Hp & <- & <-).
  assert (Hd : pendingControllers (cl w) !! mc_name c = None) by (destruct (g_disj _ _ _ Hg (mc_name c)); congruence).
  unfold demote_if_unmet. rewrite Hp, check_met.
  destruct (met (features (cl w)) (requiredClusterFeatures c)) eqn:Hm.
  - split; [|by eauto]. split; try done. split.
    + intros m q Hq. destruct (decide (m = mc_name c)) as [->|Hne]; [|by eapply settle_ctrl].
      rewrite Hn in Hq. simplify_eq. eauto.
    + intros m q Hq. eapply settle_pend; [done..| |done]. intros ->. congruence.
    + apply (g_disj _ _ _ Hg).
  - unfold RemoveController. rewrite Hp.
    destruct (RemoveControllerByName_effect (mc_name c) w) as (Hi&Hf&Hct&Hpd).
    rewrite <-Hi in Hid. destruct (heap_ids_inv _ _ _ _ Hid) as (c' & Hp' & Hn' & _).
    unfold addPendingController. rewrite Hp', Hn'. rewrite Hi in Hid. split.
    + split; unfold registered; simpl; rewrite ?Hct, ?Hpd; try done; [|by apply union_move_back].
      split; simpl; rewrite ?Hf, ?Hct, ?Hpd.
      all: change (heap_ids (set_cl _ _)) with (heap_ids (RemoveControllerByName (mc_name c) w)); rewrite ?Hi.
      * intros m q [Hne Hq]%lookup_delete_Some. by eapply settle_ctrl.
      * intros m q [[<- <-]|[Hne [_ Hq]%lookup_delete_Some]]%lookup_insert_Some; [by eauto|].
        by eapply settle_pend.
      * intros m. destruct (decide (m = mc_name c)) as [->|Hne]; [left; apply lookup_delete_eq|].
        rewrite lookup_insert_ne, !lookup_delete_ne by done. apply (g_disj _ _ _ Hg).
    + intros m q Hne Hq. simpl. rewrite Hct, lookup_delete_ne; [done|]. intros <-. congruence.
Qed.

(** *** The loops *)

Lemma AddFeature_loop ex order w :
  gated_except ex order w → NoDup order →
  (∀ p, p ∈ order → ∃ n, pendingControllers (cl w) !! n = Some p) →
  let w' := foldl (λ w p, AddController p w) w order in
  gated_except ex [] w' ∧ registered w' = registered w ∧ features (cl w') = features (cl w)
  ∧ heap_ids w' = heap_ids w ∧ controllers (cl w) ⊆ controllers (cl w').
Proof.
  revert w. induction order as [|p order IH]; intros w Hg Hnd Hin; simpl; [done|].
  apply NoDup_cons in Hnd as [Hp Hnd].
  destruct (Hin p) as [n Hn]; [by left|].
  destruct (AddController_visit ex p order w n Hg Hn) as ([Hg' Hr Hf Hi] & Hsub & Hkeep).
  destruct (IH (AddController p w)) as (? & -> & -> & -> & Hsub'); try done; [|split_and!; [done..|by etrans]].
  intros q Hq. destruct (Hin q) as [m Hm]; [by right|]. exists m. apply Hkeep; [|done]. by intros ->.
Qed.

Lemma RemoveFeature_loop ex order w :
  gated_except ex order w → NoDup order →
  (∀ p, p ∈ order → ∃ n, controllers (cl w) !! n = Some p) →
  let w' := foldl (λ w p, demote_if_unmet p w) w order in
  gated_except ex [] w' ∧ registered w' = registered w ∧ features (cl w') = features (cl w)
  ∧ heap_ids w' = heap_ids w.
Proof.
  revert w. induction order as [|p order IH]; intros w Hg Hnd Hin; simpl; [done|].
  apply NoDup_cons in Hnd as [Hp Hnd].
  destruct (Hin p) as [n Hn]; [by left|].
  destruct (demote_visit ex p order w n Hg Hn) as [[Hg' Hr Hf Hi] Hkeep].
  destruct (IH (demote_if_unmet p w)) as (? & -> & -> & ->); try done.
  intros q Hq. destruct (Hin q) as [m Hm]; [by right|]. exists m. apply Hkeep; [|done]. by intros ->.
Qed.

Lemma met_mono fs fs' req : fs ⊆ fs' → met fs req = true → met fs' req = true.
Proof.
  intros Hsub. unfold met. rewrite !forallb_forall. intros Hall rf Hrf.
  eapply Match_mono; [done|]. by apply Hall.
Qed.

Lemma elem_of_map_values (m : gmap string Ptr) p :
  p ∈ (map_to_list m).*2 ↔ ∃ n, m !! n = Some p.
Proof.
  rewrite list_elem_of_fmap. split.
  - intros ([n q] & -> & Hin%elem_of_map_to_list). eauto.
  - intros [n Hn]. exists (n, p). split; [done|]. by apply elem_of_map_to_list.
Qed.

(** The maps point to distinct controllers. *)
Lemma gated_values_NoDup todo w (m : gmap string Ptr) :
  (∀ n p, m !! n = Some p → ∃ req, heap_ids w !! p = Some (n, req) ∧ todo p req) →
  NoDup (map_to_list m).*2.
Proof.
  intros Hm. apply NoDup_fmap_2_strong; [|apply NoDup_map_to_list].
  intros [n p] [n' p'] Hn%elem_of_map_to_list Hn'%elem_of_map_to_list ?; simplify_eq/=.
  destruct (Hm n p' Hn) as (? & ? & _), (Hm n' p' Hn') as (? & ? & _). congruence.
Qed.

(** A feature that adds to what the cluster advertises: it has a new UID, or it is
    unchanged. *)
Definition extends (f : clusterFeature) (w : CWorld) : Prop :=
  features (cl w) !! feature_UID f = None ∨ features (cl w) !! feature_UID f = Some f.

Lemma extends_subset f w : extends f w → features (cl w) ⊆ <[feature_UID f := f]> (features (cl w)).
Proof. intros [Hn|Hs]; [by apply insert_subseteq|by rewrite insert_id]. Qed.

Lemma AddFeature_gated ex order f w :
  gated_except ex [] w → extends f w ∨ (∀ n p, controllers (cl w) !! n = Some p → ex p) →
  order ≡ₚ (map_to_list (pendingControllers (cl w))).*2 →
  let w' := AddFeature_in order f w in
  gated_except ex [] w' ∧ registered w' = registered w
  ∧ features (cl w') = <[feature_UID f := f]> (features (cl w)) ∧ heap_ids w' = heap_ids w
  ∧ controllers (cl w) ⊆ controllers (cl w').
Proof.
  intros Hg Hext Ho. apply AddFeature_loop.
  - split; simpl.
    + intros n p Hn. destruct (g_ctrl _ _ _ Hg n p Hn) as (req & Hid & [He|[Hin|Hm]]); [by eauto|set_solver|].
      exists req. split; [done|]. destruct Hext as [Hext|Hall]; [|left; by eapply Hall].
      right. right. eapply met_mono; [by apply extends_subset|done].
    + intros n p Hn. destruct (g_pend _ _ _ Hg n p Hn) as (req & Hid & _).
      exists req. split; [done|]. left. rewrite Ho. apply elem_of_map_values. eauto.
    + apply (g_disj _ _ _ Hg).
  - rewrite Ho. eapply gated_values_NoDup, (g_pend _ _ _ Hg).
  - intros p. by rewrite Ho, elem_of_map_values.
Qed.

(** [RemoveFeature] visits every active controller: afterwards all of them have the
    features they require, whatever was before. *)
Lemma RemoveFeature_gated ex ex' order uid w :
  gated_except ex [] w → order ≡ₚ (map_to_list (controllers (cl w))).*2 →
  let w' := RemoveFeature_in order uid w in
  gated_except ex' [] w' ∧ registered w' = registered w
  ∧ features (cl w') = delete uid (features (cl w)) ∧ heap_ids w' = heap_ids w.
Proof.
  intros Hg Ho. apply RemoveFeature_loop.
  - split; simpl.
    + intros n p Hn. destruct (g_ctrl _ _ _ Hg n p Hn) as (req & Hid & _).
      exists req. split; [done|]. right. left. rewrite Ho. apply elem_of_map_values. eauto.
    + intros n p Hn. destruct (g_pend _ _ _ Hg n p Hn) as (req & Hid & [Hin|Hm]); [set_solver|].
      exists req. split; [done|]. right. apply not_true_iff_false. intros Hm'.
      apply (met_mono _ (features (cl w))) in Hm'; [congruence|apply delete_subseteq].
    + apply (g_disj _ _ _ Hg).
  - rewrite Ho. eapply gated_values_NoDup, (g_ctrl _ _ _ Hg).
  - intros p. by rewrite Ho, elem_of_map_values.
Qed.

Lemma RemoveControllerByName_gated ex n w :
  gated_except ex [] w →
  gated_except ex [] (RemoveControllerByName n w)
  ∧ registered (RemoveControllerByName n w) = delete n (registered w).
Proof.
  intros Hg. destruct (RemoveControllerByName_effect n w) as (Hi&Hf&Hct&Hpd). split.
  - split; rewrite ?Hi, ?Hf, ?Hct, ?Hpd.
    + intros m q [_ Hq]%lookup_delete_Some. by apply (g_ctrl _ _ _ Hg).
    + intros m q [_ Hq]%lookup_delete_Some. by apply (g_pend _ _ _ Hg).
    + intros m. destruct (decide (m = n)) as [->|Hne]; [left; apply lookup_delete_eq|].
      rewrite !lookup_delete_ne by done. apply (g_disj _ _ _ Hg).
  - unfold registered. rewrite Hct, Hpd. symmetry. apply delete_union.
Qed.

(** Adding a controller under a name that is not active. *)
Lemma AddController_gated ex p c w :
  gated_except ex [] w → heap w !! p = Some c → controllers (cl w) !! mc_name c = None →
  gated_except ex [] (AddController p w)
  ∧ registered (AddController p w) = <[mc_name c := p]> (registered w).
Proof.
  intros Hg Hp Hc. pose proof (heap_ids_lookup _ _ _ Hp) as Hid.
  destruct (met (features (cl w)) (requiredClusterFeatures c)) eqn:Hm.
  - destruct (AddController_active p c w Hp Hc Hm) as (Hi&Hf&Hct&Hpd). split.
    + split; rewrite ?Hi, ?Hf, ?Hct, ?Hpd.
      * intros m q [[<- <-]|[_ Hq]]%lookup_insert_Some; [by eauto|by apply (g_ctrl _ _ _ Hg)].
      * intros m q [_ Hq]%lookup_delete_Some. by apply (g_pend _ _ _ Hg).
      * intros m. destruct (decide (m = mc_name c)) as [->|Hne]; [right; apply lookup_delete_eq|].
        rewrite lookup_insert_ne, lookup_delete_ne by done. apply (g_disj _ _ _ Hg).
    + unfold registered. rewrite Hct, Hpd. apply map_eq. intros m.
      destruct (decide (m = mc_name c)) as [->|Hne].
      * by rewrite lookup_union, !lookup_insert_eq, lookup_delete_eq.
      * by rewrite lookup_union, !lookup_insert_ne, lookup_delete_ne, lookup_union by done.
  - destruct (AddController_pending p c w Hp Hm) as (Hi&Hf&Hct&Hpd). split.
    + split; rewrite ?Hi, ?Hf, ?Hct, ?Hpd.
      * apply (g_ctrl _ _ _ Hg).
      * intros m q [[<- <-]|[_ Hq]]%lookup_insert_Some; [by eauto|by apply (g_pend _ _ _ Hg)].
      * intros m. destruct (decide (m = mc_name c)) as [->|Hne]; [by left|].
        rewrite lookup_insert_ne by done. apply (g_disj _ _ _ Hg).
    + unfold registered. rewrite Hct, Hpd. apply map_eq. intros m.
      destruct (decide (m = mc_name c)) as [->|Hne].
      * by rewrite lookup_union, !lookup_insert_eq, Hc.
      * by rewrite lookup_union, !lookup_insert_ne, lookup_union by done.
Qed.
End calls.

(** ** The contract *)

Section contract.
Context `{SelectorLib}.

(** The specification state: the registered controllers and the features. *)
Record Registry := mkRegistry {
  reg_controllers : gmap string Ptr;
  reg_features : gmap string clusterFeature }.

Definition registry_of (w : CWorld) : Registry := mkRegistry (registered w) (features (cl w)).

Inductive registry_step : Registry → Registry → Prop :=
| reg_add r n p : registry_step r (mkRegistry (<[n := p]> (reg_controllers r)) (reg_features r))
| reg_remove r n : registry_step r (mkRegistry (delete n (reg_controllers r)) (reg_features r))
| reg_feature r f :
    registry_step r (mkRegistry (reg_controllers r) (<[feature_UID f := f]> (reg_features r)))
| reg_unfeature r uid :
    registry_step r (mkRegistry (reg_controllers r) (delete uid (reg_features r)))
| reg_stutter r : registry_step r r.

(** The steps of a cluster: the background ones, and the calls of the reconcilers, with
    any visiting order of the maps. A controller is added only under a name that is not
    active, since ResourceSyncRuleReconciler tests [HasController] first. A feature may
    be added or replaced; with [strict] it may only be added: it has a new UID, or it is
    unchanged. *)
Inductive cluster_call (strict : bool) : CWorld → CWorld → Prop :=
| d_background w w' : background_step w w' → cluster_call strict w w'
| d_new w c p :
    heap w !! p = None → ctrlContext c = None → ctrlContextCancel c = None →
    HasController (mc_name c) w = false →
    cluster_call strict w (AddController p (set_heap (<[p := c]> (heap w)) w))
| d_AddFeature w f order :
    (strict = true → extends f w) → order ≡ₚ (map_to_list (pendingControllers (cl w))).*2 →
    cluster_call strict w (AddFeature_in order f w)
| d_RemoveFeature w uid order :
    order ≡ₚ (map_to_list (controllers (cl w))).*2 →
    cluster_call strict w (RemoveFeature_in order uid w)
| d_RemoveController w n : cluster_call strict w (RemoveControllerByName n w)
| d_Start w pr created : cluster_call strict w (Start pr created w).2
| d_StartManager w created : cluster_call strict w (StartManager created w)
| d_StopManager w : cluster_call strict w (StopManager w)
| d_Stop w : cluster_call strict w (Stop w).

(** With [strict] no controller is exempt. *)
Definition exempt (strict : bool) : Ptr → Prop := λ _, strict = false.

Lemma same_registry_of w w' : same_registry w w' → registry_of w' = registry_of w.
Proof. intros (_ & Hf & Hc & Hp). unfold registry_of, registered. by rewrite Hf, Hc, Hp. Qed.

Lemma gated_alloc ex p c w :
  heap w !! p = None → gated_except ex [] w → gated_except ex [] (set_heap (<[p := c]> (heap w)) w).
Proof.
  intros Hp Hg.
  assert (Hids : ∀ q x, heap_ids w !! q = Some x →
            heap_ids (set_heap (<[p := c]> (heap w)) w) !! q = Some x).
  { intros q x. unfold heap_ids. simpl. rewrite !lookup_fmap.
    destruct (decide (q = p)) as [->|Hne]; [by rewrite Hp|by rewrite lookup_insert_ne]. }
  split; simpl.
  - intros n q Hq. destruct (g_ctrl _ _ _ Hg n q Hq) as (req & ? & ?). eauto.
  - intros n q Hq. destruct (g_pend _ _ _ Hg n q Hq) as (req & ? & ?). eauto.
  - apply (g_disj _ _ _ Hg).
Qed.

Lemma call_simulation strict w w' :
  gated_except (exempt strict) [] w → cluster_call strict w w' →
  gated_except (exempt strict) [] w' ∧ registry_step (registry_of w) (registry_of w').
Proof.
  assert (Hsame : ∀ w w', gated_except (exempt strict) [] w → same_registry w w' →
            gated_except (exempt strict) [] w' ∧ registry_step (registry_of w) (registry_of w')).
  { intros v v' Hg Hs. split; [by eapply same_registry_gated|].
    rewrite (same_registry_of _ _ Hs). constructor. }
  intros Hg Hstep. destruct Hstep as [w w' Hb|w c p Hp _ _ Hh|w f order Hext Ho|w uid order Ho|w n|w pr created|w created|w|w].
  - by apply Hsame, same_registry_background.
  - set (w1 := set_heap _ w). unfold HasController in Hh.
    destruct (AddController_gated (exempt strict) p c w1) as [Hg' Hr].
    + by apply gated_alloc.
    + apply lookup_insert_eq.
    + change (controllers (cl w1)) with (controllers (cl w)). by destruct (controllers (cl w) !! _).
    + split; [done|]. unfold registry_of. rewrite Hr.
      assert (features (cl (AddController p w1)) = features (cl w1)) as ->.
      { destruct (met (features (cl w1)) (requiredClusterFeatures c)) eqn:Hm.
        - apply (AddController_active p c w1); [apply lookup_insert_eq| |done].
          change (controllers (cl w1)) with (controllers (cl w)). by destruct (controllers (cl w) !! _).
        - by apply (AddController_pending p c w1); [apply lookup_insert_eq|]. }
      apply (reg_add (registry_of w) (mc_name c) p).
  - destruct (AddFeature_gated (exempt strict) order f w Hg) as (Hg' & Hr & Hf & _); [|done|].
    { destruct strict; [left; by apply Hext|by right]. }
    split; [done|]. unfold registry_of. rewrite Hr, Hf. apply (reg_feature (registry_of w)).
  - destruct (RemoveFeature_gated _ (exempt strict) order uid w Hg Ho) as (Hg' & Hr & Hf & _). split; [done|].
    unfold registry_of. rewrite Hr, Hf. apply (reg_unfeature (registry_of w)).
  - destruct (RemoveControllerByName_gated _ n w Hg) as [Hg' Hr]. split; [done|].
    destruct (RemoveControllerByName_effect n w) as (_ & Hf & _).
    unfold registry_of. rewrite Hr, Hf. apply (reg_remove (registry_of w)).
  - apply Hsame; [done|]. unfold Start. pose proof (same_registry_livenessCheck pr created w) as Hl.
    by destruct (livenessCheck pr created w) as [[] w1].
  - apply Hsame; [done|]. apply same_registry_StartManager.
  - apply Hsame; [done|]. etrans; [apply same_registry_stopManager|]. done.
  - apply Hsame; [done|]. apply same_registry_cancel.
Qed.

Lemma NewCluster_gated_except ex parent name secret kubeconf dead :
  gated_except ex [] (NewCluster parent name secret kubeconf dead).
Proof. split; simpl; [intros n p; by rewrite lookup_empty..|intros n; left; apply lookup_empty]. Qed.

Lemma NewCluster_gated parent name secret kubeconf dead : gated (NewCluster parent name secret kubeconf dead).
Proof. apply NewCluster_gated_except. Qed.

(** A registered controller whose requirements are met is active, and what is pending
    is not met. *)
Lemma gated_met_active ex w n p req :
  gated_except ex [] w → heap_ids w !! p = Some (n, req) → registered w !! n = Some p →
  met (features (cl w)) req = true → controllers (cl w) !! n = Some p.
Proof.
  intros Hg Hid. unfold registered. rewrite lookup_union_Some_raw. intros [Hc|[_ Hp]] Hm; [done|].
  destruct (g_pend _ _ _ Hg n p Hp) as (req' & Hid' & [Hin|Hm']); [set_solver|congruence].
Qed.

Lemma gated_pending_unmet ex w n p req :
  gated_except ex [] w → heap_ids w !! p = Some (n, req) →
  pendingControllers (cl w) !! n = Some p → met (features (cl w)) req = false.
Proof.
  intros Hg Hid Hp. destruct (g_pend _ _ _ Hg n p Hp) as (req' & Hid' & [Hin|Hm]); [set_solver|congruence].
Qed.

Lemma active_or_pending w n p :
  registered w !! n = Some p → controllers (cl w) !! n = Some p ∨ pendingControllers (cl w) !! n = Some p.
Proof. unfold registered. rewrite lookup_union_Some_raw. naive_solver. Qed.

Lemma active_registered ex w n p :
  gated_except ex [] w → controllers (cl w) !! n = Some p ∨ pendingControllers (cl w) !! n = Some p →
  registered w !! n = Some p.
Proof.
  intros Hg. unfold registered. rewrite lookup_union_Some_raw. intros [Hc|Hp]; [by left|right]. split; [|done].
  destruct (g_disj _ _ _ Hg n); congruence.
Qed.

(** The contract. *)
Lemma strict_active w n p req :
  strictly_gated w → heap_ids w !! p = Some (n, req) →
  (controllers (cl w) !! n = Some p ↔ registered w !! n = Some p ∧ met (features (cl w)) req = true).
Proof.
  intros Hg Hid. split.
  - intros Hc. split; [eapply active_registered; [done|by left]|].
    destruct (g_ctrl _ _ _ Hg n p Hc) as (req' & Hid' & [[]|[Hin|Hm]]); [set_solver|congruence].
  - intros [Hr Hm]. by eapply gated_met_active.
Qed.

(** C12: every step of a cluster simulates one step of the abstract registry:
    controllers are only added and removed by name, whatever features are added,
    replaced or removed, and connectivity changes, retries and shutdowns do not touch
    the registry. Each step keeps the invariant [gated]: the maps hold controllers under
    their own names, no name is in both, and no pending controller has all the features
    it requires. *)
Theorem cluster_refines_registry w w' :
  gated w → cluster_call false w w' →
  gated w' ∧ registry_step (registry_of w) (registry_of w').
Proof.
  intros Hg Hs. destruct (call_simulation false w w') as [Hg' Hr]; [|done|by split; [eapply gated_weaken|]].
  destruct Hg. split; [|done..]. intros n p Hn. destruct (g_ctrl0 n p Hn) as (req & ? & _). exists req. by split; [|left].
Qed.

Lemma reachable_gated strict w0 w :
  gated_except (exempt strict) [] w0 → rtc (cluster_call strict) w0 w → gated_except (exempt strict) [] w.
Proof.
  intros Hg Hrtc. induction Hrtc as [|x y z Hxy _ IH]; [done|].
  apply IH. by apply (call_simulation strict x y).
Qed.

(** C13: in every reachable state of a cluster, whatever features were added, replaced
    or removed: a registered controller is active or pending and never both; it is
    active when the advertised features meet all its requirements, and what is pending
    lacks one. When no feature was ever replaced by a different one under the same UID,
    a registered controller is active exactly when its requirements are met, and
    pending exactly when they are not; and after any [RemoveFeature] this holds in every
    case. *)
Theorem reachable_controllers_gated strict parent name secret kubeconf dead w n p req :
  rtc (cluster_call strict) (NewCluster parent name secret kubeconf dead) w →
  registered w !! n = Some p → heap_ids w !! p = Some (n, req) →
  (controllers (cl w) !! n = Some p ∨ pendingControllers (cl w) !! n = Some p)
  ∧ (controllers (cl w) !! n = None ∨ pendingControllers (cl w) !! n = None)
  ∧ (met (features (cl w)) req = true → controllers (cl w) !! n = Some p)
  ∧ (pendingControllers (cl w) !! n = Some p → met (features (cl w)) req = false)
  ∧ (strict = true →
      (controllers (cl w) !! n = Some p ↔ met (features (cl w)) req = true)
      ∧ (pendingControllers (cl w) !! n = Some p ↔ met (features (cl w)) req = false))
  ∧ (∀ uid order, order ≡ₚ (map_to_list (controllers (cl w))).*2 →
      let w' := RemoveFeature_in order uid w in
      controllers (cl w') !! n = Some p ↔ met (features (cl w')) req = true).
Proof.
  intros Hrtc Hr Hid.
  pose proof (reachable_gated strict _ _ (NewCluster_gated_except _ _ _ _ _ _) Hrtc) as Hg.
  assert (Hap := active_or_pending w n p Hr). split_and!; [done|apply (g_disj _ _ _ Hg)|by eapply gated_met_active|
    by eapply gated_pending_unmet| |].
  - intros ->. assert (Hact : controllers (cl w) !! n = Some p ↔ met (features (cl w)) req = true).
    { rewrite strict_active; [naive_solver| |done]. split; [|apply (g_pend _ _ _ Hg)|apply (g_disj _ _ _ Hg)].
      intros m q Hq. destruct (g_ctrl _ _ _ Hg m q Hq) as (req' & ? & [Hf|?]); [done|]. exists req'. by split; [|right]. }
    split; [done|]. split; [by eapply gated_pending_unmet|]. intros Hm. destruct Hap as [Hc%Hact|]; [congruence|done].
  - intros uid order Ho w'. destruct (RemoveFeature_gated _ (λ _, False) order uid w Hg Ho) as (Hs & Hreg & _ & Hi).
    fold w' in Hs, Hreg, Hi. rewrite (strict_active w' n p req), Hreg; [naive_solver|done|by rewrite Hi].
Qed.

(** Two worlds with the same registry whose active controllers are either active in
    both, or have the features they require, have the same maps. *)
Lemma gated_determined (ex : Ptr → Prop) w1 w2 :
  gated_except ex [] w1 → gated_except ex [] w2 → registry_of w1 = registry_of w2 → heap_ids w1 = heap_ids w2 →
  (∀ n p, ex p → controllers (cl w1) !! n = Some p ↔ controllers (cl w2) !! n = Some p) →
  controllers (cl w1) = controllers (cl w2) ∧ pendingControllers (cl w1) = pendingControllers (cl w2).
Proof.
  intros Hg1 Hg2 Hr Hi Hex. injection Hr as Hreg Hf.
  assert (Hc : ∀ n p, controllers (cl w1) !! n = Some p ↔ controllers (cl w2) !! n = Some p).
  { intros n p. split; intros Hl.
    - destruct (g_ctrl _ _ _ Hg1 n p Hl) as (req & Hid & [He|[Hin|Hm]]); [by apply Hex|set_solver|].
      apply (gated_met_active ex w2 n p req); [done|by rewrite <-Hi| |by rewrite <-Hf].
      rewrite <-Hreg. by apply (active_registered ex); [|left].
    - destruct (g_ctrl _ _ _ Hg2 n p Hl) as (req & Hid & [He|[Hin|Hm]]); [by apply Hex|set_solver|].
      apply (gated_met_active ex w1 n p req); [done|by rewrite Hi| |by rewrite Hf].
      rewrite Hreg. by apply (active_registered ex); [|left]. }
  assert (Hctrl : controllers (cl w1) = controllers (cl w2)) by (apply map_eq; intros n; by apply option_eq).
  split; [done|]. apply map_eq. intros n. apply option_eq. intros p.
  assert (Hdir : ∀ v v', gated_except ex [] v → registered v = registered v' → controllers (cl v) = controllers (cl v') →
    pendingControllers (cl v) !! n = Some p → pendingControllers (cl v') !! n = Some p).
  { intros v v' Hgv Hreq Hceq Hp. assert (Hrv : registered v' !! n = Some p).
    { rewrite <-Hreq. by apply (active_registered ex); [|right]. }
    destruct (active_or_pending v' n p Hrv) as [Hcv|]; [|done]. rewrite <-Hceq in Hcv.
    destruct (g_disj _ _ _ Hgv n); congruence. }
  split; by apply Hdir.
Qed.

(** The controllers that were active before [AddFeature] stay active. *)
Lemma AddFeature_determined w f order1 order2 :
  gated w → order1 ≡ₚ (map_to_list (pendingControllers (cl w))).*2 → order2 ≡ₚ (map_to_list (pendingControllers (cl w))).*2 →
  controllers (cl (AddFeature_in order1 f w)) = controllers (cl (AddFeature_in order2 f w))
  ∧ pendingControllers (cl (AddFeature_in order1 f w)) = pendingControllers (cl (AddFeature_in order2 f w)).
Proof.
  intros Hg H1 H2. set (ex := λ p, ∃ n, controllers (cl w) !! n = Some p).
  assert (Hge : gated_except ex [] w).
  { destruct Hg. split; [|done..]. intros n p Hn. destruct (g_ctrl0 n p Hn) as (req & ? & _). exists req.
    split; [done|]. left. by exists n. }
  assert (Hall : ∀ n p, controllers (cl w) !! n = Some p → ex p) by (intros n p Hn; by exists n).
  destruct (AddFeature_gated ex order1 f w Hge (or_intror Hall) H1) as (Ha1 & Hr1 & Hf1 & Hi1 & Hs1).
  destruct (AddFeature_gated ex order2 f w Hge (or_intror Hall) H2) as (Ha2 & Hr2 & Hf2 & Hi2 & Hs2).
  apply (gated_determined ex); [done|done|unfold registry_of; congruence|congruence|].
  (* an exempt controller is active under its name *)
  assert (Hname : ∀ v n p, gated_except ex [] v → heap_ids v = heap_ids w → ex p →
    controllers (cl v) !! n = Some p → controllers (cl w) !! n = Some p).
  { intros v n p Hv Hi [m Hm] Hn. destruct (g_ctrl _ _ _ Hv n p Hn) as (req & Hid & _).
    destruct (g_ctrl _ _ _ Hge m p Hm) as (req' & Hid' & _). rewrite Hi in Hid. congruence. }
  intros n p He. split; intros Hn.
  - eapply lookup_weaken; [|exact Hs2]. by apply (Hname (AddFeature_in order1 f w)).
  - eapply lookup_weaken; [|exact Hs1]. by apply (Hname (AddFeature_in order2 f w)).
Qed.

(** C14: in every state that keeps the invariant [gated], as all reachable ones do, the
    outcome of [AddFeature] and of [RemoveFeature] does not depend on the order in which
    the controller maps are visited: the same controllers end up active and the same
    ones pending, also when the feature replaces another one. *)
Theorem feature_changes_order_independent w f uid order1 order2 order3 order4 :
  gated w →
  order1 ≡ₚ (map_to_list (pendingControllers (cl w))).*2 → order1 ≡ₚ order2 →
  order3 ≡ₚ (map_to_list (controllers (cl w))).*2 → order3 ≡ₚ order4 →
  controllers (cl (AddFeature_in order1 f w)) = controllers (cl (AddFeature_in order2 f w))
  ∧ pendingControllers (cl (AddFeature_in order1 f w)) = pendingControllers (cl (AddFeature_in order2 f w))
  ∧ controllers (cl (RemoveFeature_in order3 uid w)) = controllers (cl (RemoveFeature_in order4 uid w))
  ∧ pendingControllers (cl (RemoveFeature_in order3 uid w))
    = pendingControllers (cl (RemoveFeature_in order4 uid w)).
Proof.
  intros Hg H1 H12 H3 H34.
  assert (H2 : order2 ≡ₚ (map_to_list (pendingControllers (cl w))).*2) by (by rewrite <-H12).
  assert (H4 : order4 ≡ₚ (map_to_list (controllers (cl w))).*2) by (by rewrite <-H34).
  destruct (AddFeature_determined w f order1 order2 Hg H1 H2).
  destruct (RemoveFeature_gated _ (λ _, False) order3 uid w Hg H3) as (Ha3 & Hr3 & Hf3 & Hi3).
  destruct (RemoveFeature_gated _ (λ _, False) order4 uid w Hg H4) as (Ha4 & Hr4 & Hf4 & Hi4).
  destruct (gated_determined (λ _, False) _ _ Ha3 Ha4); [unfold registry_of; congruence|congruence|done|].
  done.
Qed.
End contract.

(** ** Concrete runs *)

Section runs.
Existing Instance subset_selectors.

Definition istio_requirement : ClusterFeatureRequirement :=
  mkClusterFeatureRequirement "istio" ∅ [].
Definition gated_controller : managedController :=
  NewManagedController "rule-a" (OtherReconciler "r") [istio_requirement].
Definition peer_world : CWorld := NewCluster [0] "peer" None "" [].
Definition istio_feature : clusterFeature := NewClusterFeature "uid-1" "istio" ∅.

(** The controller is added before its feature is known. *)
Definition pending_world : CWorld :=
  AddController 7 (set_heap (<[7 := gated_controller]> (heap peer_world)) peer_world).

Lemma pending_reached strict : cluster_call strict peer_world pending_world.
Proof. by apply d_new. Qed.

Lemma active_reached strict : cluster_call strict pending_world (AddFeature istio_feature pending_world).
Proof. apply d_AddFeature; [by left|done]. Qed.

Lemma cluster_refines_registry_witness :
  gated pending_world
  ∧ registry_step (registry_of peer_world) (registry_of pending_world)
  ∧ registered pending_world !! "rule-a" = Some 7.
Proof.
  destruct (cluster_refines_registry peer_world pending_world
              (NewCluster_gated _ _ _ _ _) (pending_reached false)) as [Hg Hs].
  split; [exact Hg|split; [exact Hs|reflexivity]].
Defined.

Lemma reachable_controllers_gated_witness :
  controllers (cl (AddFeature istio_feature pending_world)) !! "rule-a" = Some 7.
Proof.
  destruct (reachable_controllers_gated true [0] "peer" None "" []
           (AddFeature istio_feature pending_world) "rule-a" 7 [istio_requirement]) as (_ & _ & _ & _ & H & _).
  - eapply rtc_l; [exact (pending_reached true)|]. eapply rtc_l; [exact (active_reached true)|]. apply rtc_refl.
  - vm_compute. reflexivity.
  - vm_compute. reflexivity.
  - apply (proj1 (H eq_refl)). vm_compute. reflexivity.
Defined.

(** Two controllers are active, and two more wait for a feature. *)
Definition busy_world : CWorld :=
  let add p n req w := AddController p (set_heap (<[p := NewManagedController n (OtherReconciler "r") req]> (heap w)) w) in
  add 9 "rule-d" [mkClusterFeatureRequirement "mesh" ∅ []]
    (add 8 "rule-c" [mkClusterFeatureRequirement "mesh" ∅ []]
      (add 6 "rule-b" [istio_requirement] (AddFeature istio_feature pending_world))).
Definition mesh_feature : clusterFeature := NewClusterFeature "uid-2" "mesh" ∅.

Lemma busy_gated : gated busy_world.
Proof.
  apply (gated_weaken (exempt false)), (reachable_gated false peer_world); [apply NewCluster_gated_except|].
  unfold busy_world. cbv zeta. do 3 (eapply rtc_r; [|by apply d_new]).
  eapply rtc_l; [exact (pending_reached false)|]. eapply rtc_l; [exact (active_reached false)|]. apply rtc_refl.
Qed.

Lemma feature_changes_order_independent_witness :
  controllers (cl (AddFeature_in [8; 9] mesh_feature busy_world))
    = controllers (cl (AddFeature_in [9; 8] mesh_feature busy_world))
  ∧ pendingControllers (cl (RemoveFeature_in [6; 7] "uid-1" busy_world))
    = pendingControllers (cl (RemoveFeature_in [7; 6] "uid-1" busy_world))
  ∧ size (controllers (cl (AddFeature_in [8; 9] mesh_feature busy_world))) = 4
  ∧ size (pendingControllers (cl (RemoveFeature_in [6; 7] "uid-1" busy_world))) = 4.
Proof.
  destruct (feature_changes_order_independent busy_world mesh_feature "uid-1" [8; 9] [9; 8] [6; 7] [7; 6])
    as (H1 & _ & _ & H4).
  - exact busy_gated.
  - apply (bool_decide_unpack _). vm_compute. exact I.
  - apply perm_swap.
  - apply (bool_decide_unpack _). vm_compute. exact I.
  - apply perm_swap.
  - split; [exact H1|]. split; [exact H4|]. split; vm_compute; reflexivity.
Defined.

(** [GetControllerByGVK] finds the controller whose name is the group of the kind:
    controllers are named after rules, so no kind leads to its controller. *)
Theorem GetControllerByGVK_by_group gvk w : GetControllerByGVK gvk w = GetController (Group gvk) w.
Proof.
  unfold GetControllerByGVK, GetController.
  assert (∀ l : list (string * Ptr), NoDup l.*1 → group_loop (Group gvk) l = (list_to_map l : gmap string Ptr) !! Group gvk)
    as H.
  { induction l as [|[n p] l IH]; simpl; intros Hnd; [by rewrite lookup_empty|]. apply NoDup_cons in Hnd as [_ Hnd].
    case_bool_decide as Hn; [by rewrite Hn, lookup_insert_eq|]. rewrite lookup_insert_ne by done. by apply IH. }
  rewrite H by apply NoDup_fst_map_to_list. by rewrite list_to_map_to_list.
Qed.

(** When a feature is replaced, under the UID it already has, by one that no longer
    meets a requirement, [AddFeature] visits only the pending controllers, and the
    active controller stays active without the feature it requires. *)
Theorem AddFeature_replace_leaves_unmet_active :
  let w := AddFeature istio_feature pending_world in
  let w' := AddFeature (NewClusterFeature "uid-1" "other" ∅) w in
  strictly_gated w ∧ controllers (cl w') !! "rule-a" = Some 7
  ∧ checkRequiredClusterFeatures gated_controller w' = false ∧ ¬ strictly_gated w'.
Proof.
  split_and!.
  - assert (H : gated_except (exempt true) [] (AddFeature istio_feature pending_world)).
    { apply (reachable_gated true peer_world); [apply NewCluster_gated_except|].
      eapply rtc_l; [exact (pending_reached true)|]. eapply rtc_l; [exact (active_reached true)|]. apply rtc_refl. }
    destruct H. split; [|done..]. intros n p Hn. destruct (g_ctrl0 n p Hn) as (req & ? & [Hf|?]); [done|].
    exists req. by split; [|right].
  - vm_compute. reflexivity.
  - vm_compute. reflexivity.
  - intros Hg.
    assert (Hc : controllers (cl (AddFeature (NewClusterFeature "uid-1" "other" ∅)
                   (AddFeature istio_feature pending_world))) !! "rule-a" = Some 7)
      by (vm_compute; reflexivity).
    destruct (g_ctrl _ _ _ Hg "rule-a" 7 Hc) as (req & Hid & [[]|[Hin|Hm]]); [inversion Hin|].
    vm_compute in Hid. injection Hid as <-. vm_compute in Hm. discriminate Hm.
Qed.
End runs.
