(* ===== verification/ClusterLife.v ===== *)
(** * The life cycle of a peer cluster

    The liveness loop, the manager and the controllers of [Cluster.v] over all
    interleavings of the goroutines and of the callers. *)

From stdpp Require Import gmap strings list relations.
From S2P Require Import Prelude Errors Types Match Features Cluster ClusterGate.
Open Scope string_scope.

(** ** Counting goroutines *)

Definition gcount (g : goroutine) (l : list goroutine) : nat := length (filter (g =.) l).

Lemma gcount_cons g g' l : gcount g (g' :: l) = (if decide (g = g') then 1 else 0) + gcount g l.
Proof. unfold gcount. rewrite filter_cons. by case_decide. Qed.

Lemma gcount_remove_eq g l : gcount g (remove_one g l) = pred (gcount g l).
Proof.
  induction l as [|g' l IH]; simpl; [done|]. rewrite gcount_cons.
  case_bool_decide; [by rewrite decide_True by done|].
  by rewrite gcount_cons, decide_False by done.
Qed.

Lemma gcount_remove_ne g g' l : g ≠ g' → gcount g (remove_one g' l) = gcount g l.
Proof.
  intros Hne. induction l as [|g'' l IH]; simpl; [done|]. case_bool_decide; subst.
  - by rewrite gcount_cons, decide_False.
  - by rewrite !gcount_cons, IH.
Qed.

Lemma gcount_pos g l : g ∈ l ↔ gcount g l ≠ 0.
Proof.
  induction l as [|g' l IH]; [set_solver|].
  rewrite gcount_cons, elem_of_cons, IH. case_decide; naive_solver lia.
Qed.

(** ** Frames: what leaves the manager alone *)

Definition same_mgr (w w' : CWorld) : Prop :=
  mgrCtx (cl w') = mgrCtx (cl w) ∧ mgrCtxCancel (cl w') = mgrCtxCancel (cl w)
  ∧ mgr (cl w') = mgr (cl w) ∧ gcount GManager (threads w') = gcount GManager (threads w).

#[global] Instance same_mgr_preorder : PreOrder same_mgr.
Proof. split; [by intros w|]. intros w1 w2 w3 (?&?&?&?) (?&?&?&?). repeat split; congruence. Qed.

Section frames.
Context `{SelectorLib}.

Lemma same_mgr_cancel x w : same_mgr w (cancel x w).
Proof. by destruct x. Qed.

Lemma same_mgr_mcStart x p w : same_mgr w (managedController_Start x p w).
Proof. unfold managedController_Start. go_cases. Qed.

Lemma same_mgr_mcStop p w : same_mgr w (managedController_Stop p w).
Proof.
  unfold managedController_Stop. destruct (heap w !! p) as [c|]; [|done].
  destruct (ctrlContextCancel c) as [x|]; [|done].
  etrans; [apply (same_mgr_cancel x)|]. done.
Qed.

Lemma same_mgr_AddController p w : same_mgr w (AddController p w).
Proof.
  unfold AddController, addController, addPendingController, start_under_manager.
  go_cases. etrans; [|apply same_mgr_mcStart]. done.
Qed.

Lemma same_mgr_RemoveControllerByName n w : same_mgr w (RemoveControllerByName n w).
Proof.
  unfold RemoveControllerByName. set (w1 := removePendingControllerByName n w).
  destruct (GetController n w1) as [p|]; [|done].
  etrans; [|apply (same_mgr_mcStop p w1)]. done.
Qed.

Lemma same_mgr_demote p w : same_mgr w (demote_if_unmet p w).
Proof.
  unfold demote_if_unmet, RemoveController. destruct (heap w !! p) as [c|]; [|done].
  destruct (checkRequiredClusterFeatures c w); [done|].
  etrans; [apply (same_mgr_RemoveControllerByName (mc_name c))|].
  unfold addPendingController. by case_match.
Qed.

Lemma same_mgr_AddFeature order f w : same_mgr w (AddFeature_in order f w).
Proof.
  unfold AddFeature_in. etrans; [|apply foldl_preorder; intros; apply same_mgr_AddController]. done.
Qed.

Lemma same_mgr_RemoveFeature order uid w : same_mgr w (RemoveFeature_in order uid w).
Proof.
  unfold RemoveFeature_in. etrans; [|apply foldl_preorder; intros; apply same_mgr_demote]. done.
Qed.

Lemma same_mgr_stopManager w : same_mgr w (stopManager w).
Proof. unfold stopManager. repeat case_match; try done. apply same_mgr_cancel. Qed.

Lemma same_mgr_runFuncs l w : same_mgr w (foldl (λ w f, runClusterFunc f w) w l).
Proof. by apply foldl_preorder. Qed.

Lemma same_mgr_setDead w : same_mgr w (setDead w).
Proof.
  unfold setDead. case_match; [done|]. etrans; [apply same_mgr_stopManager|].
  etrans; [apply same_mgr_runFuncs|]. done.
Qed.

Lemma same_mgr_run_exit p w : same_mgr w (run_exit p w).
Proof. unfold run_exit. case_match; [|done]. repeat split. simpl. by apply gcount_remove_ne. Qed.

(** ** The manager and its goroutine *)

(** The manager, its context and its goroutine come and go together, except that a
    manager that could not be created leaves a context behind. *)
Record life_ok (w : CWorld) : Prop := {
  life_cancel : mgrCtxCancel (cl w) = mgrCtx (cl w);
  life_ctx : mgr (cl w) = true → is_Some (mgrCtx (cl w));
  life_thread : gcount GManager (threads w) = if mgr (cl w) then 1 else 0 }.

Lemma same_mgr_life w w' : same_mgr w w' → life_ok w → life_ok w'.
Proof. intros (H1&H2&H3&H4) []. split; rewrite ?H1, ?H2, ?H3, ?H4; done. Qed.

(** What a call of [StartManager] does to the manager. *)
Lemma StartManager_effect created w :
  mgrCtx (cl w) = None →
  let w' := StartManager created w in
  mgrCtx (cl w') = Some (next w :: c_ctx (cl w)) ∧ mgrCtxCancel (cl w') = Some (next w :: c_ctx (cl w))
  ∧ mgr (cl w') = created ∧ mgrStopped (cl w') = false
  ∧ gcount GManager (threads w') = (if created then 1 else 0) + gcount GManager (threads w).
Proof.
  intros Hn. unfold StartManager, StartManager_in. rewrite Hn. simpl. destruct created; [|done]. simpl.
  set (w1 := go GManager _).
  set (R := λ w w', same_mgr w w' ∧ mgrStopped (cl w') = mgrStopped (cl w)).
  assert (HR : PreOrder R).
  { split; [by intros v|]. intros v1 v2 v3 [? Hs] [? Ht]. split; [by etrans|by rewrite Ht]. }
  assert (R w1 (foldl (λ w p, managedController_Start (next w1 - 1 :: c_ctx (cl w1)) p w) w1
                  (map_to_list (controllers (cl w))).*2)) as [(H1&H2&H3&H4) H5].
  { apply foldl_preorder. intros v p. split; [apply same_mgr_mcStart|].
    unfold managedController_Start. go_cases. }
  simpl in *. rewrite Nat.sub_0_r in *. rewrite H1, H2, H3, H4, H5. done.
Qed.

Lemma StartManager_noop created w : is_Some (mgrCtx (cl w)) → StartManager created w = w.
Proof. intros [x Hx]. unfold StartManager, StartManager_in. by rewrite Hx. Qed.

Lemma life_StartManager created w : life_ok w → life_ok (StartManager created w).
Proof.
  intros Hl. destruct (mgrCtx (cl w)) as [x|] eqn:Hx; [by rewrite StartManager_noop|].
  destruct (StartManager_effect created w Hx) as (H1&H2&H3&_&H5).
  assert (mgr (cl w) = false) as Hm.
  { apply not_true_iff_false. intros Hm. destruct (life_ctx w Hl Hm). congruence. }
  split; rewrite ?H1, ?H2, ?H3, ?H5; [done|done|].
  rewrite (life_thread w Hl), Hm. by destruct created.
Qed.

Lemma life_setAlive created w : life_ok w → life_ok (setAlive created w).
Proof.
  intros Hl. unfold setAlive. case_match; [done|].
  set (w1 := if negb _ then _ else w).
  assert (Hl1 : life_ok w1) by (unfold w1; case_match; [by apply life_StartManager|done]).
  revert Hl1. apply same_mgr_life. etrans; [apply same_mgr_runFuncs|]. done.
Qed.

Lemma life_livenessCheck pr created w : life_ok w → life_ok (livenessCheck pr created w).2.
Proof.
  intros Hl. destruct pr; simpl.
  1, 2: by eapply same_mgr_life; [apply same_mgr_setDead|].
  by eapply (same_mgr_life (setAlive created w)); [|apply life_setAlive].
Qed.

Lemma life_Start pr created w : life_ok w → life_ok (Start pr created w).2.
Proof.
  intros Hl%(life_livenessCheck pr created). unfold Start.
  destruct (livenessCheck pr created w) as [[] w1]; [done|]. revert Hl. by apply same_mgr_life.
Qed.

Lemma life_step w w' : cluster_step w w' → life_ok w → life_ok w'.
Proof.
  intros [Hb|Hc] Hl.
  - destruct Hb as [|w Hg Hd|w x Hg Hx Hd|w p Hg|w p Hg|w p Hg Hd|w p Hg|w p Hg Hd].
    + by apply life_livenessCheck.
    + eapply same_mgr_life; [|exact Hl]. etrans; [apply same_mgr_setDead|].
      repeat split. simpl. by apply gcount_remove_ne.
    + split; simpl; [done|done|]. rewrite gcount_remove_eq, (life_thread w Hl). by case_match.
    + eapply same_mgr_life; [|exact Hl]. repeat split. simpl. rewrite gcount_cons. simpl.
      by apply gcount_remove_ne.
    + done.
    + eapply same_mgr_life; [|exact Hl]. repeat split. by apply gcount_remove_ne.
    + eapply same_mgr_life; [|exact Hl]. repeat split. by apply gcount_remove_ne.
    + eapply same_mgr_life; [apply same_mgr_run_exit|exact Hl].
  - destruct Hc.
    + eapply same_mgr_life; [|exact Hl]. etrans; [|apply same_mgr_AddController]. done.
    + eapply same_mgr_life; [apply same_mgr_AddFeature|exact Hl].
    + eapply same_mgr_life; [apply same_mgr_RemoveFeature|exact Hl].
    + eapply same_mgr_life; [apply same_mgr_RemoveControllerByName|exact Hl].
    + by apply life_Start.
    + revert Hl. apply same_mgr_life. unfold AddOnAliveFunc. by case_match.
    + revert Hl. by apply same_mgr_life.
    + by apply life_StartManager.
    + revert Hl. apply same_mgr_life. etrans; [apply same_mgr_stopManager|]. done.
    + revert Hl. apply same_mgr_life, same_mgr_cancel.
Qed.

Lemma life_reachable parent name secret kubeconf dead w :
  rtc cluster_step (NewCluster parent name secret kubeconf dead) w → life_ok w.
Proof.
  assert (Hl : life_ok (NewCluster parent name secret kubeconf dead)) by (by split).
  revert Hl. generalize (NewCluster parent name secret kubeconf dead). intros w0 Hl Hr.
  induction Hr as [|x y z Hxy _ IH]; [done|]. apply IH. by eapply life_step.
Qed.

(** C15: in every reachable state there is at most one manager goroutine, there is
    one exactly while the manager exists, and a running manager has a context, so
    that controllers are never started under a nil one. *)
Theorem manager_lifecycle parent name secret kubeconf dead w :
  rtc cluster_step (NewCluster parent name secret kubeconf dead) w →
  (gcount GManager (threads w) ≤ 1)%nat
  ∧ (GManager ∈ threads w ↔ mgr (cl w) = true)
  ∧ (IsManagerRunning w = true → ∃ x, mgrCtx (cl w) = Some x ∧ mgrCtxCancel (cl w) = Some x).
Proof.
  intros Hl%life_reachable. rewrite gcount_pos, (life_thread w Hl). split_and!.
  - destruct (mgr (cl w)); lia.
  - by destruct (mgr (cl w)).
  - unfold IsManagerRunning. rewrite andb_true_iff. intros [_ Hm].
    destruct (life_ctx w Hl Hm) as [x Hx]. exists x. by rewrite (life_cancel w Hl).
Qed.

(** ** Starting the controllers *)

(** The controller [p] runs: it has a context below [x], which is also its cancel
    function, and a goroutine. *)
Definition started_under (x : ctx) (p : Ptr) (w : CWorld) : Prop :=
  ∃ c i, heap w !! p = Some c ∧ ctrlContext c = Some (i :: x) ∧ ctrlContextCancel c = Some (i :: x)
    ∧ GCheck p ∈ threads w.

Lemma mcStart_fresh x p c w :
  heap w !! p = Some c → ctrlContextCancel c = None → started_under x p (managedController_Start x p w).
Proof.
  intros Hp Hc. unfold managedController_Start. rewrite Hp, Hc. simpl.
  exists (mc_set_ctx (Some (next w :: x)) (Some (next w :: x)) c), (next w). simpl.
  rewrite lookup_insert_eq. split_and!; [done|done|done|left].
Qed.

Lemma mcStart_other x p q w : p ≠ q → heap (managedController_Start x q w) !! p = heap w !! p.
Proof.
  intros Hne. unfold managedController_Start. go_cases. by rewrite lookup_insert_ne.
Qed.

Lemma mcStart_keeps x y p q w : started_under x p w → started_under x p (managedController_Start y q w).
Proof.
  intros (c & i & Hp & Hx & Hc & Hg). destruct (decide (p = q)) as [<-|Hne].
  - unfold managedController_Start. rewrite Hp, Hc. by exists c, i.
  - exists c, i. rewrite mcStart_other by done. split_and!; [done..|].
    unfold managedController_Start. go_cases. by right.
Qed.

Lemma start_loop x order p c w :
  p ∈ order → heap w !! p = Some c → ctrlContextCancel c = None →
  started_under x p (foldl (λ w p, managedController_Start x p w) w order).
Proof.
  revert w. induction order as [|q order IH]; intros w Hin Hp Hc; simpl; [set_solver|].
  destruct (decide (p = q)) as [<-|Hne].
  - pose proof (mcStart_fresh x p c w Hp Hc) as Hs. revert Hs. clear.
    generalize (managedController_Start x p w). induction order as [|q order IH]; intros w' Hs; [done|].
    simpl. apply IH. by apply mcStart_keeps.
  - apply IH; [set_solver|by rewrite mcStart_other|done].
Qed.

Lemma start_loop_running x order p c y w :
  heap w !! p = Some c → ctrlContextCancel c = Some y →
  heap (foldl (λ w p, managedController_Start x p w) w order) !! p = Some c.
Proof.
  revert w. induction order as [|q order IH]; intros w Hp Hc; simpl; [done|]. apply IH; [|done].
  destruct (decide (p = q)) as [<-|Hne]; [|by rewrite mcStart_other].
  unfold managedController_Start. by rewrite Hp, Hc.
Qed.

(** When the manager of a cluster is created, every active controller that has
    no cancel function gets a context below the manager's and a goroutine, whatever
    the order of the iteration; the other controllers are not touched. *)
Theorem StartManager_starts_controllers order n p c w :
  mgrCtx (cl w) = None → order ≡ₚ (map_to_list (controllers (cl w))).*2 →
  controllers (cl w) !! n = Some p → heap w !! p = Some c →
  let w' := StartManager_in order true w in
  match ctrlContextCancel c with
  | None => ∃ x, mgrCtx (cl w') = Some x ∧ started_under x p w'
  | Some _ => heap w' !! p = Some c
  end.
Proof.
  intros Hm Ho Hn Hp. unfold StartManager_in. rewrite Hm. simpl.
  set (w1 := go GManager _). destruct (ctrlContextCancel c) as [y|] eqn:Hc.
  - by apply (start_loop_running _ _ _ _ y).
  - exists (next w :: c_ctx (cl w)). split.
    + assert (same_mgr w1 (foldl (λ w0 p, managedController_Start (next w :: c_ctx (cl w)) p w0) w1 order))
        as (-> & _); [apply foldl_preorder; intros; apply same_mgr_mcStart|done].
    + apply (start_loop _ _ _ c); [|done..]. rewrite Ho. apply elem_of_map_values. eauto.
Qed.

(** ** A manager that could not be created *)

Lemma stuck_step w w' :
  cluster_step w w' → life_ok w → is_Some (mgrCtx (cl w)) → mgr (cl w) = false →
  is_Some (mgrCtx (cl w')) ∧ mgr (cl w') = false.
Proof.
  assert (Hsame : ∀ v v', same_mgr v v' → is_Some (mgrCtx (cl v)) → mgr (cl v) = false →
            is_Some (mgrCtx (cl v')) ∧ mgr (cl v') = false) by (by intros v v' (-> & _ & -> & _)).
  assert (Halive : ∀ created v, is_Some (mgrCtx (cl v)) → same_mgr v (setAlive created v)).
  { intros created v Hs. unfold setAlive. case_match; [done|]. rewrite StartManager_noop by done.
    case_match; (etrans; [apply same_mgr_runFuncs|]); done. }
  assert (Hlive : ∀ pr created v, is_Some (mgrCtx (cl v)) → same_mgr v (livenessCheck pr created v).2).
  { intros [] created v Hs; simpl; [apply same_mgr_setDead..|].
    etrans; [by apply (Halive created)|]. done. }
  intros [Hb|Hc] Hl Hs Hm.
  - destruct Hb as [w pr created|w Hg Hd|w x Hg Hx Hd|w p Hg|w p Hg|w p Hg Hd|w p Hg|w p Hg Hd].
    + by eapply Hsame; [apply Hlive|..].
    + by eapply (Hsame w); [|done..]; etrans; [apply same_mgr_setDead|repeat split; by apply gcount_remove_ne].
    + apply gcount_pos in Hg. by rewrite (life_thread w Hl), Hm in Hg.
    + done.
    + done.
    + done.
    + done.
    + by eapply (Hsame w); [apply same_mgr_run_exit|..].
  - destruct Hc as [w c p|w f|w uid|w n|w pr created|w f|w f|w created|w|w].
    + by eapply (Hsame w); [|done..]; etrans; [|apply same_mgr_AddController].
    + by eapply Hsame; [apply same_mgr_AddFeature|..].
    + by eapply Hsame; [apply same_mgr_RemoveFeature|..].
    + by eapply Hsame; [apply same_mgr_RemoveControllerByName|..].
    + unfold Start. pose proof (Hlive pr created w Hs) as Hv.
      destruct (livenessCheck pr created w) as [[] w1]; by eapply (Hsame w).
    + unfold AddOnAliveFunc. by case_match.
    + done.
    + by rewrite StartManager_noop.
    + by eapply (Hsame w); [|done..]; etrans; [apply same_mgr_stopManager|].
    + by eapply (Hsame w); [apply same_mgr_cancel|..].
Qed.

Lemma stuck_forever w w' :
  rtc cluster_step w w' → life_ok w → is_Some (mgrCtx (cl w)) → mgr (cl w) = false →
  IsManagerRunning w' = false.
Proof.
  intros Hr. induction Hr as [w|x y z Hxy _ IH]; intros Hl Hs Hm.
  - unfold IsManagerRunning. rewrite Hm. apply andb_false_r.
  - destruct (stuck_step x y Hxy Hl Hs Hm). apply IH; [by eapply life_step|done..].
Qed.

(** If the manager cannot be created when a cluster first answers, its context
    stays set, every later attempt to start it is a no-op, and the manager never
    runs again, whatever the goroutines, the peer and the callers do. *)
Theorem failed_manager_never_runs parent name secret kubeconf dead uid w' :
  let w := (Start (ProbeUID uid) false (NewCluster parent name secret kubeconf dead)).2 in
  rtc cluster_step w w' → IsManagerRunning w' = false.
Proof.
  intros w Hr. eapply stuck_forever; [exact Hr|by apply life_Start|..].
  - assert (mgrCtx (cl w) = mgrCtx (cl (StartManager false (NewCluster parent name secret kubeconf dead)))) as ->
      by done. destruct (StartManager_effect false (NewCluster parent name secret kubeconf dead)) as (-> & _); done.
  - done.
Qed.

(** ** Controllers whose pre-check loop was interrupted *)

(** The context of [p] is done and no goroutine works for [p], but its cancel
    function is still set. *)
Definition abandoned (p : Ptr) (w : CWorld) : Prop :=
  ∃ c x, heap w !! p = Some c ∧ ctrlContextCancel c = Some x ∧ Done x w = true
    ∧ (GCheck p ∉ threads w) ∧ (GRun p ∉ threads w).

Definition stays_abandoned (p : Ptr) (w w' : CWorld) : Prop := abandoned p w → abandoned p w'.

#[global] Instance stays_abandoned_preorder p : PreOrder (stays_abandoned p).
Proof. split; [by intros w ?|]. intros w1 w2 w3 H12 H23 Hw. by apply H23, H12. Qed.

Lemma Done_mono x w w' : cancelled w ⊆ cancelled w' → Done x w = true → Done x w' = true.
Proof.
  intros Hsub. unfold Done. rewrite !existsb_exists. intros (i & Hi & Hc%bool_decide_eq_true).
  exists i. split; [done|]. apply bool_decide_eq_true. set_solver.
Qed.

Lemma elem_of_remove_one g g' l : g ∈ remove_one g' l → g ∈ l.
Proof. induction l as [|h l IH]; simpl; [done|]. case_bool_decide; rewrite ?elem_of_cons; naive_solver. Qed.

(** A step that leaves [p] alone, only cancels, and starts no goroutine for [p]. *)
Lemma stays_abandoned_frame p w w' :
  heap w' !! p = heap w !! p → cancelled w ⊆ cancelled w' →
  (∀ g, g ∈ threads w' → g ∈ threads w ∨ (g ≠ GCheck p ∧ g ≠ GRun p)) → stays_abandoned p w w'.
Proof.
  intros Hh Hc Ht (c & x & Hp & Hx & Hd & H1 & H2). exists c, x. rewrite Hh.
  split_and!; [done|done|by eapply Done_mono|naive_solver..].
Qed.

Lemma stays_abandoned_cancel p x w : stays_abandoned p w (cancel x w).
Proof. destruct x; apply stays_abandoned_frame; simpl; set_solver. Qed.

Lemma stays_abandoned_mcStart p x q w : stays_abandoned p w (managedController_Start x q w).
Proof.
  intros Hw. destruct (decide (p = q)) as [<-|Hne].
  - pose proof Hw as (c & y & Hp & Hy & _). unfold managedController_Start. by rewrite Hp, Hy.
  - revert Hw. apply stays_abandoned_frame; [by apply mcStart_other|..];
      unfold managedController_Start; go_cases; set_solver.
Qed.

Lemma stays_abandoned_StartManager p created w : stays_abandoned p w (StartManager created w).
Proof.
  unfold StartManager, StartManager_in. case_match; [done|]. simpl.
  destruct created; simpl; [|by apply stays_abandoned_frame; simpl; set_solver].
  etrans; [|apply foldl_preorder; intros; apply stays_abandoned_mcStart].
  apply stays_abandoned_frame; simpl; set_solver.
Qed.

Lemma stays_abandoned_runFuncs p l w : stays_abandoned p w (foldl (λ w f, runClusterFunc f w) w l).
Proof. apply foldl_preorder. intros v f. apply stays_abandoned_frame; simpl; set_solver. Qed.

Lemma stays_abandoned_set_cl p c w : stays_abandoned p w (set_cl c w).
Proof. apply stays_abandoned_frame; simpl; set_solver. Qed.

Lemma stays_abandoned_setDead p w : stays_abandoned p w (setDead w).
Proof.
  unfold setDead. case_match; [done|].
  assert (Hs : stays_abandoned p w (stopManager w)).
  { unfold stopManager. repeat case_match; try done. apply stays_abandoned_cancel. }
  etrans; [exact Hs|]. etrans; [apply stays_abandoned_runFuncs|]. apply stays_abandoned_set_cl.
Qed.

Lemma stays_abandoned_setAlive p created w : stays_abandoned p w (setAlive created w).
Proof.
  unfold setAlive. case_match; [done|]. set (w1 := if negb _ then _ else w).
  assert (Hs : stays_abandoned p w w1).
  { unfold w1. case_match; [apply stays_abandoned_StartManager|done]. }
  etrans; [exact Hs|]. etrans; [apply stays_abandoned_runFuncs|]. apply stays_abandoned_set_cl.
Qed.

Lemma stays_abandoned_background p w w' : background_step w w' → stays_abandoned p w w'.
Proof.
  destruct 1 as [w pr created Hg|w Hg Hd|w x Hg Hx Hd|w q Hg|w q Hg|w q Hg Hd|w q Hg|w q Hg Hd].
  - destruct pr; simpl; [apply stays_abandoned_setDead..|].
    etrans; [apply stays_abandoned_setAlive|]. apply stays_abandoned_set_cl.
  - etrans; [apply stays_abandoned_setDead|].
    apply stays_abandoned_frame; simpl; [done..|]. intros g Hin%elem_of_remove_one. by left.
  - apply stays_abandoned_frame; simpl; [done..|]. intros g Hin%elem_of_remove_one. by left.
  - intros Hw. assert (p ≠ q) by (by destruct Hw as (c & y & _ & _ & _ & Hn & _); intros ->).
    revert Hw. apply stays_abandoned_frame; simpl; [done..|].
    intros g [->|Hin%elem_of_remove_one]%elem_of_cons; [right; split; congruence|by left].
  - done.
  - apply stays_abandoned_frame; simpl; [done..|]. intros g Hin%elem_of_remove_one. by left.
  - apply stays_abandoned_frame; simpl; [done..|]. intros g Hin%elem_of_remove_one. by left.
  - intros Hw. assert (p ≠ q) by (by destruct Hw as (c & y & _ & _ & _ & _ & Hn); intros ->).
    revert Hw. unfold run_exit. case_match; [|done].
    apply stays_abandoned_frame; simpl; [by rewrite lookup_insert_ne|done|].
    intros g Hin%elem_of_remove_one. by left.
Qed.

(** A controller whose pre-check loop ended because its context was cancelled
    keeps its cancel function, so that no later manager starts it again: the peer
    may come and go any number of times, no goroutine ever works for it again. *)
Theorem interrupted_controller_never_restarts p w w' :
  abandoned p w → rtc background_step w w' →
  abandoned p w' ∧ (∀ x, managedController_Start x p w' = w').
Proof.
  intros Hw Hr.
  assert (Hw' : abandoned p w').
  { induction Hr as [|x y z Hxy _ IH]; [done|]. apply IH. by eapply stays_abandoned_background. }
  split; [done|]. intros x. destruct Hw' as (c & y & Hp & Hy & _).
  unfold managedController_Start. by rewrite Hp, Hy.
Qed.

(** ** The tree of contexts *)

(** Every context of the cluster's manager and controllers is below its own. *)
Definition ctx_tree (w : CWorld) : Prop :=
  (∀ x, mgrCtx (cl w) = Some x → c_ctx (cl w) `suffix_of` x)
  ∧ (∀ p c x, heap w !! p = Some c → ctrlContext c = Some x ∨ ctrlContextCancel c = Some x →
       c_ctx (cl w) `suffix_of` x).

Definition tree_kept (w w' : CWorld) : Prop :=
  c_ctx (cl w') = c_ctx (cl w) ∧ (ctx_tree w → ctx_tree w').

#[global] Instance tree_kept_preorder : PreOrder tree_kept.
Proof.
  split; [by intros w|]. intros w1 w2 w3 [E1 H1] [E2 H2]. split; [congruence|]. auto.
Qed.

(** Steps that keep the contexts, or drop some of them. *)
Lemma tree_kept_frame w w' :
  c_ctx (cl w') = c_ctx (cl w) → mgrCtx (cl w') = mgrCtx (cl w) ∨ mgrCtx (cl w') = None →
  heap w' = heap w → tree_kept w w'.
Proof.
  intros Hc Hm Hh. split; [done|]. intros [H1 H2]. split; rewrite ?Hc, ?Hh; [|done].
  destruct Hm as [-> | ->]; [done|by intros].
Qed.

Lemma tree_kept_heap p c w x xc :
  heap w !! p = Some c →
  (∀ y, x = Some y → ctrlContext c = Some y ∨ c_ctx (cl w) `suffix_of` y) →
  (∀ y, xc = Some y → ctrlContextCancel c = Some y ∨ c_ctx (cl w) `suffix_of` y) →
  tree_kept w (set_heap (<[p := mc_set_ctx x xc c]> (heap w)) w).
Proof.
  intros Hp Hx Hxc. split; [done|]. intros [H1 H2]. split; [done|]. simpl.
  intros q c' y [[<- <-]|[_ Hq]]%lookup_insert_Some; [|by eapply H2].
  simpl. intros [Hy|Hy]; [destruct (Hx y Hy)|destruct (Hxc y Hy)]; eauto.
Qed.

Lemma tree_kept_cancel x w : tree_kept w (cancel x w).
Proof. destruct x; [done|]. apply tree_kept_frame; auto. Qed.

Lemma tree_kept_mcStart x p w :
  (ctx_tree w → c_ctx (cl w) `suffix_of` x) → tree_kept w (managedController_Start x p w).
Proof.
  intros Hx. unfold managedController_Start. destruct (heap w !! p) as [c|] eqn:Hp; [|done].
  destruct (ctrlContextCancel c); [done|]. simpl.
  split; [done|]. intros Ht. pose proof (Hx Ht) as Hs.
  refine (proj2 (tree_kept_heap p c w (Some (next w :: x)) (Some (next w :: x)) Hp _ _) Ht);
    intros y [= <-]; right; by apply suffix_cons_r.
Qed.

Lemma tree_kept_mcStop p w : tree_kept w (managedController_Stop p w).
Proof.
  unfold managedController_Stop. destruct (heap w !! p) as [c|] eqn:Hp; [|done].
  set (w1 := match ctrlContextCancel c with Some x => cancel x w | None => w end).
  assert (tree_kept w w1) as Hw1 by (unfold w1; case_match; [apply tree_kept_cancel|done]).
  assert (heap w1 !! p = Some c) as Hp1 by (by unfold w1; destruct (ctrlContextCancel c) as [[]|]).
  etrans; [exact Hw1|]. apply (tree_kept_heap p c w1); [done|auto|done].
Qed.

Lemma tree_kept_AddController p w : tree_kept w (AddController p w).
Proof.
  unfold AddController, addController, addPendingController, start_under_manager.
  destruct (heap w !! p) as [c|]; [|done]. destruct (checkRequiredClusterFeatures c w).
  2: { by apply tree_kept_frame; auto. }
  destruct (GetController (mc_name c) w); [done|].
  set (w1 := set_cl (c_set_controllers (<[mc_name c := p]> _) _ _) _).
  etrans; [apply (tree_kept_frame w w1); auto|]. case_match; [|done].
  destruct (mgrCtx (cl w1)) as [x|] eqn:Hx; [|done].
  apply tree_kept_mcStart. intros [Hm _]. by apply Hm.
Qed.

Lemma tree_kept_RemoveControllerByName n w : tree_kept w (RemoveControllerByName n w).
Proof.
  unfold RemoveControllerByName. set (w1 := removePendingControllerByName n w).
  etrans; [apply (tree_kept_frame w w1); auto|]. destruct (GetController n w1) as [p|]; [|done].
  etrans; [apply (tree_kept_mcStop p)|]. apply tree_kept_frame; auto.
Qed.

Lemma tree_kept_demote p w : tree_kept w (demote_if_unmet p w).
Proof.
  unfold demote_if_unmet, RemoveController. destruct (heap w !! p) as [c|]; [|done]. case_match; [done|].
  etrans; [apply (tree_kept_RemoveControllerByName (mc_name c))|].
  unfold addPendingController. case_match; [|done]. apply tree_kept_frame; auto.
Qed.

Lemma tree_kept_start_loop x order w :
  c_ctx (cl w) `suffix_of` x →
  tree_kept w (foldl (λ w p, managedController_Start x p w) w order).
Proof.
  revert w. induction order as [|p order IH]; intros w Hx; simpl; [done|].
  assert (Hs : tree_kept w (managedController_Start x p w)) by (by apply tree_kept_mcStart).
  etrans; [exact Hs|]. apply IH. by rewrite (proj1 Hs).
Qed.

Lemma tree_kept_StartManager created w : tree_kept w (StartManager created w).
Proof.
  unfold StartManager, StartManager_in. case_match; [done|]. simpl.
  set (w1 := set_cl (c_set_mgr _ _ _ _) _).
  assert (Hw1 : tree_kept w w1).
  { split; [done|]. intros [H1 H2]. split; [|done]. intros x [= <-]. by apply suffix_cons_r. }
  destruct created; simpl; [|done]. etrans; [exact Hw1|].
  etrans; [apply (tree_kept_frame w1 (go GManager w1)); auto|].
  apply tree_kept_start_loop. simpl. by apply suffix_cons_r.
Qed.

Lemma tree_kept_runFuncs l w : tree_kept w (foldl (λ w f, runClusterFunc f w) w l).
Proof. apply foldl_preorder. intros. apply tree_kept_frame; auto. Qed.

Lemma tree_kept_stopManager w : tree_kept w (stopManager w).
Proof. unfold stopManager. repeat case_match; try done. apply tree_kept_cancel. Qed.

Lemma tree_kept_setDead w : tree_kept w (setDead w).
Proof.
  unfold setDead. case_match; [done|]. etrans; [apply tree_kept_stopManager|].
  etrans; [apply tree_kept_runFuncs|]. apply tree_kept_frame; auto.
Qed.

Lemma tree_kept_setAlive created w : tree_kept w (setAlive created w).
Proof.
  unfold setAlive. case_match; [done|]. set (w1 := if negb _ then _ else w).
  assert (Hs : tree_kept w w1) by (unfold w1; case_match; [apply tree_kept_StartManager|done]).
  etrans; [exact Hs|]. etrans; [apply tree_kept_runFuncs|]. apply tree_kept_frame; auto.
Qed.

Lemma tree_kept_livenessCheck pr created w : tree_kept w (livenessCheck pr created w).2.
Proof.
  destruct pr; simpl; [apply tree_kept_setDead..|].
  etrans; [apply (tree_kept_setAlive created)|]. apply tree_kept_frame; auto.
Qed.

Lemma tree_kept_background w w' : background_step w w' → tree_kept w w'.
Proof.
  destruct 1; try (apply tree_kept_frame; by auto).
  - apply tree_kept_livenessCheck.
  - etrans; [apply tree_kept_setDead|]. apply tree_kept_frame; auto.
  - unfold run_exit. destruct (heap w !! p) as [c|] eqn:Hp; [|done].
    etrans; [apply (tree_kept_heap p c w None None Hp); by intros|]. apply tree_kept_frame; auto.
Qed.

Lemma tree_kept_call w w' : call_step w w' → tree_kept w w'.
Proof.
  destruct 1 as [w c p Hp H1 H2|w f|w uid|w n|w pr created|w f|w f|w created|w|w].
  - etrans; [|apply tree_kept_AddController]. split; [done|]. intros [Hm Hh]. split; [done|]. simpl.
    intros q c' x [[<- <-]|[_ Hq]]%lookup_insert_Some; [|by eapply Hh]. rewrite H1, H2. by intros [].
  - unfold AddFeature, AddFeature_in.
    etrans; [|apply foldl_preorder; intros; apply tree_kept_AddController]. apply tree_kept_frame; auto.
  - unfold RemoveFeature, RemoveFeature_in.
    etrans; [|apply foldl_preorder; intros; apply tree_kept_demote]. apply tree_kept_frame; auto.
  - apply tree_kept_RemoveControllerByName.
  - unfold Start. pose proof (tree_kept_livenessCheck pr created w) as Hl.
    destruct (livenessCheck pr created w) as [[] w1]; [done|].
    etrans; [exact Hl|]. apply tree_kept_frame; auto.
  - unfold AddOnAliveFunc. case_match; apply tree_kept_frame; auto.
  - apply tree_kept_frame; auto.
  - apply tree_kept_StartManager.
  - etrans; [apply tree_kept_stopManager|]. apply tree_kept_frame; auto.
  - apply tree_kept_cancel.
Qed.

Lemma tree_reachable w0 w : rtc cluster_step w0 w → tree_kept w0 w.
Proof.
  induction 1 as [|x y z [Hb|Hc] _ IH]; [done|..]; (etrans; [|exact IH]);
    [by apply tree_kept_background|by apply tree_kept_call].
Qed.

Lemma Done_suffix x y w : x `suffix_of` y → Done x w = true → Done y w = true.
Proof. intros [l ->]. unfold Done. rewrite existsb_app. intros ->. apply orb_true_r. Qed.

(** C16: shutting a cluster down cancels everything it started: after [Stop], in any
    reachable state, the context of the cluster, of its manager and of every
    controller it ever ran are all done. *)
Theorem Stop_cancels_everything parent name secret kubeconf dead w :
  rtc cluster_step (NewCluster parent name secret kubeconf dead) w →
  Done (c_ctx (cl (Stop w))) (Stop w) = true
  ∧ (∀ x, mgrCtx (cl (Stop w)) = Some x → Done x (Stop w) = true)
  ∧ (∀ p c x, heap (Stop w) !! p = Some c → ctrlContext c = Some x → Done x (Stop w) = true).
Proof.
  intros Hr. destruct (tree_reachable _ _ Hr) as [Hc Ht].
  assert (HD : Done (c_ctx (cl (Stop w))) (Stop w) = true).
  { unfold Stop. rewrite Hc. simpl. rewrite Hc. simpl. by rewrite bool_decide_true by set_solver. }
  assert (ctx_tree (Stop w)) as [Hm Hh].
  { apply (tree_kept_cancel (c_ctx (cl w)) w), Ht. split; simpl; [done|].
    intros p c x. by rewrite lookup_empty. }
  split_and!; [done|intros x Hx; eapply Done_suffix; [by apply Hm|done]|].
  intros p c x Hp Hx. eapply Done_suffix; [eapply Hh; [exact Hp|by left]|done].
Qed.

(** ** The liveness flag and its callbacks *)

Definition probe_ok (pr : probe) : bool := match pr with ProbeUID _ => true | _ => false end.

(** The rounds of the liveness loop, each with the outcome of creating a manager. *)
Definition run_probes (l : list (probe * bool)) (w : CWorld) : CWorld :=
  foldl (λ w pc, (livenessCheck pc.1 pc.2 w).2) w l.

(** The log of calls after the callbacks of a list were run, one after the other. *)
Definition run_log (fs : list ClusterFunc) (log : list string) : list string :=
  foldl (λ log f, func_attempts func_steps f log) log fs.

(** The specification: callbacks run on the edges of the probe results only. *)
Fixpoint edges (b : bool) (onAlive onDead : list ClusterFunc) (l : list probe) : list ClusterFunc :=
  match l with
  | [] => []
  | pr :: l' =>
      (match b, probe_ok pr with
       | false, true => onAlive
       | true, false => onDead
       | _, _ => []
       end ++ edges (probe_ok pr) onAlive onDead l')%list
  end.

(** The part of a cluster the liveness loop reports on. *)
Definition liveness_view (w : CWorld) : bool * list string * (list ClusterFunc * list ClusterFunc) :=
  (alive (cl w), func_runs w, (onAliveFuncs (cl w), onDeadFuncs (cl w))).

Lemma foldl_runFuncs l w :
  foldl (λ w f, runClusterFunc f w) w l
  = mkCWorld (next w) (cancelled w) (heap w) (cl w) (threads w) (run_log l (func_runs w)).
Proof. revert w. induction l as [|f l IH]; intros w; simpl; [by destruct w|]. by rewrite IH. Qed.

Definition same_view (w w' : CWorld) : Prop :=
  liveness_view w' = liveness_view w ∧ clusterID (cl w') = clusterID (cl w).

#[global] Instance same_view_preorder : PreOrder same_view.
Proof. split; [by intros w|]. intros w1 w2 w3 [? ?] [? ?]. split; congruence. Qed.

Lemma StartManager_view created w : same_view w (StartManager created w).
Proof.
  unfold StartManager, StartManager_in. case_match; [done|]. destruct created; simpl; [|done].
  etrans; [|apply foldl_preorder; intros v p; unfold managedController_Start; go_cases]. done.
Qed.

Lemma stopManager_frame w : cl (stopManager w) = cl w ∧ func_runs (stopManager w) = func_runs w.
Proof.
  unfold stopManager. destruct (mgrCtx (cl w)), (mgrCtxCancel (cl w)) as [[|i x]|]; done.
Qed.

Lemma livenessCheck_view pr created w :
  let w' := (livenessCheck pr created w).2 in
  alive (cl w') = probe_ok pr
  ∧ func_runs w' = run_log (edges (alive (cl w)) (onAliveFuncs (cl w)) (onDeadFuncs (cl w)) [pr]) (func_runs w)
  ∧ onAliveFuncs (cl w') = onAliveFuncs (cl w) ∧ onDeadFuncs (cl w') = onDeadFuncs (cl w)
  ∧ clusterID (cl w') = match pr with ProbeUID uid => uid | _ => clusterID (cl w) end.
Proof.
  assert (Hdead : ∀ v, alive (cl (setDead v)) = false
    ∧ func_runs (setDead v) = run_log (if alive (cl v) then onDeadFuncs (cl v) else []) (func_runs v)
    ∧ onAliveFuncs (cl (setDead v)) = onAliveFuncs (cl v) ∧ onDeadFuncs (cl (setDead v)) = onDeadFuncs (cl v)
    ∧ clusterID (cl (setDead v)) = clusterID (cl v)).
  { intros v. unfold setDead. destruct (alive (cl v)) eqn:Ha; simpl; [|done].
    rewrite foldl_runFuncs. simpl. by destruct (stopManager_frame v) as [-> ->]. }
  destruct pr as [| |uid]; simpl.
  1, 2: destruct (Hdead w) as (-> & -> & -> & -> & ->); rewrite app_nil_r; by destruct (alive (cl w)).
  unfold setAlive. destruct (alive (cl w)) eqn:Ha; simpl; [done|].
  set (w1 := if negb _ then _ else w).
  assert (same_view w w1) as [Hv _] by (unfold w1; case_match; [apply StartManager_view|done]).
  unfold liveness_view in Hv. simplify_eq.
  rewrite foldl_runFuncs. simpl. rewrite app_nil_r. naive_solver congruence.
Qed.

(** A callback is called again until it succeeds, five times at most. *)
Lemma func_attempts_bounded (steps : nat) f log :
  ∃ k : nat, (k ≤ steps)%nat ∧ func_attempts steps f log = (log ++ replicate k (cf_name f))%list
       ∧ (steps = 0 ∨ 1 ≤ k)%nat ∧ ((k < steps)%nat → cf_ok f (length log + pred k) = true).
Proof.
  revert log. induction steps as [|steps IH]; intros log; simpl; [by exists 0; rewrite app_nil_r; eauto with lia|].
  destruct (cf_ok f (length log)) eqn:Hok.
  - exists 1. rewrite Nat.add_0_r. split_and!; eauto with lia.
  - destruct (IH (log ++ [cf_name f])%list) as (k & Hk & -> & Hpos & Hlast).
    exists (S k). rewrite <-(assoc_L (++)%list). simpl. split_and!; [lia|done|lia|].
    intros Hlt. rewrite length_app in Hlast. simpl in Hlast.
    replace (length log + k) with (length log + 1 + pred k) by lia. apply Hlast. lia.
Qed.

(** C17: after any number of rounds of the liveness loop the cluster is alive
    exactly when the last probe was answered, its id is the last one reported, and
    the callbacks that ran are those of the edges of the probe results: the alive
    callbacks when it comes back, the dead ones when it is lost. To run a callback is
    to call it one to five times, fewer than five only if the last call succeeded. *)
Theorem liveness_edge_triggered l w :
  let w' := run_probes l w in
  alive (cl w') = foldl (λ _ pc, probe_ok pc.1) (alive (cl w)) l
  ∧ func_runs w' = run_log (edges (alive (cl w)) (onAliveFuncs (cl w)) (onDeadFuncs (cl w)) l.*1) (func_runs w)
  ∧ clusterID (cl w') = foldl (λ i pc, match pc.1 with ProbeUID uid => uid | _ => i end) (clusterID (cl w)) l
  ∧ ∀ f log, ∃ k : nat, (1 ≤ k ≤ 5)%nat ∧ func_attempts func_steps f log = (log ++ replicate k (cf_name f))%list
                  ∧ ((k < 5)%nat → cf_ok f (length log + pred k) = true).
Proof.
  assert (Hcalls : ∀ f log, ∃ k : nat, (1 ≤ k ≤ 5)%nat ∧ func_attempts func_steps f log = (log ++ replicate k (cf_name f))%list
                  ∧ ((k < 5)%nat → cf_ok f (length log + pred k) = true)).
  { intros f log. destruct (func_attempts_bounded func_steps f log) as (k & Hk & Hl & [|Hp] & Hlast); [done|].
    exists k. unfold func_steps in *. eauto with lia. }
  simpl. revert w. induction l as [|[pr created] l IH]; intros w; simpl; [done|].
  destruct (livenessCheck_view pr created w) as (Ha & Hf & H1 & H2 & Hid).
  destruct (IH (livenessCheck pr created w).2) as (HA & HF & HID & _). rewrite HA, HF, HID, Ha, Hf, H1, H2, Hid.
  split_and!; [done| |done..]. simpl. unfold run_log. by rewrite app_nil_r, foldl_app.
Qed.
End frames.

(** ** Concrete runs *)

Section life_runs.
Existing Instance subset_selectors.

Definition sync_controller : managedController := NewManagedController "rule-b" (OtherReconciler "r") [].

(** A controller is added, the cluster answers, then is lost, and the pre-check
    loop of the controller sees its context cancelled. *)
Definition run1 : CWorld := AddController 3 (set_heap (<[3 := sync_controller]> (heap peer_world)) peer_world).
Definition run2 : CWorld := (Start (ProbeUID "id") true run1).2.
Definition run3 : CWorld := (livenessCheck ProbeError true run2).2.
Definition run4 : CWorld := go_end (GCheck 3) run3.

Lemma run2_reached : rtc cluster_step peer_world run2.
Proof.
  eapply rtc_l; [right; by apply (call_new peer_world sync_controller 3)|].
  eapply rtc_l; [right; apply (call_Start run1 (ProbeUID "id") true)|]. apply rtc_refl.
Qed.

Lemma run3_reached : rtc cluster_step peer_world run3.
Proof.
  eapply rtc_r; [exact run2_reached|]. left. apply (step_tick run2 ProbeError true). vm_compute. left.
Qed.

Lemma run4_abandoned : abandoned 3 run4.
Proof.
  eexists _, _. split_and!; [vm_compute; reflexivity..| |]; apply (bool_decide_unpack _); vm_compute; exact I.
Qed.

Lemma manager_lifecycle_witness :
  IsManagerRunning run2 = true ∧ ∃ x, mgrCtx (cl run2) = Some x ∧ mgrCtxCancel (cl run2) = Some x.
Proof.
  split; [vm_compute; reflexivity|].
  apply (manager_lifecycle [0] "peer" None "" [] run2 run2_reached). vm_compute. reflexivity.
Defined.

Lemma Stop_cancels_everything_witness :
  ∃ x, mgrCtx (cl (Stop run2)) = Some x ∧ Done x (Stop run2) = true.
Proof.
  eexists. split; [vm_compute; reflexivity|].
  apply (Stop_cancels_everything [0] "peer" None "" [] run2 run2_reached). vm_compute. reflexivity.
Defined.

Lemma StartManager_starts_controllers_witness :
  ∃ x, mgrCtx (cl (StartManager_in [3] true run1)) = Some x
       ∧ started_under x 3 (StartManager_in [3] true run1).
Proof.
  refine (StartManager_starts_controllers [3] "rule-b" 3 sync_controller run1 _ _ _ _);
    [reflexivity| |vm_compute; reflexivity..]. vm_compute. reflexivity.
Defined.

Lemma failed_manager_never_runs_witness :
  IsManagerRunning (livenessCheck (ProbeUID "id") true (Start (ProbeUID "id") false peer_world).2).2 = false.
Proof.
  refine (failed_manager_never_runs [0] "peer" None "" [] "id" _ _).
  eapply rtc_l; [|apply rtc_refl]. left. apply step_tick. vm_compute. left.
Defined.

Lemma interrupted_controller_never_restarts_witness :
  abandoned 3 (livenessCheck (ProbeUID "id") true run4).2.
Proof.
  refine (proj1 (interrupted_controller_never_restarts 3 run4 _ run4_abandoned _)).
  eapply rtc_l; [|apply rtc_refl]. apply step_tick. vm_compute. left.
Defined.

(** A cluster that answers again before the goroutine of its old manager has
    ended is alive without a manager: the new [StartManager] saw the old context and
    did nothing. As long as the peer keeps answering no manager is started. *)
Theorem alive_without_manager :
  ∃ w, rtc cluster_step peer_world w ∧ alive (cl w) = true ∧ mgrStopped (cl w) = false
    ∧ ∀ l, Forall (λ pc, probe_ok pc.1 = true) l → IsManagerRunning (run_probes l w) = false.
Proof.
  set (w1 := (livenessCheck (ProbeUID "id") true run3).2). exists (manager_exit w1). split_and!.
  - eapply rtc_r; [eapply rtc_r; [exact run3_reached|]|].
    + left. apply (step_tick run3 (ProbeUID "id") true). vm_compute. left.
    + left. eapply (step_manager_exit w1); [|vm_compute; reflexivity..].
      apply (bool_decide_unpack _). vm_compute. exact I.
  - vm_compute. reflexivity.
  - vm_compute. reflexivity.
  - assert (Hw : alive (cl (manager_exit w1)) = true ∧ mgr (cl (manager_exit w1)) = false)
      by (vm_compute; done).
    revert Hw. generalize (manager_exit w1). intros w Hw l Hl. revert w Hw.
    induction Hl as [|[pr created] l Hp Hl IH]; intros w [Ha Hm]; simpl.
    { unfold IsManagerRunning. rewrite Hm. apply andb_false_r. }
    destruct pr; try done. simpl. apply IH. unfold setAlive. by rewrite Ha.
Qed.
End life_runs.
