(* ===== verification/ClusterDrain.v ===== *)
(** * Shutting a peer cluster down

    After [Stop], every goroutine of the cluster finds its context done: the goroutines
    leave one after the other, whatever the order, until none is left. *)

From stdpp Require Import gmap strings list relations.
From S2P Require Import Prelude Errors Types Match Features Cluster ClusterGate ClusterLife.
Open Scope string_scope.

Section drain.
Context `{SelectorLib}.

(** The steps in which a goroutine returns because its context is done. *)
Inductive exit_step : relation CWorld :=
| exit_liveness w :
    GLiveness ∈ threads w → Done (c_ctx (cl w)) w = true →
    exit_step w (go_end GLiveness (let w := setDead w in set_cl (c_set_started false (cl w)) w))
| exit_manager w x :
    GManager ∈ threads w → mgrCtx (cl w) = Some x → Done x w = true → exit_step w (manager_exit w)
| exit_check w p : GCheck p ∈ threads w → ctrl_done p w → exit_step w (go_end (GCheck p) w)
| exit_run w p : GRun p ∈ threads w → ctrl_done p w → exit_step w (run_exit p w).

Lemma exit_is_background w w' : exit_step w w' → background_step w w'.
Proof. destruct 1; by econstructor. Qed.

(** Every controller has at most one goroutine, which has a context to wait on. A
    controller that is started again while its last run is still ending has two. *)
Definition tidy (w : CWorld) : Prop :=
  ∀ p, (gcount (GCheck p) (threads w) + gcount (GRun p) (threads w) ≤ 1)%nat
       ∧ (GCheck p ∈ threads w ∨ GRun p ∈ threads w → ∃ c x, heap w !! p = Some c ∧ ctrlContext c = Some x).

(** ** Exits *)

Lemma remove_one_length g l : g ∈ l → length (remove_one g l) = pred (length l).
Proof.
  induction l as [|g' l IH]; [by intros ?%elem_of_nil|]. simpl. case_bool_decide as Hg; [done|].
  intros [?|Hin]%elem_of_cons; [done|]. simpl. rewrite IH by done.
  destruct l; [by apply elem_of_nil in Hin|done].
Qed.

Lemma setDead_frame w : threads (setDead w) = threads w ∧ heap (setDead w) = heap w
  ∧ c_ctx (cl (setDead w)) = c_ctx (cl w) ∧ cancelled w ⊆ cancelled (setDead w).
Proof.
  unfold setDead. case_match; [done|]. rewrite foldl_runFuncs. simpl. unfold stopManager.
  destruct (mgrCtx (cl w)), (mgrCtxCancel (cl w)) as [[|i x]|]; simpl; split_and!; try done; set_solver.
Qed.

(** What an exit does to the goroutines, the contexts and the controllers. *)
Lemma exit_effect w w' :
  exit_step w w' →
  (∃ g, g ∈ threads w ∧ threads w' = remove_one g (threads w)
        ∧ (heap w' = heap w
           ∨ ∃ p c, g = GRun p ∧ heap w !! p = Some c ∧ heap w' = <[p := mc_set_ctx None None c]> (heap w)))
  ∧ c_ctx (cl w') = c_ctx (cl w) ∧ cancelled w ⊆ cancelled w'.
Proof.
  destruct 1 as [w Hg Hd|w x Hg Hm Hd|w p Hg Hd|w p Hg (c & x & Hc & Hx & Hd)].
  - destruct (setDead_frame w) as (Ht & Hh & Hc & Hcan). simpl. rewrite Ht, Hh, Hc.
    split_and!; [exists GLiveness; auto|done|done].
  - split_and!; [exists GManager; auto|done|done].
  - split_and!; [exists (GCheck p); auto|done|done].
  - unfold run_exit. rewrite Hc. split_and!; [|done|done].
    exists (GRun p). split_and!; [done|done|]. right. by exists p, c.
Qed.

Lemma exit_shortens w w' : exit_step w w' → (length (threads w') < length (threads w))%nat.
Proof.
  intros [(g & Hg & -> & _) _]%exit_effect. rewrite remove_one_length by done.
  destruct (threads w); [by apply elem_of_nil in Hg|simpl; lia].
Qed.

Lemma elem_remove_one_count g g' l : g ∈ remove_one g' l → g ∈ l ∧ (g = g' → (2 ≤ gcount g l)%nat).
Proof.
  intros Hin. split; [by eapply elem_of_remove_one|]. intros ->.
  apply gcount_pos in Hin. rewrite gcount_remove_eq in Hin. lia.
Qed.

Lemma gcount_remove_le g g' l : (gcount g (remove_one g' l) ≤ gcount g l)%nat.
Proof. destruct (decide (g = g')) as [->|]; [rewrite gcount_remove_eq|rewrite gcount_remove_ne by done]; lia. Qed.

Lemma exit_tidy w w' : exit_step w w' → tidy w → tidy w'.
Proof.
  intros [(g & Hg & Ht & Hh) _]%exit_effect Htidy q. destruct (Htidy q) as [Hcount Hctx]. rewrite Ht. split.
  - pose proof (gcount_remove_le (GCheck q) g (threads w)). pose proof (gcount_remove_le (GRun q) g (threads w)). lia.
  - intros Hin. destruct Hctx as (c & x & Hc & Hx).
    { destruct Hin as [[? _]%elem_remove_one_count|[? _]%elem_remove_one_count]; auto. }
    destruct Hh as [-> |(p & c' & -> & Hp & ->)]; [by exists c, x|].
    destruct (decide (p = q)) as [->|Hne]; [|exists c, x; by rewrite lookup_insert_ne]. exfalso.
    apply gcount_pos in Hg as Hpos.
    destruct Hin as [[Hi _]%elem_remove_one_count|[_ Hi]%elem_remove_one_count].
    + apply gcount_pos in Hi. lia.
    + specialize (Hi eq_refl). lia.
Qed.

(** ** Draining *)

(** A cluster that was stopped, and its goroutines. *)
Record stopping (w : CWorld) : Prop := {
  st_life : life_ok w;
  st_tree : ctx_tree w;
  st_done : Done (c_ctx (cl w)) w = true;
  st_tidy : tidy w }.

Lemma stopping_exit w w' : exit_step w w' → stopping w → stopping w'.
Proof.
  intros Hs [Hl Ht Hd Hy]. pose proof (exit_effect w w' Hs) as (_ & Hc & Hcan). split.
  - eapply life_step; [left; by apply exit_is_background|done].
  - by apply (tree_kept_background w w' (exit_is_background w w' Hs)).
  - rewrite Hc. by eapply Done_mono.
  - by eapply exit_tidy.
Qed.

Lemma stopping_ctrl_done w p :
  stopping w → GCheck p ∈ threads w ∨ GRun p ∈ threads w → ctrl_done p w.
Proof.
  intros [Hl [_ Ht] Hd Hy] Hin. destruct (proj2 (Hy p) Hin) as (c & x & Hc & Hx). exists c, x.
  split_and!; [done|done|]. eapply Done_suffix; [eapply Ht; [exact Hc|by left]|done].
Qed.

Lemma stopping_progress w : stopping w → threads w ≠ [] → ∃ w', exit_step w w'.
Proof.
  intros Hs Hne. destruct (threads w) as [|g l] eqn:Hth; [done|].
  assert (g ∈ threads w) as Hg by (rewrite Hth; left). destruct g as [| |p|p].
  - eexists. apply exit_liveness; [done|apply Hs].
  - pose proof (st_life w Hs) as Hl. apply gcount_pos in Hg as Hc. rewrite (life_thread w Hl) in Hc.
    destruct (mgr (cl w)) eqn:Hm; [|done]. destruct (life_ctx w Hl Hm) as [x Hx].
    eexists. eapply exit_manager; [done|exact Hx|].
    eapply Done_suffix; [by apply (st_tree w Hs)|apply Hs].
  - eexists. apply exit_check; [exact Hg|]. apply stopping_ctrl_done; auto.
  - eexists. apply exit_run; [exact Hg|]. apply stopping_ctrl_done; auto.
Qed.

Lemma stopping_exits w w' : rtc exit_step w w' → stopping w → stopping w'.
Proof. induction 1 as [|w w1 w' Hs _ IH]; [done|]. intros Hst. apply IH. by eapply stopping_exit. Qed.

Lemma stopping_drains w : stopping w → ∃ w', rtc exit_step w w' ∧ threads w' = [].
Proof.
  remember (length (threads w)) as n eqn:En. revert w En. induction (lt_wf n) as [n _ IH]. intros w -> Hs.
  destruct (decide (threads w = [])) as [|Hne]; [by exists w|].
  destruct (stopping_progress w Hs Hne) as [w1 H1].
  destruct (IH _ (exit_shortens _ _ H1) w1 eq_refl (stopping_exit _ _ H1 Hs)) as (w' & Hr & Hw').
  exists w'. split; [by eapply rtc_l|done].
Qed.

(** C18: stopping a cluster ends all its goroutines: after [Stop], in a reachable state in
    which no controller is being restarted, some goroutine can return as long as one is
    left, every return leaves one goroutine less, so that at most as many steps as there
    are goroutines lead to the end, and the end is reached. *)
Theorem shutdown_terminates parent name secret kubeconf dead w :
  rtc cluster_step (NewCluster parent name secret kubeconf dead) w → tidy w →
  (∃ w', rtc exit_step (Stop w) w' ∧ threads w' = [])
  ∧ ∀ w', rtc exit_step (Stop w) w' →
     (threads w' ≠ [] → ∃ w'', exit_step w' w'')
     ∧ ∀ w'', exit_step w' w'' → (length (threads w'') < length (threads w'))%nat.
Proof.
  intros Hr Hy. destruct (tree_reachable _ _ Hr) as [Hc Ht].
  assert (stopping (Stop w)) as Hs.
  { split.
    - eapply (same_mgr_life w); [apply same_mgr_cancel|by eapply life_reachable].
    - apply (tree_kept_cancel (c_ctx (cl w)) w), Ht. split; simpl; [done|]. intros p c x. by rewrite lookup_empty.
    - unfold Stop. rewrite Hc. simpl. rewrite Hc. simpl. by rewrite bool_decide_true by set_solver.
    - unfold Stop. by destruct (c_ctx (cl w)). }
  split; [by apply stopping_drains|]. intros w' Hw'. split.
  - apply stopping_progress. by eapply stopping_exits.
  - intros w''. apply exit_shortens.
Qed.
End drain.

(** ** A run *)

Section drain_run.
Existing Instance subset_selectors.

Lemma shutdown_terminates_witness : ∃ w', rtc exit_step (Stop run2) w' ∧ threads w' = [].
Proof.
  refine (proj1 (shutdown_terminates [0] "peer" None "" [] run2 run2_reached _)).
  intros p. change (threads run2) with [GLiveness; GCheck 3; GManager].
  destruct (decide (p = 3)) as [->|Hne].
  - split; [vm_compute; lia|]. intros _. eexists _, _. split; vm_compute; reflexivity.
  - rewrite !gcount_cons. rewrite !decide_False by congruence. split; [vm_compute; lia|].
    intros [Hin|Hin]; exfalso; rewrite !elem_of_cons, elem_of_nil in Hin; naive_solver congruence.
Defined.
End drain_run.
