(* ===== verification/ManagedReconciler.v ===== *)
(** * The base of the reconcilers

    pkg/clusters/managed_reconciler.go: the state that every reconciler of a managed
    controller embeds. A manager is named by a number; its scheme is named by the
    manager, its event recorders by the manager and the recorder's name. A field that
    is nil is [None]. *)

From stdpp Require Import base list strings.
From S2P Require Import Prelude Errors Types Cluster.
Open Scope string_scope.

Record ManagedReconcilerBase := mkManagedReconcilerBase {
  mrb_name : string;
  mrb_ctx : option ctx;
  mrb_mgr : option nat;
  mrb_recorder : option (nat * string);
  mrb_scheme : option nat;
  mrb_client : option nat }.

Definition NewManagedReconciler (name : string) : ManagedReconcilerBase :=
  mkManagedReconcilerBase name None None None None None.

(** The methods of the base; those that other reconcilers override do nothing. *)
Definition Base_SetClient (c : nat) (b : ManagedReconcilerBase) : ManagedReconcilerBase :=
  mkManagedReconcilerBase (mrb_name b) (mrb_ctx b) (mrb_mgr b) (mrb_recorder b) (mrb_scheme b) (Some c).

Definition Base_PreCheck : option error := None.
Definition Base_Start : option error := None.
Definition Base_Reconcile : Result * option error := (Result_zero, None).

Definition DoCleanup (b : ManagedReconcilerBase) : ManagedReconcilerBase :=
  mkManagedReconcilerBase (mrb_name b) None None None None (mrb_client b).

(** The first context is kept. *)
Definition SetContext (x : ctx) (b : ManagedReconcilerBase) : ManagedReconcilerBase :=
  match mrb_ctx b with
  | Some _ => b
  | None => mkManagedReconcilerBase (mrb_name b) (Some x) (mrb_mgr b) (mrb_recorder b) (mrb_scheme b) (mrb_client b)
  end.

Definition SetScheme (scheme : nat) (b : ManagedReconcilerBase) : ManagedReconcilerBase :=
  mkManagedReconcilerBase (mrb_name b) (mrb_ctx b) (mrb_mgr b) (mrb_recorder b) (Some scheme) (mrb_client b).

(** The first manager is kept, with its scheme and a recorder. *)
Definition SetManager (m : nat) (b : ManagedReconcilerBase) : ManagedReconcilerBase :=
  match mrb_mgr b with
  | Some _ => b
  | None =>
      let b := mkManagedReconcilerBase (mrb_name b) (mrb_ctx b) (Some m) (mrb_recorder b) (mrb_scheme b) (mrb_client b) in
      let b := SetScheme m b in
      mkManagedReconcilerBase (mrb_name b) (mrb_ctx b) (mrb_mgr b) (Some (m, mrb_name b)) (mrb_scheme b) (mrb_client b)
  end.

Definition Base_SetupWithController (x : ctx) (b : ManagedReconcilerBase)
    : option error * ManagedReconcilerBase := (None, SetContext x b).
Definition Base_SetupWithManager (m : nat) (b : ManagedReconcilerBase)
    : option error * ManagedReconcilerBase := (None, SetManager m b).
