(* ===== verification/ManagedController.v ===== *)
(** * The set-up of a managed controller

    The part of pkg/clusters/managed_controller.go below the life cycle of [Cluster]:
    what [Start] hands to its reconciler, the attempts of the pre-check loop, [start]
    with its cache and client, and the goroutine that runs the controller. A
    reconciler is seen through the interface [ManagedReconcilerOps]; the laws of the
    interface are what the set-up relies on. *)

From stdpp Require Import gmap strings list.
From S2P Require Import Prelude Errors Types Cluster ManagedReconciler.
Open Scope string_scope.
Open Scope go_scope.

(** ** The interface of a reconciler *)

(** The methods of [clusters.ManagedReconciler] that the controller calls, on a
    reconciler [R] that embeds the base. *)
Class ManagedReconcilerOps (R S : Type) : Type := {
  mr_base : R → ManagedReconcilerBase;
  mr_set_base : ManagedReconcilerBase → R → R;
  mr_PreCheck : ST (R * S) (option error);
  mr_Start : ST (R * S) (option error);
  mr_SetupWithController : ctx → ST (R * S) (option error) }.

(** What the controller relies on: the base is the one that was set, the pre-check
    leaves it alone, the set-up gives it a context as [SetContext] does, and does not
    succeed under a context that is done. *)
Class ManagedReconcilerLaws (R S : Type) `{MO : ManagedReconcilerOps R S} (done : ctx → Prop) : Prop := {
  mr_base_set b (r : R) : mr_base (mr_set_base b r) = b;
  mr_PreCheck_base w : mr_base (mr_PreCheck w).2.1 = mr_base w.1;
  mr_Setup_base x w : mr_base (mr_SetupWithController x w).2.1 = SetContext x (mr_base w.1);
  mr_Setup_dead x x' w :
    mrb_ctx (SetContext x (mr_base w.1)) = Some x' → done x' → (mr_SetupWithController x w).1 ≠ None }.

(** The part of controller-runtime that the controller uses. A client is named by a
    number. *)
Class ControllerRuntime (S : Type) : Type := {
  controller_NewUnmanaged : string → ST S (option error);
  cache_New : ST S (option error);
  cache_WaitForCacheSync : ctx → ST S bool;
  client_New : ST S (result error nat);
  client_NewDelegatingClient : nat → ST S (result error nat);
  controller_InjectFunc : ST S (option error);
  manager_WaitForCacheSync : option ctx → ST S bool;
  controller_Start : option ctx → ST S (option error) }.

(** What an object asks to be given, and the injection calls. *)
Record Injectable := mkInjectable { inject_Cache : bool; inject_Client : bool }.
Class InjectEnv (S : Type) : Type := {
  inject_CacheInto : Injectable → ST S (bool * option error);
  inject_ClientInto : option nat → Injectable → ST S (bool * option error);
  mgr_SetFields : Injectable → ST S (option error) }.

(** ** State *)

Record ctrlState (R : Type) := mkCtrlState {
  cs_name : string;
  cs_reconciler : R;
  cs_mgr : option nat;
  cs_ctrl : bool;
  cs_ctrlContext : option ctx;
  cs_ctrlContextCancel : option ctx;
  cs_client : option nat;
  cs_cache : bool }.
Arguments mkCtrlState {R} _ _ _ _ _ _ _ _.
Arguments cs_name {R} _.
Arguments cs_reconciler {R} _.
Arguments cs_mgr {R} _.
Arguments cs_ctrl {R} _.
Arguments cs_ctrlContext {R} _.
Arguments cs_ctrlContextCancel {R} _.
Arguments cs_client {R} _.
Arguments cs_cache {R} _.

Section controller.
Context {R S : Type} `{MO : ManagedReconcilerOps R S} `{CR : !ControllerRuntime S} `{EL : ErrorLib}.

Abbreviation W := (ctrlState R * S)%type.

Definition set_reconciler (r : R) (c : ctrlState R) : ctrlState R :=
  mkCtrlState (cs_name c) r (cs_mgr c) (cs_ctrl c) (cs_ctrlContext c) (cs_ctrlContextCancel c) (cs_client c) (cs_cache c).
Definition set_ctrl (b : bool) (c : ctrlState R) : ctrlState R :=
  mkCtrlState (cs_name c) (cs_reconciler c) (cs_mgr c) b (cs_ctrlContext c) (cs_ctrlContextCancel c) (cs_client c) (cs_cache c).
Definition set_cache (b : bool) (c : ctrlState R) : ctrlState R :=
  mkCtrlState (cs_name c) (cs_reconciler c) (cs_mgr c) (cs_ctrl c) (cs_ctrlContext c) (cs_ctrlContextCancel c) (cs_client c) b.
Definition set_client (cl : nat) (c : ctrlState R) : ctrlState R :=
  mkCtrlState (cs_name c) (cs_reconciler c) (cs_mgr c) (cs_ctrl c) (cs_ctrlContext c) (cs_ctrlContextCancel c) (Some cl) (cs_cache c).

Definition on_env {A} (c : ST S A) : ST W A := λ w, let '(a, s) := c w.2 in (a, (w.1, s)).
Definition get_ctrl : ST W (ctrlState R) := λ w, (w.1, w).
Definition modify (f : ctrlState R → ctrlState R) : ST W unit := λ w, (tt, (f w.1, w.2)).

(** A method of the reconciler, and an update of its base. *)
Definition on_reconciler {A} (c : ST (R * S) A) : ST W A :=
  λ w, let '(a, (r, s)) := c (cs_reconciler w.1, w.2) in (a, (set_reconciler r w.1, s)).
Definition on_base (f : ManagedReconcilerBase → ManagedReconcilerBase) : ST W unit :=
  modify (λ c, set_reconciler (mr_set_base (f (mr_base (cs_reconciler c))) (cs_reconciler c)) c).

(** ** Operations *)

(** The first part of [Start], before the goroutine: [x] is the new context under the
    context of the manager [m]. The flag says whether the pre-check loop is started. *)
Definition begin_Start (x : ctx) (m : nat) : ST W bool :=
  let! c := get_ctrl in
  match cs_ctrlContextCancel c with
  | Some _ => return! false
  | None =>
      let! _ := modify (λ c, mkCtrlState (cs_name c) (cs_reconciler c) (Some m) (cs_ctrl c) (Some x) (Some x)
                               (cs_client c) (cs_cache c)) in
      let! _ := on_base (SetManager m) in
      return! true
  end.

Definition createAndStartCache : ST W (option error) :=
  let! c := get_ctrl in
  match cs_ctrlContext c with
  | None => return! Some (errorString "context is nil")
  | Some x =>
      let! err := on_env cache_New in
      match err with
      | Some e => return! Some e
      | None =>
          let! synced := on_env (cache_WaitForCacheSync x) in
          if (synced : bool) then return! None else return! Some (errorString "could not sync cache")
      end
  end.

Definition createClient : ST W (result error nat) :=
  let! cli := on_env client_New in
  match cli with
  | Err e => return! Err e
  | Ok cli => on_env (client_NewDelegatingClient cli)
  end.

(** [getInjectFunc]: an object that takes a cache or a client gets those of the
    controller, any other is left to the manager. *)
Definition getInjectFunc `{IE : !InjectEnv S} (i : Injectable) : ST W (option error) :=
  let! c := get_ctrl in
  if inject_Cache i then
    let! out := on_env (inject_CacheInto i) in
    match out with (_, Some e) => return! Some e | (_, None) => return! None end
  else if inject_Client i then
    let! out := on_env (inject_ClientInto (cs_client c) i) in
    match out with (_, Some e) => return! Some e | (_, None) => return! None end
  else on_env (mgr_SetFields i).

(** [start], without the goroutine that it leaves behind when it succeeds. A context
    that is nil here would already have ended in [createAndStartCache]. *)
Definition start : ST W (option error) :=
  let! c := get_ctrl in
  let! err := on_env (controller_NewUnmanaged (cs_name c)) in
  match err with
  | Some e => let! _ := modify (set_ctrl false) in return! Some (WithStackIf e)
  | None =>
  let! _ := modify (set_ctrl true) in
  let! err := createAndStartCache in
  match err with
  | Some e => return! Some (WithStackIf e)
  | None =>
  let! _ := modify (set_cache true) in
  let! cli := createClient in
  match cli with
  | Err e => return! Some (WithStackIf e)
  | Ok cli =>
  let! _ := modify (set_client cli) in
  let! err := on_env controller_InjectFunc in
  match err with
  | Some e => return! Some e
  | None =>
  let! _ := on_base (Base_SetClient cli) in
  let! err := on_reconciler (mr_SetupWithController (default [] (cs_ctrlContext c))) in
  match err with
  | Some e => return! Some (WithStackIf e)
  | None => return! None
  end end end end end.

(** One attempt of the loop that [Start] leaves behind. *)
Definition check : ST W (option error) :=
  let! err := on_reconciler mr_PreCheck in
  match err with
  | Some e => return! Some (WrapIf e "pre check error")
  | None =>
      let! err := start in
      match err with
      | Some e => return! Some (WrapIf e "could not start controller")
      | None => return! None
      end
  end.

(** The loop over [n] ticks: [true] when an attempt succeeded. *)
Fixpoint check_loop (n : nat) : ST W bool :=
  match n with
  | 0 => return! false
  | Datatypes.S n' =>
      let! err := check in
      match err with
      | None => return! true
      | Some _ => check_loop n'
      end
  end.

(** The goroutine of [start] up to the end of the controller: the flag says whether it
    goes on to wait for its context. *)
Definition run : ST W bool :=
  let! c := get_ctrl in
  let! started := on_env (manager_WaitForCacheSync (cs_ctrlContext c)) in
  if negb (started : bool) then return! false
  else
    let! err := on_reconciler mr_Start in
    match err with
    | Some _ => return! false
    | None =>
        let! c := get_ctrl in
        let! _ := on_env (controller_Start (cs_ctrlContext c)) in
        return! true
    end.

(** The end of the goroutine, once the context the controller has then is done. *)
Definition run_cleanup : ST W unit :=
  let! _ := on_base DoCleanup in
  modify (λ c, mkCtrlState (cs_name c) (cs_reconciler c) (cs_mgr c) false None None (cs_client c) (cs_cache c)).

(** ** The context of the reconciler *)

Section laws.
Context (done : ctx → Prop) `{ML : !ManagedReconcilerLaws R S done}.

Abbreviation base_of w := (mr_base (cs_reconciler (fst w))).

(** [start] keeps the context of the base, or sets it when there is none. *)
Definition ctx_kept (w w' : W) : Prop :=
  cs_ctrlContext w'.1 = cs_ctrlContext w.1
  ∧ ∀ x0, mrb_ctx (base_of w) = Some x0 → mrb_ctx (base_of w') = Some x0.
#[local] Instance ctx_kept_preorder : PreOrder ctx_kept.
Proof. split; [by intros w|]. intros w1 w2 w3 [? ?] [? ?]. split; [congruence|naive_solver]. Qed.

Lemma ctx_kept_env {A} (c : ST S A) : moves ctx_kept (on_env c).
Proof. intros [x s]. unfold on_env. simpl. by destruct (c s). Qed.

Lemma ctx_kept_PreCheck : moves ctx_kept (on_reconciler mr_PreCheck).
Proof.
  intros [c s]. unfold on_reconciler. simpl. pose proof (mr_PreCheck_base (cs_reconciler c, s)) as Hb.
  destruct (mr_PreCheck _) as [a [r s']]. simpl in *. split; [done|]. simpl. by rewrite Hb.
Qed.

Lemma ctx_kept_Setup x : moves ctx_kept (on_reconciler (mr_SetupWithController x)).
Proof.
  intros [c s]. unfold on_reconciler. simpl. pose proof (mr_Setup_base x (cs_reconciler c, s)) as Hb.
  destruct (mr_SetupWithController x _) as [a [r s']]. simpl in *. split; [done|]. simpl. rewrite Hb.
  intros x0 Hx. unfold SetContext. by rewrite Hx.
Qed.

Lemma ctx_kept_SetClient cl : moves ctx_kept (on_base (Base_SetClient cl)).
Proof. intros [c s]. split; [done|]. simpl. by rewrite mr_base_set. Qed.

Lemma ctx_kept_start : moves ctx_kept start.
Proof.
  pose proof (λ A c, @ctx_kept_env A c) as Henv. pose proof ctx_kept_SetClient. pose proof ctx_kept_Setup.
  assert (moves ctx_kept get_ctrl) by done.
  assert (∀ b, moves ctx_kept (modify (set_ctrl b))) by done.
  assert (∀ b, moves ctx_kept (modify (set_cache b))) by done.
  assert (∀ b, moves ctx_kept (modify (set_client b))) by done.
  unfold start, createAndStartCache, createClient. moves_tac; apply Henv.
Qed.

Lemma ctx_kept_check : moves ctx_kept check.
Proof. pose proof ctx_kept_PreCheck. pose proof ctx_kept_start. unfold check. moves_tac. Qed.

(** *** A context that is done *)

Section stale.
Context (x0 : ctx) (Hdone : done x0).

Definition stale (w : W) : Prop := mrb_ctx (base_of w) = Some x0.
Definition never_ok (c : ST W (option error)) : Prop := ∀ w, stale w → (c w).1 ≠ None.

Lemma never_bind {A} (c : ST W A) k : moves ctx_kept c → (∀ a, never_ok (k a)) → never_ok (st_bind c k).
Proof.
  intros Hc Hk w Hw. unfold st_bind. destruct (Hc w) as [_ Hs]. specialize (Hs x0 Hw).
  destruct (c w) as [a w']. by apply Hk.
Qed.

Lemma never_err e : never_ok (st_ret (Some e)).
Proof. by intros w _. Qed.

Lemma never_Setup x : never_ok (on_reconciler (mr_SetupWithController x)).
Proof.
  intros [c s] Hw. unfold on_reconciler. simpl.
  pose proof (mr_Setup_dead (done := done) x x0 (cs_reconciler c, s)) as Hd. simpl in Hd.
  destruct (mr_SetupWithController x _) as [a [r s']]. apply Hd; [|done].
  unfold stale in Hw. simpl in Hw. unfold SetContext. by rewrite Hw.
Qed.

Lemma never_start : never_ok start.
Proof.
  pose proof (λ A c, @ctx_kept_env A c) as Henv.
  assert (Hcache : moves ctx_kept createAndStartCache).
  { assert (moves ctx_kept get_ctrl) by done. unfold createAndStartCache. moves_tac; apply Henv. }
  assert (Hclient : moves ctx_kept createClient) by (unfold createClient; moves_tac; apply Henv).
  unfold start. repeat first
    [ apply never_err
    | match goal with |- never_ok (match ?x with _ => _ end) => destruct x end
    | (apply never_bind; [first [apply Henv|assumption|apply ctx_kept_SetClient|done]|intros ?]) ].
  intros w Hw. unfold st_bind. pose proof (never_Setup (default [] (cs_ctrlContext a)) w Hw) as Hn.
  by destruct (on_reconciler _ w) as [[e|] w'].
Qed.

Lemma never_check : never_ok check.
Proof.
  intros w Hw. unfold check, st_bind. destruct (ctx_kept_PreCheck w) as [_ Hp]. specialize (Hp x0 Hw).
  destruct (on_reconciler mr_PreCheck w) as [[e|] w1]; [done|]. simpl in Hp.
  pose proof (never_start w1 Hp) as Hn. by destruct (start w1) as [[e|] w2].
Qed.
End stale.

(** A controller cannot come back before its last run was cleaned up. The base of
    a reconciler keeps its first context until [DoCleanup], which runs only when the
    context that the controller has by then is done. If the controller is started
    again earlier, the reconciler still has the old context, which is done: every
    attempt of the new pre-check loop fails, however often it is repeated, and leaves
    the old context in place. *)
Theorem stale_context_blocks_restart n x0 w :
  mrb_ctx (base_of w) = Some x0 → done x0 →
  (check_loop n w).1 = false ∧ mrb_ctx (base_of (check_loop n w).2) = Some x0.
Proof.
  intros Hw Hd. revert w Hw. induction n as [|n IH]; intros w Hw; simpl; [done|]. unfold st_bind.
  pose proof (never_check x0 Hd w Hw) as Hn. destruct (ctx_kept_check w) as [_ Hk]. specialize (Hk x0 Hw).
  destruct (check w) as [[e|] w']; [|done]. by apply IH.
Qed.

(** *** A life cycle *)

Section cycle.
Context (x : ctx) (m : nat).

(** The state of a controller that was started with the context [x] and the manager
    [m], between two attempts. *)
Definition begun (w : W) : Prop :=
  cs_ctrlContext w.1 = Some x ∧ mrb_mgr (base_of w) = Some m
  ∧ (mrb_ctx (base_of w) = None ∨ mrb_ctx (base_of w) = Some x).

(** The state after a successful attempt. *)
Definition set_up (w : W) : Prop :=
  cs_ctrl w.1 = true ∧ cs_cache w.1 = true ∧ is_Some (cs_client w.1)
  ∧ mrb_client (base_of w) = cs_client w.1 ∧ mrb_mgr (base_of w) = Some m
  ∧ mrb_ctx (base_of w) = Some x ∧ ¬ done x.

Lemma begun_PreCheck w : begun w → begun (on_reconciler mr_PreCheck w).2.
Proof.
  destruct w as [c s]. unfold on_reconciler, begun. simpl.
  pose proof (mr_PreCheck_base (cs_reconciler c, s)) as Hb.
  destruct (mr_PreCheck _) as [a [r s']]. simpl in *. by rewrite Hb.
Qed.

(** The call of the set-up, at the end of [start]. *)
Lemma begun_Setup w :
  begun w → let '(err, w') := on_reconciler (mr_SetupWithController x) w in
  begun w' ∧ (err = None → cs_ctrl w'.1 = cs_ctrl w.1 ∧ cs_cache w'.1 = cs_cache w.1 ∧ cs_client w'.1 = cs_client w.1
    ∧ mrb_client (base_of w') = mrb_client (base_of w) ∧ mrb_ctx (base_of w') = Some x ∧ ¬ done x).
Proof.
  destruct w as [c s]. unfold on_reconciler, begun. simpl. intros (Hc & Hm & Hx).
  pose proof (mr_Setup_base x (cs_reconciler c, s)) as Hb.
  pose proof (mr_Setup_dead (done := done) x x (cs_reconciler c, s)) as Hd.
  destruct (mr_SetupWithController x _) as [a [r s']]. simpl in *. rewrite Hb. unfold SetContext in *.
  destruct Hx as [Hx|Hx]; rewrite Hx in *; simpl in *; (split; [by auto|intros ->]); split_and!; try done; naive_solver.
Qed.

(** The branches of [start] that return an error. *)
Ltac failed := split; [unfold begun; simpl; by split_and!; auto|done].

Lemma begun_start w : begun w → begun (start w).2 ∧ ((start w).1 = None → set_up (start w).2).
Proof.
  destruct w as [c s]. intros (Hc & Hm & Hx). simpl in *.
  unfold start, createAndStartCache, createClient, on_env, get_ctrl, modify, st_bind, st_ret. simpl.
  destruct (controller_NewUnmanaged _ s) as [[e|] s1]; simpl; [by failed|]. rewrite Hc. simpl.
  destruct (cache_New s1) as [[e|] s2]; simpl; [by failed|].
  destruct (cache_WaitForCacheSync x s2) as [[|] s3]; simpl; [|by failed].
  destruct (client_New s3) as [[cl|e] s4]; simpl; [|by failed].
  destruct (client_NewDelegatingClient cl s4) as [[cl'|e] s5]; simpl; [|by failed].
  destruct (controller_InjectFunc s5) as [[e|] s6]; simpl; [by failed|].
  match goal with |- context [on_reconciler _ ?w] => pose proof (begun_Setup w) as Hs end.
  destruct (on_reconciler _ _) as [err w']. destruct Hs as [Hb Hok].
  { unfold begun. simpl. rewrite mr_base_set. simpl. by auto. }
  simpl in Hok. rewrite mr_base_set in Hok. simpl in Hok.
  destruct err as [e|]; simpl; (split; [exact Hb|]); [done|]. intros _.
  destruct (Hok eq_refl) as (? & ? & Hcl & Hbc & ? & ?). destruct Hb as (_ & ? & _).
  unfold set_up. rewrite Hcl, Hbc. by split_and!; eauto.
Qed.

Lemma begun_check_loop n w : begun w → (check_loop n w).1 = true → set_up (check_loop n w).2.
Proof.
  revert w. induction n as [|n IH]; intros w Hw; simpl; [done|]. unfold check, st_bind at 1 2 3 4 5 6, st_ret.
  pose proof (begun_PreCheck w Hw) as Hp.
  destruct (on_reconciler mr_PreCheck w) as [[e|] w1]; [by apply IH|].
  destruct (begun_start w1 Hp) as [Hb Hok]. destruct (start w1) as [[e|] w2]; [by apply IH|]. by intros _; apply Hok.
Qed.
End cycle.

(** A life cycle of a controller. Once a run has been cleaned up, [Start] begins a
    new one, whatever state the controller was in. When an attempt of its pre-check
    loop succeeds the controller, its cache and its client are there, and the
    reconciler has that client, the manager it was started with and the new context,
    which is not done: nothing of the previous run is left. *)
Theorem start_sets_up n x m w :
  (begin_Start x m (run_cleanup w).2).1 = true
  ∧ ((check_loop n (begin_Start x m (run_cleanup w).2).2).1 = true →
     set_up x m (check_loop n (begin_Start x m (run_cleanup w).2).2).2).
Proof.
  split; [by destruct w|]. apply begun_check_loop. destruct w as [c s].
  unfold begun, run_cleanup, begin_Start, on_base, modify, get_ctrl, st_bind. simpl.
  rewrite !mr_base_set. simpl. by repeat split; left.
Qed.

End laws.
End controller.
