(* ===== verification/Manager.v ===== *)
(** * The clusters manager

    pkg/clusters/manager.go: the map of the known peer clusters, shared by all the
    reconcilers, and the callbacks around its changes. Callbacks run under the
    manager's lock, so they cannot call the manager; they act on the clusters. *)

From stdpp Require Import gmap strings list relations.
From S2P Require Import Prelude Errors Types Match Features Cluster ClusterGate ClusterLife.
Open Scope string_scope.

(** What the manager promises to the sync reconcilers: which cluster ids are alive. *)
Class AliveClusters (M : Type) : Type := {
  alive_by_id : M → string → bool;
  cluster_states : M → list (bool * string);
  alive_by_id_spec m id : alive_by_id m id = true ↔ (true, id) ∈ cluster_states m }.

Record Manager := mkManager {
  m_clusters : gmap string Ptr;
  m_ctx : ctx;
  onBeforeAddFuncs : gmap string string;
  onBeforeDeleteFuncs : gmap string string;
  onAfterAddFuncs : gmap string string;
  onAfterDeleteFuncs : gmap string string }.

(** The observable effects, in order. *)
Inductive MEvent :=
| ECallback (f : string) (cluster : option Ptr)
| EInserted (name : string)
| EStopped (cluster : Ptr)
| EDeleted (name : string).

Record MWorld := mkMWorld {
  mg : Manager;
  peers : gmap Ptr CWorld;
  mlog : list MEvent }.

Definition set_clusters (m : gmap string Ptr) (w : MWorld) : MWorld :=
  mkMWorld (mkManager m (m_ctx (mg w)) (onBeforeAddFuncs (mg w)) (onBeforeDeleteFuncs (mg w))
              (onAfterAddFuncs (mg w)) (onAfterDeleteFuncs (mg w))) (peers w) (mlog w).
Definition set_peers (h : gmap Ptr CWorld) (w : MWorld) : MWorld := mkMWorld (mg w) h (mlog w).
Definition emit (e : MEvent) (w : MWorld) : MWorld := mkMWorld (mg w) (peers w) (mlog w ++ [e])%list.

Section manager.
(** What a registered callback does to the clusters. *)
Context (callback : string → option Ptr → gmap Ptr CWorld → gmap Ptr CWorld).

(** [NewManager]: the options are applied in order. The goroutine it starts is
    [waitForStop]. *)
Definition NewManager (c : ctx) (options : list (Manager → Manager)) (h : gmap Ptr CWorld) : MWorld :=
  mkMWorld (foldl (λ m opt, opt m) (mkManager ∅ c ∅ ∅ ∅ ∅) options) h [].

(** The [AddOn...Func] and [DeleteOn...Func] methods. [now] is the time stamp that
    is the key when no id is given. *)
Definition callback_id (now : string) (ids : list string) : string :=
  match ids with [] => now | id :: _ => id end.

Definition AddOnBeforeAddFunc (now f : string) (ids : list string) (m : Manager) : Manager :=
  mkManager (m_clusters m) (m_ctx m) (<[callback_id now ids := f]> (onBeforeAddFuncs m))
    (onBeforeDeleteFuncs m) (onAfterAddFuncs m) (onAfterDeleteFuncs m).
Definition DeleteOnBeforeAddFunc (id : string) (m : Manager) : Manager :=
  mkManager (m_clusters m) (m_ctx m) (delete id (onBeforeAddFuncs m))
    (onBeforeDeleteFuncs m) (onAfterAddFuncs m) (onAfterDeleteFuncs m).
Definition AddOnAfterAddFunc (now f : string) (ids : list string) (m : Manager) : Manager :=
  mkManager (m_clusters m) (m_ctx m) (onBeforeAddFuncs m) (onBeforeDeleteFuncs m)
    (<[callback_id now ids := f]> (onAfterAddFuncs m)) (onAfterDeleteFuncs m).
Definition DeleteOnAfterAddFunc (id : string) (m : Manager) : Manager :=
  mkManager (m_clusters m) (m_ctx m) (onBeforeAddFuncs m) (onBeforeDeleteFuncs m)
    (delete id (onAfterAddFuncs m)) (onAfterDeleteFuncs m).
Definition AddOnBeforeDeleteFunc (now f : string) (ids : list string) (m : Manager) : Manager :=
  mkManager (m_clusters m) (m_ctx m) (onBeforeAddFuncs m)
    (<[callback_id now ids := f]> (onBeforeDeleteFuncs m)) (onAfterAddFuncs m) (onAfterDeleteFuncs m).
Definition DeleteOnBeforeDeleteFunc (id : string) (m : Manager) : Manager :=
  mkManager (m_clusters m) (m_ctx m) (onBeforeAddFuncs m) (delete id (onBeforeDeleteFuncs m))
    (onAfterAddFuncs m) (onAfterDeleteFuncs m).
Definition AddOnAfterDeleteFunc (now f : string) (ids : list string) (m : Manager) : Manager :=
  mkManager (m_clusters m) (m_ctx m) (onBeforeAddFuncs m) (onBeforeDeleteFuncs m)
    (onAfterAddFuncs m) (<[callback_id now ids := f]> (onAfterDeleteFuncs m)).
Definition DeleteOnAfterDeleteFunc (id : string) (m : Manager) : Manager :=
  mkManager (m_clusters m) (m_ctx m) (onBeforeAddFuncs m) (onBeforeDeleteFuncs m)
    (onAfterAddFuncs m) (delete id (onAfterDeleteFuncs m)).

(** The options of [NewManager]. *)
Definition WithOnBeforeAddFunc (now f : string) (ids : list string) : Manager → Manager := AddOnBeforeAddFunc now f ids.
Definition WithOnAfterAddFunc (now f : string) (ids : list string) : Manager → Manager := AddOnAfterAddFunc now f ids.
Definition WithOnBeforeDeleteFunc (now f : string) (ids : list string) : Manager → Manager := AddOnBeforeDeleteFunc now f ids.
Definition WithOnAfterDeleteFunc (now f : string) (ids : list string) : Manager → Manager := AddOnAfterDeleteFunc now f ids.

(** One round of a loop over callbacks. *)
Definition run_callback (c : option Ptr) (w : MWorld) (f : string) : MWorld :=
  emit (ECallback f c) (set_peers (callback f c (peers w)) w).
Definition run_callbacks (fs : gmap string string) (c : option Ptr) (w : MWorld) : MWorld :=
  foldl (run_callback c) w (map_to_list fs).*2.

Definition cluster_name (h : gmap Ptr CWorld) (p : Ptr) : string :=
  match h !! p with Some w => c_name (cl w) | None => "" end.

Definition Exists_ (name : string) (w : MWorld) : bool :=
  match m_clusters (mg w) !! name with Some _ => true | None => false end.

Definition Get (name : string) (w : MWorld) : result error Ptr :=
  match m_clusters (mg w) !! name with
  | Some p => Ok p
  | None => Err (sentinel ErrClusterNotFound)
  end.

Definition GetAll (w : MWorld) : gmap string Ptr := m_clusters (mg w).

(** [GetAliveClustersByID], with the clusters in the order of the iteration. *)
Fixpoint alive_loop (h : gmap Ptr CWorld) (order : list Ptr) (acc : gmap string Ptr) : gmap string Ptr :=
  match order with
  | [] => acc
  | p :: order' =>
      match h !! p with
      | Some cw => if IsAlive cw then alive_loop h order' (<[clusterID (cl cw) := p]> acc)
                   else alive_loop h order' acc
      | None => alive_loop h order' acc
      end
  end.
Definition GetAliveClustersByID_in (order : list Ptr) (w : MWorld) : gmap string Ptr :=
  alive_loop (peers w) order ∅.
Definition GetAliveClustersByID (w : MWorld) : gmap string Ptr :=
  GetAliveClustersByID_in (map_to_list (m_clusters (mg w))).*2 w.

(** [Cluster.Stop] on a cluster of the heap. *)
Definition stop_cluster (p : Ptr) (w : MWorld) : MWorld :=
  emit (EStopped p) (set_peers (alter Stop p (peers w)) w).

Definition Manager_Add (p : Ptr) (w : MWorld) : MWorld :=
  let w := run_callbacks (onBeforeAddFuncs (mg w)) (Some p) w in
  let name := cluster_name (peers w) p in
  let w := emit (EInserted name) (set_clusters (<[name := p]> (m_clusters (mg w))) w) in
  run_callbacks (onAfterAddFuncs (mg w)) (Some p) w.

(** [Remove]; the argument may be nil. *)
Definition Manager_Remove (c : option Ptr) (w : MWorld) : MWorld :=
  match c with
  | None => w
  | Some p =>
      match m_clusters (mg w) !! cluster_name (peers w) p with
      | None => w
      | Some _ =>
          let w := run_callbacks (onBeforeDeleteFuncs (mg w)) (Some p) w in
          let w := stop_cluster p w in
          let name := cluster_name (peers w) p in
          let w := emit (EDeleted name) (set_clusters (delete name (m_clusters (mg w))) w) in
          run_callbacks (onAfterDeleteFuncs (mg w)) None w
      end
  end.

(** [waitForStop], after the manager's context is done. *)
Definition waitForStop (w : MWorld) : MWorld :=
  foldl (λ w p, stop_cluster p w) w (map_to_list (m_clusters (mg w))).*2.
End manager.

(** ** The clusters that are alive *)

(** The cluster [p] is alive and reported the id. *)
Definition alive_as (h : gmap Ptr CWorld) (id : string) (p : Ptr) : Prop :=
  ∃ cw, h !! p = Some cw ∧ alive (cl cw) = true ∧ clusterID (cl cw) = id.

Lemma alive_loop_spec h order acc id :
  match alive_loop h order acc !! id with
  | Some p => (p ∈ order ∧ alive_as h id p) ∨ acc !! id = Some p
  | None => acc !! id = None ∧ ∀ p, p ∈ order → ¬ alive_as h id p
  end.
Proof.
  revert acc. induction order as [|p order IH]; intros acc; simpl.
  { destruct (acc !! id) eqn:E; [by right|]. split; [done|]. intros p Hp. inversion Hp. }
  destruct (h !! p) as [cw|] eqn:Hp; [destruct (IsAlive cw) eqn:Ha|].
  - specialize (IH (<[clusterID (cl cw) := p]> acc)). destruct (alive_loop _ _ _ !! id) as [q|].
    + destruct IH as [[? ?]|Hq]; [left; split; [by right|done]|].
      apply lookup_insert_Some in Hq as [[<- <-]|[_ Hq]]; [|by right].
      left. split; [left|]. by exists cw.
    + destruct IH as [Hn IH]. apply lookup_insert_None in Hn as [Hn Hne]. split; [done|].
      intros q [->|Hq]%elem_of_cons; [|by apply IH]. intros (cw' & ? & _ & ?). congruence.
  - specialize (IH acc). destruct (alive_loop _ _ _ !! id) as [q|].
    + destruct IH as [[? ?]|Hq]; [left; split; [by right|done]|by right].
    + destruct IH as [Hn IH]. split; [done|]. intros q [->|Hq]%elem_of_cons; [|by apply IH].
      intros (cw' & ? & Ha' & _). unfold IsAlive in Ha. congruence.
  - specialize (IH acc). destruct (alive_loop _ _ _ !! id) as [q|].
    + destruct IH as [[? ?]|Hq]; [left; split; [by right|done]|by right].
    + destruct IH as [Hn IH]. split; [done|]. intros q [->|Hq]%elem_of_cons; [|by apply IH].
      intros (cw' & ? & _). congruence.
Qed.

Lemma GetAlive_in_spec order w id :
  (∀ p, GetAliveClustersByID_in order w !! id = Some p → p ∈ order ∧ alive_as (peers w) id p)
  ∧ (is_Some (GetAliveClustersByID_in order w !! id) ↔ ∃ p, p ∈ order ∧ alive_as (peers w) id p).
Proof.
  unfold GetAliveClustersByID_in. pose proof (alive_loop_spec (peers w) order ∅ id) as Hs.
  rewrite lookup_empty in Hs. destruct (alive_loop _ _ _ !! id) as [q|].
  - destruct Hs as [Hs|?]; [|done]. split; [naive_solver|]. split; [by exists q|done].
  - destruct Hs as [_ Hs]. split; [done|]. split; [by intros []|]. intros (p & Hp & Ha). by destruct (Hs p Hp).
Qed.

(** An id is in the result of [GetAliveClustersByID] exactly when a known
    cluster is alive under that id, whatever the order of the iteration, and the
    cluster found is such a one. *)
Theorem GetAliveClustersByID_correct w id :
  (∀ order p, order ≡ₚ (map_to_list (m_clusters (mg w))).*2 →
     GetAliveClustersByID_in order w !! id = Some p →
     alive_as (peers w) id p ∧ ∃ name, GetAll w !! name = Some p)
  ∧ (∀ order, order ≡ₚ (map_to_list (m_clusters (mg w))).*2 →
     (is_Some (GetAliveClustersByID_in order w !! id)
      ↔ ∃ name p, GetAll w !! name = Some p ∧ alive_as (peers w) id p)).
Proof.
  split; intros order.
  - intros p Ho Hp. apply GetAlive_in_spec in Hp as [Hin Ha]. split; [done|].
    rewrite Ho in Hin. by apply elem_of_map_values.
  - intros Ho. rewrite (proj2 (GetAlive_in_spec order w id)). setoid_rewrite Ho.
    setoid_rewrite elem_of_map_values. unfold GetAll. naive_solver.
Qed.

(** The manager keeps its promise. *)
#[export, refine] Instance manager_alive : AliveClusters MWorld := {|
  alive_by_id w id := match GetAliveClustersByID w !! id with Some _ => true | None => false end;
  cluster_states w :=
    omap (λ p, (λ cw, (IsAlive cw, clusterID (cl cw))) <$> peers w !! p) (map_to_list (m_clusters (mg w))).*2 |}.
Proof.
  intros w id. unfold GetAliveClustersByID.
  rewrite present_is_Some, (proj2 (GetAlive_in_spec _ w id)), list_elem_of_omap.
  apply exist_proper. intros p. apply and_iff_compat_l. unfold alive_as, IsAlive.
  rewrite fmap_Some. split; intros (cw & ? & Hc); exists cw; naive_solver congruence.
Defined.

(** ** Adding and removing clusters *)

(** The facts of a cluster that no method changes, and what only grows: the name,
    the context and the credentials are never assigned after [NewCluster], and a
    context that was cancelled stays cancelled. *)
Definition grows (w w' : CWorld) : Prop :=
  (c_name (cl w') = c_name (cl w) ∧ secretID (cl w') = secretID (cl w) ∧ kubeconfig (cl w') = kubeconfig (cl w))
  ∧ c_ctx (cl w') = c_ctx (cl w) ∧ cancelled w ⊆ cancelled w'.

#[global] Instance grows_preorder : PreOrder grows.
Proof.
  split; [by intros w|]. intros w1 w2 w3 ((?&?&?)&?&?) ((?&?&?)&?&?). repeat split; [congruence..|set_solver].
Qed.

Definition heap_grows (h h' : gmap Ptr CWorld) : Prop :=
  ∀ p w, h !! p = Some w → ∃ w', h' !! p = Some w' ∧ grows w w'.

#[global] Instance heap_grows_preorder : PreOrder heap_grows.
Proof.
  split; [intros h p w Hp; by exists w|]. intros h1 h2 h3 H12 H23 p w Hp.
  destruct (H12 p w Hp) as (w' & Hp' & Hw). destruct (H23 p w' Hp') as (w'' & Hp'' & Hw').
  exists w''. split; [done|by etrans].
Qed.

Lemma heap_grows_stop p h : heap_grows h (alter Stop p h).
Proof.
  intros q w Hq. destruct (decide (p = q)) as [<-|Hne].
  - rewrite lookup_alter_eq, Hq. exists (Stop w). split; [done|]. unfold Stop.
    destruct (c_ctx (cl w)) eqn:E; repeat split; simpl; set_solver.
  - rewrite lookup_alter_ne by done. by exists w.
Qed.

Lemma Stop_Done w : c_ctx (cl w) ≠ [] → Done (c_ctx (cl (Stop w))) (Stop w) = true.
Proof.
  intros Hx. unfold Stop. destruct (c_ctx (cl w)) as [|i x] eqn:E; [done|]. simpl. rewrite E. simpl.
  by rewrite bool_decide_true by set_solver.
Qed.

Section manager_facts.
Context (callback : string → option Ptr → gmap Ptr CWorld → gmap Ptr CWorld).
Context (callback_grows : ∀ f c h, heap_grows h (callback f c h)).

Lemma run_callbacks_effect fs c w :
  let w' := run_callbacks callback fs c w in
  mg w' = mg w ∧ heap_grows (peers w) (peers w')
  ∧ mlog w' = (mlog w ++ ((λ f, ECallback f c) <$> (map_to_list fs).*2))%list.
Proof.
  unfold run_callbacks. generalize (map_to_list fs).*2. intros l. revert w.
  induction l as [|f l IH]; intros w; simpl; [by rewrite app_nil_r|].
  destruct (IH (run_callback callback c w f)) as (-> & Hh & ->). split_and!; [done| |].
  - etrans; [apply (callback_grows f c)|exact Hh].
  - simpl. by rewrite <-(assoc_L (++)%list).
Qed.

Lemma heap_grows_name h h' p : heap_grows h h' → is_Some (h !! p) → cluster_name h' p = cluster_name h p.
Proof.
  intros Hh [w Hw]. destruct (Hh p w Hw) as (w' & Hw' & (Hn & _) & _). unfold cluster_name. by rewrite Hw, Hw'.
Qed.

Lemma Manager_Add_effect p w :
  is_Some (peers w !! p) →
  let w' := Manager_Add callback p w in
  let name := cluster_name (peers w) p in
  m_clusters (mg w') = <[name := p]> (m_clusters (mg w))
  ∧ heap_grows (peers w) (peers w')
  ∧ mlog w' = (mlog w ++ ((λ f, ECallback f (Some p)) <$> (map_to_list (onBeforeAddFuncs (mg w))).*2)
                 ++ [EInserted name] ++ ((λ f, ECallback f (Some p)) <$> (map_to_list (onAfterAddFuncs (mg w))).*2))%list.
Proof.
  intros Hp. simpl. unfold Manager_Add.
  destruct (run_callbacks_effect (onBeforeAddFuncs (mg w)) (Some p) w) as (Hm & Hh & Hl).
  set (w1 := run_callbacks _ (onBeforeAddFuncs (mg w)) _ _) in *.
  rewrite (heap_grows_name _ _ _ Hh Hp). set (w2 := emit _ _).
  destruct (run_callbacks_effect (onAfterAddFuncs (mg w2)) (Some p) w2) as (Hm2 & Hh2 & Hl2).
  split_and!.
  - rewrite Hm2. simpl. by rewrite Hm.
  - etrans; [exact Hh|]. exact Hh2.
  - etrans; [exact Hl2|]. simpl. rewrite Hl, Hm. by rewrite <-!(assoc_L (++)%list).
Qed.

Lemma Manager_Remove_effect p cw w :
  peers w !! p = Some cw → is_Some (m_clusters (mg w) !! c_name (cl cw)) →
  let w' := Manager_Remove callback (Some p) w in
  m_clusters (mg w') = delete (c_name (cl cw)) (m_clusters (mg w))
  ∧ heap_grows (peers w) (peers w')
  ∧ (c_ctx (cl cw) ≠ [] → ∃ cw', peers w' !! p = Some cw' ∧ Done (c_ctx (cl cw')) cw' = true)
  ∧ mlog w' = (mlog w ++ ((λ f, ECallback f (Some p)) <$> (map_to_list (onBeforeDeleteFuncs (mg w))).*2)
                 ++ [EStopped p; EDeleted (c_name (cl cw))]
                 ++ ((λ f, ECallback f None) <$> (map_to_list (onAfterDeleteFuncs (mg w))).*2))%list.
Proof.
  intros Hp [q Hq]. unfold Manager_Remove.
  assert (cluster_name (peers w) p = c_name (cl cw)) as -> by (unfold cluster_name; by rewrite Hp).
  rewrite Hq. cbv zeta.
  destruct (run_callbacks_effect (onBeforeDeleteFuncs (mg w)) (Some p) w) as (Hm & Hh & Hl).
  set (w1 := run_callbacks _ (onBeforeDeleteFuncs (mg w)) _ _) in *.
  destruct (Hh p cw Hp) as (cw1 & Hp1 & (Hn1 & _) & Hc1 & _).
  assert (Hstop : alter Stop p (peers w1) !! p = Some (Stop cw1)) by (by rewrite lookup_alter_eq, Hp1).
  assert (Hname : cluster_name (alter Stop p (peers w1)) p = c_name (cl cw)).
  { unfold cluster_name. rewrite Hstop, <-Hn1. unfold Stop. by destruct (c_ctx (cl cw1)). }
  change (peers (stop_cluster p w1)) with (alter Stop p (peers w1)). rewrite Hname. set (w2 := emit (EDeleted _) _).
  destruct (run_callbacks_effect (onAfterDeleteFuncs (mg w2)) None w2) as (Hm2 & Hh2 & Hl2).
  split_and!.
  - rewrite Hm2. simpl. by rewrite Hm.
  - etrans; [exact Hh|]. etrans; [apply (heap_grows_stop p)|]. exact Hh2.
  - intros Hctx. destruct (Hh2 p (Stop cw1)) as (cw2 & Hp2 & _ & Hc2 & Hd2); [exact Hstop|].
    exists cw2. split; [done|]. rewrite Hc2. eapply Done_mono; [exact Hd2|]. apply Stop_Done. by rewrite Hc1.
  - etrans; [exact Hl2|]. simpl. rewrite Hl, Hm. by rewrite <-!(assoc_L (++)%list).
Qed.

(** Every name of the map leads to a cluster of that name. *)
Definition manager_wf (w : MWorld) : Prop :=
  ∀ n p, m_clusters (mg w) !! n = Some p → ∃ cw, peers w !! p = Some cw ∧ c_name (cl cw) = n.

Lemma heap_grows_wf m h h' :
  heap_grows h h' → (∀ n p, m !! n = Some p → ∃ cw, h !! p = Some cw ∧ c_name (cl cw) = n) →
  ∀ n p, (m : gmap string Ptr) !! n = Some p → ∃ cw, h' !! p = Some cw ∧ c_name (cl cw) = n.
Proof.
  intros Hh Hm n p Hn. destruct (Hm n p Hn) as (cw & Hcw & <-).
  destruct (Hh p cw Hcw) as (cw' & Hcw' & (Hname & _) & _). eauto.
Qed.

Lemma Manager_Add_wf p w : is_Some (peers w !! p) → manager_wf w → manager_wf (Manager_Add callback p w).
Proof.
  intros Hp Hwf. destruct (Manager_Add_effect p w Hp) as (Hm & Hh & _).
  unfold manager_wf. rewrite Hm. apply (heap_grows_wf _ _ _ Hh).
  intros n q [[<- <-]|[_ Hq]]%lookup_insert_Some; [|by apply Hwf].
  destruct Hp as [cw Hcw]. exists cw. unfold cluster_name. by rewrite Hcw.
Qed.

Lemma Manager_Remove_wf p w :
  is_Some (peers w !! p) → manager_wf w → manager_wf (Manager_Remove callback (Some p) w).
Proof.
  intros [cw Hp] Hwf. destruct (m_clusters (mg w) !! c_name (cl cw)) as [q|] eqn:Hq.
  - destruct (Manager_Remove_effect p cw w Hp) as (Hm & Hh & _); [by rewrite Hq|].
    unfold manager_wf. rewrite Hm. apply (heap_grows_wf _ _ _ Hh).
    intros n q' [_ Hn]%lookup_delete_Some. by apply Hwf.
  - unfold Manager_Remove, cluster_name. rewrite Hp, Hq. done.
Qed.

(** [Add] puts the cluster under its own name, over any older one, and touches
    no other name; the callbacks run before and after the insertion. *)
Theorem Manager_Add_correct p w :
  is_Some (peers w !! p) →
  let w' := Manager_Add callback p w in
  let name := cluster_name (peers w) p in
  Get name w' = Ok p
  ∧ (∀ n, n ≠ name → Get n w' = Get n w)
  ∧ heap_grows (peers w) (peers w')
  ∧ mlog w' = (mlog w ++ ((λ f, ECallback f (Some p)) <$> (map_to_list (onBeforeAddFuncs (mg w))).*2)
                 ++ [EInserted name] ++ ((λ f, ECallback f (Some p)) <$> (map_to_list (onAfterAddFuncs (mg w))).*2))%list.
Proof.
  intros Hp. destruct (Manager_Add_effect p w Hp) as (Hm & Hh & Hl). cbv zeta. unfold Get. rewrite Hm.
  split_and!; [by rewrite lookup_insert_eq| |done|done]. intros n Hn. by rewrite lookup_insert_ne.
Qed.

(** [Remove] of a known cluster runs the callbacks, cancels the context of the
    cluster and forgets its name, in this order; other names are untouched, and nil
    and unknown clusters are ignored. *)
Theorem Manager_Remove_correct w :
  Manager_Remove callback None w = w
  ∧ ∀ p cw, peers w !! p = Some cw →
    (Exists_ (c_name (cl cw)) w = false → Manager_Remove callback (Some p) w = w)
    ∧ (Exists_ (c_name (cl cw)) w = true → c_ctx (cl cw) ≠ [] →
        let w' := Manager_Remove callback (Some p) w in
        Exists_ (c_name (cl cw)) w' = false
        ∧ (∀ n, n ≠ c_name (cl cw) → Get n w' = Get n w)
        ∧ (∃ cw', peers w' !! p = Some cw' ∧ Done (c_ctx (cl cw')) cw' = true)
        ∧ mlog w' = (mlog w ++ ((λ f, ECallback f (Some p)) <$> (map_to_list (onBeforeDeleteFuncs (mg w))).*2)
                       ++ [EStopped p; EDeleted (c_name (cl cw))]
                       ++ ((λ f, ECallback f None) <$> (map_to_list (onAfterDeleteFuncs (mg w))).*2))%list).
Proof.
  split; [done|]. intros p cw Hp. unfold Exists_. split.
  - intros He. unfold Manager_Remove, cluster_name. rewrite Hp. by destruct (m_clusters (mg w) !! c_name (cl cw)).
  - intros He%present_is_Some Hctx. destruct (Manager_Remove_effect p cw w Hp He) as (Hm & _ & Hd & Hl).
    cbv zeta. unfold Get. rewrite Hm. split_and!; [by rewrite lookup_delete_eq| |by apply Hd|done].
    intros n Hn. by rewrite lookup_delete_ne.
Qed.

(** When the manager's context is done every known cluster is stopped. *)
Theorem waitForStop_stops_all w name p cw :
  GetAll w !! name = Some p → peers w !! p = Some cw → c_ctx (cl cw) ≠ [] →
  ∃ cw', peers (waitForStop w) !! p = Some cw' ∧ Done (c_ctx (cl cw')) cw' = true.
Proof.
  intros Hn Hp Hc. unfold waitForStop.
  assert (Hin : p ∈ (map_to_list (m_clusters (mg w))).*2) by (apply elem_of_map_values; eauto).
  revert Hin. generalize (map_to_list (m_clusters (mg w))).*2. intros l Hin.
  assert (Hgrow : ∀ l w, heap_grows (peers w) (peers (foldl (λ w p, stop_cluster p w) w l))).
  { clear. induction l as [|q l IH]; intros w; simpl; [done|].
    etrans; [apply (heap_grows_stop q)|apply (IH (stop_cluster q w))]. }
  clear Hn. revert w cw Hp Hc. induction l as [|q l IH]; intros w cw Hp Hc; [inversion Hin|]. simpl.
  destruct (decide (p = q)) as [<-|Hne].
  - destruct (Hgrow l (stop_cluster p w) p (Stop cw)) as (cw' & Hp' & _ & Hc' & Hd).
    + simpl. by rewrite lookup_alter_eq, Hp.
    + exists cw'. split; [done|]. rewrite Hc'. eapply Done_mono; [exact Hd|]. by apply Stop_Done.
  - apply elem_of_cons in Hin as [->|Hin]; [done|]. apply (IH Hin _ cw); [|done].
    simpl. by rewrite lookup_alter_ne.
Qed.
End manager_facts.

(** ** Concrete runs *)

Section manager_runs.
Definition idle (f : string) (c : option Ptr) (h : gmap Ptr CWorld) : gmap Ptr CWorld := h.

Definition one_peer : MWorld :=
  mkMWorld (mg (NewManager [0] [WithOnAfterAddFunc "t" "f" ["id"]] ∅)) {[ 5 := peer_world ]} [].

Lemma Manager_Add_correct_witness : Get "peer" (Manager_Add idle 5 one_peer) = Ok 5.
Proof.
  refine (proj1 (Manager_Add_correct idle _ 5 one_peer _)); [by intros f c h|].
  exists peer_world. reflexivity.
Defined.

Lemma Manager_Remove_correct_witness : Exists_ "peer" (Manager_Remove idle (Some 5) (Manager_Add idle 5 one_peer)) = false.
Proof.
  refine (proj1 (proj2 (proj2 (Manager_Remove_correct idle _ (Manager_Add idle 5 one_peer)) 5 peer_world _) _ _));
    [by intros f c h|vm_compute; reflexivity|vm_compute; reflexivity|done].
Defined.

Lemma waitForStop_stops_all_witness :
  ∃ cw', peers (waitForStop (Manager_Add idle 5 one_peer)) !! 5 = Some cw' ∧ Done (c_ctx (cl cw')) cw' = true.
Proof.
  refine (waitForStop_stops_all (Manager_Add idle 5 one_peer) "peer" 5 peer_world _ _ _);
    [vm_compute; reflexivity|vm_compute; reflexivity|done].
Defined.
End manager_runs.
