(* ===== verification/Conditions.v ===== *)
(** * Conditions and status of Cluster resources

    controllers/cluster_conditions.go and controllers/common.go: how the
    reconcilers compute the conditions of a [Cluster] resource and write its
    status back to the API server. *)

From stdpp Require Import gmap strings list.
From S2P Require Import Prelude Errors Types.
Open Scope string_scope.
Open Scope go_scope.

(** ** The API server, as the reconcilers use it for Cluster resources *)

Class ClusterClient (S : Type) : Type := {
  client_GetCluster : string → ST S (result error Cluster);
  client_ListClusters : ST S (result error (list Cluster));
  client_StatusUpdate : Cluster → ST S (option error);
  client_GetNamespaceUID : string → ST S (result error string) }.

Definition with_cluster_rv (rv : string) (c : Cluster) : Cluster :=
  mkCluster (with_resource_version rv (cl_meta c)) (cl_Spec c) (cl_Status c).
Definition cluster_rv (c : Cluster) : string := om_ResourceVersion (cl_meta c).

(** Documented behaviour of the API server: reads return what is stored; a status
    update writes the status of the stored object when the resource versions agree,
    is refused as a conflict when they do not, and gives a new version. *)
Class ClusterClientLaws (S : Type) `{ClusterClient S} `{ErrorLib} : Type := {
  stored : S → string → option Cluster;
  client_GetCluster_ok n s c : stored s n = Some c → client_GetCluster n s = (Ok c, s);
  client_StatusUpdate_ok c s cur :
    stored s (cl_Name c) = Some cur → cluster_rv cur = cluster_rv c →
    (client_StatusUpdate c s).1 = None
    ∧ ∃ new, stored (client_StatusUpdate c s).2 (cl_Name c) = Some new
             ∧ cl_Status new = cl_Status c ∧ cl_Spec new = cl_Spec cur
             ∧ (∀ n, n ≠ cl_Name c → stored (client_StatusUpdate c s).2 n = stored s n);
  client_StatusUpdate_conflict c s cur :
    stored s (cl_Name c) = Some cur → cluster_rv cur ≠ cluster_rv c →
    ∃ e, client_StatusUpdate c s = (Some e, s) ∧ IsConflict e = true }.

(** ** cluster_conditions.go *)

Abbreviation ClusterConditionsMap := (gmap string ClusterCondition).

Definition EventTypeNormal : string := "Normal".
Definition EventTypeWarning : string := "Warning".

(** A recorded event: type, reason, message. *)
Record Event := mkEvent { ev_Type : string; ev_Reason : string; ev_Message : string }.

Definition cond_set_transition (t : Time) (c : ClusterCondition) : ClusterCondition :=
  mkClusterCondition (cc_Type c) (cc_Status c) (LastHeartbeatTime c) t (Reason c) (cc_Message c) (TrueIsFailure c).
Definition cond_set_heartbeat (t : Time) (c : ClusterCondition) : ClusterCondition :=
  mkClusterCondition (cc_Type c) (cc_Status c) t (LastTransitionTime c) (Reason c) (cc_Message c) (TrueIsFailure c).
Definition cond_set_outcome (status reason message : string) (c : ClusterCondition) : ClusterCondition :=
  mkClusterCondition (cc_Type c) status (LastHeartbeatTime c) (LastTransitionTime c) reason message (TrueIsFailure c).

(** The event type of a transition. *)
Definition condition_event_type (condition : ClusterCondition) : string :=
  if (TrueIsFailure condition && bool_decide (cc_Status condition = ConditionTrue))
     || (negb (TrueIsFailure condition) && bool_decide (cc_Status condition = ConditionFalse))
  then EventTypeWarning else EventTypeNormal.

(** [SetCondition] at the time [now]: the new map, and the event it records. *)
Definition SetCondition (now : Z) (currentConditions : ClusterConditionsMap)
    (condition : ClusterCondition) : ClusterConditionsMap * option Event :=
  let '(currentCondition, event) :=
    match currentConditions !! cc_Type condition with
    | None => (condition, None)
    | Some currentCondition =>
        let '(currentCondition, event) :=
          if bool_decide (cc_Status currentCondition ≠ cc_Status condition)
          then (cond_set_transition (Some now) currentCondition,
                Some (mkEvent (condition_event_type condition) (Reason condition) (cc_Message condition)))
          else (currentCondition, None) in
        (cond_set_outcome (cc_Status condition) (Reason condition) (cc_Message condition) currentCondition, event)
    end in
  let currentCondition :=
    match LastTransitionTime currentCondition with
    | None => cond_set_transition (Some now) currentCondition
    | Some _ => currentCondition
    end in
  let currentCondition := cond_set_heartbeat (Some now) currentCondition in
  (<[cc_Type condition := currentCondition]> currentConditions, event).

Definition GetCurrentConditions (cluster : Cluster) : ClusterConditionsMap :=
  foldl (λ m c, <[cc_Type c := c]> m) ∅ (Conditions (cl_Status cluster)).

Fixpoint find_condition (l : list ClusterCondition) (t : string) : ClusterCondition :=
  match l with
  | [] => ClusterCondition_zero
  | c :: l' => if bool_decide (cc_Type c = t) then c else find_condition l' t
  end.
Definition GetCurrentCondition (cluster : Cluster) (t : string) : ClusterCondition :=
  find_condition (Conditions (cl_Status cluster)) t.

(** The condition a boolean check reports. *)
Definition new_condition (type status reason message : string) (trueIsFailure : bool) : ClusterCondition :=
  mkClusterCondition type status None None reason message trueIsFailure.

Definition LocalClusterCondition (isClusterLocal : bool) : ClusterCondition :=
  if isClusterLocal
  then new_condition ClusterConditionTypeLocalCluster ConditionTrue "ClusterIsLocal" "cluster is local" false
  else new_condition ClusterConditionTypeLocalCluster ConditionFalse "ClusterIsNotLocal" "cluster is not local" false.

Section conditions.
Context `{EL : ErrorLib}.

Definition LocalClusterConflictCondition (conflict : bool) : ClusterCondition :=
  if conflict
  then new_condition ClusterConditionTypeLocalConflict ConditionTrue "LocalClusterIsConflicting"
         (error_Error (sentinel ErrLocalClusterConflict)) true
  else new_condition ClusterConditionTypeLocalConflict ConditionFalse "LocalClusterIsNotConflicting"
         "only one local cluster is defined" true.

Definition ClusterMetadataCondition (err : option error) : ClusterCondition :=
  match err with
  | None => new_condition ClusterConditionTypeClusterMetadata ConditionTrue "ClusterMetadataSet"
              "cluster metadata is set" false
  | Some e => new_condition ClusterConditionTypeClusterMetadata ConditionFalse "ClusterMetadataIsNotSet"
                (error_Error e) false
  end.

Definition ClusterReadyCondition (err : option error) : ClusterCondition :=
  match err with
  | None => new_condition ClusterConditionTypeReady ConditionTrue "ClusterIsReady" "cluster is ready" false
  | Some e => new_condition ClusterConditionTypeReady ConditionFalse "ClusterIsNotReady" (error_Error e) false
  end.

Definition ClustersSyncedCondition (err : option error) : ClusterCondition :=
  match err with
  | None => new_condition ClusterConditionTypeClustersSynced ConditionTrue "ClustersAreSynced"
              "all participating clusters are in sync" false
  | Some e => new_condition ClusterConditionTypeClustersSynced ConditionFalse "ClustersAreNotSynced"
                (error_Error e) false
  end.

(** ** common.go *)

Context {S : Type} `{CC : ClusterClient S}.

Definition GetClusters : ST S (result error (gmap string Cluster)) :=
  let! l := client_ListClusters in
  match l with
  | Err e => return! Err (WrapIf e "could not list clusters")
  | Ok items => return! Ok (foldl (λ m c, <[ClusterID (cl_Spec c) := c]> m) ∅ items)
  end.

Definition NamespaceSystem : string := "kube-system".

Definition GetClusterID : ST S (result error string) := client_GetNamespaceUID NamespaceSystem.

Definition UpdateClusterStatus (cluster : Cluster) : ST S (option error) :=
  let desired := cluster in
  let! err := client_StatusUpdate cluster in
  match err with
  | None => return! None
  | Some e =>
      if IsConflict e then
        let! current := client_GetCluster (cl_Name cluster) in
        match current with
        | Err e => return! Some (WrapIf e "could not get cluster")
        | Ok current =>
            let! err := client_StatusUpdate (with_cluster_rv (cluster_rv current) desired) in
            match err with
            | Some e => return! Some (WrapIf e "could not update cluster status")
            | None => return! None
            end
        end
      else return! Some (WrapIf e "could not update status")
  end.

(** The conditions that are written, in the order [order] in which the map is visited. *)
Definition conditions_to_write (typ : string) (order : list ClusterCondition) : list ClusterCondition :=
  filter (λ c, ¬ (typ = ClusterTypeLocal ∧ cc_Type c = ClusterConditionTypeClustersSynced)) order.

(** The assignments of [UpdateCluster] to the object it is given. *)
Definition with_outcome (reconcileError : option error) (cluster : Cluster)
    (currentConditions : ClusterConditionsMap) : Cluster :=
  let conditions := conditions_to_write (cst_Type (cl_Status cluster)) (map_to_list currentConditions).*2 in
  let status := status_set_Conditions conditions (cl_Status cluster) in
  match reconcileError with
  | Some e =>
      let status := if bool_decide (State status = ClusterStateReady)
                    then status_set_State ClusterStateFailed status else status in
      with_status (status_set_Message (error_Error e) status) cluster
  | None => with_status status cluster
  end.

Definition UpdateCluster (reconcileError : option error) (cluster : Cluster)
    (currentConditions : ClusterConditionsMap) : ST S (option error) :=
  let cluster := with_outcome reconcileError cluster currentConditions in
  match reconcileError with
  | Some e =>
      let! _ := UpdateClusterStatus cluster in
      if IsPermanent e then return! None else return! Some e
  | None =>
      let! err := UpdateClusterStatus cluster in
      return! (WithStackIf <$> err)
  end.
End conditions.

(** ** Conditions *)

(** Conditions are filed under their own type. *)
Definition conditions_wf (m : ClusterConditionsMap) : Prop := ∀ t c, m !! t = Some c → cc_Type c = t.

(** [SetCondition] reports the outcome of the condition under its type and
    leaves the other types alone; the heartbeat is always renewed, the transition
    time only when the status changes (or was never set); an event is recorded
    exactly when the status of a known condition changes. *)
Theorem SetCondition_correct now m condition :
  let '(m', event) := SetCondition now m condition in
  let t := cc_Type condition in
  (∃ c, m' !! t = Some c ∧ cc_Status c = cc_Status condition ∧ Reason c = Reason condition
      ∧ cc_Message c = cc_Message condition ∧ LastHeartbeatTime c = Some now
      ∧ LastTransitionTime c =
          match m !! t with
          | None => Some (default now (LastTransitionTime condition))
          | Some old => if bool_decide (cc_Status old = cc_Status condition)
                        then Some (default now (LastTransitionTime old)) else Some now
          end)
  ∧ (∀ t', t' ≠ t → m' !! t' = m !! t')
  ∧ (is_Some event ↔ ∃ old, m !! t = Some old ∧ cc_Status old ≠ cc_Status condition)
  ∧ (conditions_wf m → conditions_wf m').
Proof.
  unfold SetCondition. destruct (m !! cc_Type condition) as [old|] eqn:Hm.
  - rewrite bool_decide_not. destruct (decide (cc_Status old = cc_Status condition)) as [Hs|Hs].
    + rewrite bool_decide_true by done. simpl. split_and!.
      * eexists. rewrite lookup_insert_eq. split; [done|].
        destruct (LastTransitionTime old) eqn:Ht; simpl; by rewrite ?Ht.
      * intros t' Ht. by rewrite lookup_insert_ne.
      * split; [by intros []|]. naive_solver.
      * intros Hwf t c [[<- <-]|[_ Hc]]%lookup_insert_Some; [|by apply Hwf].
        destruct (LastTransitionTime old); simpl; by apply Hwf.
    + rewrite bool_decide_false by done. simpl. split_and!.
      * eexists. rewrite lookup_insert_eq. by split.
      * intros t' Ht. by rewrite lookup_insert_ne.
      * split; [|by eexists]. naive_solver.
      * intros Hwf t c [[<- <-]|[_ Hc]]%lookup_insert_Some; [|by apply Hwf].
        simpl. by apply Hwf.
  - simpl. split_and!.
    + eexists. rewrite lookup_insert_eq. split; [done|].
      destruct (LastTransitionTime condition) eqn:Ht; simpl; by rewrite ?Ht.
    + intros t' Ht. by rewrite lookup_insert_ne.
    + split; [by intros []|]. naive_solver.
    + intros Hwf t c [[<- <-]|[_ Hc]]%lookup_insert_Some; [|by apply Hwf].
      by destruct (LastTransitionTime condition).
Qed.

Lemma foldl_conditions l (acc : ClusterConditionsMap) t :
  foldl (λ m c, <[cc_Type c := c]> m) acc l !! t
  = match last (filter (λ c, cc_Type c = t) l) with Some c => Some c | None => acc !! t end.
Proof.
  revert acc. induction l as [|c l IH]; intros acc; simpl; [done|]. rewrite IH, filter_cons.
  destruct (last (filter _ l)) as [d|] eqn:Hl.
  - case_decide; [|by rewrite Hl]. rewrite last_cons, Hl. done.
  - case_decide as Ht; [|rewrite Hl; by rewrite lookup_insert_ne]. subst.
    by rewrite last_cons, Hl, lookup_insert_eq.
Qed.

Lemma written_conditions cluster m order :
  conditions_wf m → order ≡ₚ (map_to_list m).*2 →
  let written := with_status (status_set_Conditions
      (conditions_to_write (cst_Type (cl_Status cluster)) order) (cl_Status cluster)) cluster in
  ∀ t, let want := if bool_decide (cst_Type (cl_Status cluster) = ClusterTypeLocal
                                   ∧ t = ClusterConditionTypeClustersSynced)
                   then None else m !! t in
    GetCurrentConditions written !! t = want
    ∧ GetCurrentCondition written t = default ClusterCondition_zero want.
Proof.
  intros Hwf Ho written t want.
  set (l := conditions_to_write (cst_Type (cl_Status cluster)) order).
  assert (Hin : ∀ c, c ∈ l ∧ cc_Type c = t ↔ want = Some c).
  { intros c. unfold l, conditions_to_write, want. rewrite list_elem_of_filter, Ho, list_elem_of_fmap.
    case_bool_decide as Hb; split.
    - intros [[Hn _] Ht]. naive_solver.
    - done.
    - intros [[Hn ([t' c'] & -> & Hc%elem_of_map_to_list)] <-]. simpl. by rewrite (Hwf _ _ Hc).
    - intros Hc. rewrite (Hwf _ _ Hc). split; [|done]. split; [done|].
      exists (t, c). split; [done|]. by apply elem_of_map_to_list. }
  assert (Huniq : ∀ c, c ∈ filter (λ c, cc_Type c = t) l → want = Some c).
  { intros c [Ht Hc]%list_elem_of_filter. by apply Hin. }
  split.
  - unfold GetCurrentConditions. simpl. fold l. rewrite foldl_conditions, lookup_empty.
    destruct (last (filter (λ c, cc_Type c = t) l)) as [c|] eqn:Hl.
    + apply last_Some in Hl as [l' Hl]. symmetry. apply Huniq. rewrite Hl. set_solver.
    + apply last_None in Hl. destruct want as [c|]; [|done].
      destruct (proj2 (Hin c) eq_refl) as [Hc Ht].
      assert (c ∈ filter (λ c, cc_Type c = t) l) as Hf by (by apply list_elem_of_filter).
      rewrite Hl in Hf. inversion Hf.
  - unfold GetCurrentCondition. simpl. fold l. clearbody l want. clear Huniq.
    induction l as [|c l IH]; simpl.
    { destruct want as [c|]; [|done]. destruct (proj2 (Hin c) eq_refl) as [Hc _]. inversion Hc. }
    case_bool_decide as Ht.
    { assert (want = Some c) as -> by (apply Hin; split; [left|done]). done. }
    apply IH. intros d. rewrite <-Hin, elem_of_cons. naive_solver.
Qed.

(** ** Conditions on the API server *)

(** What the serialisation of a condition keeps: [TrueIsFailure] is left out, and times
    are stored in seconds. *)
Definition stored_time (t : Time) : Time := (λ n, (n / time_Second * time_Second)%Z) <$> t.
Definition stored_condition (c : ClusterCondition) : ClusterCondition :=
  mkClusterCondition (cc_Type c) (cc_Status c) (stored_time (LastHeartbeatTime c)) (stored_time (LastTransitionTime c))
    (Reason c) (cc_Message c) false.
Definition stored_cluster (c : Cluster) : Cluster :=
  with_status (status_set_Conditions (stored_condition <$> Conditions (cl_Status c)) (cl_Status c)) c.

Lemma stored_current c t : GetCurrentConditions (stored_cluster c) !! t = stored_condition <$> GetCurrentConditions c !! t.
Proof.
  unfold GetCurrentConditions. simpl. generalize (Conditions (cl_Status c)). intros l.
  rewrite !foldl_conditions, !lookup_empty.
  assert (filter (λ c, cc_Type c = t) (stored_condition <$> l) = stored_condition <$> filter (λ c, cc_Type c = t) l) as ->.
  { induction l as [|d l IH]; [done|]. rewrite fmap_cons, !filter_cons. simpl. rewrite IH. by case_decide. }
  rewrite fmap_last. by destruct (last _).
Qed.

(** C30: the conditions a status update writes, stored by the API server and read back,
    are the conditions that were computed, whatever the order in which the map is
    visited, up to what is not stored (the flag [TrueIsFailure] and fractions of
    seconds) and without the sync condition on a local cluster; every type is listed
    once, so that both ways of reading a condition agree. What is lost has no effect on
    the events: the next [SetCondition] of a type that was kept records the event it
    would have recorded on the conditions before they were written. *)
Theorem conditions_round_trip cluster m order :
  conditions_wf m → order ≡ₚ (map_to_list m).*2 →
  let written := with_status (status_set_Conditions
      (conditions_to_write (cst_Type (cl_Status cluster)) order) (cl_Status cluster)) cluster in
  let read := stored_cluster written in
  ∀ t, let dropped := cst_Type (cl_Status cluster) = ClusterTypeLocal ∧ t = ClusterConditionTypeClustersSynced in
    (dropped → GetCurrentConditions read !! t = None ∧ GetCurrentCondition read t = ClusterCondition_zero)
    ∧ (¬ dropped →
        GetCurrentConditions read !! t = stored_condition <$> m !! t
        ∧ GetCurrentCondition read t = default ClusterCondition_zero (stored_condition <$> m !! t)
        ∧ ∀ now c, cc_Type c = t →
            (SetCondition now (GetCurrentConditions read) c).2 = (SetCondition now m c).2).
Proof.
  intros Hwf Ho written read t dropped.
  destruct (written_conditions cluster m order Hwf Ho t) as [Hc Hf]. fold written in Hc, Hf.
  assert (Hfind : GetCurrentCondition read t = stored_condition (GetCurrentCondition written t)).
  { unfold read, GetCurrentCondition. simpl.
    generalize (conditions_to_write (cst_Type (cl_Status cluster)) order). intros l.
    induction l as [|d l IH]; [done|]. simpl. change (cc_Type (stored_condition d)) with (cc_Type d).
    repeat case_bool_decide; done || exact IH. }
  assert (Hget : GetCurrentConditions read !! t = stored_condition <$> GetCurrentConditions written !! t)
    by apply stored_current.
  split; intros Hd.
  - rewrite Hget, Hfind, Hc, Hf, bool_decide_true by done. done.
  - rewrite bool_decide_false in Hc, Hf by done. rewrite Hget, Hfind, Hc, Hf.
    split_and!; [done|by destruct (m !! t)|]. intros now c Ht. unfold SetCondition. rewrite Ht, Hget, Hc.
    destruct (m !! t) as [d|]; simpl; [|done]. by case_bool_decide.
Qed.

(** ** Status updates *)

Section status.
Context `{EL : ErrorLib} {S : Type} `{CC : ClusterClient S} `{CL : !ClusterClientLaws S}.

Lemma UpdateClusterStatus_effect cluster s cur :
  stored s (cl_Name cluster) = Some cur →
  let '(err, s') := UpdateClusterStatus cluster s in
  err = None
  ∧ (∃ new, stored s' (cl_Name cluster) = Some new ∧ cl_Status new = cl_Status cluster
            ∧ cl_Spec new = cl_Spec cur)
  ∧ (∀ n, n ≠ cl_Name cluster → stored s' n = stored s n).
Proof.
  intros Hs. unfold UpdateClusterStatus, st_bind.
  destruct (decide (cluster_rv cur = cluster_rv cluster)) as [Hrv|Hrv].
  - destruct (client_StatusUpdate_ok cluster s cur Hs Hrv) as (He & new & Hn & Hst & Hsp & Ho).
    destruct (client_StatusUpdate cluster s) as [err s']; simpl in *; subst err. simpl. eauto 6.
  - destruct (client_StatusUpdate_conflict cluster s cur Hs Hrv) as (e & -> & He). rewrite He.
    rewrite (client_GetCluster_ok _ _ _ Hs).
    set (d := with_cluster_rv (cluster_rv cur) cluster).
    assert (Hd : cl_Name d = cl_Name cluster) by done.
    destruct (client_StatusUpdate_ok d s cur) as (He' & new & Hn & Hst & Hsp & Ho); [by rewrite Hd|done|].
    destruct (client_StatusUpdate d s) as [err s']; simpl in *; subst err. simpl.
    rewrite Hd in Hn, Ho. eauto 6.
Qed.

(** A status update of a resource that exists succeeds whether or not the
    resource was read at its latest version: a conflict is repaired by one more
    read, the status that was computed is what is stored, the spec that somebody
    else wrote meanwhile is kept, and no other cluster is touched. *)
Theorem UpdateClusterStatus_correct cluster s cur :
  stored s (cl_Name cluster) = Some cur →
  let '(err, s') := UpdateClusterStatus cluster s in
  err = None
  ∧ (∃ new, stored s' (cl_Name cluster) = Some new ∧ cl_Status new = cl_Status cluster
            ∧ cl_Spec new = cl_Spec cur)
  ∧ (∀ n, n ≠ cl_Name cluster → stored s' n = stored s n).
Proof. apply UpdateClusterStatus_effect. Qed.

(** [UpdateCluster] stores the outcome of a reconciliation: a failure turns the
    state Ready, and no other state, into Failed and puts the message of the error in
    the status; the error is returned for a retry unless it is permanent. *)
Theorem UpdateCluster_correct reconcileError cluster m s cur :
  stored s (cl_Name cluster) = Some cur →
  let '(err, s') := UpdateCluster reconcileError cluster m s in
  ∃ new, stored s' (cl_Name cluster) = Some new
    ∧ Conditions (cl_Status new) = conditions_to_write (cst_Type (cl_Status cluster)) (map_to_list m).*2
    ∧ match reconcileError with
      | None => err = None ∧ State (cl_Status new) = State (cl_Status cluster)
                ∧ cst_Message (cl_Status new) = cst_Message (cl_Status cluster)
      | Some e =>
          err = (if IsPermanent e then None else Some e)
          ∧ cst_Message (cl_Status new) = error_Error e
          ∧ State (cl_Status new) = (if bool_decide (State (cl_Status cluster) = ClusterStateReady)
                                     then ClusterStateFailed else State (cl_Status cluster))
      end.
Proof.
  intros Hs. unfold UpdateCluster, with_outcome, st_bind. destruct reconcileError as [e|].
  - set (c := with_status _ cluster). pose proof (UpdateClusterStatus_effect c s cur) as Hu.
    destruct (UpdateClusterStatus c s) as [err s'].
    destruct Hu as (_ & (new & Hn & Hst & _) & _); [done|].
    assert (Hgoal : ∃ new, stored s' (cl_Name cluster) = Some new ∧ cl_Status new = cl_Status c) by eauto.
    destruct Hgoal as (new' & Hn' & Hst'). unfold c in Hst'. simpl in Hst'.
    destruct (IsPermanent e); exists new'; rewrite Hst'; simpl; case_bool_decide; done.
  - set (c := with_status _ cluster). pose proof (UpdateClusterStatus_effect c s cur) as Hu.
    destruct (UpdateClusterStatus c s) as [err s'].
    destruct Hu as (-> & (new & Hn & Hst & _) & _); [done|]. simpl.
    exists new. by rewrite Hst.
Qed.
End status.

(** ** A concrete API server *)

Section server.
Existing Instance chain_lib.

(** Names with the stored resource; versions are strings that grow. *)
Abbreviation Server := (gmap string Cluster).

Definition server_client : ClusterClient Server := {|
  client_GetCluster n s :=
    (match s !! n with Some c => Ok c | None => Err (StatusError NotFound n) end, s);
  client_ListClusters s := (Ok (map_to_list s).*2, s);
  client_StatusUpdate c s :=
    match s !! cl_Name c with
    | None => (Some (StatusError NotFound (cl_Name c)), s)
    | Some cur =>
        if bool_decide (cluster_rv cur = cluster_rv c)
        then (None, <[cl_Name c := with_cluster_rv ("1" ++ cluster_rv cur) (with_status (cl_Status c) cur)]> s)
        else (Some (StatusError Conflict (cl_Name c)), s)
    end;
  client_GetNamespaceUID _ s := (Ok "uid", s) |}.

Existing Instance server_client.

Definition server_laws : ClusterClientLaws Server.
Proof.
  refine {| stored s n := s !! n |}.
  - intros n s c Hs. simpl. by rewrite Hs.
  - intros c s cur Hs Hrv. simpl. rewrite Hs, bool_decide_true by done. simpl. split; [done|].
    eexists. rewrite lookup_insert_eq. split_and!; [done..|]. intros n Hn. by rewrite lookup_insert_ne.
  - intros c s cur Hs Hrv. simpl. rewrite Hs, bool_decide_false by done. by eexists.
Defined.

Existing Instance server_laws.

Definition a_status : ClusterStatus :=
  mkClusterStatus ClusterStateReady "" ClusterTypePeer false ClusterMetadata_zero [].
Definition a_cluster (rv : string) : Cluster :=
  mkCluster (with_resource_version rv (named_meta "c1" ""))
    (mkClusterSpec "id-1" (mkAuthInfo (mkNamespacedName "" "")) []) a_status.

Lemma conditions_round_trip_witness :
  let m := (SetCondition 1500000000 ∅ (LocalClusterConflictCondition true)).1 in
  (GetCurrentConditions (stored_cluster (with_status (status_set_Conditions
      (conditions_to_write ClusterTypePeer (map_to_list m).*2) a_status) (a_cluster "1")))
    !! ClusterConditionTypeLocalConflict) = stored_condition <$> m !! ClusterConditionTypeLocalConflict.
Proof.
  intros m. refine (proj1 (proj2 (conditions_round_trip (a_cluster "1") m (map_to_list m).*2 _ _
    ClusterConditionTypeLocalConflict) _)).
  - intros t c Hc. unfold m, SetCondition in Hc. rewrite lookup_empty in Hc. simpl in Hc. apply lookup_insert_Some in Hc as [[<- <-]|[_ Hc]]; [reflexivity|by rewrite lookup_empty in Hc].
  - reflexivity.
  - intros [_ H]. discriminate H.
Defined.

(** The resource was read at an old version. *)
Lemma UpdateClusterStatus_correct_witness :
  (UpdateClusterStatus (a_cluster "0") {["c1" := a_cluster "7"]}).1 = None.
Proof.
  exact (proj1 (UpdateClusterStatus_correct (a_cluster "0") {["c1" := a_cluster "7"]} (a_cluster "7") eq_refl)).
Defined.

Lemma UpdateCluster_correct_witness :
  ∃ new, stored (UpdateCluster (Some (permanentError (errorString "x"))) (a_cluster "0") ∅
           {["c1" := a_cluster "7"]}).2 "c1" = Some new.
Proof.
  assert (Hs : stored (S:=Server) {["c1" := a_cluster "7"]} (cl_Name (a_cluster "0")) = Some (a_cluster "7"))
    by (vm_compute; reflexivity).
  destruct (UpdateCluster_correct (S:=Server) (Some (permanentError (errorString "x"))) (a_cluster "0") ∅ _ _ Hs)
    as (new & Hn & _).
  exists new. exact Hn.
Defined.
End server.
