(* ===== verification/GoHeap.v ===== *)
(** * A heap for Go data

    The part of Go's memory that generated deep copies depend on: values with
    structs, arrays, pointers, slices and maps; addresses that may point inside a
    struct or an array; allocation; nil. A program is a function on heaps that may
    panic. [view] reads the whole of a value, through its references, as a tree;
    [copies] is what a deep copy promises. The lemmas reduce the deep copy of a
    struct to those of its fields. *)

From stdpp Require Import gmap strings list.
From S2P Require Import Prelude.
Open Scope string_scope.

(** ** Values and addresses *)

Abbreviation loc := positive.

(** A step inside a value: a field of a struct, an element of an array. *)
Inductive step := SField (f : string) | SIdx (i : nat).

(** An address: an allocated object and a path inside it, as in [&out[i].Spec]. *)
Abbreviation addr := (loc * list step)%type.

(** A slice is an array, the index of its first element and its length. Capacities
    matter to [append] only, which nothing here calls. *)
Abbreviation slice := (addr * nat * nat)%type.

#[warnings="-register-all"]
Inductive gv :=
| GStr (s : string)
| GBool (b : bool)
| GInt (z : Z)
| GStruct (fs : list (string * gv))
| GArr (vs : list gv)
| GPtr (p : option addr)
| GSlice (s : option slice)
| GMap (m : option loc).

(** An allocated object is a variable or a [map[string]string]. *)
Inductive cell := CVal (v : gv) | CMap (m : gmap string string).

Abbreviation heap := (gmap loc cell).

(** ** Fields and paths *)

Fixpoint fld {A} (f : string) (fs : list (string * A)) : option A :=
  match fs with
  | [] => None
  | (g, v) :: fs' => if String.eqb g f then Some v else fld f fs'
  end.

Fixpoint fld_set {A} (f : string) (x : A) (fs : list (string * A)) : list (string * A) :=
  match fs with
  | [] => []
  | (g, v) :: fs' => if String.eqb g f then (g, x) :: fs' else (g, v) :: fld_set f x fs'
  end.

Definition get_step (s : step) (v : gv) : option gv :=
  match s, v with
  | SField f, GStruct fs => fld f fs
  | SIdx i, GArr vs => vs !! i
  | _, _ => None
  end.

Definition set_step (s : step) (x v : gv) : option gv :=
  match s, v with
  | SField f, GStruct fs => _ ← fld f fs; Some (GStruct (fld_set f x fs))
  | SIdx i, GArr vs => _ ← vs !! i; Some (GArr (<[i := x]> vs))
  | _, _ => None
  end.

Fixpoint get_path (p : list step) (v : gv) : option gv :=
  match p with
  | [] => Some v
  | s :: p' => w ← get_step s v; get_path p' w
  end.

Fixpoint set_path (p : list step) (x v : gv) : option gv :=
  match p with
  | [] => Some x
  | s :: p' => w ← get_step s v; w' ← set_path p' x w; set_step s w' v
  end.

(** [&a.f] and [&a[i]]. *)
Definition sub (a : addr) (s : step) : addr := (a.1, (a.2 ++ [s])%list).
Notation "a ↠ f" := (sub a (SField f)) (at level 15, left associativity).

(** ** Programs *)

Definition M (A : Type) : Type := heap → option (A * heap).
#[export] Instance M_ret : MRet M := λ A a h, Some (a, h).
#[export] Instance M_bind : MBind M := λ A B k c h,
  match c h with Some (a, h') => k a h' | None => None end.

Definition panic {A} : M A := λ _, None.

Definition deref (h : heap) (a : addr) : option gv :=
  match h !! a.1 with Some (CVal c) => get_path a.2 c | _ => None end.

Definition load (a : addr) : M gv := λ h,
  match deref h a with Some v => Some (v, h) | None => None end.

Definition store (a : addr) (v : gv) : M unit := λ h,
  match h !! a.1 with
  | Some (CVal c) => match set_path a.2 v c with
                     | Some c' => Some (tt, <[a.1 := CVal c']> h)
                     | None => None
                     end
  | _ => None
  end.

(** Allocation takes a location above all that are in use. *)
Definition next_loc (h : heap) : loc := map_fold (λ k _ r, Pos.max (Pos.succ k) r) 1%positive h.
Definition alloc (c : cell) : M loc := λ h, let l := next_loc h in Some (l, <[l := c]> h).

(** [*out = *in]. *)
Definition assign (inn out : addr) : M unit := v ← load inn; store out v.

Definition is_nil (v : gv) : bool :=
  match v with GPtr None | GSlice None | GMap None => true | _ => false end.

(** [if *a != nil { k }]. *)
Definition if_not_nil (a : addr) (k : M unit) : M unit :=
  v ← load a; if is_nil v then mret tt else k.

Definition load_ptr (a : addr) : M addr :=
  v ← load a; match v with GPtr (Some p) => mret p | _ => panic end.
(** A nil slice reads as an empty one. *)
Definition load_slice (a : addr) : M slice :=
  v ← load a;
  match v with GSlice (Some s) => mret s | GSlice None => mret ((1%positive, []), 0, 0) | _ => panic end.
Definition load_map (a : addr) : M (gmap string string) :=
  v ← load a;
  match v with
  | GMap None => mret ∅
  | GMap (Some l) => λ h, match h !! l with Some (CMap m) => Some (m, h) | _ => None end
  | _ => panic
  end.
(** [a[k] = v] for a map variable [a]. *)
Definition map_set (a : addr) (k v : string) : M unit :=
  x ← load a;
  match x with
  | GMap (Some l) => λ h,
      match h !! l with Some (CMap m) => Some (tt, <[l := CMap (<[k := v]> m)]> h) | _ => None end
  | _ => panic
  end.

(** [&s[i]], which panics out of range. *)
Definition elem (s : slice) (i : nat) : M addr :=
  let '(a, o, n) := s in if Nat.ltb i n then mret (sub a (SIdx (o + i))) else panic.

Fixpoint each (k : nat → M unit) (ns : list nat) : M unit :=
  match ns with [] => mret tt | i :: ns' => _ ← k i; each k ns' end.
Fixpoint each_entry (k : string → string → M unit) (es : list (string * string)) : M unit :=
  match es with [] => mret tt | e :: es' => _ ← k e.1 e.2; each_entry k es' end.

(** The builtin [copy]: as many elements as both have. *)
Definition builtin_copy (dst src : addr) : M unit :=
  d ← load_slice dst; s ← load_slice src;
  each (λ i, x ← elem s i; y ← elem d i; assign x y) (seq 0 (Nat.min d.2 s.2)).

(** ** Types *)

#[warnings="-register-all"]
Inductive gtype :=
| TStr | TBool | TInt
| TStruct (ts : list (string * gtype))
| TPtr (T : gtype)
| TSlice (T : gtype)
| TMap.

(** Zero values, as [new] and [make] leave them. *)
Fixpoint zero (T : gtype) : gv :=
  match T with
  | TStr => GStr "" | TBool => GBool false | TInt => GInt 0
  | TStruct ts => GStruct ((λ p, (p.1, zero p.2)) <$> ts)
  | TPtr _ => GPtr None | TSlice _ => GSlice None | TMap => GMap None
  end.

(** Types without references: [assign] copies their values. *)
Fixpoint plain (T : gtype) : bool :=
  match T with
  | TStr | TBool | TInt => true
  | TStruct ts => forallb (λ p, plain p.2) ts
  | TPtr _ | TSlice _ | TMap => false
  end.

(** The whole of a value: references are followed, nil is kept apart from empty. *)
#[warnings="-register-all"]
Inductive tree :=
| LStr (s : string) | LBool (b : bool) | LInt (z : Z)
| LStruct (xs : list (string * tree))
| LNil | LPtr (t : tree) | LSlice (ts : list tree) | LMap (m : gmap string string).

(** The elements of a slice; [None] when it is not within an array. *)
Definition slice_elems (h : heap) (s : slice) : option (list gv) :=
  let '(a, o, n) := s in
  match deref h a with
  | Some (GArr vs) => if decide (o + n ≤ length vs)%nat then Some (take n (drop o vs)) else None
  | _ => None
  end.

#[global] Arguments slice_elems : simpl never.

Fixpoint all_some {A B} (f : A → option B) (l : list A) : option (list B) :=
  match l with [] => Some [] | x :: l' => y ← f x; ys ← all_some f l'; Some (y :: ys) end.

Fixpoint view (h : heap) (T : gtype) (v : gv) {struct T} : option tree :=
  match T, v with
  | TStr, GStr s => Some (LStr s)
  | TBool, GBool b => Some (LBool b)
  | TInt, GInt z => Some (LInt z)
  | TStruct ts, GStruct fs =>
      LStruct <$> (fix fields ts fs :=
        match ts, fs with
        | [], [] => Some []
        | (f, T) :: ts', (g, v) :: fs' =>
            if String.eqb f g then t ← view h T v; xs ← fields ts' fs'; Some ((f, t) :: xs) else None
        | _, _ => None
        end) ts fs
  | TPtr T, GPtr None => Some LNil
  | TPtr T, GPtr (Some a) => v ← deref h a; LPtr <$> view h T v
  | TSlice T, GSlice None => Some LNil
  | TSlice T, GSlice (Some s) => vs ← slice_elems h s; LSlice <$> all_some (view h T) vs
  | TMap, GMap None => Some LNil
  | TMap, GMap (Some l) => match h !! l with Some (CMap m) => Some (LMap m) | _ => None end
  | _, _ => None
  end.

Fixpoint view_fields (h : heap) (ts : list (string * gtype)) (fs : list (string * gv))
    : option (list (string * tree)) :=
  match ts, fs with
  | [], [] => Some []
  | (f, T) :: ts', (g, v) :: fs' =>
      if String.eqb f g then t ← view h T v; xs ← view_fields h ts' fs'; Some ((f, t) :: xs) else None
  | _, _ => None
  end.

Lemma view_struct h ts fs : view h (TStruct ts) (GStruct fs) = LStruct <$> view_fields h ts fs.
Proof.
  simpl. f_equal. revert fs.
  induction ts as [|[f T] ts IH]; intros [|[g v] fs]; [done..|].
  simpl. destruct (String.eqb f g); [|done]. destruct (view h T v); [|done]. simpl. by rewrite IH.
Qed.

(** Types contain types in lists of fields: induction with a hypothesis for each. *)
Lemma gtype_fields_ind (P : gtype → Prop) :
  P TStr → P TBool → P TInt → (∀ ts, Forall (λ p, P p.2) ts → P (TStruct ts)) →
  (∀ T, P T → P (TPtr T)) → (∀ T, P T → P (TSlice T)) → P TMap → ∀ T, P T.
Proof.
  intros Hs Hb Hi Hst Hp Hsl Hm. fix IH 1. intros [| | |ts|T|T|]; [done..| | | |done].
  - apply Hst. induction ts as [|[f T] ts IHts]; constructor; [apply IH|done].
  - apply Hp, IH.
  - apply Hsl, IH.
Qed.

(** ** Fields *)

Lemma fld_set_eq {A} f (x : A) fs : is_Some (fld f fs) → fld f (fld_set f x fs) = Some x.
Proof.
  intros [y Hy]. induction fs as [|[g v] fs IH]; [done|]. simpl in *.
  destruct (String.eqb g f) eqn:E; simpl; rewrite E; [done|auto].
Qed.

Lemma fld_set_ne {A} f g (x : A) fs : f ≠ g → fld g (fld_set f x fs) = fld g fs.
Proof.
  intros Hfg. induction fs as [|[n v] fs IH]; [done|]. simpl.
  destruct (String.eqb_spec n f) as [->|]; simpl; [|by rewrite IH].
  destruct (String.eqb_spec f g); [done|done].
Qed.

Lemma fld_set_names {A} f (x : A) fs : (fld_set f x fs).*1 = fs.*1.
Proof. induction fs as [|[g v] fs IH]; [done|]. simpl. case_match; simpl; by f_equal. Qed.

Lemma fld_set_set {A} f (x y : A) fs : fld_set f y (fld_set f x fs) = fld_set f y fs.
Proof.
  induction fs as [|[g v] fs IH]; [done|]. simpl.
  destruct (String.eqb g f) eqn:E; simpl; rewrite E; [done|by rewrite IH].
Qed.

Lemma fld_names {A B} f (fs : list (string * A)) (gs : list (string * B)) :
  fs.*1 = gs.*1 → is_Some (fld f fs) → is_Some (fld f gs).
Proof.
  revert gs. induction fs as [|[n v] fs IH]; intros [|[m w] gs]; simpl; try done.
  intros [= -> ?]. destruct (String.eqb m f); [done|]. by apply IH.
Qed.

Lemma fld_elem {A} f (fs : list (string * A)) x : fld f fs = Some x → (f, x) ∈ fs.
Proof.
  induction fs as [|[g v] fs IH]; [done|]. simpl.
  destruct (String.eqb_spec g f) as [->|]; [intros [= ->]; left|right; auto].
Qed.

(** ** Paths *)

Lemma get_path_app p q c : get_path (p ++ q)%list c = get_path p c ≫= get_path q.
Proof.
  revert c. induction p as [|s p IH]; intros c; [done|]. simpl.
  destruct (get_step s c); simpl; [apply IH|done].
Qed.

Lemma set_step_get s x v v' : set_step s x v = Some v' → get_step s v' = Some x.
Proof.
  destruct s as [f|i], v; try done; simpl.
  - destruct (fld f fs) eqn:E; [|done]. intros [= <-]. simpl. by apply fld_set_eq; rewrite E.
  - destruct (vs !! i) eqn:E; [|done]. intros [= <-]. simpl. apply lookup_lt_Some in E.
    by rewrite list_lookup_insert_eq.
Qed.

Lemma set_step_some s x v w : get_step s v = Some w → is_Some (set_step s x v).
Proof. destruct s, v; try done; simpl; by intros ->. Qed.

Lemma set_step_set s x y v v' : set_step s x v = Some v' → set_step s y v' = set_step s y v.
Proof.
  destruct s as [f|i], v; try done; simpl.
  - destruct (fld f fs) eqn:E; [|done]. intros [= <-]. simpl.
    rewrite fld_set_eq by by rewrite E. simpl. by rewrite fld_set_set.
  - destruct (vs !! i) eqn:E; [|done]. intros [= <-]. simpl. apply lookup_lt_Some in E as Hi.
    rewrite list_lookup_insert_eq by done. simpl. by rewrite list_insert_insert_eq.
Qed.

Lemma set_path_some p x c w : get_path p c = Some w → is_Some (set_path p x c).
Proof.
  revert c. induction p as [|s p IH]; intros c; [done|]. simpl.
  destruct (get_step s c) as [v|] eqn:E; [|done]. simpl. intros H. destruct (IH _ H) as [v' ->]. simpl.
  by eapply set_step_some.
Qed.

Lemma set_path_get p x c c' : set_path p x c = Some c' → get_path p c' = Some x.
Proof.
  revert c c'. induction p as [|s p IH]; intros c c'; simpl; [by intros [= ->]|].
  destruct (get_step s c) as [v|] eqn:E; [|done]. simpl.
  destruct (set_path p x v) as [v'|] eqn:E'; [|done]. simpl.
  intros ->%set_step_get. simpl. by eapply IH.
Qed.

Lemma set_path_set p x y c c' : set_path p x c = Some c' → set_path p y c' = set_path p y c.
Proof.
  revert c c'. induction p as [|s p IH]; intros c c'; simpl; [done|].
  destruct (get_step s c) as [v|] eqn:E; [|done]. simpl.
  destruct (set_path p x v) as [v'|] eqn:E'; [|done]. simpl. intros Hs.
  rewrite (set_step_get _ _ _ _ Hs). simpl. rewrite (IH _ _ E').
  destruct (set_path p y v); [|done]. simpl. by eapply set_step_set.
Qed.

(** Writing one step further in is writing the updated value one step further out. *)
Lemma set_path_app p s x c v :
  get_path p c = Some v → set_path (p ++ [s])%list x c = set_step s x v ≫= λ v', set_path p v' c.
Proof.
  revert c. induction p as [|s' p IH]; intros c; simpl.
  - intros [= ->]. destruct (get_step s v) eqn:E; simpl.
    + by destruct (set_step s x v).
    + by destruct s, v; simpl in *; rewrite ?E.
  - destruct (get_step s' c) as [w|]; [|done]. simpl. intros H. rewrite (IH _ H).
    by destruct (set_step s x v).
Qed.

Lemma set_step_same s v w : get_step s v = Some w → set_step s w v = Some v.
Proof.
  destruct s as [f|i], v; try done; simpl; intros H; rewrite H; simpl; do 2 f_equal.
  - revert H. induction fs as [|[g u] fs IH]; [done|]. simpl.
    case_match; [by intros [= ->]|]. intros H'. by rewrite IH.
  - by apply list_insert_id.
Qed.

Lemma set_path_same p c w : get_path p c = Some w → set_path p w c = Some c.
Proof.
  revert c. induction p as [|s p IH]; intros c; simpl; [by intros [= ->]|].
  destruct (get_step s c) as [v|] eqn:E; [|done]. simpl. intros ->%IH. simpl. by apply set_step_same.
Qed.

(** ** Heaps *)

Lemma next_loc_fresh h : h !! next_loc h = None.
Proof.
  cut (∀ l, is_Some (h !! l) → (l < next_loc h)%positive).
  { intros H. destruct (h !! next_loc h) eqn:E; [|done]. exfalso.
    assert (next_loc h < next_loc h)%positive; [apply H; by rewrite E|lia]. }
  unfold next_loc. apply (map_fold_weak_ind (λ r m, ∀ l, is_Some (m !! l) → (l < r)%positive)).
  - intros l. rewrite lookup_empty. by intros [].
  - intros k c m r Hk IH l. destruct (decide (l = k)) as [->|Hne]; [intros _; lia|].
    rewrite lookup_insert_ne by done. intros H%IH. lia.
Qed.

Lemma deref_mono h h' a v : h ⊆ h' → deref h a = Some v → deref h' a = Some v.
Proof.
  unfold deref. intros Hsub. destruct (h !! a.1) eqn:E; [|done]. by rewrite (lookup_weaken _ _ _ _ E Hsub).
Qed.

Lemma slice_elems_mono h h' s vs : h ⊆ h' → slice_elems h s = Some vs → slice_elems h' s = Some vs.
Proof.
  unfold slice_elems. intros Hsub. destruct s as [[a o] n].
  destruct (deref h a) eqn:E; [|done]. by rewrite (deref_mono _ _ _ _ Hsub E).
Qed.

Lemma all_some_mono {A B} (f g : A → option B) l ys :
  (∀ x y, f x = Some y → g x = Some y) → all_some f l = Some ys → all_some g l = Some ys.
Proof.
  intros Hfg. revert ys. induction l as [|x l IH]; intros ys; simpl; [done|].
  destruct (f x) eqn:E; [|done]. simpl. rewrite (Hfg _ _ E). simpl.
  destruct (all_some f l); [|done]. by rewrite (IH _ eq_refl).
Qed.

Lemma view_mono h h' T v t : h ⊆ h' → view h T v = Some t → view h' T v = Some t.
Proof.
  intros Hsub. revert v t. induction T as [| | |ts IH|T IH|T IH|] using gtype_fields_ind;
    intros v t; destruct v as [| | |fs| |p|s|m]; try done.
  - rewrite !view_struct. destruct (view_fields h ts fs) as [xs|] eqn:E; [|done].
    intros [= <-]. cut (view_fields h' ts fs = Some xs); [by intros ->|].
    revert fs xs E. induction IH as [|[f T] ts HT _ IHts]; intros [|[g v] fs] xs; simpl in *; try done.
    case_match; [|done]. destruct (view h T v) eqn:E; [|done]. simpl. rewrite (HT _ _ E). simpl.
    destruct (view_fields h ts fs) eqn:E'; [|done]. by rewrite (IHts _ _ E').
  - simpl. destruct p as [a|]; [|done]. destruct (deref h a) eqn:E; [|done].
    rewrite (deref_mono _ _ _ _ Hsub E). simpl. destruct (view h T g) eqn:E'; [|done].
    by rewrite (IH _ _ E').
  - simpl. destruct s as [s|]; [|done]. destruct (slice_elems h s) as [vs|] eqn:E; [|done].
    rewrite (slice_elems_mono _ _ _ _ Hsub E). simpl.
    destruct (all_some (view h T) vs) eqn:E'; [|done]. by rewrite (all_some_mono _ _ _ _ IH E').
  - simpl. destruct m as [l|]; [|done]. destruct (h !! l) eqn:E; [|done].
    by rewrite (lookup_weaken _ _ _ _ E Hsub).
Qed.

(** A value of a type without references is all in itself. *)
Lemma view_plain h h' T v : plain T = true → view h T v = view h' T v.
Proof.
  revert v. induction T as [| | |ts IH|T IH|T IH|] using gtype_fields_ind; try done.
  intros [| | |fs| | | |]; try done. rewrite !view_struct. simpl. intros Hp. f_equal.
  revert fs Hp. induction IH as [|[f T] ts HT _ IHts]; intros [|[g v] fs]; simpl in *; try done.
  intros [Hp Hps]%andb_prop. rewrite HT by done. case_match; [|done].
  destruct (view h' T v); [|done]. simpl. by rewrite IHts.
Qed.

(** The fields of a struct, one by one. *)
Lemma view_fields_names h ts fs xs :
  view_fields h ts fs = Some xs → fs.*1 = ts.*1 ∧ xs.*1 = ts.*1.
Proof.
  revert fs xs. induction ts as [|[f T] ts IH]; intros [|[g v] fs] xs; simpl; try done; [by intros [= <-]|].
  destruct (String.eqb_spec f g) as [->|]; [|done]. destruct (view h T v); [|done]. simpl.
  destruct (view_fields h ts fs) eqn:E; [|done]. intros [= <-]. simpl.
  destruct (IH _ _ E) as [Hf Hx]. by split; f_equal.
Qed.

Lemma view_fields_lookup h ts fs xs f T :
  view_fields h ts fs = Some xs → fld f ts = Some T →
  ∃ v t, fld f fs = Some v ∧ fld f xs = Some t ∧ view h T v = Some t.
Proof.
  revert fs xs. induction ts as [|[n T'] ts IH]; intros [|[g v] fs] xs; simpl; try done.
  destruct (String.eqb_spec n g) as [->|]; [|done]. destruct (view h T' v) eqn:Ev; [|done]. simpl.
  destruct (view_fields h ts fs) eqn:E; [|done]. intros [= <-]. simpl.
  destruct (String.eqb g f); [intros [= ->]; eauto|]. by apply IH.
Qed.

Lemma view_fields_intro h ts fs xs :
  NoDup ts.*1 → fs.*1 = ts.*1 → xs.*1 = ts.*1 →
  (∀ f T t, fld f ts = Some T → fld f xs = Some t → ∃ v, fld f fs = Some v ∧ view h T v = Some t) →
  view_fields h ts fs = Some xs.
Proof.
  revert fs xs. induction ts as [|[f T] ts IH]; intros [|[g v] fs] [|[m t] xs]; simpl; try done.
  intros [Hf Hnd]%NoDup_cons [= -> Hfs] [= -> Hxs] H. rewrite String.eqb_refl.
  destruct (H f T t) as (v' & Hv & Hvt); [by rewrite String.eqb_refl..|].
  rewrite String.eqb_refl in Hv. simplify_eq. rewrite Hvt. simpl.
  rewrite (IH fs xs); [done..|]. intros n T' t' HT Ht.
  assert (f ≠ n) as Hne.
  { intros ->. apply Hf. apply fld_elem in HT. apply list_elem_of_fmap. by exists (n, T'). }
  destruct (H n T' t') as (w & Hw & Hwt); [by rewrite (proj2 (String.eqb_neq f n) Hne)..|].
  rewrite (proj2 (String.eqb_neq f n) Hne) in Hw. eauto.
Qed.
