(* ===== verification/CopySpec.v ===== *)
(** * What a deep copy is

    The blocks generated deep copies are made of, and the contract they meet: the copy
    reads as the original did, everything it refers to is newly allocated, and nothing
    but the target is written. The lemmas build the contract of a struct from those of
    its fields. *)

From stdpp Require Import gmap strings list.
From S2P Require Import Prelude GoHeap.
Open Scope string_scope.

(** ** Blocks *)

(** [*out = make(map[string]string, len( *in)); for key, val := range *in { out[key] = val }] *)
Definition copy_map (inn out : addr) : M unit :=
  l ← alloc (CMap ∅); _ ← store out (GMap (Some l));
  m ← load_map inn; each_entry (λ k v, map_set out k v) (map_to_list m).

(** [*out = make([]T, len( *in))] *)
Definition make_slice (T : gtype) (inn out : addr) : M unit :=
  s ← load_slice inn;
  l ← alloc (CVal (GArr (replicate s.2 (zero T))));
  store out (GSlice (Some ((l, []), 0, s.2))).

(** [*out = make([]T, len( *in)); copy( *out, *in)] *)
Definition copy_slice (T : gtype) (inn out : addr) : M unit :=
  _ ← make_slice T inn out; builtin_copy out inn.

(** [*out = make([]T, len( *in)); for i := range *in { in[i].DeepCopyInto(&out[i]) }] *)
Definition copy_each (T : gtype) (into : addr → addr → M unit) (inn out : addr) : M unit :=
  _ ← make_slice T inn out; s ← load_slice inn;
  each (λ i, s ← load_slice inn; x ← elem s i; d ← load_slice out; y ← elem d i; into x y) (seq 0 s.2).

(** [*out = new(T); in.DeepCopyInto( *out)] *)
Definition copy_ptr (T : gtype) (into : addr → addr → M unit) (inn out : addr) : M unit :=
  l ← alloc (CVal (zero T)); _ ← store out (GPtr (Some (l, [])));
  p ← load_ptr inn; q ← load_ptr out; into p q.

(** The same blocks under [if in.f != nil]. *)
Definition unless_nil (k : addr → addr → M unit) (inn out : addr) : M unit :=
  if_not_nil inn (k inn out).

(** ** The contract *)

(** From [h] to [h'], with [hn] newly allocated: the value at [out] is now [x], and
    whatever else there was is as it was. *)
Definition writes (out : addr) (x : gv) (h h' hn : heap) : Prop :=
  delete out.1 h ⊆ h' ∧ hn ⊆ h' ∧ hn ##ₘ h
  ∧ ∃ c c', h !! out.1 = Some (CVal c) ∧ set_path out.2 x c = Some c' ∧ h' !! out.1 = Some (CVal c').

(** The value at [out] reads as [t] in new memory alone. *)
Definition deep (T : gtype) (t : tree) (out : addr) (h h' : heap) : Prop :=
  ∃ x hn, writes out x h h' hn ∧ view hn T x = Some t.

(** The value at [inn] is [v] and reads as [t], without the object of [out]. *)
Definition source (h : heap) (inn out : addr) (T : gtype) (v : gv) (t : tree) : Prop :=
  deref (delete out.1 h) inn = Some v ∧ view (delete out.1 h) T v = Some t.

Definition copies (T : gtype) (into : addr → addr → M unit) : Prop :=
  ∀ h inn out v t, source h inn out T v t → is_Some (deref h out) →
  ∃ h', into inn out h = Some (tt, h') ∧ deep T t out h h'.

(** The same after [*out = *in], when both addresses hold the same value. *)
Definition recopies (T : gtype) (into : addr → addr → M unit) : Prop :=
  ∀ h inn out v t, source h inn out T v t → deref h out = Some v →
  ∃ h', into inn out h = Some (tt, h') ∧ deep T t out h h'.

Lemma copies_recopies T into : copies T into → recopies T into.
Proof. intros H h inn out v t Hs Ho. apply (H h inn out v t Hs). by rewrite Ho. Qed.

(** ** Moving from heap to heap *)

Lemma disjoint_lookup (n h : heap) k a b : n ##ₘ h → n !! k = Some a → h !! k = Some b → False.
Proof. intros Hd Ha Hb. by eapply (proj1 (map_disjoint_spec n h)). Qed.

Lemma delete_sub_delete (o : loc) (h h' : heap) : delete o h ⊆ h' → delete o h ⊆ delete o h'.
Proof.
  intros H. apply map_subseteq_spec. intros k c Hk. apply lookup_delete_Some in Hk as [? Hk].
  apply lookup_delete_Some. split; [done|]. eapply lookup_weaken, H. by apply lookup_delete_Some.
Qed.

Lemma delete_sub_insert (l : loc) c (h : heap) : delete l h ⊆ <[l := c]> h.
Proof.
  apply map_subseteq_spec. intros k a [? Hk]%lookup_delete_Some. by rewrite lookup_insert_ne.
Qed.

Lemma deref_Some h a v : deref h a = Some v ↔ ∃ c, h !! a.1 = Some (CVal c) ∧ get_path a.2 c = Some v.
Proof. unfold deref. split; [|by intros (c & -> & ?)]. destruct (h !! a.1) as [[]|]; naive_solver. Qed.

Lemma deref_sub h a s : deref h (sub a s) = deref h a ≫= get_step s.
Proof.
  unfold deref. simpl. destruct (h !! a.1) as [[c|]|]; [|done..]. rewrite get_path_app.
  destruct (get_path a.2 c) as [v|]; [|done]. simpl. by destruct (get_step s v).
Qed.

Lemma writes_deref out x h h' hn : writes out x h h' hn → deref h' out = Some x.
Proof. intros (_ & _ & _ & c & c' & _ & Hs & Hc). apply deref_Some. eauto using set_path_get. Qed.

Lemma writes_refl out x h : deref h out = Some x → writes out x h h ∅.
Proof.
  intros (c & Hc & Hp)%deref_Some. split_and!.
  - apply delete_subseteq.
  - apply map_empty_subseteq.
  - apply map_disjoint_empty_l.
  - eauto 6 using set_path_same.
Qed.

Lemma writes_trans out x y h h1 h2 n1 n2 :
  writes out x h h1 n1 → writes out y h1 h2 n2 → writes out y h h2 (n2 ∪ n1).
Proof.
  intros (H1 & Hn1 & Hd1 & c & c1 & Hc & Hx & Hc1) (H2 & Hn2 & Hd2 & c1' & c2 & Hc1' & Hy & Hc2).
  simplify_eq. assert (Ho : n1 !! out.1 = None).
  { destruct (n1 !! out.1) eqn:E; [|done]. exfalso. by eapply (disjoint_lookup n1 h). }
  split_and!.
  - etrans; [apply (delete_sub_delete _ _ _ H1)|done].
  - apply map_union_least; [done|]. etrans; [|apply H2]. rewrite <- (delete_id n1 out.1) by done.
    by apply delete_mono.
  - apply map_disjoint_union_l. split; [|done]. apply map_disjoint_spec. intros k a b Ha Hb.
    destruct (decide (k = out.1)) as [->|Hk]; [by eapply (disjoint_lookup n2 h1)|].
    eapply disjoint_lookup; [apply Hd2|apply Ha|]. eapply lookup_weaken, H1. by rewrite lookup_delete_ne.
  - exists c, c2. split_and!; [done| |done]. by rewrite <- (set_path_set _ _ _ _ _ Hx).
Qed.

Lemma writes_sub out s x v h h' hn :
  deref h out = Some v → writes (sub out s) x h h' hn →
  ∃ v', set_step s x v = Some v' ∧ writes out v' h h' hn.
Proof.
  intros (c & Hc & Hp)%deref_Some (Hd & Hn & Hdis & c0 & c' & Hc0 & Hs & Hc'). simpl in *. simplify_eq.
  rewrite (set_path_app _ _ _ _ _ Hp) in Hs. destruct (set_step s x v) as [v'|]; [|done].
  exists v'. split; [done|]. split_and!; try done. eauto.
Qed.

(** Storing a reference to a new object, then working on that object alone. *)
Lemma writes_new out x h c c1 l cl h2 h3 hn cl' :
  h !! out.1 = Some (CVal c) → set_path out.2 x c = Some c1 → h !! l = None →
  h2 = <[out.1 := CVal c1]> (<[l := cl]> h) →
  delete l h2 ⊆ h3 → hn ⊆ h3 → hn ##ₘ h2 → h3 !! l = Some cl' →
  writes out x h h3 (<[l := cl']> hn).
Proof.
  intros Hc Hs Hl -> Hd Hn Hdis Hcl. assert (Ho : out.1 ≠ l) by congruence. split_and!.
  - apply map_subseteq_spec. intros k a [? Hk]%lookup_delete_Some. eapply lookup_weaken, Hd.
    rewrite lookup_delete_ne by congruence. by rewrite lookup_insert_ne, lookup_insert_ne by congruence.
  - apply insert_subseteq_l; done.
  - apply map_disjoint_insert_l. split; [done|]. apply map_disjoint_spec. intros k a b Ha Hb.
    destruct (decide (k = out.1)) as [->|Hk].
    + eapply disjoint_lookup; [apply Hdis|apply Ha|]. apply lookup_insert_eq.
    + eapply disjoint_lookup; [apply Hdis|apply Ha|].
      by rewrite lookup_insert_ne, lookup_insert_ne by congruence.
  - exists c, c1. split_and!; [done..|]. eapply lookup_weaken, Hd.
    rewrite lookup_delete_ne by done. by rewrite lookup_insert_eq.
Qed.

Lemma source_weaken h h' inn out o T v t :
  source h inn out T v t → delete out.1 h ⊆ delete o h' →
  deref (delete o h') inn = Some v ∧ view (delete o h') T v = Some t.
Proof. intros [Hd Hv] Hsub. split; [by eapply deref_mono|by eapply view_mono]. Qed.

(** ** Running the primitives *)

Lemma bind_run {A B} (c : M A) (k : A → M B) h a h' : c h = Some (a, h') → (c ≫= k) h = k a h'.
Proof. intros H. unfold mbind, M_bind. by rewrite H. Qed.

(** One step of a program whose first command does [H]. *)
Ltac run H := rewrite (bind_run _ _ _ _ _ H); cbv beta.

Lemma load_run h a v : deref h a = Some v → load a h = Some (v, h).
Proof. unfold load. by intros ->. Qed.

Lemma store_run h a v c c' :
  h !! a.1 = Some (CVal c) → set_path a.2 v c = Some c' → store a v h = Some (tt, <[a.1 := CVal c']> h).
Proof. unfold store. by intros -> ->. Qed.

Lemma load_slice_run h a s : deref h a = Some (GSlice (Some s)) → load_slice a h = Some (s, h).
Proof. intros H. unfold load_slice. by rewrite (bind_run _ _ _ _ _ (load_run _ _ _ H)). Qed.

Lemma load_ptr_run h a p : deref h a = Some (GPtr (Some p)) → load_ptr a h = Some (p, h).
Proof. intros H. unfold load_ptr. by rewrite (bind_run _ _ _ _ _ (load_run _ _ _ H)). Qed.

Lemma load_map_run h a l m :
  deref h a = Some (GMap (Some l)) → h !! l = Some (CMap m) → load_map a h = Some (m, h).
Proof. intros H Hl. unfold load_map. rewrite (bind_run _ _ _ _ _ (load_run _ _ _ H)). by rewrite Hl. Qed.

Lemma elem_run h (s : slice) i :
  (i < s.2)%nat → elem s i h = Some (sub s.1.1 (SIdx (s.1.2 + i)), h).
Proof. destruct s as [[a o] n]. simpl. intros Hi. by rewrite (proj2 (Nat.ltb_lt i n) Hi). Qed.

Lemma deref_delete h o a v : deref (delete o h) a = Some v → deref h a = Some v.
Proof. apply deref_mono, delete_subseteq. Qed.

(** ** All elements of a list *)

Lemma all_some_lookup {A B} (f : A → option B) l ys :
  all_some f l = Some ys → length ys = length l ∧ ∀ i x, l !! i = Some x → ∃ y, ys !! i = Some y ∧ f x = Some y.
Proof.
  revert ys. induction l as [|x l IH]; intros ys; simpl; [by intros [= <-]|].
  destruct (f x) as [y|] eqn:E; [|done]. simpl. destruct (all_some f l) as [zs|]; [|done].
  intros [= <-]. destruct (IH _ eq_refl) as [Hlen Hl]. split; [simpl; by f_equal|].
  intros [|i] z; simpl; [intros [= <-]; eauto|apply Hl].
Qed.

Lemma all_some_intro {A B} (f : A → option B) l ys :
  length l = length ys → (∀ i x y, l !! i = Some x → ys !! i = Some y → f x = Some y) →
  all_some f l = Some ys.
Proof.
  revert ys. induction l as [|x l IH]; intros [|y ys]; simpl; try done.
  intros [= Hlen] H. rewrite (H 0 x y) by done. simpl. rewrite (IH ys); [done..|].
  intros i. apply (H (S i)).
Qed.

(** ** The blocks meet the contract *)

Definition nonnil_copies (T : gtype) (into : addr → addr → M unit) : Prop :=
  ∀ h inn out v t, source h inn out T v t → is_Some (deref h out) → is_nil v = false →
  ∃ h', into inn out h = Some (tt, h') ∧ deep T t out h h'.

Lemma recopies_unless_nil T k : nonnil_copies T k → recopies T (unless_nil k).
Proof.
  intros Hk h inn out v t Hs Ho. pose proof Hs as [Hi Hv]. unfold unless_nil, if_not_nil.
  rewrite (bind_run _ _ _ _ _ (load_run _ _ _ (deref_delete _ _ _ _ Hi))).
  destruct (is_nil v) eqn:En; [|by apply (Hk h inn out v t Hs); [rewrite Ho|]].
  eexists. split; [done|]. exists v, ∅. split; [by apply writes_refl|].
  by destruct T, v as [| | | | |[]|[]|[]].
Qed.

Lemma copies_assign T : plain T = true → copies T assign.
Proof.
  intros Hp h inn out v t [Hi Hv] [w (c & Hc & Hw)%deref_Some].
  destruct (set_path_some _ v _ _ Hw) as [c' Hc'].
  unfold assign. rewrite (bind_run _ _ _ _ _ (load_run _ _ _ (deref_delete _ _ _ _ Hi))).
  rewrite (store_run _ _ _ _ _ Hc Hc'). eexists. split; [done|]. exists v, ∅. split; [split_and!|].
  - apply delete_sub_insert.
  - apply map_empty_subseteq.
  - apply map_disjoint_empty_l.
  - exists c, c'. by rewrite lookup_insert_eq.
  - by rewrite (view_plain _ (delete out.1 h)).
Qed.

Lemma recopies_skip T : plain T = true → recopies T (λ _ _, mret tt).
Proof.
  intros Hp h inn out v t [_ Hv] Ho. exists h. split; [done|]. exists v, ∅.
  split; [by apply writes_refl|]. by rewrite (view_plain _ (delete out.1 h)).
Qed.

(** Storing a reference to a new object [cl]. *)
Lemma alloc_store_run h out x cl w :
  deref h out = Some w →
  ∃ c c1, h !! out.1 = Some (CVal c) ∧ set_path out.2 x c = Some c1 ∧
    let h2 := <[out.1 := CVal c1]> (<[next_loc h := cl]> h) in
    store out x (<[next_loc h := cl]> h) = Some (tt, h2)
    ∧ deref h2 out = Some x ∧ h2 !! next_loc h = Some cl
    ∧ delete out.1 h ⊆ delete (next_loc h) h2 ∧ out.1 ≠ next_loc h.
Proof.
  intros (c & Hc & Hw)%deref_Some. destruct (set_path_some _ x _ _ Hw) as [c1 Hc1].
  pose proof (next_loc_fresh h) as Hl. assert (Ho : out.1 ≠ next_loc h) by congruence.
  exists c, c1. split_and!; [done..|]. intros h2. split_and!; [| | | |done].
  - rewrite (store_run _ _ _ c c1); [done|by rewrite lookup_insert_ne|done].
  - apply deref_Some. exists c1. unfold h2. rewrite lookup_insert_eq. eauto using set_path_get.
  - unfold h2. by rewrite lookup_insert_ne, lookup_insert_eq.
  - apply map_subseteq_spec. intros k a [? Hk]%lookup_delete_Some. apply lookup_delete_Some.
    unfold h2. split; [congruence|]. by rewrite lookup_insert_ne, lookup_insert_ne by congruence.
Qed.

Lemma zero_deref l (h : heap) (x : gv) : h !! l = Some (CVal x) → deref h (l, []) = Some x.
Proof. intros H. apply deref_Some. by exists x. Qed.

Lemma nonnil_copy_ptr T into : copies T into → nonnil_copies (TPtr T) (copy_ptr T into).
Proof.
  intros Hinto h inn out v t Hs [w Hw] Hn. pose proof Hs as [Hi Hv].
  destruct v as [| | | | |[p|]| |]; try done. simpl in Hv.
  destruct (deref (delete out.1 h) p) as [u|] eqn:Hp; [|done]. simpl in Hv.
  destruct (view (delete out.1 h) T u) as [t'|] eqn:Hu; [|done]. simplify_eq/=.
  set (l := next_loc h).
  destruct (alloc_store_run h out (GPtr (Some (l, []))) (CVal (zero T)) w Hw)
    as (c & c1 & Hc & Hc1 & Hst & Ho & Hl & Hsub & Hne). fold l in Hst, Ho, Hl, Hsub, Hne.
  set (h2 := <[out.1 := CVal c1]> (<[l := CVal (zero T)]> h)) in *.
  destruct (Hinto h2 p (l, []) u t') as (h3 & Hrun & x & hn & Hwr & Hx).
  { split; [by eapply deref_mono|by eapply view_mono]. }
  { by rewrite (zero_deref _ _ _ Hl). }
  exists h3. split.
  - unfold copy_ptr. unfold alloc. erewrite bind_run by done. fold l. rewrite (bind_run _ _ _ _ _ Hst).
    rewrite (bind_run _ _ _ p h2).
    2:{ apply load_ptr_run. eapply (deref_delete _ l), deref_mono; eauto. }
    by rewrite (bind_run _ _ _ _ _ (load_ptr_run _ _ _ Ho)).
  - destruct Hwr as (Hd & Hn3 & Hdis & ? & c' & Hz & Hset & Hl3). simpl in *. simplify_eq.
    exists (GPtr (Some (l, []))), (<[l := CVal c']> hn). split.
    + eapply writes_new; try done. apply next_loc_fresh.
    + simpl. rewrite (zero_deref l _ c') by by rewrite lookup_insert_eq. simpl.
      erewrite view_mono; [done| |done]. apply insert_subseteq.
      destruct (hn !! l) eqn:E; [|done]. exfalso. by eapply disjoint_lookup.
Qed.

Lemma map_entries_run (l : loc) out c es h m :
  out.1 ≠ l → h !! out.1 = Some (CVal c) → get_path out.2 c = Some (GMap (Some l)) → h !! l = Some (CMap m) →
  each_entry (map_set out) es h = Some (tt, <[l := CMap (foldl (λ m e, <[e.1 := e.2]> m) m es)]> h).
Proof.
  intros Hne Hc Hp. revert h m Hc. induction es as [|[k v] es IH]; intros h m Hc Hl; simpl.
  - unfold mret, M_ret. by rewrite insert_id.
  - rewrite (bind_run _ _ _ tt (<[l := CMap (<[k := v]> m)]> h)).
    + rewrite (IH _ (<[k := v]> m)).
      * by rewrite insert_insert_eq.
      * by rewrite lookup_insert_ne.
      * by rewrite lookup_insert_eq.
    + unfold map_set. rewrite (bind_run _ _ _ (GMap (Some l)) h); [by rewrite Hl|].
      apply load_run, deref_Some. eauto.
Qed.

Lemma foldl_insert_map_to_list (m : gmap string string) :
  foldl (λ m e, <[e.1 := e.2]> m) ∅ (map_to_list m) = m.
Proof.
  cut (∀ es acc, NoDup es.*1 →
    foldl (λ m e, <[e.1 := e.2]> m) acc es = (list_to_map es : gmap string string) ∪ acc).
  { intros H. rewrite H by apply NoDup_fst_map_to_list. by rewrite list_to_map_to_list, map_union_empty. }
  induction es as [|[k v] es IH]; intros acc; simpl; [by rewrite map_empty_union|].
  intros [Hk Hnd]%NoDup_cons. rewrite IH by done. rewrite <- insert_union_l, insert_union_r; [done|].
  by apply not_elem_of_list_to_map_1.
Qed.

Lemma nonnil_copy_map : nonnil_copies TMap copy_map.
Proof.
  intros h inn out v t [Hi Hv] [w Hw] Hn. destruct v as [| | | | | | |[lm|]]; try done. simpl in Hv.
  destruct (delete out.1 h !! lm) as [[|m]|] eqn:Hm; try done. simplify_eq/=.
  set (l := next_loc h).
  destruct (alloc_store_run h out (GMap (Some l)) (CMap ∅) w Hw)
    as (c & c1 & Hc & Hc1 & Hst & Ho & Hl & Hsub & Hne). fold l in Hst, Ho, Hl, Hsub, Hne.
  set (h2 := <[out.1 := CVal c1]> (<[l := CMap ∅]> h)) in *.
  exists (<[l := CMap m]> h2). split.
  - unfold copy_map. unfold alloc. erewrite bind_run by done. fold l. rewrite (bind_run _ _ _ _ _ Hst).
    rewrite (bind_run _ _ _ m h2).
    + rewrite (map_entries_run l out c1 _ _ ∅); [by rewrite foldl_insert_map_to_list|done| | |done].
      * unfold h2. by rewrite lookup_insert_eq.
      * by eapply set_path_get.
    + eapply load_map_run.
      * eapply (deref_delete _ l), deref_mono; eauto.
      * eapply lookup_weaken; [apply Hm|]. etrans; [apply Hsub|apply delete_subseteq].
  - exists (GMap (Some l)), (<[l := CMap m]> ∅). split; [|simpl; by rewrite lookup_insert_eq].
    eapply (writes_new out _ h c c1 l (CMap ∅) h2); try done.
    + apply next_loc_fresh.
    + apply delete_sub_insert.
    + apply map_empty_subseteq.
    + apply map_disjoint_empty_l.
    + by rewrite lookup_insert_eq.
Qed.

(** The loop over the elements: [x i] is the address of element [i] of the source, [l]
    the new array, [h2] the heap after its allocation. *)
Section elements.
Context (T : gtype) (into : addr → addr → M unit) (Hinto : copies T into).
Context (h2 : heap) (l : loc) (x : nat → addr) (ts : list tree) (k : nat → M unit).
Hypothesis Hk : ∀ i h, (i < length ts)%nat → delete l h2 ⊆ delete l h → k i h = into (x i) (l, [SIdx i]) h.
Hypothesis Hx : ∀ i t, ts !! i = Some t →
  ∃ v, deref (delete l h2) (x i) = Some v ∧ view (delete l h2) T v = Some t.

Definition copied (m : nat) (vs : list gv) (hn : heap) : Prop :=
  length vs = length ts ∧ ∀ i v t, (i < m)%nat → vs !! i = Some v → ts !! i = Some t → view hn T v = Some t.

Lemma each_copies j m h hn vs :
  (m + j = length ts)%nat → writes (l, []) (GArr vs) h2 h hn → copied m vs hn →
  ∃ h' hn' vs', each k (seq m j) h = Some (tt, h') ∧ writes (l, []) (GArr vs') h2 h' hn'
    ∧ copied (length ts) vs' hn'.
Proof using Hinto Hk Hx.
  revert m h hn vs. induction j as [|j IH]; intros m h hn vs Hm Hwr [Hlen Hc]; simpl.
  { exists h, hn, vs. split; [done|]. split; [done|]. split; [done|]. intros i v t Hi. apply Hc. lia. }
  assert (Hsub : delete l h2 ⊆ delete l h) by (apply delete_sub_delete; apply Hwr).
  destruct (lookup_lt_is_Some_2 ts m) as [t Ht]; [lia|].
  destruct (lookup_lt_is_Some_2 vs m) as [u Hu]; [lia|].
  destruct (Hx m t Ht) as (v & Hv & Hvt).
  destruct (Hinto h (x m) (l, [SIdx m]) v t) as (h' & Hrun & y & hy & Hwy & Hy).
  { split; simpl; [by eapply deref_mono|by eapply view_mono]. }
  { change (l, [SIdx m]) with (sub (l, []) (SIdx m)).
    rewrite deref_sub, (writes_deref _ _ _ _ _ Hwr). simpl. by rewrite Hu. }
  assert (Hwy' : writes (l, []) (GArr (<[m := y]> vs)) h h' hy).
  { eapply (writes_sub (l, []) (SIdx m) y (GArr vs)) in Hwy as (v' & Hv' & Hwy).
    - simpl in Hv'. rewrite Hu in Hv'. by simplify_eq/=.
    - by eapply writes_deref. }
  rewrite (bind_run _ _ _ tt h') by (rewrite Hk; [done|lia|done]).
  apply (IH (S m) h' (hy ∪ hn) (<[m := y]> vs)); [lia|by eapply writes_trans|].
  split; [by rewrite length_insert|]. intros i w s Hi Hw Hs.
  destruct (decide (i = m)) as [->|Hne].
  - rewrite list_lookup_insert_eq in Hw by (apply lookup_lt_Some in Hu; lia). simplify_eq.
    eapply view_mono; [|done]. apply map_union_subseteq_l.
  - rewrite list_lookup_insert_ne in Hw by done. eapply view_mono; [|eapply Hc; eauto; lia].
    apply map_union_subseteq_r. destruct Hwy as (_ & _ & Hd & _), Hwr as (_ & Hn & _).
    eapply map_disjoint_weaken_r; [apply Hd|apply Hn].
Qed.
End elements.

Lemma deref_delete_ne h l a : a.1 ≠ l → deref (delete l h) a = deref h a.
Proof. intros H. unfold deref. by rewrite lookup_delete_ne. Qed.

(** The elements of a slice are at the addresses [elem] gives. *)
Lemma slice_elems_deref h (s : slice) vs i v :
  slice_elems h s = Some vs → vs !! i = Some v →
  length vs = s.2 ∧ deref h (sub s.1.1 (SIdx (s.1.2 + i))) = Some v.
Proof.
  destruct s as [[a o] n]. unfold slice_elems. destruct (deref h a) as [[| | | |us| | |]|] eqn:E; try done.
  case_decide; [|done]. intros [= <-] Hi. rewrite deref_sub. simpl. rewrite E. simpl. split.
  - rewrite length_take, length_drop. lia.
  - apply lookup_take_Some in Hi as [Hi _]. by rewrite lookup_drop in Hi.
Qed.

Lemma slice_elems_length h (s : slice) vs : slice_elems h s = Some vs → length vs = s.2.
Proof.
  destruct s as [[a o] n]. unfold slice_elems. destruct (deref h a) as [[| | | |us| | |]|]; try done.
  case_decide; [|done]. intros [= <-]. rewrite length_take, length_drop. simpl. lia.
Qed.

Lemma slice_whole (h : heap) l vs : h !! l = Some (CVal (GArr vs)) →
  slice_elems h ((l, []), 0, length vs) = Some vs.
Proof.
  intros H. unfold slice_elems. rewrite (zero_deref _ _ _ H). rewrite decide_True by (simpl; lia).
  by rewrite drop_0, take_ge.
Qed.

(** A new array, then a loop that copies the elements one by one. *)
Lemma nonnil_slice T into (rest : addr → addr → M unit) :
  copies T into →
  (∀ inn out s h2 l,
     deref (delete l h2) inn = Some (GSlice (Some s)) →
     deref (delete l h2) out = Some (GSlice (Some ((l, []), 0, s.2))) →
     ∃ k, rest inn out h2 = each k (seq 0 s.2) h2
       ∧ ∀ i h, (i < s.2)%nat → delete l h2 ⊆ delete l h →
           k i h = into (sub s.1.1 (SIdx (s.1.2 + i))) (l, [SIdx i]) h) →
  nonnil_copies (TSlice T) (λ inn out, make_slice T inn out ;; rest inn out).
Proof.
  intros Hinto Hrest h inn out v t [Hi Hv] [w Hw] Hn. destruct v as [| | | | | |[s|]|]; try done.
  simpl in Hv. destruct (slice_elems (delete out.1 h) s) as [us|] eqn:Hus; [|done]. simpl in Hv.
  destruct (all_some (view (delete out.1 h) T) us) as [ts|] eqn:Hts; [|done]. simplify_eq/=.
  apply all_some_lookup in Hts as [Hlen Hts]. pose proof (slice_elems_length _ _ _ Hus) as Hs.
  set (l := next_loc h). set (arr := CVal (GArr (replicate s.2 (zero T)))).
  destruct (alloc_store_run h out (GSlice (Some ((l, []), 0, s.2))) arr w Hw)
    as (c & c1 & Hc & Hc1 & Hst & Ho & Hl & Hsub & Hne). fold l in Hst, Ho, Hl, Hsub, Hne.
  set (h2 := <[out.1 := CVal c1]> (<[l := arr]> h)) in *.
  destruct (Hrest inn out s h2 l) as (k & Hr & Hk).
  { by eapply deref_mono. } { by rewrite deref_delete_ne. }
  destruct (each_copies T into Hinto h2 l (λ i, sub s.1.1 (SIdx (s.1.2 + i))) ts k
    ltac:(rewrite Hlen, Hs; exact Hk)) with (j := s.2) (m := 0%nat) (h := h2) (hn := ∅ : heap)
    (vs := replicate s.2 (zero T)) as (h3 & hn & vs & Hrun & Hwr & Hlen3 & Hall); [|lia| | |].
  { intros i t Ht. destruct (lookup_lt_is_Some_2 us i) as [u Hu].
    { apply lookup_lt_Some in Ht. lia. }
    destruct (Hts _ _ Hu) as (t' & Ht' & Hut). simplify_eq. exists u.
    destruct (slice_elems_deref _ _ _ _ _ Hus Hu) as [_ Hd].
    split; [by eapply deref_mono|by eapply view_mono]. }
  { apply writes_refl. by apply zero_deref. }
  { split; [rewrite length_replicate; lia|]. intros ???; lia. }
  exists h3. split.
  - unfold make_slice, alloc. erewrite bind_run; [by rewrite Hr|].
    rewrite (bind_run _ _ _ s h) by (by eapply load_slice_run, deref_delete).
    erewrite bind_run by done. by fold l.
  - destruct Hwr as (Hd & Hn3 & Hdis & ? & c' & Hz & Hset & Hl3). simpl in *. simplify_eq.
    exists (GSlice (Some ((l, []), 0, s.2))), (<[l := CVal (GArr vs)]> hn). split.
    + eapply writes_new; try done. apply next_loc_fresh.
    + simpl. replace s.2 with (length vs) by lia.
      rewrite (slice_whole _ l vs) by by rewrite lookup_insert_eq. simpl.
      rewrite (all_some_intro _ vs ts); [done|lia|]. intros i x y Hx Hy.
      eapply view_mono; [|eapply Hall; eauto; apply lookup_lt_Some in Hy; lia]. apply insert_subseteq.
      destruct (hn !! l) eqn:E; [|done]. exfalso. by eapply disjoint_lookup.
Qed.

Lemma nonnil_copy_each T into : copies T into → nonnil_copies (TSlice T) (copy_each T into).
Proof.
  intros Hinto. apply (nonnil_slice T into (λ inn out, s ← load_slice inn;
    each (λ i, s ← load_slice inn; x ← elem s i; d ← load_slice out; y ← elem d i; into x y)
      (seq 0 s.2)) Hinto).
  intros inn out s h2 l Hi Ho. eexists. split.
  - by rewrite (bind_run _ _ _ s h2) by by eapply load_slice_run, deref_delete.
  - intros i h Hi' Hsub. simpl.
    assert (H : ∀ a z, deref (delete l h2) a = Some (GSlice (Some z)) → load_slice a h = Some (z, h)).
    { intros a z Ha. eapply load_slice_run, (deref_delete _ l), deref_mono; eauto. }
    run (H _ _ Hi). run (elem_run h s i Hi'). run (H _ _ Ho). by run (elem_run h ((l, []), 0, s.2) i Hi').
Qed.

Lemma nonnil_copy_slice T : plain T = true → nonnil_copies (TSlice T) (copy_slice T).
Proof.
  intros Hp. apply (nonnil_slice T assign (λ inn out, builtin_copy out inn)
    (copies_assign T Hp)).
  intros inn out s h2 l Hi Ho. eexists. split.
  - unfold builtin_copy.
    run (load_slice_run _ _ _ (deref_delete _ _ _ _ Ho)).
    run (load_slice_run _ _ _ (deref_delete _ _ _ _ Hi)).
    simpl. by rewrite Nat.min_id.
  - intros i h Hi' Hsub. simpl. run (elem_run h s i Hi'). by run (elem_run h ((l, []), 0, s.2) i Hi').
Qed.

(** ** Structs *)

(** After [*out = *in], [P] makes deep copies of the fields in [D] and leaves the
    others as they are. *)
Definition fields_copy (ts : list (string * gtype)) (P : addr → addr → M unit) (D : list string) : Prop :=
  ∀ h inn out fs xs gs,
    deref (delete out.1 h) inn = Some (GStruct fs) → view_fields (delete out.1 h) ts fs = Some xs →
    deref h out = Some (GStruct gs) → gs.*1 = fs.*1 → (∀ f, f ∈ D → fld f gs = fld f fs) →
    ∃ h' gs' hn, P inn out h = Some (tt, h') ∧ writes out (GStruct gs') h h' hn ∧ gs'.*1 = gs.*1
      ∧ (∀ f T t, f ∈ D → fld f ts = Some T → fld f xs = Some t →
           ∃ v, fld f gs' = Some v ∧ view hn T v = Some t)
      ∧ (∀ f, f ∉ D → fld f gs' = fld f gs).

Lemma fields_copy_one ts f T op :
  fld f ts = Some T → recopies T op → fields_copy ts (λ inn out, op (inn ↠ f) (out ↠ f)) [f].
Proof.
  intros HT Hop h inn out fs xs gs Hi Hxs Ho Hn HD.
  destruct (view_fields_lookup _ _ _ _ _ _ Hxs HT) as (v & t & Hv & Ht & Hvt).
  assert (Hg : fld f gs = Some v) by (rewrite HD; [done|left]).
  destruct (Hop h (inn ↠ f) (out ↠ f) v t) as (h' & Hrun & x & hn & Hwr & Hx).
  { split; simpl; [|done]. rewrite deref_sub, Hi. done. }
  { by rewrite deref_sub, Ho. }
  destruct (writes_sub _ _ _ _ _ _ _ Ho Hwr) as (v' & Hv' & Hwr').
  simpl in Hv'. rewrite Hg in Hv'. simplify_eq/=.
  exists h', (fld_set f x gs), hn. split_and!; [done|done|apply fld_set_names| |].
  - intros g T' t' Hgf HT' Ht'. apply list_elem_of_singleton in Hgf as ->. simplify_eq.
    exists x. split; [|done]. apply fld_set_eq. by rewrite Hg.
  - intros g Hgf. apply fld_set_ne. intros ->. apply Hgf. left.
Qed.

Lemma fields_copy_seq ts P Q D E :
  fields_copy ts P D → fields_copy ts Q E → (∀ f, f ∈ D → f ∉ E) →
  fields_copy ts (λ inn out, P inn out ;; Q inn out) (D ++ E)%list.
Proof.
  intros HP HQ Hdis h inn out fs xs gs Hi Hxs Ho Hn HDE.
  destruct (HP h inn out fs xs gs) as (h1 & gs1 & n1 & Hr1 & Hw1 & Hn1 & HD & HD'); try done.
  { intros f Hf. apply HDE, elem_of_app. by left. }
  assert (Hsub : delete out.1 h ⊆ delete out.1 h1) by (apply delete_sub_delete, Hw1).
  destruct (HQ h1 inn out fs xs gs1) as (h2 & gs2 & n2 & Hr2 & Hw2 & Hn2 & HE & HE').
  - by eapply deref_mono.
  - cut (view (delete out.1 h1) (TStruct ts) (GStruct fs) = Some (LStruct xs)).
    { rewrite view_struct. intros (ys & ? & ?)%fmap_Some. naive_solver. }
    eapply view_mono; [apply Hsub|]. by rewrite view_struct, Hxs.
  - by eapply writes_deref.
  - congruence.
  - intros f Hf. rewrite HD'; [apply HDE, elem_of_app; by right|]. intros Hf'. by eapply Hdis.
  - exists h2, gs2, (n2 ∪ n1). split_and!.
    + by rewrite (bind_run _ _ _ _ _ Hr1).
    + by eapply writes_trans.
    + congruence.
    + intros f T t Hf HT Ht. destruct (decide (f ∈ E)) as [HfE|HfE].
      * destruct (HE f T t HfE HT Ht) as (v & Hv & Hvt). exists v. split; [done|].
        eapply view_mono; [|done]. apply map_union_subseteq_l.
      * assert (HfD : f ∈ D) by (apply elem_of_app in Hf as [?|?]; done).
        destruct (HD f T t HfD HT Ht) as (v & Hv & Hvt). exists v. split; [by rewrite HE'|].
        eapply view_mono; [|done]. apply map_union_subseteq_r.
        destruct Hw1 as (_ & Hs1 & _), Hw2 as (_ & _ & Hd2 & _). by eapply map_disjoint_weaken_r.
    + intros f Hf. rewrite HE', HD'; [done|..]; intros ?; apply Hf, elem_of_app; auto.
Qed.

(** The same, one field after the other, with checks that compute. *)
Lemma fields_copy_cons ts f T op Q E :
  fld f ts = Some T → recopies T op → fields_copy ts Q E → bool_decide (f ∈ E) = false →
  fields_copy ts (λ inn out, op (inn ↠ f) (out ↠ f) ;; Q inn out) (f :: E).
Proof.
  intros HT Hop HQ HE%bool_decide_eq_false.
  apply (fields_copy_seq ts (λ inn out, op (inn ↠ f) (out ↠ f)) Q [f] E); [by eapply fields_copy_one|done|].
  by intros g ->%list_elem_of_singleton.
Qed.

(** The rest of the fields of a struct has no references. *)
Definition covers (ts : list (string * gtype)) (D : list string) : bool :=
  bool_decide (NoDup ts.*1) && forallb (λ p, bool_decide (p.1 ∈ D) || plain p.2) ts.

Lemma copies_struct ts P D :
  fields_copy ts P D → covers ts D = true →
  copies (TStruct ts) (λ inn out, assign inn out ;; P inn out).
Proof.
  intros HP [Hnd Hcov]%andb_prop h inn out v t [Hi Hv] [w (c & Hc & Hw)%deref_Some].
  apply bool_decide_eq_true in Hnd. destruct v as [| | |fs| | | |]; try done. rewrite view_struct in Hv.
  destruct (view_fields _ ts fs) as [xs|] eqn:Hxs; [|done]. simplify_eq/=.
  destruct (set_path_some _ (GStruct fs) _ _ Hw) as [c1 Hc1].
  set (h1 := <[out.1 := CVal c1]> h).
  assert (Hd1 : delete out.1 h1 = delete out.1 h) by apply delete_insert_eq.
  assert (Hw1 : writes out (GStruct fs) h h1 ∅).
  { split_and!; [apply delete_sub_insert|apply map_empty_subseteq|apply map_disjoint_empty_l|].
    exists c, c1. by unfold h1; rewrite lookup_insert_eq. }
  destruct (HP h1 inn out fs xs fs) as (h2 & gs & hn & Hrun & Hw2 & Hn & HD & HD'); rewrite ?Hd1; try done.
  { by eapply writes_deref. }
  exists h2. split.
  - rewrite (bind_run _ _ _ tt h1); [done|]. unfold assign.
    run (load_run _ _ _ (deref_delete _ _ _ _ Hi)). by rewrite (store_run _ _ _ _ _ Hc Hc1).
  - exists (GStruct gs), hn. split.
    { rewrite <- (map_union_empty hn). by eapply writes_trans. }
    rewrite view_struct. destruct (view_fields_names _ _ _ _ Hxs) as [Hfs Hxn].
    rewrite (view_fields_intro hn ts gs xs); [done..|congruence|done|].
    intros f T t HT Ht. destruct (decide (f ∈ D)) as [Hf|Hf]; [by eapply HD|].
    destruct (view_fields_lookup _ _ _ _ _ _ Hxs HT) as (u & t' & Hu & Ht' & Hut). simplify_eq.
    exists u. split; [by rewrite HD'|]. rewrite (view_plain _ (delete out.1 h)); [done|].
    apply fld_elem in HT. rewrite forallb_forall in Hcov.
    specialize (Hcov (f, T)). rewrite <- list_elem_of_In in Hcov. specialize (Hcov HT). simpl in Hcov.
    apply orb_prop in Hcov as [?%bool_decide_eq_true|?]; done.
Qed.

(** ** Reachability *)

(** The objects a value refers to, directly or not. *)
Inductive reach (h : heap) : gtype → gv → loc → Prop :=
| reach_field ts fs f T v l :
    fld f ts = Some T → fld f fs = Some v → reach h T v l → reach h (TStruct ts) (GStruct fs) l
| reach_ptr T a : reach h (TPtr T) (GPtr (Some a)) a.1
| reach_pointee T a v l : deref h a = Some v → reach h T v l → reach h (TPtr T) (GPtr (Some a)) l
| reach_array T s : reach h (TSlice T) (GSlice (Some s)) s.1.1.1
| reach_elem T s vs v l :
    slice_elems h s = Some vs → v ∈ vs → reach h T v l → reach h (TSlice T) (GSlice (Some s)) l
| reach_map l : reach h TMap (GMap (Some l)) l.

(** A value that can be read in a part of the heap refers to that part only. *)
Lemma reach_within hn h T v t l :
  hn ⊆ h → view hn T v = Some t → reach h T v l → is_Some (hn !! l).
Proof.
  intros Hsub Hv Hr. revert t Hv.
  induction Hr as [ts fs f T v l HT Hf _ IH|T a|T a v l Ha _ IH|T [[a o] n]|T s vs v l Hs Hin _ IH|l]; intros t.
  - rewrite view_struct. intros (xs & Hxs & _)%fmap_Some.
    destruct (view_fields_lookup _ _ _ _ _ _ Hxs HT) as (v' & t' & Hv' & _ & Ht). simplify_eq. by eapply IH.
  - simpl. intros (v & (c & Hc & _)%deref_Some & _)%bind_Some. by rewrite Hc.
  - simpl. intros (v' & Hv' & (t' & Ht & _)%fmap_Some)%bind_Some.
    pose proof (deref_mono _ _ _ _ Hsub Hv'). simplify_eq. by eapply IH.
  - simpl. intros (vs & Hvs & _)%bind_Some. unfold slice_elems in Hvs.
    destruct (deref hn a) as [u|] eqn:E; [|done]. apply deref_Some in E as (c & Hc & _). by rewrite Hc.
  - simpl. intros (vs' & Hvs & (ts & Hts & _)%fmap_Some)%bind_Some.
    pose proof (slice_elems_mono _ _ _ _ Hsub Hvs). simplify_eq.
    apply all_some_lookup in Hts as [_ Hts]. apply list_elem_of_lookup in Hin as [i Hi].
    destruct (Hts _ _ Hi) as (t' & _ & Ht). by eapply IH.
  - simpl. destruct (hn !! l); [done|done].
Qed.

(** ** Automation *)

Create HintDb deepcopy discriminated.
#[export] Hint Constants Opaque : deepcopy.
#[export] Hint Resolve recopies_unless_nil nonnil_copy_ptr nonnil_copy_map nonnil_copy_each nonnil_copy_slice
  copies_assign copies_recopies : deepcopy.
#[export] Hint Extern 1 (plain _ = true) => reflexivity : deepcopy.

(** A struct: its fields one after the other. *)
Ltac copy_fields :=
  first [eapply fields_copy_cons; [reflexivity|solve [eauto 6 with deepcopy]|copy_fields|reflexivity]
        |eapply fields_copy_one; [reflexivity|solve [eauto 6 with deepcopy]]].
(** The other fields are plain. *)
Ltac other_fields :=
  apply andb_true_intro; split; [reflexivity|]; cbn [forallb fst snd];
  repeat (apply andb_true_intro; split); try reflexivity; apply orb_true_intro; right; solve [auto with deepcopy].
Ltac struct_copies := eapply copies_struct; [copy_fields|other_fields].
