(* ===== verification/DeepCopy.v ===== *)
(** * Generated deep copies

    api/v1alpha1/zz_generated.deepcopy.go on the heap of [GoHeap]: the layout of every
    API type, its [DeepCopyInto], [DeepCopy] and [DeepCopyObject]. The types of
    apimachinery and operator-tools that have deep copies of their own are parameters
    that keep the same contract. *)

From stdpp Require Import gmap strings list.
From S2P Require Import Prelude GoHeap CopySpec.
Open Scope string_scope.

(** ** Library types *)

(** Layouts and deep copies of metav1.ObjectMeta, ListMeta, Time, LabelSelector,
    LabelSelectorRequirement and resources.K8SResourceOverlayPatch. A [Time] is a value:
    the location it points to never changes. *)
Class MetaLib : Type := {
  t_ObjectMeta : gtype; ObjectMeta_DeepCopyInto : addr → addr → M unit;
  t_ListMeta : gtype; ListMeta_DeepCopyInto : addr → addr → M unit;
  t_Time : gtype; Time_DeepCopyInto : addr → addr → M unit;
  t_LabelSelector : gtype; LabelSelector_DeepCopyInto : addr → addr → M unit;
  t_LabelSelectorRequirement : gtype; LabelSelectorRequirement_DeepCopyInto : addr → addr → M unit;
  t_OverlayPatch : gtype; OverlayPatch_DeepCopyInto : addr → addr → M unit;
  (** metav1.TypeMeta, resources.GroupVersionKind, resources.ObjectKey and intstr.IntOrString. *)
  t_TypeMeta : gtype; t_GroupVersionKind : gtype; t_ObjectKey : gtype; t_IntOrString : gtype }.

(** They are deep copies; the other four are structs of strings and integers. *)
Class MetaLibLaws `{MetaLib} : Prop := {
  ObjectMeta_copies : copies t_ObjectMeta ObjectMeta_DeepCopyInto;
  ListMeta_copies : copies t_ListMeta ListMeta_DeepCopyInto;
  Time_copies : copies t_Time Time_DeepCopyInto;
  LabelSelector_copies : copies t_LabelSelector LabelSelector_DeepCopyInto;
  LabelSelectorRequirement_copies : copies t_LabelSelectorRequirement LabelSelectorRequirement_DeepCopyInto;
  OverlayPatch_copies : copies t_OverlayPatch OverlayPatch_DeepCopyInto;
  TypeMeta_plain : plain t_TypeMeta = true;
  GroupVersionKind_plain : plain t_GroupVersionKind = true;
  ObjectKey_plain : plain t_ObjectKey = true;
  IntOrString_plain : plain t_IntOrString = true }.

(** ** [DeepCopy] and [DeepCopyObject]

    They differ between types in the type only. *)

(** [if in == nil { return nil }; out := new(T); in.DeepCopyInto(out); return out] *)
Definition DeepCopy (T : gtype) (into : addr → addr → M unit) (inn : option addr) : M (option addr) :=
  match inn with
  | None => mret None
  | Some a => l ← alloc (CVal (zero T)); _ ← into a (l, []); mret (Some (l, []))
  end.

(** An interface value: nil, or a dynamic type with a pointer. *)
Abbreviation interface := (option (gtype * option addr)).

(** [if c := in.DeepCopy(); c != nil { return c }; return nil] *)
Definition DeepCopyObject (T : gtype) (into : addr → addr → M unit) (inn : option addr) : M interface :=
  c ← DeepCopy T into inn;
  match c with Some a => mret (Some (T, Some a)) | None => mret None end.

Section generated.
Context `{MetaLib}.

(** ** Layouts and [DeepCopyInto] *)

Definition t_AnnotationMutations : gtype := TStruct [("Add", TMap); ("Remove", TSlice TStr)].
Definition AnnotationMutations_DeepCopyInto (inn out : addr) : M unit :=
  assign inn out ;;
  unless_nil copy_map (inn ↠ "Add") (out ↠ "Add") ;;
  unless_nil (copy_slice TStr) (inn ↠ "Remove") (out ↠ "Remove").

Definition t_AnnotationSelectorRequirement : gtype :=
  TStruct [("Key", TStr); ("Operator", TStr); ("Values", TSlice TStr)].
Definition AnnotationSelectorRequirement_DeepCopyInto (inn out : addr) : M unit :=
  assign inn out ;;
  unless_nil (copy_slice TStr) (inn ↠ "Values") (out ↠ "Values").

Definition t_AnnotationSelector : gtype :=
  TStruct [("MatchAnnotations", TMap); ("MatchExpressions", TSlice t_AnnotationSelectorRequirement)].
Definition AnnotationSelector_DeepCopyInto (inn out : addr) : M unit :=
  assign inn out ;;
  unless_nil copy_map (inn ↠ "MatchAnnotations") (out ↠ "MatchAnnotations") ;;
  unless_nil (copy_each t_AnnotationSelectorRequirement AnnotationSelectorRequirement_DeepCopyInto)
    (inn ↠ "MatchExpressions") (out ↠ "MatchExpressions").

Definition t_NamespacedName : gtype := TStruct [("Name", TStr); ("Namespace", TStr)].
Definition NamespacedName_DeepCopyInto (inn out : addr) : M unit := assign inn out.

Definition t_AuthInfo : gtype := TStruct [("SecretRef", t_NamespacedName)].
Definition AuthInfo_DeepCopyInto (inn out : addr) : M unit :=
  assign inn out ;;
  assign (inn ↠ "SecretRef") (out ↠ "SecretRef").

Definition t_ClusterCondition : gtype :=
  TStruct [("Type", TStr); ("Status", TStr); ("LastHeartbeatTime", t_Time); ("LastTransitionTime", t_Time);
           ("Reason", TStr); ("Message", TStr); ("TrueIsFailure", TBool)].
Definition ClusterCondition_DeepCopyInto (inn out : addr) : M unit :=
  assign inn out ;;
  Time_DeepCopyInto (inn ↠ "LastHeartbeatTime") (out ↠ "LastHeartbeatTime") ;;
  Time_DeepCopyInto (inn ↠ "LastTransitionTime") (out ↠ "LastTransitionTime").

Definition t_ClusterFeatureSpec : gtype := TStruct [("FeatureName", TStr)].
Definition ClusterFeatureSpec_DeepCopyInto (inn out : addr) : M unit := assign inn out.
Definition t_ClusterFeatureStatus : gtype := TStruct [].
Definition ClusterFeatureStatus_DeepCopyInto (inn out : addr) : M unit := assign inn out.

Definition t_ClusterFeature : gtype :=
  TStruct [("TypeMeta", t_TypeMeta); ("ObjectMeta", t_ObjectMeta);
           ("Spec", t_ClusterFeatureSpec); ("Status", t_ClusterFeatureStatus)].
Definition ClusterFeature_DeepCopyInto (inn out : addr) : M unit :=
  assign inn out ;;
  assign (inn ↠ "TypeMeta") (out ↠ "TypeMeta") ;;
  ObjectMeta_DeepCopyInto (inn ↠ "ObjectMeta") (out ↠ "ObjectMeta") ;;
  assign (inn ↠ "Spec") (out ↠ "Spec") ;;
  assign (inn ↠ "Status") (out ↠ "Status").

Definition t_ClusterFeatureList : gtype :=
  TStruct [("TypeMeta", t_TypeMeta); ("ListMeta", t_ListMeta); ("Items", TSlice t_ClusterFeature)].
Definition ClusterFeatureList_DeepCopyInto (inn out : addr) : M unit :=
  assign inn out ;;
  assign (inn ↠ "TypeMeta") (out ↠ "TypeMeta") ;;
  ListMeta_DeepCopyInto (inn ↠ "ListMeta") (out ↠ "ListMeta") ;;
  unless_nil (copy_each t_ClusterFeature ClusterFeature_DeepCopyInto) (inn ↠ "Items") (out ↠ "Items").

Definition t_ClusterFeatureMatch : gtype :=
  TStruct [("FeatureName", TStr); ("MatchLabels", TMap);
           ("MatchExpressions", TSlice t_LabelSelectorRequirement)].
Definition ClusterFeatureMatch_DeepCopyInto (inn out : addr) : M unit :=
  assign inn out ;;
  unless_nil copy_map (inn ↠ "MatchLabels") (out ↠ "MatchLabels") ;;
  unless_nil (copy_each t_LabelSelectorRequirement LabelSelectorRequirement_DeepCopyInto)
    (inn ↠ "MatchExpressions") (out ↠ "MatchExpressions").

Definition t_Locality : gtype := TStruct [("Region", TStr); ("Regions", TSlice TStr); ("Zones", TSlice TStr)].
Definition Locality_DeepCopyInto (inn out : addr) : M unit :=
  assign inn out ;;
  unless_nil (copy_slice TStr) (inn ↠ "Regions") (out ↠ "Regions") ;;
  unless_nil (copy_slice TStr) (inn ↠ "Zones") (out ↠ "Zones").

Definition t_ClusterMetadata : gtype :=
  TStruct [("Provider", TStr); ("Distribution", TStr); ("KubeProxyVersions", TSlice TStr);
           ("KubeletVersions", TSlice TStr); ("Version", TStr); ("Locality", TPtr t_Locality)].
Definition ClusterMetadata_DeepCopyInto (inn out : addr) : M unit :=
  assign inn out ;;
  unless_nil (copy_slice TStr) (inn ↠ "KubeProxyVersions") (out ↠ "KubeProxyVersions") ;;
  unless_nil (copy_slice TStr) (inn ↠ "KubeletVersions") (out ↠ "KubeletVersions") ;;
  unless_nil (copy_ptr t_Locality Locality_DeepCopyInto) (inn ↠ "Locality") (out ↠ "Locality").

(** The bytes of a bundle are integers. *)
Definition t_KubernetesAPIEndpoint : gtype :=
  TStruct [("ClientNetwork", TStr); ("ServerAddress", TStr); ("CABundle", TSlice TInt)].
Definition KubernetesAPIEndpoint_DeepCopyInto (inn out : addr) : M unit :=
  assign inn out ;;
  unless_nil (copy_slice TInt) (inn ↠ "CABundle") (out ↠ "CABundle").

Definition t_ClusterSpec : gtype :=
  TStruct [("ClusterID", TStr); ("AuthInfo", t_AuthInfo);
           ("KubernetesAPIEndpoints", TSlice t_KubernetesAPIEndpoint)].
Definition ClusterSpec_DeepCopyInto (inn out : addr) : M unit :=
  assign inn out ;;
  assign (inn ↠ "AuthInfo") (out ↠ "AuthInfo") ;;
  unless_nil (copy_each t_KubernetesAPIEndpoint KubernetesAPIEndpoint_DeepCopyInto)
    (inn ↠ "KubernetesAPIEndpoints") (out ↠ "KubernetesAPIEndpoints").

Definition t_ClusterStatus : gtype :=
  TStruct [("State", TStr); ("Message", TStr); ("Type", TStr); ("Leader", TBool);
           ("ClusterMetadata", t_ClusterMetadata); ("Conditions", TSlice t_ClusterCondition)].
Definition ClusterStatus_DeepCopyInto (inn out : addr) : M unit :=
  assign inn out ;;
  ClusterMetadata_DeepCopyInto (inn ↠ "ClusterMetadata") (out ↠ "ClusterMetadata") ;;
  unless_nil (copy_each t_ClusterCondition ClusterCondition_DeepCopyInto)
    (inn ↠ "Conditions") (out ↠ "Conditions").

Definition t_Cluster : gtype :=
  TStruct [("TypeMeta", t_TypeMeta); ("ObjectMeta", t_ObjectMeta);
           ("Spec", t_ClusterSpec); ("Status", t_ClusterStatus)].
Definition Cluster_DeepCopyInto (inn out : addr) : M unit :=
  assign inn out ;;
  assign (inn ↠ "TypeMeta") (out ↠ "TypeMeta") ;;
  ObjectMeta_DeepCopyInto (inn ↠ "ObjectMeta") (out ↠ "ObjectMeta") ;;
  ClusterSpec_DeepCopyInto (inn ↠ "Spec") (out ↠ "Spec") ;;
  ClusterStatus_DeepCopyInto (inn ↠ "Status") (out ↠ "Status").

Definition t_ClusterList : gtype :=
  TStruct [("TypeMeta", t_TypeMeta); ("ListMeta", t_ListMeta); ("Items", TSlice t_Cluster)].
Definition ClusterList_DeepCopyInto (inn out : addr) : M unit :=
  assign inn out ;;
  assign (inn ↠ "TypeMeta") (out ↠ "TypeMeta") ;;
  ListMeta_DeepCopyInto (inn ↠ "ListMeta") (out ↠ "ListMeta") ;;
  unless_nil (copy_each t_Cluster Cluster_DeepCopyInto) (inn ↠ "Items") (out ↠ "Items").

Definition t_ContentSelector : gtype := TStruct [("Key", TStr); ("Value", t_IntOrString)].
Definition ContentSelector_DeepCopyInto (inn out : addr) : M unit :=
  assign inn out ;;
  assign (inn ↠ "Value") (out ↠ "Value").

Definition t_LabelMutations : gtype := TStruct [("Add", TMap); ("Remove", TSlice TStr)].
Definition LabelMutations_DeepCopyInto (inn out : addr) : M unit :=
  assign inn out ;;
  unless_nil copy_map (inn ↠ "Add") (out ↠ "Add") ;;
  unless_nil (copy_slice TStr) (inn ↠ "Remove") (out ↠ "Remove").

Definition t_Mutations : gtype :=
  TStruct [("Annotations", TPtr t_AnnotationMutations); ("GVK", TPtr t_GroupVersionKind);
           ("Labels", TPtr t_LabelMutations); ("Overrides", TSlice t_OverlayPatch); ("SyncStatus", TBool)].
Definition Mutations_DeepCopyInto (inn out : addr) : M unit :=
  assign inn out ;;
  unless_nil (copy_ptr t_AnnotationMutations AnnotationMutations_DeepCopyInto)
    (inn ↠ "Annotations") (out ↠ "Annotations") ;;
  unless_nil (copy_ptr t_GroupVersionKind assign) (inn ↠ "GVK") (out ↠ "GVK") ;;
  unless_nil (copy_ptr t_LabelMutations LabelMutations_DeepCopyInto) (inn ↠ "Labels") (out ↠ "Labels") ;;
  unless_nil (copy_each t_OverlayPatch OverlayPatch_DeepCopyInto) (inn ↠ "Overrides") (out ↠ "Overrides").

Definition t_SyncRuleMatch : gtype :=
  TStruct [("Annotations", TSlice t_AnnotationSelector); ("Content", TSlice t_ContentSelector);
           ("Labels", TSlice t_LabelSelector); ("Namespaces", TSlice TStr); ("ObjectKey", t_ObjectKey)].
Definition SyncRuleMatch_DeepCopyInto (inn out : addr) : M unit :=
  assign inn out ;;
  unless_nil (copy_each t_AnnotationSelector AnnotationSelector_DeepCopyInto)
    (inn ↠ "Annotations") (out ↠ "Annotations") ;;
  unless_nil (copy_slice t_ContentSelector) (inn ↠ "Content") (out ↠ "Content") ;;
  unless_nil (copy_each t_LabelSelector LabelSelector_DeepCopyInto) (inn ↠ "Labels") (out ↠ "Labels") ;;
  unless_nil (copy_slice TStr) (inn ↠ "Namespaces") (out ↠ "Namespaces") ;;
  assign (inn ↠ "ObjectKey") (out ↠ "ObjectKey").

Definition t_SyncRule : gtype :=
  TStruct [("Matches", TSlice t_SyncRuleMatch); ("Mutations", t_Mutations)].
Definition SyncRule_DeepCopyInto (inn out : addr) : M unit :=
  assign inn out ;;
  unless_nil (copy_each t_SyncRuleMatch SyncRuleMatch_DeepCopyInto) (inn ↠ "Matches") (out ↠ "Matches") ;;
  Mutations_DeepCopyInto (inn ↠ "Mutations") (out ↠ "Mutations").

Definition t_ResourceSyncRuleSpec : gtype :=
  TStruct [("ClusterFeatureMatches", TSlice t_ClusterFeatureMatch); ("GVK", t_GroupVersionKind);
           ("Rules", TSlice t_SyncRule)].
Definition ResourceSyncRuleSpec_DeepCopyInto (inn out : addr) : M unit :=
  assign inn out ;;
  unless_nil (copy_each t_ClusterFeatureMatch ClusterFeatureMatch_DeepCopyInto)
    (inn ↠ "ClusterFeatureMatches") (out ↠ "ClusterFeatureMatches") ;;
  assign (inn ↠ "GVK") (out ↠ "GVK") ;;
  unless_nil (copy_each t_SyncRule SyncRule_DeepCopyInto) (inn ↠ "Rules") (out ↠ "Rules").

Definition t_ResourceSyncRuleStatus : gtype := TStruct [].
Definition ResourceSyncRuleStatus_DeepCopyInto (inn out : addr) : M unit := assign inn out.

Definition t_ResourceSyncRule : gtype :=
  TStruct [("TypeMeta", t_TypeMeta); ("ObjectMeta", t_ObjectMeta);
           ("Spec", t_ResourceSyncRuleSpec); ("Status", t_ResourceSyncRuleStatus)].
Definition ResourceSyncRule_DeepCopyInto (inn out : addr) : M unit :=
  assign inn out ;;
  assign (inn ↠ "TypeMeta") (out ↠ "TypeMeta") ;;
  ObjectMeta_DeepCopyInto (inn ↠ "ObjectMeta") (out ↠ "ObjectMeta") ;;
  ResourceSyncRuleSpec_DeepCopyInto (inn ↠ "Spec") (out ↠ "Spec") ;;
  assign (inn ↠ "Status") (out ↠ "Status").

Definition t_ResourceSyncRuleList : gtype :=
  TStruct [("TypeMeta", t_TypeMeta); ("ListMeta", t_ListMeta); ("Items", TSlice t_ResourceSyncRule)].
Definition ResourceSyncRuleList_DeepCopyInto (inn out : addr) : M unit :=
  assign inn out ;;
  assign (inn ↠ "TypeMeta") (out ↠ "TypeMeta") ;;
  ListMeta_DeepCopyInto (inn ↠ "ListMeta") (out ↠ "ListMeta") ;;
  unless_nil (copy_each t_ResourceSyncRule ResourceSyncRule_DeepCopyInto) (inn ↠ "Items") (out ↠ "Items").

(** [MatchedRules] is a slice and the receiver a value: [inn] is the address of the
    variable that holds the receiver. The target is never nil. *)
Definition t_MatchedRules : gtype := TSlice t_SyncRule.
Definition MatchedRules_DeepCopyInto (inn out : addr) : M unit :=
  copy_each t_SyncRule SyncRule_DeepCopyInto inn out.
Definition MatchedRules_DeepCopy (inn : gv) : M gv :=
  if is_nil inn then mret (GSlice None)
  else out ← alloc (CVal (zero t_MatchedRules));
       receiver ← alloc (CVal inn);
       _ ← MatchedRules_DeepCopyInto (receiver, []) (out, []);
       load (out, []).

(** ** [DeepCopy] and [DeepCopyObject] of every type *)

Definition AnnotationMutations_DeepCopy : option addr → M (option addr) :=
  DeepCopy t_AnnotationMutations AnnotationMutations_DeepCopyInto.
Definition AnnotationSelector_DeepCopy : option addr → M (option addr) :=
  DeepCopy t_AnnotationSelector AnnotationSelector_DeepCopyInto.
Definition AnnotationSelectorRequirement_DeepCopy : option addr → M (option addr) :=
  DeepCopy t_AnnotationSelectorRequirement AnnotationSelectorRequirement_DeepCopyInto.
Definition AuthInfo_DeepCopy : option addr → M (option addr) :=
  DeepCopy t_AuthInfo AuthInfo_DeepCopyInto.
Definition Cluster_DeepCopy : option addr → M (option addr) := DeepCopy t_Cluster Cluster_DeepCopyInto.
Definition ClusterCondition_DeepCopy : option addr → M (option addr) :=
  DeepCopy t_ClusterCondition ClusterCondition_DeepCopyInto.
Definition ClusterFeature_DeepCopy : option addr → M (option addr) :=
  DeepCopy t_ClusterFeature ClusterFeature_DeepCopyInto.
Definition ClusterFeatureList_DeepCopy : option addr → M (option addr) :=
  DeepCopy t_ClusterFeatureList ClusterFeatureList_DeepCopyInto.
Definition ClusterFeatureMatch_DeepCopy : option addr → M (option addr) :=
  DeepCopy t_ClusterFeatureMatch ClusterFeatureMatch_DeepCopyInto.
Definition ClusterFeatureSpec_DeepCopy : option addr → M (option addr) :=
  DeepCopy t_ClusterFeatureSpec ClusterFeatureSpec_DeepCopyInto.
Definition ClusterFeatureStatus_DeepCopy : option addr → M (option addr) :=
  DeepCopy t_ClusterFeatureStatus ClusterFeatureStatus_DeepCopyInto.
Definition ClusterList_DeepCopy : option addr → M (option addr) :=
  DeepCopy t_ClusterList ClusterList_DeepCopyInto.
Definition ClusterMetadata_DeepCopy : option addr → M (option addr) :=
  DeepCopy t_ClusterMetadata ClusterMetadata_DeepCopyInto.
Definition ClusterSpec_DeepCopy : option addr → M (option addr) :=
  DeepCopy t_ClusterSpec ClusterSpec_DeepCopyInto.
Definition ClusterStatus_DeepCopy : option addr → M (option addr) :=
  DeepCopy t_ClusterStatus ClusterStatus_DeepCopyInto.
Definition ContentSelector_DeepCopy : option addr → M (option addr) :=
  DeepCopy t_ContentSelector ContentSelector_DeepCopyInto.
Definition KubernetesAPIEndpoint_DeepCopy : option addr → M (option addr) :=
  DeepCopy t_KubernetesAPIEndpoint KubernetesAPIEndpoint_DeepCopyInto.
Definition LabelMutations_DeepCopy : option addr → M (option addr) :=
  DeepCopy t_LabelMutations LabelMutations_DeepCopyInto.
Definition Locality_DeepCopy : option addr → M (option addr) :=
  DeepCopy t_Locality Locality_DeepCopyInto.
Definition Mutations_DeepCopy : option addr → M (option addr) :=
  DeepCopy t_Mutations Mutations_DeepCopyInto.
Definition NamespacedName_DeepCopy : option addr → M (option addr) :=
  DeepCopy t_NamespacedName NamespacedName_DeepCopyInto.
Definition ResourceSyncRule_DeepCopy : option addr → M (option addr) :=
  DeepCopy t_ResourceSyncRule ResourceSyncRule_DeepCopyInto.
Definition ResourceSyncRuleList_DeepCopy : option addr → M (option addr) :=
  DeepCopy t_ResourceSyncRuleList ResourceSyncRuleList_DeepCopyInto.
Definition ResourceSyncRuleSpec_DeepCopy : option addr → M (option addr) :=
  DeepCopy t_ResourceSyncRuleSpec ResourceSyncRuleSpec_DeepCopyInto.
Definition ResourceSyncRuleStatus_DeepCopy : option addr → M (option addr) :=
  DeepCopy t_ResourceSyncRuleStatus ResourceSyncRuleStatus_DeepCopyInto.
Definition SyncRule_DeepCopy : option addr → M (option addr) :=
  DeepCopy t_SyncRule SyncRule_DeepCopyInto.
Definition SyncRuleMatch_DeepCopy : option addr → M (option addr) :=
  DeepCopy t_SyncRuleMatch SyncRuleMatch_DeepCopyInto.

Definition Cluster_DeepCopyObject : option addr → M interface :=
  DeepCopyObject t_Cluster Cluster_DeepCopyInto.
Definition ClusterFeature_DeepCopyObject : option addr → M interface :=
  DeepCopyObject t_ClusterFeature ClusterFeature_DeepCopyInto.
Definition ClusterFeatureList_DeepCopyObject : option addr → M interface :=
  DeepCopyObject t_ClusterFeatureList ClusterFeatureList_DeepCopyInto.
Definition ClusterList_DeepCopyObject : option addr → M interface :=
  DeepCopyObject t_ClusterList ClusterList_DeepCopyInto.
Definition ResourceSyncRule_DeepCopyObject : option addr → M interface :=
  DeepCopyObject t_ResourceSyncRule ResourceSyncRule_DeepCopyInto.
Definition ResourceSyncRuleList_DeepCopyObject : option addr → M interface :=
  DeepCopyObject t_ResourceSyncRuleList ResourceSyncRuleList_DeepCopyInto.

(** The generated file: a deep copy for each struct of the API. [MatchedRules], a
    slice whose deep copy has a value receiver, is the one other type of the file:
    it has its own definitions above and [MatchedRules_DeepCopy_correct]. *)
Definition generated : list (gtype * (addr → addr → M unit)) :=
  [(t_AnnotationMutations, AnnotationMutations_DeepCopyInto);
   (t_AnnotationSelector, AnnotationSelector_DeepCopyInto);
   (t_AnnotationSelectorRequirement, AnnotationSelectorRequirement_DeepCopyInto);
   (t_AuthInfo, AuthInfo_DeepCopyInto);
   (t_Cluster, Cluster_DeepCopyInto);
   (t_ClusterCondition, ClusterCondition_DeepCopyInto);
   (t_ClusterFeature, ClusterFeature_DeepCopyInto);
   (t_ClusterFeatureList, ClusterFeatureList_DeepCopyInto);
   (t_ClusterFeatureMatch, ClusterFeatureMatch_DeepCopyInto);
   (t_ClusterFeatureSpec, ClusterFeatureSpec_DeepCopyInto);
   (t_ClusterFeatureStatus, ClusterFeatureStatus_DeepCopyInto);
   (t_ClusterList, ClusterList_DeepCopyInto);
   (t_ClusterMetadata, ClusterMetadata_DeepCopyInto);
   (t_ClusterSpec, ClusterSpec_DeepCopyInto);
   (t_ClusterStatus, ClusterStatus_DeepCopyInto);
   (t_ContentSelector, ContentSelector_DeepCopyInto);
   (t_KubernetesAPIEndpoint, KubernetesAPIEndpoint_DeepCopyInto);
   (t_LabelMutations, LabelMutations_DeepCopyInto);
   (t_Locality, Locality_DeepCopyInto);
   (t_Mutations, Mutations_DeepCopyInto);
   (t_NamespacedName, NamespacedName_DeepCopyInto);
   (t_ResourceSyncRule, ResourceSyncRule_DeepCopyInto);
   (t_ResourceSyncRuleList, ResourceSyncRuleList_DeepCopyInto);
   (t_ResourceSyncRuleSpec, ResourceSyncRuleSpec_DeepCopyInto);
   (t_ResourceSyncRuleStatus, ResourceSyncRuleStatus_DeepCopyInto);
   (t_SyncRule, SyncRule_DeepCopyInto);
   (t_SyncRuleMatch, SyncRuleMatch_DeepCopyInto)].

(** The types that are API objects. *)
Definition generated_objects : list (gtype * (addr → addr → M unit)) :=
  [(t_Cluster, Cluster_DeepCopyInto);
   (t_ClusterFeature, ClusterFeature_DeepCopyInto);
   (t_ClusterFeatureList, ClusterFeatureList_DeepCopyInto);
   (t_ClusterList, ClusterList_DeepCopyInto);
   (t_ResourceSyncRule, ResourceSyncRule_DeepCopyInto);
   (t_ResourceSyncRuleList, ResourceSyncRuleList_DeepCopyInto)].

(** ** Every generated function is a deep copy *)

Context `{!MetaLibLaws}.

Hint Resolve ObjectMeta_copies ListMeta_copies Time_copies LabelSelector_copies
  LabelSelectorRequirement_copies OverlayPatch_copies
  TypeMeta_plain GroupVersionKind_plain ObjectKey_plain IntOrString_plain : deepcopy.

Lemma AnnotationMutations_copies : copies t_AnnotationMutations AnnotationMutations_DeepCopyInto.
Proof. struct_copies. Qed.
Hint Resolve AnnotationMutations_copies : deepcopy.

Lemma AnnotationSelectorRequirement_copies : copies t_AnnotationSelectorRequirement AnnotationSelectorRequirement_DeepCopyInto.
Proof. struct_copies. Qed.
Hint Resolve AnnotationSelectorRequirement_copies : deepcopy.

Lemma AnnotationSelector_copies : copies t_AnnotationSelector AnnotationSelector_DeepCopyInto.
Proof. struct_copies. Qed.
Hint Resolve AnnotationSelector_copies : deepcopy.

Lemma NamespacedName_copies : copies t_NamespacedName NamespacedName_DeepCopyInto.
Proof. by apply copies_assign. Qed.
Hint Resolve NamespacedName_copies : deepcopy.

Lemma AuthInfo_copies : copies t_AuthInfo AuthInfo_DeepCopyInto.
Proof. struct_copies. Qed.
Hint Resolve AuthInfo_copies : deepcopy.

Lemma ClusterCondition_copies : copies t_ClusterCondition ClusterCondition_DeepCopyInto.
Proof. struct_copies. Qed.
Hint Resolve ClusterCondition_copies : deepcopy.

Lemma ClusterFeatureSpec_copies : copies t_ClusterFeatureSpec ClusterFeatureSpec_DeepCopyInto.
Proof. by apply copies_assign. Qed.
Hint Resolve ClusterFeatureSpec_copies : deepcopy.

Lemma ClusterFeatureStatus_copies : copies t_ClusterFeatureStatus ClusterFeatureStatus_DeepCopyInto.
Proof. by apply copies_assign. Qed.
Hint Resolve ClusterFeatureStatus_copies : deepcopy.

Lemma ClusterFeature_copies : copies t_ClusterFeature ClusterFeature_DeepCopyInto.
Proof. struct_copies. Qed.
Hint Resolve ClusterFeature_copies : deepcopy.

Lemma ClusterFeatureList_copies : copies t_ClusterFeatureList ClusterFeatureList_DeepCopyInto.
Proof. struct_copies. Qed.
Hint Resolve ClusterFeatureList_copies : deepcopy.

Lemma ClusterFeatureMatch_copies : copies t_ClusterFeatureMatch ClusterFeatureMatch_DeepCopyInto.
Proof. struct_copies. Qed.
Hint Resolve ClusterFeatureMatch_copies : deepcopy.

Lemma Locality_copies : copies t_Locality Locality_DeepCopyInto.
Proof. struct_copies. Qed.
Hint Resolve Locality_copies : deepcopy.

Lemma ClusterMetadata_copies : copies t_ClusterMetadata ClusterMetadata_DeepCopyInto.
Proof. struct_copies. Qed.
Hint Resolve ClusterMetadata_copies : deepcopy.

Lemma KubernetesAPIEndpoint_copies : copies t_KubernetesAPIEndpoint KubernetesAPIEndpoint_DeepCopyInto.
Proof. struct_copies. Qed.
Hint Resolve KubernetesAPIEndpoint_copies : deepcopy.

Lemma ClusterSpec_copies : copies t_ClusterSpec ClusterSpec_DeepCopyInto.
Proof. struct_copies. Qed.
Hint Resolve ClusterSpec_copies : deepcopy.

Lemma ClusterStatus_copies : copies t_ClusterStatus ClusterStatus_DeepCopyInto.
Proof. struct_copies. Qed.
Hint Resolve ClusterStatus_copies : deepcopy.

Lemma Cluster_copies : copies t_Cluster Cluster_DeepCopyInto.
Proof. struct_copies. Qed.
Hint Resolve Cluster_copies : deepcopy.

Lemma ClusterList_copies : copies t_ClusterList ClusterList_DeepCopyInto.
Proof. struct_copies. Qed.
Hint Resolve ClusterList_copies : deepcopy.

Lemma ContentSelector_copies : copies t_ContentSelector ContentSelector_DeepCopyInto.
Proof. struct_copies. Qed.
Hint Resolve ContentSelector_copies : deepcopy.

Lemma LabelMutations_copies : copies t_LabelMutations LabelMutations_DeepCopyInto.
Proof. struct_copies. Qed.
Hint Resolve LabelMutations_copies : deepcopy.

Lemma Mutations_copies : copies t_Mutations Mutations_DeepCopyInto.
Proof. struct_copies. Qed.
Hint Resolve Mutations_copies : deepcopy.

Lemma ContentSelector_plain : plain t_ContentSelector = true.
Proof. simpl. by rewrite IntOrString_plain. Qed.
Hint Resolve ContentSelector_plain : deepcopy.

Lemma SyncRuleMatch_copies : copies t_SyncRuleMatch SyncRuleMatch_DeepCopyInto.
Proof. struct_copies. Qed.
Hint Resolve SyncRuleMatch_copies : deepcopy.

Lemma SyncRule_copies : copies t_SyncRule SyncRule_DeepCopyInto.
Proof. struct_copies. Qed.
Hint Resolve SyncRule_copies : deepcopy.

Lemma ResourceSyncRuleSpec_copies : copies t_ResourceSyncRuleSpec ResourceSyncRuleSpec_DeepCopyInto.
Proof. struct_copies. Qed.
Hint Resolve ResourceSyncRuleSpec_copies : deepcopy.

Lemma ResourceSyncRuleStatus_copies : copies t_ResourceSyncRuleStatus ResourceSyncRuleStatus_DeepCopyInto.
Proof. by apply copies_assign. Qed.
Hint Resolve ResourceSyncRuleStatus_copies : deepcopy.

Lemma ResourceSyncRule_copies : copies t_ResourceSyncRule ResourceSyncRule_DeepCopyInto.
Proof. struct_copies. Qed.
Hint Resolve ResourceSyncRule_copies : deepcopy.

Lemma ResourceSyncRuleList_copies : copies t_ResourceSyncRuleList ResourceSyncRuleList_DeepCopyInto.
Proof. struct_copies. Qed.
Hint Resolve ResourceSyncRuleList_copies : deepcopy.

Lemma generated_copies : Forall (λ p, copies p.1 p.2) generated.
Proof. unfold generated. repeat (apply Forall_cons; split; [simpl; eauto with deepcopy|]). by apply Forall_nil. Qed.

(** What holds of a copy: see [deepcopy_is_fresh] and [deepcopy_is_isolated]. *)
Lemma DeepCopy_spec T into h a v t :
  copies T into → deref h a = Some v → view h T v = Some t →
  ∃ h' l x hn, DeepCopy T into (Some a) h = Some (Some (l, []), h')
    ∧ h ⊆ h' ∧ h !! l = None ∧ hn ⊆ h' ∧ hn ##ₘ h ∧ hn !! l = None ∧ h' !! l = Some (CVal x) ∧ view hn T x = Some t.
Proof.
  intros Hinto Ha Hv. set (l := next_loc h). pose proof (next_loc_fresh h) as Hl. fold l in Hl.
  assert (Hd : delete l (<[l := CVal (zero T)]> h) = h) by by apply delete_insert_id.
  destruct (Hinto (<[l := CVal (zero T)]> h) a (l, []) v t) as (h' & Hrun & x & hn & Hwr & Hx).
  { split; simpl; by rewrite Hd. }
  { by rewrite (zero_deref l _ (zero T)) by by rewrite lookup_insert_eq. }
  destruct Hwr as (Hsub & Hn & Hdis & c & c' & Hc & Hset & Hc'). simpl in *. rewrite Hd in Hsub.
  simplify_eq. apply map_disjoint_insert_r in Hdis as [Hnl Hdis].
  exists h', l, c', hn. split_and!; try done.
  unfold alloc. erewrite bind_run by done. fold l. by run Hrun.
Qed.

(** C32: every generated [DeepCopy] of a well-typed object returns, without a panic, a
    pointer to a new object that reads as the original did, nil kept apart from empty;
    everything the copy refers to, directly or not, is newly allocated, and nothing
    that existed is changed. *)
Theorem deepcopy_is_fresh T into h a v t :
  (T, into) ∈ generated → deref h a = Some v → view h T v = Some t →
  ∃ h' a' v', DeepCopy T into (Some a) h = Some (Some a', h') ∧ h ⊆ h'
    ∧ deref h' a' = Some v' ∧ view h' T v' = Some t
    ∧ h !! a'.1 = None ∧ ∀ l, reach h' T v' l → h !! l = None.
Proof.
  intros Hin Ha Hv. pose proof (proj1 (Forall_forall _ _) generated_copies _ Hin) as Hc.
  destruct (DeepCopy_spec T into h a v t Hc Ha Hv) as (h' & l & x & hn & Hrun & Hs & Hl & Hn & Hd & _ & Hx & Ht).
  exists h', (l, []), x. split_and!; [done..|by apply zero_deref|by eapply view_mono|done|].
  intros l' Hr. destruct (reach_within _ _ _ _ _ _ Hn Ht Hr) as [c' Hc'].
  by eapply map_disjoint_Some_l.
Qed.

(** C31: a deep copy and its original do not share memory: whatever is done to the objects
    the copy refers to, the original reads as before; and whatever is done to the
    memory that was there before the copy was made, the copy reads as before. *)
Theorem deepcopy_is_isolated T into h a v t h' a' v' :
  (T, into) ∈ generated → deref h a = Some v → view h T v = Some t →
  DeepCopy T into (Some a) h = Some (Some a', h') → deref h' a' = Some v' →
  (∀ k, (∀ l, l = a'.1 ∨ reach h' T v' l ∨ k !! l = h' !! l) →
     deref k a = Some v ∧ view k T v = Some t)
  ∧ (∀ k, (∀ l, h !! l = None → k !! l = h' !! l) → deref k a' = Some v' ∧ view k T v' = Some t).
Proof.
  intros Hin Ha Hv Hrun Hv'. pose proof (proj1 (Forall_forall _ _) generated_copies _ Hin) as Hc.
  destruct (DeepCopy_spec T into h a v t Hc Ha Hv) as (h2 & l & x & hn & Hrun2 & Hs & Hl & Hn & Hd & _ & Hx & Ht).
  rewrite Hrun in Hrun2. simplify_eq/=. rewrite (zero_deref _ _ _ Hx) in Hv'. simplify_eq. split.
  - intros k Hk. assert (h ⊆ k) as Hsub; [|split; [by eapply deref_mono|by eapply view_mono]].
    apply map_subseteq_spec. intros l' c Hc'. destruct (Hk l') as [->|[Hr|Hr]]; [congruence| |].
    + destruct (reach_within _ _ _ _ _ _ Hn Ht Hr) as [c' Hcl]. exfalso. by eapply disjoint_lookup.
    + rewrite Hr. by eapply lookup_weaken.
  - intros k Hk. split; [apply zero_deref; by rewrite Hk|]. eapply view_mono; [|done].
    apply map_subseteq_spec. intros l' c Hc'. rewrite Hk by by eapply map_disjoint_Some_l.
    by eapply lookup_weaken.
Qed.

(** An API object is copied to an interface that holds its own type and a pointer; a
    nil pointer to the nil interface, never to an interface that holds a nil pointer. *)
Lemma DeepCopyObject_typed T into inn h i h' :
  DeepCopyObject T into inn h = Some (i, h') →
  (i = None ↔ inn = None) ∧ ∀ T' p, i = Some (T', p) → T' = T ∧ is_Some p.
Proof.
  unfold DeepCopyObject, DeepCopy. destruct inn as [a|].
  - unfold mbind, M_bind, mret, M_ret, alloc. repeat case_match; intros; naive_solver.
  - intros [= <- <-]. naive_solver.
Qed.

(** [MatchedRules.DeepCopy] of a slice, as for the structs; nil gives nil. *)
Lemma MatchedRules_DeepCopy_correct h v t :
  view h t_MatchedRules v = Some t →
  ∃ h' v', MatchedRules_DeepCopy v h = Some (v', h') ∧ h ⊆ h' ∧ view h' t_MatchedRules v' = Some t
    ∧ ∀ l, reach h' t_MatchedRules v' l → h !! l = None.
Proof.
  intros Hv. unfold MatchedRules_DeepCopy. destruct (is_nil v) eqn:Hn.
  { exists h, (GSlice None). split; [done|]. split; [done|].
    destruct v as [| | | | | |[]|]; try done. split; [done|]. intros l Hr. inversion Hr. }
  set (l := next_loc h). pose proof (next_loc_fresh h) as Hl. fold l in Hl.
  set (h1 := <[l := CVal (zero t_MatchedRules)]> h). set (r := next_loc h1).
  pose proof (next_loc_fresh h1) as Hr. fold r in Hr. set (h2 := <[r := CVal v]> h1).
  assert (Hrl : r ≠ l) by (intros E; unfold h1 in Hr; rewrite E, lookup_insert_eq in Hr; done).
  assert (Hh : h ⊆ delete l h2).
  { apply map_subseteq_spec. intros k c Hk. apply lookup_delete_Some. split; [congruence|].
    assert (h1 !! k = Some c) by (unfold h1; by rewrite lookup_insert_ne by congruence).
    unfold h2. by rewrite lookup_insert_ne by congruence. }
  destruct (nonnil_copy_each t_SyncRule SyncRule_DeepCopyInto SyncRule_copies h2 (r, []) (l, []) v t)
    as (h3 & Hrun & x & hn & Hwr & Hx); [| |done|].
  { split; [|by eapply view_mono]. cbn [fst]. rewrite deref_delete_ne by done. apply zero_deref.
    unfold h2. by rewrite lookup_insert_eq. }
  { rewrite (zero_deref l _ (zero t_MatchedRules)); [done|]. unfold h2, h1.
    by rewrite lookup_insert_ne, lookup_insert_eq. }
  exists h3, x. pose proof (writes_deref _ _ _ _ _ Hwr) as Hd. destruct Hwr as (Hsub & Hn3 & Hdis & _).
  split_and!.
  - unfold alloc at 1. erewrite bind_run by done. fold l h1. unfold alloc. erewrite bind_run by done.
    fold r h2. unfold MatchedRules_DeepCopyInto. run Hrun. by apply load_run.
  - by etrans.
  - by eapply view_mono.
  - intros k Hk. destruct (reach_within _ _ _ _ _ _ Hn3 Hx Hk) as [c Hc].
    destruct (h !! k) as [c'|] eqn:E; [|done]. exfalso. eapply (disjoint_lookup hn h2); [done..|].
    eapply lookup_weaken; [exact E|]. etrans; [exact Hh|apply delete_subseteq].
Qed.
End generated.

(** Copying a nil [MatchedRules] into a variable makes that variable empty and not nil. *)
Example MatchedRules_DeepCopyInto_nil `{ML : MetaLib} :
  let h : heap := {[1%positive := CVal (GSlice None); 2%positive := CVal (GSlice None)]} in
  ∃ h', MatchedRules_DeepCopyInto (1%positive, []) (2%positive, []) h = Some (tt, h')
    ∧ deref h' (2%positive, []) = Some (GSlice (Some ((3%positive, []), 0, 0))).
Proof. eexists. split; [reflexivity|reflexivity]. Qed.

(** ** A library for concrete runs *)

Definition run_Requirement : gtype := TStruct [("Key", TStr); ("Operator", TStr); ("Values", TSlice TStr)].
Definition run_Requirement_into (inn out : addr) : M unit :=
  assign inn out ;; unless_nil (copy_slice TStr) (inn ↠ "Values") (out ↠ "Values").

Definition run_lib : MetaLib := {|
  t_ObjectMeta := TStruct [("Name", TStr); ("ResourceVersion", TStr); ("Generation", TInt);
                           ("Labels", TMap); ("Annotations", TMap); ("Finalizers", TSlice TStr)];
  ObjectMeta_DeepCopyInto := λ inn out,
    assign inn out ;;
    unless_nil copy_map (inn ↠ "Labels") (out ↠ "Labels") ;;
    unless_nil copy_map (inn ↠ "Annotations") (out ↠ "Annotations") ;;
    unless_nil (copy_slice TStr) (inn ↠ "Finalizers") (out ↠ "Finalizers");
  t_ListMeta := TStruct [("ResourceVersion", TStr)];
  ListMeta_DeepCopyInto := assign;
  t_Time := TStruct [("wall", TInt); ("ext", TInt)];
  Time_DeepCopyInto := assign;
  t_LabelSelector := TStruct [("MatchLabels", TMap); ("MatchExpressions", TSlice run_Requirement)];
  LabelSelector_DeepCopyInto := λ inn out,
    assign inn out ;;
    unless_nil copy_map (inn ↠ "MatchLabels") (out ↠ "MatchLabels") ;;
    unless_nil (copy_each run_Requirement run_Requirement_into)
      (inn ↠ "MatchExpressions") (out ↠ "MatchExpressions");
  t_LabelSelectorRequirement := run_Requirement;
  LabelSelectorRequirement_DeepCopyInto := run_Requirement_into;
  t_OverlayPatch := TStruct [("Path", TPtr TStr); ("Value", TPtr TStr); ("Type", TStr)];
  OverlayPatch_DeepCopyInto := λ inn out,
    assign inn out ;;
    unless_nil (copy_ptr TStr assign) (inn ↠ "Path") (out ↠ "Path") ;;
    unless_nil (copy_ptr TStr assign) (inn ↠ "Value") (out ↠ "Value");
  t_TypeMeta := TStruct [("Kind", TStr); ("APIVersion", TStr)];
  t_GroupVersionKind := TStruct [("Group", TStr); ("Version", TStr); ("Kind", TStr)];
  t_ObjectKey := TStruct [("Name", TStr); ("Namespace", TStr)];
  t_IntOrString := TStruct [("Type", TInt); ("IntVal", TInt); ("StrVal", TStr)] |}.

Lemma run_Requirement_copies : copies run_Requirement run_Requirement_into.
Proof. struct_copies. Qed.

#[export] Instance run_lib_laws : @MetaLibLaws run_lib.
Proof.
  constructor; [struct_copies|by apply copies_assign|by apply copies_assign| |
    apply run_Requirement_copies|struct_copies|reflexivity..].
  pose proof run_Requirement_copies. struct_copies.
Qed.

(** A cluster with a locality, an endpoint and a condition. *)
Definition run_time (z : Z) : gv := GStruct [("wall", GInt z); ("ext", GInt 0)].
Definition run_cluster : gv := GStruct
  [("TypeMeta", GStruct [("Kind", GStr "Cluster"); ("APIVersion", GStr "v1alpha1")]);
   ("ObjectMeta", GStruct [("Name", GStr "demo"); ("ResourceVersion", GStr "7"); ("Generation", GInt 1);
                           ("Labels", GMap (Some 2%positive)); ("Annotations", GMap None);
                           ("Finalizers", GSlice None)]);
   ("Spec", GStruct [("ClusterID", GStr "id-1");
                     ("AuthInfo", GStruct [("SecretRef",
                        GStruct [("Name", GStr "demo"); ("Namespace", GStr "registry")])]);
                     ("KubernetesAPIEndpoints", GSlice (Some ((3%positive, []), 0, 1)))]);
   ("Status", GStruct [("State", GStr "Ready"); ("Message", GStr ""); ("Type", GStr "Peer");
                       ("Leader", GBool false);
                       ("ClusterMetadata", GStruct
                          [("Provider", GStr "amazon"); ("Distribution", GStr "EKS");
                           ("KubeProxyVersions", GSlice None);
                           ("KubeletVersions", GSlice (Some ((4%positive, []), 0, 2)));
                           ("Version", GStr "v1.21"); ("Locality", GPtr (Some (5%positive, [])))]);
                       ("Conditions", GSlice (Some ((6%positive, []), 1, 1)))])].
Definition run_condition (status : string) : gv := GStruct
  [("Type", GStr "Ready"); ("Status", GStr status); ("LastHeartbeatTime", run_time 3);
   ("LastTransitionTime", run_time 2); ("Reason", GStr "ok"); ("Message", GStr ""); ("TrueIsFailure", GBool false)].
Definition run_heap : heap := {[
  1%positive := CVal run_cluster;
  2%positive := CMap {["app" := "registry"]};
  3%positive := CVal (GArr [GStruct [("ClientNetwork", GStr "");
     ("ServerAddress", GStr "10.0.0.1"); ("CABundle", GSlice (Some ((7%positive, []), 0, 2)))]]);
  4%positive := CVal (GArr [GStr "v1.20"; GStr "v1.21"]);
  5%positive := CVal (GStruct [("Region", GStr "eu-1"); ("Regions", GSlice None);
                               ("Zones", GSlice (Some ((8%positive, []), 0, 1)))]);
  6%positive := CVal (GArr [run_condition "False"; run_condition "True"]);
  7%positive := CVal (GArr [GInt 65; GInt 66]);
  8%positive := CVal (GArr [GStr "eu-1a"]) ]}.
Definition run_tree : tree :=
  default LNil (view run_heap (@t_Cluster run_lib) run_cluster).

Lemma deepcopy_is_fresh_witness :
  ∃ h' a' v', @Cluster_DeepCopy run_lib (Some (1%positive, [])) run_heap = Some (Some a', h')
    ∧ run_heap ⊆ h' ∧ deref h' a' = Some v' ∧ view h' (@t_Cluster run_lib) v' = Some run_tree
    ∧ run_heap !! a'.1 = None ∧ ∀ l, reach h' (@t_Cluster run_lib) v' l → run_heap !! l = None.
Proof.
  apply (@deepcopy_is_fresh run_lib run_lib_laws (@t_Cluster run_lib) (@Cluster_DeepCopyInto run_lib)
    run_heap (1%positive, []) run_cluster run_tree).
  - unfold generated. do 4 right. left.
  - reflexivity.
  - vm_compute. reflexivity.
Defined.

Definition run_copied : option (option addr * heap) :=
  @Cluster_DeepCopy run_lib (Some (1%positive, [])) run_heap.

Lemma deepcopy_is_isolated_witness :
  ∃ a' h' v', run_copied = Some (Some a', h') ∧ deref h' a' = Some v'
    ∧ (∀ k, (∀ l, l = a'.1 ∨ reach h' (@t_Cluster run_lib) v' l ∨ k !! l = h' !! l) →
         deref k (1%positive, []) = Some run_cluster ∧ view k (@t_Cluster run_lib) run_cluster = Some run_tree)
    ∧ (∀ k, (∀ l, run_heap !! l = None → k !! l = h' !! l) →
         deref k a' = Some v' ∧ view k (@t_Cluster run_lib) v' = Some run_tree).
Proof.
  destruct run_copied as [[[a'|] h']|] eqn:E; [|vm_compute in E; discriminate..].
  destruct (deref h' a') as [v'|] eqn:E'.
  - exists a', h', v'. split; [reflexivity|]. split; [exact E'|].
    apply (@deepcopy_is_isolated run_lib run_lib_laws (@t_Cluster run_lib) (@Cluster_DeepCopyInto run_lib)
      run_heap (1%positive, []) run_cluster run_tree h' a' v').
    + unfold generated. do 4 right. left.
    + reflexivity.
    + vm_compute. reflexivity.
    + exact E.
    + exact E'.
  - vm_compute in E. injection E as <- <-. vm_compute in E'. discriminate.
Defined.
