(* ===== verification/StatusCopy.v ===== *)
(** * Status updates on the heap

    [UpdateClusterStatus] of controllers/common.go works on pointers: the client writes
    into the object it is given, and the deep copy that was made before is what is sent
    after a conflict. Here the function runs on the heap of [GoHeap], with the generated
    deep copies of [DeepCopy], and is shown to do what [Conditions.UpdateClusterStatus]
    does on values. *)

From stdpp Require Import gmap strings list.
From S2P Require Import Prelude Errors Types Conditions GoHeap CopySpec DeepCopy.
Open Scope string_scope.

(** ** Trees as API values *)

Definition tree_str (t : tree) : string := match t with LStr s => s | _ => "" end.
Definition tree_bool (t : tree) : bool := match t with LBool b => b | _ => false end.
Definition tree_list {A} (f : tree → A) (t : tree) : list A :=
  match t with LSlice ts => f <$> ts | _ => [] end.
Definition tree_fld (f : string) (t : tree) : tree :=
  match t with LStruct xs => default LNil (fld f xs) | _ => LNil end.
Definition tree_byte (t : tree) : Ascii.ascii :=
  match t with LInt z => Ascii.ascii_of_N (Z.to_N z) | _ => Ascii.zero end.

(** The values of metav1.Time and metav1.ObjectMeta are read by parameters. *)
Class MetaAbs : Type := { abs_Time : tree → Time; abs_ObjectMeta : tree → ObjectMeta }.

Section abs.
Context `{MetaAbs}.

Definition abs_NamespacedName (t : tree) : NamespacedName :=
  mkNamespacedName (tree_str (tree_fld "Name" t)) (tree_str (tree_fld "Namespace" t)).
Definition abs_Endpoint (t : tree) : KubernetesAPIEndpoint :=
  mkKubernetesAPIEndpoint (tree_str (tree_fld "ClientNetwork" t)) (tree_str (tree_fld "ServerAddress" t))
    (String.string_of_list_ascii (tree_list tree_byte (tree_fld "CABundle" t))).
Definition abs_ClusterSpec (t : tree) : ClusterSpec :=
  mkClusterSpec (tree_str (tree_fld "ClusterID" t))
    (mkAuthInfo (abs_NamespacedName (tree_fld "SecretRef" (tree_fld "AuthInfo" t))))
    (tree_list abs_Endpoint (tree_fld "KubernetesAPIEndpoints" t)).
Definition abs_Locality (t : tree) : Locality :=
  mkLocality (tree_str (tree_fld "Region" t)) (tree_list tree_str (tree_fld "Regions" t))
    (tree_list tree_str (tree_fld "Zones" t)).
Definition abs_ClusterMetadata (t : tree) : ClusterMetadata :=
  mkClusterMetadata (tree_str (tree_fld "Provider" t)) (tree_str (tree_fld "Distribution" t))
    (tree_list tree_str (tree_fld "KubeProxyVersions" t)) (tree_list tree_str (tree_fld "KubeletVersions" t))
    (tree_str (tree_fld "Version" t))
    (match tree_fld "Locality" t with LPtr l => Some (abs_Locality l) | _ => None end).
Definition abs_ClusterCondition (t : tree) : ClusterCondition :=
  mkClusterCondition (tree_str (tree_fld "Type" t)) (tree_str (tree_fld "Status" t))
    (abs_Time (tree_fld "LastHeartbeatTime" t)) (abs_Time (tree_fld "LastTransitionTime" t))
    (tree_str (tree_fld "Reason" t)) (tree_str (tree_fld "Message" t)) (tree_bool (tree_fld "TrueIsFailure" t)).
Definition abs_ClusterStatus (t : tree) : ClusterStatus :=
  mkClusterStatus (tree_str (tree_fld "State" t)) (tree_str (tree_fld "Message" t))
    (tree_str (tree_fld "Type" t)) (tree_bool (tree_fld "Leader" t))
    (abs_ClusterMetadata (tree_fld "ClusterMetadata" t))
    (tree_list abs_ClusterCondition (tree_fld "Conditions" t)).
Definition abs_Cluster (t : tree) : Cluster :=
  mkCluster (abs_ObjectMeta (tree_fld "ObjectMeta" t)) (abs_ClusterSpec (tree_fld "Spec" t))
    (abs_ClusterStatus (tree_fld "Status" t)).
End abs.

(** ObjectMeta is a struct with, among others, a name and a resource version. *)
Class MetaAbsLaws `{MetaLib, MetaAbs} : Type := {
  om_fields : list (string * gtype);
  om_layout : t_ObjectMeta = TStruct om_fields;
  om_nodup : NoDup om_fields.*1;
  om_name_field : fld "Name" om_fields = Some TStr;
  om_rv_field : fld "ResourceVersion" om_fields = Some TStr;
  abs_om_name xs n : fld "Name" xs = Some (LStr n) → om_Name (abs_ObjectMeta (LStruct xs)) = n;
  abs_om_rv xs rv :
    fld "ResourceVersion" xs = Some (LStr rv) → om_ResourceVersion (abs_ObjectMeta (LStruct xs)) = rv;
  abs_om_set_rv xs rv :
    is_Some (fld "ResourceVersion" xs) →
    abs_ObjectMeta (LStruct (fld_set "ResourceVersion" (LStr rv) xs))
    = with_resource_version rv (abs_ObjectMeta (LStruct xs)) }.

(** ** The client on the heap *)

(** [c.Status().Update] and [c.Get] take a pointer to the object. *)
Class HeapClient (S : Type) : Type := {
  hc_StatusUpdate : addr → S → heap → option error * S * heap;
  hc_Get : string → addr → S → heap → option error * S * heap }.

(** From [h] to [h'], nothing but the object at [a] and what it refers to is written. *)
Definition touches_only (h h' : heap) (a : addr) (v : gv) `{MetaLib} : Prop :=
  ∀ l c, h !! l = Some c → l ≠ a.1 → ¬ reach h t_Cluster v l → h' !! l = Some c.

(** Documented behaviour: the API server sees the value of the object; the answer is
    written into the object and nowhere else; an update does not rename it; a read that
    succeeds leaves what was read in it. *)
Class HeapClientLaws (S : Type) `{ML : MetaLib, MA : MetaAbs, CC : ClusterClient S, HC : HeapClient S} : Prop := {
  hc_StatusUpdate_law a v t s h :
    deref h a = Some v → view h t_Cluster v = Some t →
    ∃ h' v' t', hc_StatusUpdate a s h = (client_StatusUpdate (abs_Cluster t) s, h')
      ∧ touches_only h h' a v ∧ deref h' a = Some v' ∧ view h' t_Cluster v' = Some t'
      ∧ cl_Name (abs_Cluster t') = cl_Name (abs_Cluster t);
  hc_Get_law n a v t s h :
    deref h a = Some v → view h t_Cluster v = Some t →
    ∃ h', hc_Get n a s h = (res_err (client_GetCluster n s).1, (client_GetCluster n s).2, h')
      ∧ touches_only h h' a v
      ∧ ∀ cur, (client_GetCluster n s).1 = Ok cur →
          ∃ v' t', deref h' a = Some v' ∧ view h' t_Cluster v' = Some t' ∧ abs_Cluster t' = cur }.

(** ** [UpdateClusterStatus] *)

Section update.
Context `{EL : ErrorLib, ML : MetaLib, MA : MetaAbs} {S : Type} `{CC : ClusterClient S, HC : HeapClient S}.

Definition load_str (a : addr) : M string :=
  v ← load a; match v with GStr s => mret s | _ => panic end.

Definition heap_UpdateClusterStatus (cluster : addr) (s : S) (h : heap)
    : option (option error * S * heap) :=
  match Cluster_DeepCopy (Some cluster) h with
  | Some (Some desired, h) =>
      match hc_StatusUpdate cluster s h with
      | (None, s, h) => Some (None, s, h)
      | (Some e, s, h) =>
          if IsConflict e then
            match Cluster_DeepCopy (Some cluster) h with
            | Some (Some current, h) =>
                '(name, h) ← load_str (current ↠ "ObjectMeta" ↠ "Name") h;
                match hc_Get name current s h with
                | (Some e, s, h) => Some (Some (WrapIf e "could not get cluster"), s, h)
                | (None, s, h) =>
                    '(rv, h) ← load_str (current ↠ "ObjectMeta" ↠ "ResourceVersion") h;
                    '(_, h) ← store (desired ↠ "ObjectMeta" ↠ "ResourceVersion") (GStr rv) h;
                    match hc_StatusUpdate desired s h with
                    | (Some e, s, h) => Some (Some (WrapIf e "could not update cluster status"), s, h)
                    | (None, s, h) => Some (None, s, h)
                    end
                end
            | _ => None
            end
          else Some (Some (WrapIf e "could not update status"), s, h)
      end
  | _ => None
  end.
End update.

(** ** Fields of a cluster *)

Lemma view_fields_set h ts fs xs f T x t :
  NoDup ts.*1 → view_fields h ts fs = Some xs → fld f ts = Some T → view h T x = Some t →
  view_fields h ts (fld_set f x fs) = Some (fld_set f t xs).
Proof.
  intros Hnd Hxs HT Hx. destruct (view_fields_names _ _ _ _ Hxs) as [Hfs Hxn].
  destruct (view_fields_lookup _ _ _ _ _ _ Hxs HT) as (v0 & t0 & Hv0 & Ht0 & _).
  apply view_fields_intro; [done|by rewrite fld_set_names|by rewrite fld_set_names|].
  intros g T' t' HT' Ht'. destruct (decide (f = g)) as [<-|Hne].
  - rewrite fld_set_eq in Ht' by by rewrite Ht0. simplify_eq. exists x.
    by rewrite fld_set_eq by by rewrite Hv0.
  - rewrite fld_set_ne in Ht' by done. rewrite fld_set_ne by done.
    destruct (view_fields_lookup _ _ _ _ _ _ Hxs HT') as (v & t'' & Hv & Ht'' & Hvt). simplify_eq. eauto.
Qed.

Section fields.
Context `{ML : MetaLib, MA : MetaAbs, !MetaAbsLaws}.

(** The metadata of a cluster object: where it is and how it reads. *)
Lemma cluster_meta h v t :
  view h t_Cluster v = Some t →
  ∃ fs xs ms ys, v = GStruct fs ∧ t = LStruct xs ∧ fld "ObjectMeta" fs = Some (GStruct ms)
    ∧ fld "ObjectMeta" xs = Some (LStruct ys) ∧ view_fields h om_fields ms = Some ys
    ∧ ∃ ts, t_Cluster = TStruct ts ∧ NoDup ts.*1 ∧ view_fields h ts fs = Some xs
        ∧ fld "ObjectMeta" ts = Some (TStruct om_fields).
Proof.
  unfold t_Cluster. rewrite om_layout. set (ts := [_; _; _; _]).
  destruct v as [| | |fs| | | |]; try done. rewrite view_struct. intros (xs & Hxs & ->)%fmap_Some.
  assert (HT : fld "ObjectMeta" ts = Some (TStruct om_fields)) by done.
  destruct (view_fields_lookup _ _ _ _ _ _ Hxs HT) as (v & t & Hv & Ht & Hvt).
  destruct v as [| | |ms| | | |]; try done. rewrite view_struct in Hvt.
  apply fmap_Some in Hvt as (ys & Hys & ->). exists fs, xs, ms, ys. split_and!; try done.
  exists ts. split_and!; try done. apply (bool_decide_unpack _). by vm_compute.
Qed.

Lemma cluster_string h a v t f :
  fld f om_fields = Some TStr → deref h a = Some v → view h t_Cluster v = Some t →
  ∃ s ys, load_str (a ↠ "ObjectMeta" ↠ f) h = Some (s, h) ∧ fld f ys = Some (LStr s)
    ∧ cl_meta (abs_Cluster t) = abs_ObjectMeta (LStruct ys).
Proof.
  intros Hf Ha Hv. destruct (cluster_meta _ _ _ Hv) as (fs & xs & ms & ys & -> & -> & Hms & Hys & Hview & _).
  destruct (view_fields_lookup _ _ _ _ _ _ Hview Hf) as (u & w & Hu & Hw & Huw).
  destruct u as [s| | | | | | |]; try done. simpl in Huw. simplify_eq.
  exists s, ys. split_and!; [|done|by simpl; rewrite Hys]. unfold load_str.
  rewrite (bind_run _ _ _ (GStr s) h); [done|]. apply load_run.
  by rewrite !deref_sub, Ha; simpl; rewrite Hms.
Qed.

Lemma cluster_set_rv h hn l x t rv :
  h !! l = Some (CVal x) → view hn t_Cluster x = Some t →
  ∃ x' t', store ((l, []) ↠ "ObjectMeta" ↠ "ResourceVersion") (GStr rv) h = Some (tt, <[l := CVal x']> h)
    ∧ view hn t_Cluster x' = Some t' ∧ abs_Cluster t' = with_cluster_rv rv (abs_Cluster t).
Proof.
  intros Hl Hv.
  destruct (cluster_meta _ _ _ Hv)
    as (fs & xs & ms & ys & -> & -> & Hms & Hys & Hview & ts & HT & Hnd & Hfs & Hom).
  destruct (view_fields_lookup _ _ _ _ _ _ Hview om_rv_field) as (u & w & Hu & Hw & _).
  set (ms' := fld_set "ResourceVersion" (GStr rv) ms).
  set (ys' := fld_set "ResourceVersion" (LStr rv) ys).
  assert (Hm : view hn (TStruct om_fields) (GStruct ms') = Some (LStruct ys')).
  { rewrite view_struct. unfold ms', ys'.
    by rewrite (view_fields_set hn om_fields ms ys "ResourceVersion" TStr (GStr rv) (LStr rv) om_nodup Hview
      om_rv_field). }
  exists (GStruct (fld_set "ObjectMeta" (GStruct ms') fs)), (LStruct (fld_set "ObjectMeta" (LStruct ys') xs)).
  split_and!.
  - apply store_run with (c := GStruct fs); [done|]. simpl. rewrite Hms. simpl. by rewrite Hu.
  - rewrite HT, view_struct.
    by rewrite (view_fields_set hn ts fs xs "ObjectMeta" _ _ (LStruct ys') Hnd Hfs Hom Hm).
  - unfold abs_Cluster, with_cluster_rv, tree_fld. rewrite fld_set_eq by by rewrite Hys.
    rewrite !fld_set_ne by done. rewrite Hys. cbn [default from_option id cl_meta cl_Spec cl_Status].
    unfold ys'. by rewrite abs_om_set_rv by by rewrite Hw.
Qed.
End fields.

(** ** The heap version does what the version on values does *)

Section refinement.
#[local] Opaque view.
Context `{EL : ErrorLib, ML : MetaLib, MA : MetaAbs, !MetaLibLaws, !MetaAbsLaws} {S : Type}.
Context `{CC : ClusterClient S, HC : HeapClient S, !HeapClientLaws S}.

(** A copy that lies in [hn] survives what a call does to another object. *)
Lemma copy_survives h h' a v t l x hn hb :
  touches_only h h' a v → view hb t_Cluster v = Some t → hb ⊆ h →
  hb !! l = None → hn ##ₘ hb → hn !! a.1 = None → a.1 ≠ l → hn ⊆ h → h !! l = Some (CVal x) →
  hn ⊆ h' ∧ h' !! l = Some (CVal x).
Proof using.
  intros Ht Hv Hb Hl Hd Ha Hal Hn Hx. split.
  - apply map_subseteq_spec. intros k c Hk. apply Ht; [by eapply lookup_weaken|congruence|].
    intros Hr. destruct (reach_within _ _ _ _ _ _ Hb Hv Hr) as [c' Hc']. by eapply disjoint_lookup.
  - apply Ht; [done|congruence|]. intros Hr.
    destruct (reach_within _ _ _ _ _ _ Hb Hv Hr) as [c' Hc']. congruence.
Qed.

(** C33: [UpdateClusterStatus] on pointers, with the generated deep copies and a client
    that writes its answers into the object it is given, does not panic, returns the
    error and leaves the API server as the same function on values: what is sent after
    a conflict is the status that was computed, although the first update has had the
    object in its hands, and the version is that of the object that was read. *)
Theorem UpdateClusterStatus_refines cluster v t s h :
  deref h cluster = Some v → view h t_Cluster v = Some t →
  ∃ h', heap_UpdateClusterStatus cluster s h = Some (UpdateClusterStatus (abs_Cluster t) s, h').
Proof.
  intros Ha Hv. unfold heap_UpdateClusterStatus, UpdateClusterStatus, st_bind, Cluster_DeepCopy.
  pose proof Ha as (c & Hac & _)%deref_Some.
  destruct (DeepCopy_spec t_Cluster Cluster_DeepCopyInto h cluster v t Cluster_copies Ha Hv)
    as (h1 & l & x & hn & -> & Hs1 & Hl & Hn & Hd & Hnl & Hx & Ht).
  destruct (hc_StatusUpdate_law cluster v t s h1) as (h2 & v2 & t2 & -> & Htch & Ha2 & Hv2 & Hname).
  { by apply (deref_mono h). } { by apply (view_mono h). }
  destruct (copy_survives h1 h2 cluster v t l x hn h) as [Hn2 Hx2]; try done.
  { by eapply map_disjoint_Some_r. } { congruence. }
  destruct (client_StatusUpdate (abs_Cluster t) s) as [[e|] s1]; [|by eexists].
  destruct (IsConflict e); [|by eexists].
  destruct (DeepCopy_spec t_Cluster Cluster_DeepCopyInto h2 cluster v2 t2 Cluster_copies Ha2 Hv2)
    as (h3 & l3 & x3 & hn3 & -> & Hs3 & Hl3 & Hn3 & Hd3 & Hnl3 & Hx3 & Ht3).
  pose proof (zero_deref _ _ _ Hx3) as Hd3x. pose proof (view_mono _ _ _ _ _ Hn3 Ht3) as Hv3.
  destruct (cluster_string h3 (l3, []) x3 t2 "Name" om_name_field Hd3x Hv3) as (n & ys & -> & Hyn & Hmeta).
  cbn [mbind option_bind].
  assert (n = cl_Name (abs_Cluster t)) as ->.
  { rewrite <- Hname. unfold cl_Name. by rewrite Hmeta, (abs_om_name _ n). }
  destruct (hc_Get_law (cl_Name (abs_Cluster t)) (l3, []) x3 t2 s1 h3 Hd3x Hv3) as (h4 & -> & Htch4 & Hgot).
  assert (l3 ≠ l) by congruence.
  assert (Hhn3 : hn !! l3 = None).
  { destruct (hn !! l3) as [c3|] eqn:E; [|done]. exfalso. rewrite (lookup_weaken _ _ _ _ E Hn2) in Hl3. done. }
  destruct (copy_survives h3 h4 (l3, []) x3 t2 l x hn (<[l3 := CVal x3]> hn3)) as [Hn4 Hx4];
    [exact Htch4| | | | |exact Hhn3|done|by transitivity h2|by eapply lookup_weaken|].
  { apply (view_mono hn3); [apply insert_subseteq; exact Hnl3|exact Ht3]. }
  { by apply insert_subseteq_l. }
  { rewrite lookup_insert_ne by done. by apply (map_disjoint_Some_r hn3 h2 l (CVal x)). }
  { apply map_disjoint_insert_r. split; [done|]. symmetry. eapply map_disjoint_weaken_r; [exact Hd3|exact Hn2]. }
  destruct (client_GetCluster (cl_Name (abs_Cluster t)) s1) as [[cur|e'] s2]; [|by eexists].
  cbn [fst snd res_err] in *. destruct (Hgot cur eq_refl) as (v4 & t4 & Ha4 & Hv4 & Habs).
  destruct (cluster_string h4 (l3, []) v4 t4 "ResourceVersion" om_rv_field Ha4 Hv4)
    as (rv & zs & -> & Hrv & Hmeta4). cbn [mbind option_bind].
  destruct (cluster_set_rv h4 hn l x t rv Hx4 Ht) as (x' & t' & -> & Hv' & Habs'). cbn [mbind option_bind].
  destruct (hc_StatusUpdate_law (l, []) x' t' s2 (<[l := CVal x']> h4)) as (h6 & ? & ? & -> & _).
  { apply zero_deref. by rewrite lookup_insert_eq. }
  { apply (view_mono hn); [|exact Hv']. by apply insert_subseteq_r. }
  assert (rv = cluster_rv cur) as ->.
  { rewrite <- Habs. unfold cluster_rv. by rewrite Hmeta4, (abs_om_rv _ rv). }
  rewrite Habs'. destruct (client_StatusUpdate _ s2) as [[e'|] s3]; by eexists.
Qed.
End refinement.

(** ** A client for concrete runs *)

Definition run_abs : MetaAbs := {|
  abs_Time t := match tree_fld "wall" t with LInt 0 => None | LInt z => Some z | _ => None end;
  abs_ObjectMeta t :=
    with_resource_version (tree_str (tree_fld "ResourceVersion" t))
      (named_meta (tree_str (tree_fld "Name" t)) "") |}.

(** The server stores one cluster, as an object without references, and keeps the updates. *)
Abbreviation RunServer := (gv * list Cluster)%type.
#[local] Existing Instance chain_lib.
#[local] Existing Instance run_lib.
#[local] Existing Instance run_abs.

Definition run_stored (s : RunServer) : result error Cluster :=
  match view ∅ t_Cluster s.1 with
  | Some t => Ok (abs_Cluster t)
  | None => Err (errorString "no such cluster")
  end.

#[local] Instance run_client : ClusterClient RunServer := {|
  client_GetCluster n s := (run_stored s, s);
  client_ListClusters s := (Ok [], s);
  client_StatusUpdate c s :=
    match run_stored s with
    | Err e => (Some e, s)
    | Ok cur =>
        if bool_decide (cl_Name cur = cl_Name c) then
          if bool_decide (cluster_rv cur = cluster_rv c) then (None, (s.1, (c :: s.2)%list))
          else (Some (StatusError Conflict (cl_Name c)), s)
        else (Some (StatusError NotFound (cl_Name c)), s)
    end;
  client_GetNamespaceUID _ s := (Ok "uid", s) |}.

(** What is stored is written into the object. *)
Definition run_answer (a : addr) (s : RunServer) (h : heap) : heap :=
  match store a s.1 h with Some (_, h') => h' | None => h end.

#[local] Instance run_heap_client : HeapClient RunServer := {|
  hc_StatusUpdate a s h :=
    match deref h a ≫= view h t_Cluster with
    | Some t => match client_StatusUpdate (abs_Cluster t) s with
                | (None, s') => (None, s', run_answer a s h)
                | (Some e, s') => (Some e, s', h)
                end
    | None => (None, s, h)
    end;
  hc_Get n a s h :=
    match run_stored s with
    | Ok _ => (None, s, run_answer a s h)
    | Err e => (Some e, s, h)
    end |}.

Lemma run_answer_spec a s h v :
  deref h a = Some v →
  deref (run_answer a s h) a = Some s.1 ∧ ∀ l, l ≠ a.1 → run_answer a s h !! l = h !! l.
Proof.
  intros (c & Hc & Hp)%deref_Some. destruct (set_path_some _ s.1 _ _ Hp) as [c' Hc'].
  unfold run_answer. rewrite (store_run _ _ _ _ _ Hc Hc'). split.
  - apply deref_Some. exists c'. rewrite lookup_insert_eq. eauto using set_path_get.
  - intros l Hl. by rewrite lookup_insert_ne.
Qed.

Lemma touches_refl h a v : touches_only h h a v.
Proof. by intros l c Hc _ _. Qed.

#[local] Opaque view.

#[local] Instance run_heap_client_laws : HeapClientLaws RunServer.
Proof.
  split.
  - intros a v t s h Ha Hv. simpl. rewrite Ha. simpl. rewrite Hv.
    destruct (run_answer_spec a s h v Ha) as [Hd Hl]. unfold run_stored.
    destruct (view ∅ t_Cluster s.1) as [t'|] eqn:Ht; [|exists h, v, t; by eauto using touches_refl].
    case_bool_decide as Hn; [|exists h, v, t; by eauto using touches_refl]. case_bool_decide; [|exists h, v, t; by eauto using touches_refl].
    exists (run_answer a s h), s.1, t'. split_and!; [done| |done| |done].
    + intros l c Hc Hla _. by rewrite Hl.
    + eapply view_mono; [apply map_empty_subseteq|done].
  - intros n a v t s h Ha Hv. simpl. destruct (run_answer_spec a s h v Ha) as [Hd Hl]. unfold run_stored.
    destruct (view ∅ t_Cluster s.1) as [t'|] eqn:Ht; [|exists h; by split_and!; [|apply touches_refl|]].
    exists (run_answer a s h). split_and!; [done| |].
    + intros l c Hc Hla _. by rewrite Hl.
    + intros cur [= <-]. exists s.1, t'. split_and!; [done| |done].
      eapply view_mono; [apply map_empty_subseteq|done].
Qed.

#[local] Instance run_abs_laws : MetaAbsLaws.
Proof.
  refine {| om_layout := eq_refl |}.
  - apply (bool_decide_unpack _). by vm_compute.
  - done.
  - done.
  - intros xs n Hn. simpl. by rewrite Hn.
  - intros xs rv Hrv. simpl. by rewrite Hrv.
  - intros xs rv Hrv. simpl. by rewrite fld_set_eq, fld_set_ne by done.
Defined.

(** The cluster of [run_heap] was read at version 7, the server has version 9: the status
    of the object is sent again with the version of the server. *)
Definition run_server : RunServer :=
  (GStruct
    [("TypeMeta", GStruct [("Kind", GStr "Cluster"); ("APIVersion", GStr "v1alpha1")]);
     ("ObjectMeta", GStruct [("Name", GStr "demo"); ("ResourceVersion", GStr "9"); ("Generation", GInt 2);
        ("Labels", GMap None); ("Annotations", GMap None); ("Finalizers", GSlice None)]);
     ("Spec", GStruct [("ClusterID", GStr "id-1");
        ("AuthInfo", GStruct [("SecretRef", GStruct [("Name", GStr "demo"); ("Namespace", GStr "registry")])]);
        ("KubernetesAPIEndpoints", GSlice None)]);
     ("Status", GStruct [("State", GStr ""); ("Message", GStr ""); ("Type", GStr ""); ("Leader", GBool false);
        ("ClusterMetadata", GStruct [("Provider", GStr ""); ("Distribution", GStr "");
           ("KubeProxyVersions", GSlice None); ("KubeletVersions", GSlice None); ("Version", GStr "");
           ("Locality", GPtr None)]); ("Conditions", GSlice None)])], []).

Lemma UpdateClusterStatus_refines_witness :
  (∃ h', heap_UpdateClusterStatus (1%positive, []) run_server run_heap
         = Some (UpdateClusterStatus (abs_Cluster run_tree) run_server, h'))
  ∧ UpdateClusterStatus (abs_Cluster run_tree) run_server
    = (None, (run_server.1, [with_cluster_rv "9" (abs_Cluster run_tree)])).
Proof.
  split.
  - apply (UpdateClusterStatus_refines (1%positive, []) run_cluster run_tree run_server run_heap).
    + reflexivity.
    + vm_compute. reflexivity.
  - vm_compute. reflexivity.
Defined.
