(* ===== verification/Sync.v ===== *)
(** * The sync reconciler

    controllers/sync_reconciler.go: one instance per peer cluster and sync rule. It
    copies the objects the rule selects from the peer to the local cluster, under an
    ownership protocol on annotations that keeps the clusters of a mesh from
    overwriting each other's objects. *)

From stdpp Require Import gmap strings list.
From S2P Require Import Prelude Errors Types Match Util Cluster ManagedReconciler Conditions Manager.
Open Scope string_scope.
Open Scope go_scope.

Definition originalNameLabel : string := "cluster-registry.k8s.cisco.com/original-name".
Definition originalNamespaceLabel : string := "cluster-registry.k8s.cisco.com/original-namespace".

(** ** State and environment *)

(** The embedded base, and the fields of the reconciler; of the local cache, the
    local client and the controller only whether they are set. *)
Record syncReconciler := mkSyncReconciler {
  sr_base : ManagedReconcilerBase;
  sr_gvk : GroupVersionKind;
  localGVK : GroupVersionKind;
  localClusterID : string;
  sr_rateLimited : bool;
  sr_clusterID : string;
  sr_rule : ResourceSyncRule;
  localInformers : gset string;
  localCache : bool;
  localClient : bool;
  sr_ctrl : bool;
  resourceNameMutated : bool;
  resourceNamespaceMutated : bool }.

Definition set_base (b : ManagedReconcilerBase) (r : syncReconciler) : syncReconciler :=
  mkSyncReconciler b (sr_gvk r) (localGVK r) (localClusterID r) (sr_rateLimited r) (sr_clusterID r) (sr_rule r)
    (localInformers r) (localCache r) (localClient r) (sr_ctrl r) (resourceNameMutated r) (resourceNamespaceMutated r).
Definition set_localClusterID (i : string) (r : syncReconciler) : syncReconciler :=
  mkSyncReconciler (sr_base r) (sr_gvk r) (localGVK r) i (sr_rateLimited r) (sr_clusterID r) (sr_rule r)
    (localInformers r) (localCache r) (localClient r) (sr_ctrl r) (resourceNameMutated r) (resourceNamespaceMutated r).
Definition set_informers (i : gset string) (r : syncReconciler) : syncReconciler :=
  mkSyncReconciler (sr_base r) (sr_gvk r) (localGVK r) (localClusterID r) (sr_rateLimited r) (sr_clusterID r) (sr_rule r)
    i (localCache r) (localClient r) (sr_ctrl r) (resourceNameMutated r) (resourceNamespaceMutated r).
Definition set_handles (cache client ctrl : bool) (r : syncReconciler) : syncReconciler :=
  mkSyncReconciler (sr_base r) (sr_gvk r) (localGVK r) (localClusterID r) (sr_rateLimited r) (sr_clusterID r) (sr_rule r)
    (localInformers r) cache client ctrl (resourceNameMutated r) (resourceNamespaceMutated r).
Definition set_mutated (n ns : bool) (r : syncReconciler) : syncReconciler :=
  mkSyncReconciler (sr_base r) (sr_gvk r) (localGVK r) (localClusterID r) (sr_rateLimited r) (sr_clusterID r) (sr_rule r)
    (localInformers r) (localCache r) (localClient r) (sr_ctrl r) n ns.

(** The data the override templates see. *)
Record TemplateData := mkTemplateData {
  td_Object : Object; td_Cluster : Cluster; td_LocalCluster : Cluster }.

(** The decision functions that the desired state passes to the object reconciler of
    operator-tools. *)
Record DesiredState := mkDesiredState {
  BeforeUpdate : Object → Object → result error Object;
  ShouldCreate : Object → bool;
  ShouldUpdate : Object → Object → bool }.

(** The attributes of an access review. *)
Record ResourceAttributes := mkResourceAttributes {
  ra_Verb : string; ra_Group : string; ra_Version : string; ra_Resource : string }.

(** What the controller watches: a kind of the peer, the in-memory source that hands
    over the queue, and the informer of a kind of the local cluster. *)
Inductive WatchSource :=
| WatchKind (gvk : GroupVersionKind)
| WatchMemory
| WatchInformer (gvk : GroupVersionKind).

(** The libraries: the patch engine of operator-tools with its modifier for services,
    the annotations of other tools, which are dropped from the copies, the kinds of
    the scheme, and the English plural of a kind. *)
Class PatchLib : Type := {
  ServiceIPModifier : Object → Object → result error Object;
  pluralize_Plural : string → string;
  PatchYAMLModifier : GroupVersionKind → list OverlayPatch → result error (Object → result error Object);
  dropped_annotations : list string;
  scheme_knows : GroupVersionKind → bool }.

(** The two API servers, the event recorder, the rate limiter, and the clusters
    manager [M] as the reconciler sees it. *)
Class SyncEnv (M S : Type) : Type := {
  remote_Get : GroupVersionKind → NamespacedName → ST S (result error Object);
  local_Get : GroupVersionKind → NamespacedName → ST S (result error Object);
  local_List : GroupVersionKind → string → gmap string string → ST S (result error (list Object));
  local_Delete : GroupVersionKind → NamespacedName → ST S (option error);
  local_StatusUpdate : Object → ST S (option error);
  local_GetNamespace : string → ST S (option error);
  ReconcileResource : Object → DesiredState → ST S (option error);
  RateLimit : string → ST S (result error bool);
  RecordEvent : Event → ST S unit;
  manager_of : S → M;
  (** SelfSubjectAccessReview on the peer and on the local cluster *)
  remote_Review : ResourceAttributes → ST S (result error bool);
  local_Review : ResourceAttributes → ST S (result error bool);
  (** clients and caches of the local cluster *)
  local_NewClient : ST S (option error);
  local_NewDelegatingClient : ST S (option error);
  local_NewCache : ST S (option error);
  local_WaitForCacheSync : option ctx → ST S bool;
  local_GetInformer : GroupVersionKind → ST S (option error);
  ctrl_Watch : WatchSource → ST S (option error) }.

Section sync.
Context {M S : Type} `{AC : AliveClusters M} `{SE : !SyncEnv M S} `{CC : !ClusterClient S}.
Context `{EL : ErrorLib} `{SL : SelectorLib} `{CL : ContentLib} `{TL : !TemplateLib TemplateData} `{PL : PatchLib}.

(** The reconciler and its environment. *)
Abbreviation W := (syncReconciler * S)%type.

Definition on_env {A} (c : ST S A) : ST W A := λ w, let '(a, s) := c w.2 in (a, (w.1, s)).
Definition get_rec : ST W syncReconciler := λ w, (w.1, w).
Definition modify_rec (f : syncReconciler → syncReconciler) : ST W unit := λ w, (tt, (f w.1, w.2)).
Definition get_manager : ST W M := λ w, (manager_of w.2, w).

(** [NewSyncReconciler], with the option [WithRateLimiter] or without. *)
Definition NewSyncReconciler (name : string) (rule : ResourceSyncRule) (clusterID : string) (limited : bool)
    : syncReconciler :=
  let gvk := rss_GVK (rsr_Spec rule) in
  mkSyncReconciler (NewManagedReconciler name) gvk (MatchedRules_GetMutatedGVK (Rules (rsr_Spec rule)) gvk).2
    "" limited clusterID rule ∅ false false false false false.

(** ** Pre-checks *)

(** [GroupVersionKind.String()]. *)
Definition GVK_String (g : GroupVersionKind) : string :=
  Group g ++ "/" ++ Version g ++ ", Kind=" ++ Kind g.

(** The attributes that are asked for a verb on a kind. *)
Definition review_attributes (verb : string) (g : GroupVersionKind) : ResourceAttributes :=
  mkResourceAttributes verb (Group g) (Version g) (strings_ToLower (pluralize_Plural (Kind g))).

(** The reviews of one loop, in order. *)
Fixpoint review_loop (review : ResourceAttributes → ST S (result error bool))
    (refusal : string → error) (gvk : GroupVersionKind) (verbs : list string) : ST W (option error) :=
  match verbs with
  | [] => return! None
  | verb :: verbs' =>
      let! allowed := on_env (review (review_attributes verb gvk)) in
      match allowed with
      | Err e => return! Some (WrapIf e "failed to create self subject access review")
      | Ok false => return! Some (refusal verb)
      | Ok true => review_loop review refusal gvk verbs'
      end
  end.

Definition read_verbs : list string := ["get"; "list"; "watch"].
Definition write_verbs : list string := ["create"; "patch"; "update"; "delete"].

Definition writePreCheck : ST W (option error) :=
  let! r := get_rec in
  let! err := on_env local_NewClient in
  match err with
  | Some e => return! Some (WrapIf e "error creating local client")
  | None =>
      review_loop local_Review
        (λ verb, errorString ("do not have local access to " ++ verb ++ " gvk: " ++ GVK_String (sr_gvk r)))
        (localGVK r) write_verbs
  end.

Definition PreCheck : ST W (option error) :=
  let! r := get_rec in
  let! err := review_loop remote_Review
    (λ verb, errorString ("do not have access to " ++ verb ++ " gvk: " ++ GVK_String (sr_gvk r)))
    (sr_gvk r) read_verbs in
  match err with
  | Some e => return! Some e
  | None => writePreCheck
  end.

(** ** Ownership *)

Definition owner_of (o : Object) : string := map_get (obj_annotations o) OwnershipAnnotation.
Definition sync_disabled (o : Object) : bool :=
  match obj_annotations o !! SyncDisabledAnnotation with Some _ => true | None => false end.

Definition isOwnedByAnotherAliveCluster (r : syncReconciler) (m : M) (ownerClusterID : string) : bool :=
  bool_decide (ownerClusterID ≠ "") && alive_by_id m ownerClusterID
  && bool_decide (ownerClusterID ≠ sr_clusterID r).

Definition isOwnedByUs (r : syncReconciler) (o : Object) : bool :=
  bool_decide (owner_of o = localClusterID r).

Definition getObjectDesiredState (r : syncReconciler) (m : M) : DesiredState := {|
  BeforeUpdate := ServiceIPModifier;
  ShouldCreate desired :=
    if sync_disabled desired then false
    else if bool_decide (owner_of desired ≠ "") && bool_decide (localClusterID r = owner_of desired) then false
    else if isOwnedByAnotherAliveCluster r m (owner_of desired) then false
    else true;
  ShouldUpdate current desired :=
    if sync_disabled current then false
    else if bool_decide (owner_of current = "") then false
    else if isOwnedByAnotherAliveCluster r m (owner_of current) then false
    else true |}.

(** ** The copy of an object *)

(** [m[k] = v] unless the key has a value. *)
Definition set_if_empty (k v : string) (m : gmap string string) : gmap string string :=
  if bool_decide (map_get m k = "") then <[k := v]> m else m.

Definition apply_mutations (mm : MetaMutations) (m : gmap string string) : gmap string string :=
  range_delete (Remove mm) (range_insert (map_to_list (Add mm)) m).

(** The metadata that is reset, with new annotations and labels. *)
Definition copy_meta (anns lbls : gmap string string) (m : ObjectMeta) : ObjectMeta :=
  mkObjectMeta (om_Name m) (om_Namespace m) "" "" 0 "" None (om_DeletionTimestamp m) lbls anns [] [] [].

(** The part of [mutateObject] before the overrides. *)
Definition mutate_meta (r : syncReconciler) (obj : Object) (matchedRules : list SyncRule) : Object :=
  let objAnnotations := apply_mutations (MatchedRules_GetMutationAnnotations matchedRules) (obj_annotations obj) in
  let objLabels := apply_mutations (MatchedRules_GetMutationLabels matchedRules) (obj_labels obj) in
  let objAnnotations := set_if_empty OwnershipAnnotation (sr_clusterID r) objAnnotations in
  let objLabels := set_if_empty OwnershipAnnotation (sr_clusterID r) objLabels in
  let '(mutated, gvk) := MatchedRules_GetMutatedGVK matchedRules (obj_gvk obj) in
  let '(objAnnotations, obj) :=
    if mutated
    then (<[OriginalGVKAnnotation := GVKToString (obj_gvk obj)]> objAnnotations, set_gvk gvk obj)
    else (objAnnotations, obj) in
  let objAnnotations := range_delete dropped_annotations objAnnotations in
  set_meta (copy_meta objAnnotations objLabels (obj_meta obj)) obj.

(** The overrides. *)
Definition apply_overrides (r : syncReconciler) (current obj : Object) (patches : list OverlayPatch)
    : ST W (result error Object) :=
  let! clusters := on_env GetClusters in
  match clusters with
  | Err e => return! Err (WrapIf e "could not get clusters")
  | Ok clusters =>
      match clusters !! localClusterID r with
      | None => return! Err (WithDetails (errorString "could not find local cluster by id") [("id", localClusterID r)])
      | Some localCluster =>
          let syncedClusterID := default (sr_clusterID r) (obj_annotations current !! OwnershipAnnotation) in
          match clusters !! syncedClusterID with
          | None => return! Err (WithDetails (errorString "could not find synced cluster by id") [("id", localClusterID r)])
          | Some syncedCluster =>
              match K8SResourceOverlayPatchExecuteTemplates patches
                      (mkTemplateData obj syncedCluster localCluster) with
              | Err e => return! Err (WrapIf e "could not execute templates on patches")
              | Ok patches =>
                  match PatchYAMLModifier (obj_gvk obj) patches with
                  | Err e => return! Err (WrapIf e "could not get patch func for object")
                  | Ok patchFunc =>
                      match patchFunc obj with
                      | Err e => return! Err (WrapIf e "could not patch object")
                      | Ok obj => return! Ok obj
                      end
                  end
              end
          end
      end
  end.

(** The labels that lead back to the original, and the flags of the reconciler. *)
Definition note_original_name (current obj : Object) : ST W Object :=
  if bool_decide (om_Name (obj_meta current) ≠ om_Name (obj_meta obj)) then
    let obj := SetLabels (<[originalNameLabel := om_Name (obj_meta current)]> (obj_labels obj)) obj in
    let! _ := modify_rec (λ r, set_mutated true (resourceNamespaceMutated r) r) in
    return! obj
  else return! obj.

Definition note_original_namespace (current obj : Object) : ST W Object :=
  if bool_decide (om_Namespace (obj_meta current) ≠ om_Namespace (obj_meta obj)) then
    let obj := SetLabels (<[originalNamespaceLabel := om_Namespace (obj_meta current)]> (obj_labels obj)) obj in
    let! _ := modify_rec (λ r, set_mutated (resourceNameMutated r) true r) in
    return! obj
  else return! obj.

Definition mutateObject (current : Object) (matchedRules : list SyncRule) : ST W (result error Object) :=
  let! r := get_rec in
  let obj := mutate_meta r current matchedRules in
  let patches := MatchedRules_GetMutationOverrides matchedRules in
  let! res := if nonempty patches then apply_overrides r current obj patches else return! Ok obj in
  match res with
  | Err e => return! Err e
  | Ok obj =>
      let! obj := note_original_name current obj in
      let! obj := note_original_namespace current obj in
      return! Ok obj
  end.

(** ** Deletion *)

(** The original name and namespace of a copy, from its labels. *)
Definition original_key (obj : Object) : NamespacedName :=
  mkNamespacedName (default (om_Name (obj_meta obj)) (obj_labels obj !! originalNameLabel))
    (default (om_Namespace (obj_meta obj)) (obj_labels obj !! originalNamespaceLabel)).

Definition getObjectByOriginalNamespaceAndName (obj : Object) (gvk : GroupVersionKind)
    : ST W (result error (option Object)) :=
  let! r := get_rec in
  let key := original_key obj in
  let! items := on_env (local_List gvk (nn_Namespace key)
    {[ originalNameLabel := nn_Name key; OwnershipAnnotation := sr_clusterID r ]}) in
  match items with
  | Err e => return! Err e
  | Ok [] => return! Ok None
  | Ok [o] => return! Ok (Some (with_type None o))
  | Ok (_ :: _ :: _) => return! Err (errorString "multiple renamed objects were found")
  end.

(** The local object a deletion is about, if there is one. *)
Definition find_copy (obj : Object) : ST W (result error (option Object)) :=
  let! r := get_rec in
  let current := if bool_decide (sr_gvk r ≠ localGVK r) then set_gvk (localGVK r) obj else obj in
  if resourceNamespaceMutated r || resourceNameMutated r then
    getObjectByOriginalNamespaceAndName obj (obj_gvk current)
  else
    let! res := on_env (local_Get (GVKForObject current) (obj_key obj)) in
    match res with
    | Ok o => return! Ok (Some (with_type (obj_type current) o))
    | Err e => if IsNotFound e then return! Ok None else return! Err e
    end.

Definition deleteResource (obj : Object) : ST W (option error) :=
  let! r := get_rec in
  let! found := find_copy obj in
  match found with
  | Err e => return! Some e
  | Ok None => return! None
  | Ok (Some current) =>
      let ownerClusterID := owner_of current in
      if bool_decide (ownerClusterID = "") then return! None else
      let! m := get_manager in
      if isOwnedByAnotherAliveCluster r m ownerClusterID then return! None else
      let! err := on_env (local_Delete (GVKForObject current) (obj_key current)) in
      match err with
      | Some e => if IsNotFound e then return! None else return! Some e
      | None => return! None
      end
  end.

(** ** Reconciliation *)

(** [initObjectFromGVK]: an object of the Go type the scheme knows for the kind,
    whose type meta is empty, or an unstructured object. *)
Definition initObjectFromGVK (gvk : GroupVersionKind) (key : NamespacedName) : Object :=
  let meta := named_meta (nn_Name key) (nn_Namespace key) in
  if scheme_knows gvk then mkObject (Some gvk) GVK_zero meta JNull JNull
  else mkObject None gvk meta JNull JNull.

Definition thirty_seconds : Z := time_Second * 30.

(** The check for the target namespace: [Some] is an early return. *)
Definition namespace_gate (req : Request) (obj : Object) : ST W (option (Result * option error)) :=
  if bool_decide (om_Namespace (obj_meta obj) ≠ "") then
    let! err := on_env (local_GetNamespace (om_Namespace (obj_meta obj))) in
    match err with
    | None => return! None
    | Some e =>
        if IsNotFound e then
          let! _ := on_env (RecordEvent (mkEvent EventTypeWarning "ObjectNotReconciledMissingNamespace"
            ("could not reconcile (resource: " ++ NamespacedName_String req ++ ", localResource: "
             ++ NamespacedName_String (obj_key obj) ++ "): namespace does not exists locally"))) in
          return! Some (mkResult false thirty_seconds, None)
        else return! Some (Result_zero, Some e)
    end
  else return! None.

(** The rate limiter: [Some] is an early return. *)
Definition rate_gate (req : Request) : ST W (option (Result * option error)) :=
  let! r := get_rec in
  if sr_rateLimited r then
    let! limited := on_env (RateLimit (NamespacedName_String req)) in
    match limited with
    | Err e => return! Some (Result_zero, Some (WrapIf e "could not rate limit"))
    | Ok true =>
        let! _ := on_env (RecordEvent (mkEvent EventTypeWarning "ObjectReconcileRateLimited"
          ("ratelimited, too frequent reconciles were happening for this object (resource: "
           ++ NamespacedName_String req ++ ")"))) in
        return! Some (mkResult false thirty_seconds, None)
    | Ok false => return! None
    end
  else return! None.

(** The object is written: the copy itself, then its status. *)
Definition write_copy (req : Request) (obj : Object) (matchedRules : list SyncRule) : ST W (Result * option error) :=
  let! r := get_rec in
  let! m := get_manager in
  let desiredObject := obj in
  let! err := on_env (ReconcileResource obj (getObjectDesiredState r m)) in
  match err with
  | Some e =>
      if IsAlreadyExists (Cause e) then return! (mkResult true 0, None)
      else return! (Result_zero, Some (WrapIf e "could not reconcile object"))
  | None =>
      let! res := on_env (local_Get (GVKForObject obj) (obj_key obj)) in
      match res with
      | Err e => if IsNotFound e then return! (Result_zero, None)
                 else return! (Result_zero, Some (WrapIf e "could not get object"))
      | Ok obj =>
          let! err :=
            if MatchedRules_GetMutationSyncStatus matchedRules
            then on_env (local_StatusUpdate
                   (SetResourceVersion (om_ResourceVersion (obj_meta obj)) desiredObject))
            else return! None in
          match err with
          | Some e => return! (Result_zero, Some (WrapIf e "could not update object status"))
          | None =>
              let! _ := if bool_decide (om_UID (rsr_meta (sr_rule r)) ≠ "")
                        then on_env (RecordEvent (mkEvent EventTypeNormal "ObjectReconciled"
                               ("object reconciled (resource: " ++ NamespacedName_String req ++ ")")))
                        else return! tt in
              return! (Result_zero, None)
          end
      end
  end.

(** The part of [reconcile] for an object that the peer has. *)
Definition reconcile_found (r : syncReconciler) (req : Request) (obj : Object) : ST W (Result * option error) :=
  match om_DeletionTimestamp (obj_meta obj) with
  | Some _ => let! err := deleteResource obj in return! (Result_zero, err)
  | None =>
      let outcome := ResourceSyncRule_Match (sr_rule r) obj in
      if negb (mo_ok outcome) then return! (Result_zero, None) else
      match mo_err outcome with
      | Some e => return! (Result_zero, Some (WrapIf e "could not match object"))
      | None =>
          let! mutated := mutateObject obj (mo_rules outcome) in
          match mutated with
          | Err e => return! (Result_zero, Some (WrapIf e "could not mutate object"))
          | Ok obj =>
              let! gate := namespace_gate req obj in
              match gate with
              | Some out => return! out
              | None =>
                  let! gate := rate_gate req in
                  match gate with
                  | Some out => return! out
                  | None => write_copy req obj (mo_rules outcome)
                  end
              end
          end
      end
  end.

Definition reconcile (req : Request) : ST W (Result * option error) :=
  let! r := get_rec in
  let obj := initObjectFromGVK (sr_gvk r) req in
  let! res := on_env (remote_Get (GVKForObject obj) req) in
  match res with
  | Err e =>
      if IsNotFound e then let! err := deleteResource obj in return! (Result_zero, err)
      else return! (Result_zero, Some (WrapIf e "could not get object"))
  | Ok o => reconcile_found r req (with_type (obj_type obj) o)
  end.

Definition Reconcile (req : Request) : ST W (Result * option error) :=
  let! out := reconcile req in
  match out.2 with
  | Some e =>
      let! _ := on_env (RecordEvent (mkEvent EventTypeWarning "ObjectNotReconciled"
        ("could not reconcile (resource: " ++ NamespacedName_String req ++ "): " ++ error_Error e))) in
      return! out
  | None => return! out
  end.

(** ** Start and watches *)

Definition initLocalInformer (obj : Object) : ST W (option error) :=
  let! r := get_rec in
  let key := GVK_String (obj_gvk obj) in
  if decide (key ∈ localInformers r) then return! None else
  let! err := on_env (local_GetInformer (GVKForObject obj)) in
  match err with
  | Some e => return! Some (WrapIf e "could not create local informer for clusters")
  | None =>
      let! err := on_env (ctrl_Watch (WatchInformer (GVKForObject obj))) in
      match err with
      | Some e => return! Some (WrapIf e "could not create watch for local informer")
      | None => let! _ := modify_rec (λ r, set_informers ({[key]} ∪ localInformers r) r) in return! None
      end
  end.

Definition Start_sync : ST W (option error) :=
  let! r := get_rec in
  let! err :=
    if bool_decide (localClusterID r = "") then
      let! id := on_env GetClusterID in
      match id with
      | Err e => return! Some (WrapIf e "could not get local cluster id")
      | Ok id => let! _ := modify_rec (set_localClusterID id) in return! None
      end
    else return! None in
  match err with
  | Some e => return! Some e
  | None =>
      let gvk := (MatchedRules_GetMutatedGVK (Rules (rsr_Spec (sr_rule r))) (rss_GVK (rsr_Spec (sr_rule r)))).2 in
      let! err := initLocalInformer (initObjectFromGVK gvk (mkNamespacedName "" "")) in
      return! (WithStackIf <$> err)
  end.

(** The predicates of the watch on the peer. *)
Definition isObjectMatch (r : syncReconciler) (obj : Object) (gvk : GroupVersionKind) : bool :=
  let outcome := ResourceSyncRule_Match (sr_rule r) (set_gvk gvk obj) in
  match mo_err outcome with Some _ => false | None => mo_ok outcome end.

(** Create, delete and generic events. *)
Definition watch_event (r : syncReconciler) (obj : Object) : bool :=
  if isOwnedByUs r obj then false else isObjectMatch r obj (rss_GVK (rsr_Spec (sr_rule r))).

(** Update events; [patch_empty] is what the patch maker says of the old object, with
    the resource version of the new one, and the new one: [None] is an error. *)
Definition watch_update (patch_empty : Object → Object → option bool) (r : syncReconciler)
    (old new : Object) : bool :=
  match patch_empty (SetResourceVersion (om_ResourceVersion (obj_meta new)) old) new with
  | None => true
  | Some true => false
  | Some false => if isOwnedByUs r new then false else isObjectMatch r new (rss_GVK (rsr_Spec (sr_rule r)))
  end.

(** The events of a watch. *)
Inductive WatchEvent :=
| CreateEvent (o : Object)
| UpdateEvent (old new : Object)
| DeleteEvent (o : Object)
| GenericEvent (o : Object).

(** The predicate of the watch on the peer. *)
Definition watch_predicate (patch_empty : Object → Object → option bool) (r : syncReconciler) (e : WatchEvent) : bool :=
  match e with
  | CreateEvent o | DeleteEvent o | GenericEvent o => watch_event r o
  | UpdateEvent old new => watch_update patch_empty r old new
  end.

(** The watch on the local informer: the request, and the predicate. *)
Definition local_request (obj : Object) : Request := original_key obj.

Definition has_owner_annotation (obj : Object) : bool :=
  match obj_annotations obj !! OwnershipAnnotation with Some _ => true | None => false end.

Definition localPredicate (patch_empty : Object → Object → option bool) (e : WatchEvent) : bool :=
  match e with
  | CreateEvent o | DeleteEvent o => has_owner_annotation o
  | UpdateEvent old new =>
      if negb (has_owner_annotation old) then false
      else match patch_empty (SetResourceVersion (om_ResourceVersion (obj_meta new)) old) new with
           | None => true
           | Some true => false
           | Some false => true
           end
  | GenericEvent _ => false
  end.

(** ** Set-up *)

(** The cache runs in a goroutine under the context of the base. *)
Definition createAndStartCache : ST W (option error) :=
  let! err := on_env local_NewCache in
  match err with
  | Some e => return! Some e
  | None =>
      let! r := get_rec in
      let! synced := on_env (local_WaitForCacheSync (mrb_ctx (sr_base r))) in
      if (synced : bool) then return! None else return! Some (errorString "could not sync cache")
  end.

Definition createClient : ST W (option error) :=
  let! err := on_env local_NewClient in
  match err with
  | Some e => return! Some e
  | None => on_env local_NewDelegatingClient
  end.

Definition SetupWithController_sync (x : ctx) : ST W (option error) :=
  let! r := get_rec in
  let '(err, base) := Base_SetupWithController x (sr_base r) in
  let! _ := modify_rec (set_base base) in
  match err with
  | Some e => return! Some e
  | None =>
  let! err := createAndStartCache in
  match err with
  | Some e => return! Some e
  | None =>
  let! _ := modify_rec (λ r, set_handles true (localClient r) (sr_ctrl r) r) in
  let! err := createClient in
  match err with
  | Some e => return! Some e
  | None =>
  let! _ := modify_rec (λ r, set_handles (localCache r) true (sr_ctrl r) r) in
  let! err := on_env (ctrl_Watch (WatchKind (rss_GVK (rsr_Spec (sr_rule r))))) in
  match err with
  | Some e => return! Some e
  | None =>
  let! err := on_env (ctrl_Watch WatchMemory) in
  match err with
  | Some e => return! Some e
  | None =>
  let! _ := modify_rec (λ r, set_handles (localCache r) (localClient r) true r) in
  return! None
  end end end end end.
End sync.
