(* ===== verification/SyncOwner.v ===== *)
(** * The ownership protocol of the sync reconcilers

    What the copies of [Sync.mutateObject] carry, who may create and update them,
    and why copies do not travel back. *)

From stdpp Require Import gmap strings list.
From S2P Require Import Prelude Errors Types Match Util Conditions Manager Sync.
Open Scope string_scope.

(** ** The copy *)

Section copy.
Context `{PL : PatchLib}.

Lemma apply_mutations_lookup mm m k :
  apply_mutations mm m !! k =
    if decide (k ∈ Remove mm) then None
    else match Add mm !! k with Some v => Some v | None => m !! k end.
Proof.
  unfold apply_mutations. rewrite range_delete_lookup. case_decide; [done|].
  rewrite (range_insert_order _ (Add mm)) by done. rewrite lookup_union.
  by destruct (Add mm !! k), (m !! k).
Qed.

Lemma set_if_empty_lookup k v m k' :
  set_if_empty k v m !! k' =
    if decide (k' = k) then Some (if bool_decide (map_get m k = "") then v else map_get m k) else m !! k'.
Proof.
  unfold set_if_empty. case_bool_decide as Hm.
  - case_decide; subst; [apply lookup_insert_eq|by apply lookup_insert_ne].
  - case_decide; subst; [|done]. unfold map_get in *. by destruct (m !! k).
Qed.

(** The owner a copy gets: the one a mutation or the object itself names, or the
    peer it comes from. *)
Definition copy_owner (r : syncReconciler) (rules : list SyncRule) (o : Object) : string :=
  let v := map_get (apply_mutations (MatchedRules_GetMutationAnnotations rules) (obj_annotations o))
             OwnershipAnnotation in
  if bool_decide (v = "") then sr_clusterID r else v.

Lemma mutate_meta_annotations r o rules k :
  obj_annotations (mutate_meta r o rules) !! k =
    if decide (k ∈ dropped_annotations) then None
    else if decide (k = OriginalGVKAnnotation ∧ (MatchedRules_GetMutatedGVK rules (obj_gvk o)).1 = true)
    then Some (GVKToString (obj_gvk o))
    else if decide (k = OwnershipAnnotation) then Some (copy_owner r rules o)
    else apply_mutations (MatchedRules_GetMutationAnnotations rules) (obj_annotations o) !! k.
Proof.
  unfold mutate_meta. destruct (MatchedRules_GetMutatedGVK rules (obj_gvk o)) as [[] g]; simpl;
    unfold obj_annotations; simpl; rewrite range_delete_lookup; (case_decide; [done|]).
  - destruct (decide (k = OriginalGVKAnnotation)) as [->|Hne].
    + by rewrite lookup_insert_eq, decide_True.
    + rewrite lookup_insert_ne, decide_False by naive_solver. by rewrite set_if_empty_lookup.
  - rewrite decide_False by naive_solver. by rewrite set_if_empty_lookup.
Qed.

Lemma mutate_meta_owner r o rules :
  (OwnershipAnnotation ∉ dropped_annotations) → owner_of (mutate_meta r o rules) = copy_owner r rules o.
Proof.
  intros Hd. unfold owner_of, map_get. rewrite mutate_meta_annotations, decide_False by done.
  rewrite decide_False by (intros [? _]; done). by rewrite decide_True.
Qed.

Lemma mutate_meta_key r o rules : obj_key (mutate_meta r o rules) = obj_key o.
Proof. unfold mutate_meta. by destruct (MatchedRules_GetMutatedGVK rules (obj_gvk o)) as [[] g]. Qed.

Lemma mutate_meta_body r o rules : obj_body (mutate_meta r o rules) = obj_body o.
Proof. unfold mutate_meta. by destruct (MatchedRules_GetMutatedGVK rules (obj_gvk o)) as [[] g]. Qed.

(** *** The mutations of a list of rules, declaratively *)

(** The value that the rules add for a key: the last one wins. *)
Definition added (get : Mutations → option MetaMutations) (rules : list SyncRule) (k : string) : option string :=
  last (omap (λ rule, get (sr_Mutations rule) ≫= λ mm, Add mm !! k) rules).

(** Some rule removes the key. *)
Definition removed (get : Mutations → option MetaMutations) (rules : list SyncRule) (k : string) : Prop :=
  ∃ rule mm, rule ∈ rules ∧ get (sr_Mutations rule) = Some mm ∧ k ∈ Remove mm.

(** [v] is the value of a key after the mutations: a removal by any rule beats every
    addition, the last addition beats the others, and untouched keys keep their value. *)
Definition after_mutations (get : Mutations → option MetaMutations) (rules : list SyncRule)
    (m : gmap string string) (k : string) (v : option string) : Prop :=
  (removed get rules k → v = None)
  ∧ (¬ removed get rules k → v = match added get rules k with Some x => Some x | None => m !! k end).

(** The last non-empty value that the rules set for a field of the kind. *)
Definition last_field (f : GroupVersionKind → string) (rules : list SyncRule) : option string :=
  last (filter (.≠ "") (omap (λ rule, f <$> mut_GVK (sr_Mutations rule)) rules)).

(** Some rule changes the kind. *)
Definition kind_changed (rules : list SyncRule) : Prop :=
  ∃ rule g, rule ∈ rules ∧ mut_GVK (sr_Mutations rule) = Some g ∧ g ≠ GVK_zero.

Lemma foldl_last {A} (f : SyncRule → option A) rules d :
  foldl (λ acc rule, match f rule with Some v => Some v | None => acc end) d rules
  = match last (omap f rules) with Some v => Some v | None => d end.
Proof.
  induction rules as [|rule rules IH] using rev_ind; [done|].
  rewrite foldl_app, omap_app. simpl. destruct (f rule) as [v|]; simpl; [by rewrite last_snoc|by rewrite app_nil_r].
Qed.

Lemma merged_removed get' get rules k :
  (∀ mu, get' mu = default MetaMutations_zero (get mu)) →
  k ∈ Remove (merge_mutations get' rules) ↔ removed get rules k.
Proof.
  intros Hget. rewrite merge_mutations_Remove. split.
  - intros (rule & Hin & Hk). rewrite Hget in Hk. destruct (get (sr_Mutations rule)) as [mm|] eqn:E; simpl in Hk;
      [by exists rule, mm|by apply elem_of_nil in Hk].
  - intros (rule & mm & Hin & E & Hk). exists rule. by rewrite Hget, E.
Qed.

Lemma merged_after get' get rules m k :
  (∀ mu, get' mu = default MetaMutations_zero (get mu)) →
  after_mutations get rules m k (apply_mutations (merge_mutations get' rules) m !! k).
Proof.
  intros Hget. rewrite apply_mutations_lookup, merge_mutations_Add.
  pose proof (merged_removed get' get rules k Hget) as Hr.
  rewrite (foldl_last (λ rule, Add (get' (sr_Mutations rule)) !! k)).
  assert (omap (λ rule, Add (get' (sr_Mutations rule)) !! k) rules
    = omap (λ rule, get (sr_Mutations rule) ≫= λ mm, Add mm !! k) rules) as ->.
  { clear Hr. induction rules as [|rule rules IH]; [done|]. cbn. rewrite Hget, IH.
    by destruct (get (sr_Mutations rule)); simpl; rewrite ?lookup_empty. }
  split; intros Hk; [by rewrite decide_True by by apply Hr|].
  rewrite decide_False by (by rewrite Hr). unfold added. by destruct (last _).
Qed.

(** The mutations determine the value. *)
Lemma merged_value get' get rules m k v :
  (∀ mu, get' mu = default MetaMutations_zero (get mu)) →
  after_mutations get rules m k v → apply_mutations (merge_mutations get' rules) m !! k = v.
Proof.
  intros Hget [Hr Hn]. destruct (merged_after get' get rules m k Hget) as [Hr' Hn'].
  pose proof (merged_removed get' get rules k Hget) as Hdec.
  destruct (decide (k ∈ Remove (merge_mutations get' rules))) as [Hk|Hk]; rewrite Hdec in Hk.
  - by rewrite Hr, Hr'.
  - by rewrite Hn, Hn'.
Qed.

Lemma last_set_last f rules d : f GVK_zero = "" → last_set f rules d = default d (last_field f rules).
Proof.
  intros Hz. unfold last_set, last_field. induction rules as [|rule rules IH] using rev_ind; [done|].
  rewrite foldl_app, omap_app, filter_app. simpl. unfold rule_gvk, Mutations_GetGVK.
  destruct (mut_GVK (sr_Mutations rule)) as [g|]; cbn -[filter].
  - rewrite filter_cons. case_bool_decide as Hg.
    + rewrite decide_True by done. by rewrite filter_nil, last_snoc.
    + rewrite decide_False by (by intros ?). by rewrite filter_nil, app_nil_r.
  - rewrite Hz, bool_decide_false by naive_solver. by rewrite filter_nil, app_nil_r.
Qed.

Lemma kind_changed_spec rules g : (MatchedRules_GetMutatedGVK rules g).1 = true ↔ kind_changed rules.
Proof.
  rewrite GetMutatedGVK_flag, existsb_exists. unfold kind_changed, rule_gvk, Mutations_GetGVK, GVK_Empty. split.
  - intros (rule & Hin%list_elem_of_In & Hb). apply negb_true_iff, bool_decide_eq_false in Hb.
    destruct (mut_GVK (sr_Mutations rule)) as [m|] eqn:E; [|done]. by exists rule, m.
  - intros (rule & m & Hin%list_elem_of_In & E & Hm). exists rule. split; [done|]. rewrite E.
    apply negb_true_iff. by apply bool_decide_eq_false.
Qed.

Lemma no_overrides rules :
  Forall (λ rule, Overrides (sr_Mutations rule) = []) rules → MatchedRules_GetMutationOverrides rules = [].
Proof.
  intros H. unfold MatchedRules_GetMutationOverrides.
  induction H as [|rule rules Ho _ IH]; simpl; [done|]. by rewrite Ho.
Qed.
(** A value that is missing or empty is replaced by the peer. *)
Definition owner_value (r : syncReconciler) (v : option string) : string :=
  if bool_decide (default "" v = "") then sr_clusterID r else default "" v.

(** The labels and annotations of a copy, from those of the original. *)
Definition copied_value (r : syncReconciler) (k : string) (v : option string) : option string :=
  if decide (k = OwnershipAnnotation) then Some (owner_value r v) else v.

Lemma mutate_meta_label_value r o rules k v :
  after_mutations mut_Labels rules (obj_labels o) k v →
  obj_labels (mutate_meta r o rules) !! k = copied_value r k v.
Proof.
  intros Hv. apply (merged_value Mutations_GetLabels) in Hv; [|by intros []]. unfold copied_value.
  unfold mutate_meta. destruct (MatchedRules_GetMutatedGVK rules (obj_gvk o)) as [[] g]; simpl;
    unfold obj_labels; simpl; rewrite set_if_empty_lookup; case_decide; by subst.
Qed.

Lemma mutate_meta_annotation_value r o rules k v :
  k ∉ dropped_annotations → (k = OriginalGVKAnnotation → ¬ kind_changed rules) →
  after_mutations mut_Annotations rules (obj_annotations o) k v →
  obj_annotations (mutate_meta r o rules) !! k = copied_value r k v.
Proof.
  intros Hk Hc Hv. apply (merged_value Mutations_GetAnnotations) in Hv; [|by intros []]. unfold copied_value.
  rewrite mutate_meta_annotations, decide_False by done.
  rewrite decide_False by (intros [? ?%kind_changed_spec]; by apply Hc).
  case_decide; [|done]. by subst.
Qed.
End copy.

Section mutate.
Context {M S : Type} `{AC : AliveClusters M} `{SE : !SyncEnv M S} `{CC : !ClusterClient S}.
Context `{EL : ErrorLib} `{TL : !TemplateLib TemplateData} `{PL : PatchLib}.

Lemma mutateObject_plain obj rules r (s : S) :
  MatchedRules_GetMutationOverrides rules = [] →
  mutateObject (S:=S) obj rules (r, s) = (Ok (mutate_meta r obj rules), (r, s)).
Proof.
  intros Hov. unfold mutateObject, st_bind, get_rec. simpl. rewrite Hov. simpl.
  pose proof (mutate_meta_key r obj rules) as Hk.
  injection Hk as Hn Hns. unfold note_original_name, note_original_namespace.
  rewrite Hn, bool_decide_false by naive_solver. simpl.
  by rewrite Hns, bool_decide_false by naive_solver.
Qed.

(** C26: for rules without overrides the copy of an object keeps its name, namespace,
    body and status; what the API server of the peer put into its metadata is cleared;
    each field of its kind is the last non-empty one that a rule sets, or the original
    one. Each label has the value the rules leave it: none when some rule removes it,
    the value of the last rule that adds it, or the original one; the ownership label
    is the peer when it would be missing or empty. The same holds of the annotations,
    of which those of other tools are dropped, and the original kind is recorded when a
    rule changes it. *)
Theorem mutateObject_correct r (s : S) o rules :
  Forall (λ rule, Overrides (sr_Mutations rule) = []) rules →
  ∃ o', mutateObject o rules (r, s) = (Ok o', (r, s))
  ∧ obj_key o' = obj_key o ∧ obj_body o' = obj_body o ∧ obj_status o' = obj_status o
  ∧ obj_gvk o' = mkGVK (default (Group (obj_gvk o)) (last_field Group rules))
      (default (Version (obj_gvk o)) (last_field Version rules)) (default (Kind (obj_gvk o)) (last_field Kind rules))
  ∧ (om_UID (obj_meta o') = "" ∧ om_ResourceVersion (obj_meta o') = "" ∧ om_Generation (obj_meta o') = 0%Z
     ∧ om_CreationTimestamp (obj_meta o') = None ∧ om_Finalizers (obj_meta o') = []
     ∧ om_OwnerReferences (obj_meta o') = [] ∧ om_ManagedFields (obj_meta o') = [])
  ∧ (∀ k v, after_mutations mut_Labels rules (obj_labels o) k v → obj_labels o' !! k = copied_value r k v)
  ∧ (∀ k, k ∈ dropped_annotations → obj_annotations o' !! k = None)
  ∧ (OriginalGVKAnnotation ∉ dropped_annotations → kind_changed rules →
       obj_annotations o' !! OriginalGVKAnnotation = Some (GVKToString (obj_gvk o)))
  ∧ (∀ k v, k ∉ dropped_annotations → (k = OriginalGVKAnnotation → ¬ kind_changed rules) →
       after_mutations mut_Annotations rules (obj_annotations o) k v → obj_annotations o' !! k = copied_value r k v).
Proof.
  intros Hov. exists (mutate_meta r o rules). split; [by apply mutateObject_plain, no_overrides|].
  pose proof (GetMutatedGVK_fields rules (obj_gvk o)) as Hg.
  rewrite !last_set_last in Hg by done.
  pose proof (kind_changed_spec rules (obj_gvk o)) as Hkc.
  split; [apply mutate_meta_key|]. split; [|split; [|split; [|split; [|split; [|split; [|split]]]]]].
  1,2,4: unfold mutate_meta; by destruct (MatchedRules_GetMutatedGVK rules (obj_gvk o)) as [[] g].
  - rewrite <-Hg. unfold mutate_meta. destruct (MatchedRules_GetMutatedGVK rules (obj_gvk o)) as [[] g] eqn:E; [done|].
    simpl. pose proof (GetMutatedGVK_unchanged rules (obj_gvk o)) as Hu. rewrite E in Hu. simpl in *. symmetry. by apply Hu.
  - apply mutate_meta_label_value.
  - intros k Hk. by rewrite mutate_meta_annotations, decide_True.
  - intros Hk Hc. rewrite mutate_meta_annotations, decide_False by done. rewrite decide_True; [done|]. split; [done|by apply Hkc].
  - apply mutate_meta_annotation_value.
Qed.
End mutate.

(** ** Who may write *)

Section rights.
Context {M : Type} `{AC : AliveClusters M} `{PL : PatchLib}.

(** Another peer than that of [r] owns the object and is alive. *)
Definition foreign_owner (r : syncReconciler) (m : M) (o : Object) : Prop :=
  owner_of o ≠ "" ∧ owner_of o ≠ sr_clusterID r ∧ (true, owner_of o) ∈ cluster_states m.

Lemma foreign_owner_spec r m o :
  isOwnedByAnotherAliveCluster r m (owner_of o) = true ↔ foreign_owner r m o.
Proof.
  unfold isOwnedByAnotherAliveCluster, foreign_owner.
  rewrite !andb_true_iff, !bool_decide_eq_true, alive_by_id_spec. naive_solver.
Qed.

Lemma sync_disabled_spec o : sync_disabled o = true ↔ is_Some (obj_annotations o !! SyncDisabledAnnotation).
Proof. apply present_is_Some. Qed.

Lemma sync_enabled_spec o : sync_disabled o = false ↔ obj_annotations o !! SyncDisabledAnnotation = None.
Proof. by rewrite <-not_true_iff_false, sync_disabled_spec, <-eq_None_not_Some. Qed.

Lemma ShouldUpdate_spec r m cur o :
  ShouldUpdate (getObjectDesiredState r m) cur o = true ↔
  obj_annotations cur !! SyncDisabledAnnotation = None ∧ owner_of cur ≠ "" ∧ ¬ foreign_owner r m cur.
Proof.
  rewrite <-sync_enabled_spec, <-foreign_owner_spec. simpl.
  destruct (sync_disabled cur), (isOwnedByAnotherAliveCluster r m (owner_of cur));
    repeat case_bool_decide; naive_solver.
Qed.

Lemma ShouldCreate_spec r m o :
  ShouldCreate (getObjectDesiredState r m) o = true ↔
  obj_annotations o !! SyncDisabledAnnotation = None
  ∧ (owner_of o = "" ∨ owner_of o ≠ localClusterID r) ∧ ¬ foreign_owner r m o.
Proof.
  rewrite <-sync_enabled_spec, <-foreign_owner_spec. simpl.
  destruct (sync_disabled o), (isOwnedByAnotherAliveCluster r m (owner_of o));
    repeat case_bool_decide; simpl; naive_solver.
Qed.

(** C5: a sync reconciler creates an object exactly when sync is not disabled for
    it, it does not belong to the local cluster, and no other live peer owns it; it
    updates an object exactly when sync is not disabled for it, it has an owner, and
    no other live peer owns it. Of the reconcilers of different peers at most one may
    update an object whose owner is alive; with a dead owner any peer may, unless sync
    is disabled for it. *)
Theorem ownership_rights r m :
  (∀ o, ShouldCreate (getObjectDesiredState r m) o = true ↔
     obj_annotations o !! SyncDisabledAnnotation = None
     ∧ (owner_of o = "" ∨ owner_of o ≠ localClusterID r) ∧ ¬ foreign_owner r m o)
  ∧ (∀ cur o, ShouldUpdate (getObjectDesiredState r m) cur o = true ↔
     obj_annotations cur !! SyncDisabledAnnotation = None ∧ owner_of cur ≠ "" ∧ ¬ foreign_owner r m cur)
  ∧ (∀ r2 cur o o2, (true, owner_of cur) ∈ cluster_states m →
     ShouldUpdate (getObjectDesiredState r m) cur o = true →
     ShouldUpdate (getObjectDesiredState r2 m) cur o2 = true → sr_clusterID r = sr_clusterID r2)
  ∧ (∀ cur o, owner_of cur ≠ "" → ¬ (true, owner_of cur) ∈ cluster_states m →
     obj_annotations cur !! SyncDisabledAnnotation = None → ShouldUpdate (getObjectDesiredState r m) cur o = true).
Proof.
  split_and!; [apply ShouldCreate_spec|apply ShouldUpdate_spec| |].
  2: { intros cur o Hne Hdead Hs. apply ShouldUpdate_spec. split_and!; [done..|]. by intros (_ & _ & ?). }
  intros r2 cur o o2 Hal (_ & Ho & H1)%ShouldUpdate_spec (_ & _ & H2)%ShouldUpdate_spec.
  unfold foreign_owner in *.
  destruct (decide (owner_of cur = sr_clusterID r)), (decide (owner_of cur = sr_clusterID r2)); naive_solver congruence.
Qed.

End rights.
