(* ===== verification/SyncSafe.v ===== *)
(** * What a reconciliation does to the local cluster

    The sync reconciler against an API server that behaves as documented, read through
    a cache: which local objects it may touch, that it makes the copies it should make
    and removes those it should remove. *)

From stdpp Require Import gmap strings list.
From S2P Require Import Prelude Errors Types Match Util Conditions Manager Sync SyncOwner.
Open Scope string_scope.
Open Scope go_scope.

(** ** The local cluster *)

Abbreviation ObjKey := (GroupVersionKind * NamespacedName)%type.

Definition target (o : Object) : ObjKey := (GVKForObject o, obj_key o).

(** Two versions of an object that differ at most in status, resource version and the
    like. *)
Definition same_spec (o o' : Object) : Prop :=
  obj_body o' = obj_body o ∧ obj_annotations o' = obj_annotations o ∧ obj_labels o' = obj_labels o
  ∧ obj_key o' = obj_key o.

#[global] Instance same_spec_preorder : PreOrder same_spec.
Proof. split; [by intros o|]. intros o1 o2 o3 (?&?&?&?) (?&?&?&?). repeat split; congruence. Qed.

(** The object is still there, and the server will remove it once its finalizers are
    done. *)
Definition being_deleted (o : Object) : Prop := om_DeletionTimestamp (obj_meta o) ≠ None.

(** Documented behaviour of the API server, of the client with its cache and of the
    object reconciler of operator-tools.
    - [objects] is the content of the local API server. The client reads through a
      cache, which may lag behind: [visible s k v] says that a read of [k] in the state
      [s] may return the version [v], or find nothing when [v] is [None]. The version
      that the server has is visible. A call that writes nothing leaves the objects
      alone, and makes no new version visible; a write can only make visible what it
      stored.
    - A deletion that succeeds removes the object, or marks it when it has finalizers.
      It has no precondition: it deletes what the server has, whatever was read.
    - A status update keeps the content of the object. For the kinds of [status_only],
      such as the custom resources, it keeps the labels and annotations too; for the
      others the server may take those that are sent.
    - The object reconciler touches only the object it is given. It changes something
      only when it has read a version that it may update, or has read nothing, may
      create the object, and the server has none. An object that it creates has the
      labels that were sent, the annotations that were sent (its own, in
      [dropped_annotations], aside), and the content that was sent, as the server
      completes it ([stored_body]). *)
Class SyncEnvLaws (M S : Type) `{SE : SyncEnv M S} `{CC : ClusterClient S} `{EL : ErrorLib} `{PL : PatchLib} : Type := {
  objects : S → gmap ObjKey Object;
  visible : S → ObjKey → option Object → Prop;
  status_only : GroupVersionKind → Prop;
  stored_body : json → json → Prop;
  visible_present s k : visible s k (objects s !! k);
  quiet {A} (c : ST S A) : Prop := ∀ s,
    objects (c s).2 = objects s ∧ manager_of (c s).2 = manager_of s
    ∧ ∀ k v, visible (c s).2 k v → visible s k v;
  writes_at (k : ObjKey) (s s' : S) : Prop :=
    manager_of s' = manager_of s
    ∧ (∀ k', k' ≠ k → objects s' !! k' = objects s !! k' ∧ ∀ v, visible s' k' v → visible s k' v)
    ∧ (∀ o, visible s' k (Some o) → visible s k (Some o) ∨ objects s' !! k = Some o);
  remote_Get_quiet g k : quiet (remote_Get g k);
  local_Get_quiet g k : quiet (local_Get g k);
  local_List_quiet g n l : quiet (local_List g n l);
  local_GetNamespace_quiet n : quiet (local_GetNamespace n);
  RateLimit_quiet k : quiet (RateLimit k);
  RecordEvent_quiet e : quiet (RecordEvent e);
  ListClusters_quiet : quiet client_ListClusters;
  local_Get_read g k s :
    match (local_Get g k s).1 with
    | Ok o => ∃ t, visible s (g, k) (Some (with_type t o)) ∧ obj_key o = k ∧ obj_gvk o = g
    | Err e => IsNotFound e = true → visible s (g, k) None
    end;
  local_List_read g n l s items :
    (local_List g n l s).1 = Ok items →
    ∀ o, o ∈ items → obj_gvk o = g ∧ l ⊆ obj_labels o
                     ∧ (n = "" ∨ om_Namespace (obj_meta o) = n)
                     ∧ ∃ t, visible s (g, obj_key o) (Some (with_type t o));
  deleted (k : ObjKey) (s s' : S) : Prop :=
    objects s' !! k = None
    ∨ ∃ cur new, objects s !! k = Some cur ∧ objects s' !! k = Some new ∧ same_spec cur new ∧ being_deleted new;
  local_Delete_effect g k s :
    writes_at (g, k) s (local_Delete g k s).2
    ∧ match (local_Delete g k s).1 with
      | None => deleted (g, k) s (local_Delete g k s).2
      | Some e => (objects (local_Delete g k s).2 !! (g, k) = objects s !! (g, k)
                   ∨ deleted (g, k) s (local_Delete g k s).2)
                  ∧ (IsNotFound e = true → objects (local_Delete g k s).2 !! (g, k) = None)
      end;
  local_StatusUpdate_effect o s :
    writes_at (target o) s (local_StatusUpdate o s).2
    ∧ match objects s !! target o with
      | None => objects (local_StatusUpdate o s).2 !! target o = None
      | Some cur => ∃ new, objects (local_StatusUpdate o s).2 !! target o = Some new
          ∧ (same_spec cur new
             ∨ ¬ status_only (GVKForObject o) ∧ obj_body new = obj_body cur ∧ obj_key new = obj_key cur
               ∧ obj_labels new = obj_labels o ∧ obj_annotations new = obj_annotations o)
      end;
  ReconcileResource_effect o ds s :
    writes_at (target o) s (ReconcileResource o ds s).2
    ∧ (objects (ReconcileResource o ds s).2 = objects s
       ∨ (∃ cur, visible s (target o) (Some cur) ∧ ShouldUpdate ds cur o = true)
       ∨ visible s (target o) None ∧ ShouldCreate ds o = true ∧ objects s !! target o = None);
  ReconcileResource_create o ds s :
    (∀ v, visible s (target o) v → v = None) → ShouldCreate ds o = true → (ReconcileResource o ds s).1 = None →
    ∃ new, objects (ReconcileResource o ds s).2 !! target o = Some new ∧ obj_key new = obj_key o
      ∧ obj_labels o ⊆ obj_labels new
      ∧ (∀ a v, a ∉ dropped_annotations → obj_annotations o !! a = Some v → obj_annotations new !! a = Some v)
      ∧ stored_body (obj_body o) (obj_body new) }.

(** No rule of the resource asks for the status to be copied. *)
Definition no_status_sync (rule : ResourceSyncRule) : Prop :=
  MatchedRules_GetMutationSyncStatus (Rules (rsr_Spec rule)) = false.

Lemma SyncStatus_spec rules :
  MatchedRules_GetMutationSyncStatus rules = false ↔ Forall (λ rule, SyncStatus (sr_Mutations rule) = false) rules.
Proof.
  induction rules as [|rule rules IH]; simpl; [by split|]. rewrite Forall_cons, <-IH.
  destruct (SyncStatus (sr_Mutations rule)); naive_solver.
Qed.

(** The rules that match are rules of the specification. *)
Lemma matched_forall `{SL : SelectorLib} `{CL : ContentLib} (P : SyncRule → Prop) s obj :
  Forall P (Rules (rsr_Spec s)) → mo_err (ResourceSyncRule_Match s obj) = None →
  Forall P (mo_rules (ResourceSyncRule_Match s obj)).
Proof.
  intros H. unfold ResourceSyncRule_Match, ResourceSyncRuleSpec_Match. case_bool_decide; [done|].
  intros Herr. destruct (match_rules_ok _ _ _ Herr) as [-> _]. simpl.
  rewrite Forall_forall in *. intros rule [Hin _]%list_elem_of_In%filter_In. by apply H, list_elem_of_In.
Qed.

(** ** Protected objects *)

Section safety.
Context {M S : Type} `{AC : AliveClusters M} `{SE : !SyncEnv M S} `{CC : !ClusterClient S}.
Context `{EL : ErrorLib} `{SL : SelectorLib} `{CL : ContentLib} `{TL : !TemplateLib TemplateData} `{PL : PatchLib}.
Context `{SEL : !SyncEnvLaws M S}.

(** The objects a reconciler must keep: those of the local cluster itself, which
    have no owner, and those of another live peer. *)
Definition protected (clusterID : string) (m : M) (o : Object) : Prop :=
  owner_of o = "" ∨ (owner_of o ≠ clusterID ∧ (true, owner_of o) ∈ cluster_states m).

Lemma protected_same_spec i m o o' : same_spec o o' → protected i m o → protected i m o'.
Proof. intros (_ & Ha & _). unfold protected, owner_of. by rewrite Ha. Qed.

Lemma protected_refuse r m o :
  protected (sr_clusterID r) m o →
  owner_of o = "" ∨ isOwnedByAnotherAliveCluster r m (owner_of o) = true.
Proof.
  intros [Hn|[Hne Hal]]; [by left|]. destruct (decide (owner_of o = "")); [by left|]. right.
  apply foreign_owner_spec. by split_and!.
Qed.

Lemma protected_not_updated r m cur o :
  protected (sr_clusterID r) m cur → ShouldUpdate (getObjectDesiredState r m) cur o = false.
Proof.
  intros [Hn|Hf]%protected_refuse; simpl; destruct (sync_disabled cur); try done.
  - by rewrite bool_decide_true.
  - case_bool_decide; [done|]. by rewrite Hf.
Qed.

(** Every version of the object that a read may return is protected. *)
Definition shielded (w : syncReconciler * S) (k : ObjKey) : Prop :=
  ∀ c, visible w.2 k (Some c) → protected (sr_clusterID w.1) (manager_of w.2) c.

(** The versions that can be read afterwards are those from before, up to their status. *)
Definition versions_from (s s' : S) (k : ObjKey) : Prop :=
  ∀ c, visible s' k (Some c) → ∃ c0, visible s k (Some c0) ∧ same_spec c0 c.

(** The two states of a block: the reconciler stays that of the same peer and rule, and
    shielded objects of [A] stay, up to their status, in all versions. *)
Definition keeps (A : ObjKey → Prop) (w w' : syncReconciler * S) : Prop :=
  sr_clusterID w'.1 = sr_clusterID w.1 ∧ sr_rule w'.1 = sr_rule w.1 ∧ manager_of w'.2 = manager_of w.2
  ∧ ∀ k o, A k → objects w.2 !! k = Some o → shielded w k →
      versions_from w.2 w'.2 k ∧ ∃ o', objects w'.2 !! k = Some o' ∧ same_spec o o'.

Context (A : ObjKey → Prop).

Lemma versions_shielded w w' k :
  sr_clusterID w'.1 = sr_clusterID w.1 → manager_of w'.2 = manager_of w.2 →
  versions_from w.2 w'.2 k → shielded w k → shielded w' k.
Proof.
  intros Hi Hm Hv Hsh c Hc. destruct (Hv c Hc) as (c0 & Hc0 & Hs). rewrite Hi, Hm.
  eapply protected_same_spec; [done|by apply Hsh].
Qed.

#[global] Instance keeps_preorder : PreOrder (keeps A).
Proof.
  split.
  - intros w. split_and!; [done..|]. intros k o _ Hk Hsh. split; [|by exists o]. intros c Hc. by exists c.
  - intros w1 w2 w3 (Hi & Hr & Hm & H12) (Hi' & Hr' & Hm' & H23). split_and!; [congruence..|].
    intros k o HA Hk Hsh. destruct (H12 k o HA Hk Hsh) as (Hv & o' & Hk' & Hs).
    destruct (H23 k o' HA Hk') as (Hv' & o'' & Hk'' & Hs'); [by eapply versions_shielded|].
    split; [|exists o''; split; [done|by etrans]]. intros c (c1 & (c0 & Hc0 & Hs0)%Hv & Hs1)%Hv'.
    exists c0. split; [done|by etrans].
Qed.

Lemma keeps_quiet {B} (c : ST S B) : quiet c → moves (keeps A) (on_env c).
Proof.
  intros Hc [r s]. unfold on_env. simpl. destruct (Hc s) as (Ho & Hm & Hv).
  destruct (c s) as [a s']. simpl in *. split_and!; [done..|]. simpl. rewrite Ho.
  intros k o _ Hk Hsh. split; [|by exists o]. intros x Hx. exists x. split; [by apply Hv|done].
Qed.

Lemma keeps_get_rec : moves (keeps A) get_rec.
Proof. intros w. reflexivity. Qed.
Lemma keeps_get_manager : moves (keeps A) get_manager.
Proof. intros w. reflexivity. Qed.

Lemma keeps_set_mutated (f g : syncReconciler → bool) :
  moves (keeps A) (modify_rec (S:=S) (λ r, set_mutated (f r) (g r) r)).
Proof. intros [r s]. split_and!; [done..|]. intros k o _ Hk Hsh. split; [|by exists o]. intros c Hc. by exists c. Qed.

Lemma keeps_GetClusters : moves (keeps A) (on_env GetClusters).
Proof.
  apply keeps_quiet. intros s. unfold GetClusters, st_bind.
  pose proof (ListClusters_quiet s) as Hq. destruct (client_ListClusters s) as [[l|e] s']; exact Hq.
Qed.

(** A write that keeps the object it is about, up to its status. *)
Lemma keeps_write r s s' (k : ObjKey) :
  writes_at k s s' →
  (∀ o, A k → objects s !! k = Some o → shielded (r, s) k →
     ∃ o', objects s' !! k = Some o' ∧ same_spec o o') →
  keeps A (r, s) (r, s').
Proof.
  intros (Hm & Hother & Hv) Hk. split_and!; [done..|]. simpl. intros k' o HA Ho Hsh.
  destruct (decide (k' = k)) as [->|Hne].
  - destruct (Hk o HA Ho Hsh) as (o' & Ho' & Hs). split; [|by exists o'].
    intros c Hc. destruct (Hv c Hc) as [?|Hc']; [by exists c|].
    rewrite Ho' in Hc'. injection Hc' as <-. exists o. split; [|done]. rewrite <-Ho. apply visible_present.
  - destruct (Hother k' Hne) as [Ho' Hv']. split; [|exists o; by rewrite Ho'].
    intros c Hc. exists c. split; [by apply Hv'|done].
Qed.

Lemma keeps_StatusUpdate o w :
  (A (target o) → status_only (GVKForObject o)) → keeps A w (on_env (local_StatusUpdate o) w).2.
Proof.
  destruct w as [r s]. intros Hst. unfold on_env. simpl.
  destruct (local_StatusUpdate_effect o s) as (Hw & Hcur). destruct (local_StatusUpdate o s) as [e s']. simpl in *.
  apply (keeps_write r s s' (target o) Hw). intros cur HA Hk _.
  rewrite Hk in Hcur. destruct Hcur as (new & Hn & [Hs|[Hno _]]); [by exists new|by destruct Hno; apply Hst].
Qed.

(** The object reconciler, with the decisions of the reconciler in its state. *)
Lemma keeps_ReconcileResource o w :
  keeps A w (on_env (ReconcileResource o (getObjectDesiredState w.1 (manager_of w.2))) w).2.
Proof.
  destruct w as [r s]. unfold on_env. simpl.
  destruct (ReconcileResource_effect o (getObjectDesiredState r (manager_of s)) s) as (Hw & Hcur).
  destruct (ReconcileResource _ _ s) as [e s']. simpl in *.
  apply (keeps_write r s s' (target o) Hw). intros cur _ Hk Hsh.
  destruct Hcur as [->|[(v & Hv & Hu)|(_ & _ & Hno)]]; [by exists cur| |congruence].
  pose proof (protected_not_updated r (manager_of s) v o (Hsh v Hv)) as Hn. simpl in Hn. congruence.
Qed.
End safety.

#[export] Hint Resolve keeps_get_rec keeps_get_manager keeps_set_mutated keeps_GetClusters
  keeps_quiet remote_Get_quiet local_Get_quiet local_List_quiet local_GetNamespace_quiet RateLimit_quiet
  RecordEvent_quiet : registry.

Section reconcile.
Context {M S : Type} `{AC : AliveClusters M} `{SE : !SyncEnv M S} `{CC : !ClusterClient S}.
Context `{EL : ErrorLib} `{SL : SelectorLib} `{CL : ContentLib} `{TL : !TemplateLib TemplateData} `{PL : PatchLib}.
Context `{SEL : !SyncEnvLaws M S}.
Implicit Types (w : syncReconciler * S) (A : ObjKey → Prop).

Lemma keeps_find_copy A obj : moves (keeps A) (find_copy (S:=S) obj).
Proof. unfold find_copy, getObjectByOriginalNamespaceAndName. moves_tac. Qed.

(** What [find_copy] finds is visible under the key it would be deleted with. *)
Lemma find_copy_stored obj w cur :
  (find_copy obj w).1 = Ok (Some cur) → ∃ t, visible w.2 (target cur) (Some (with_type t cur)).
Proof.
  destruct w as [r s]. unfold find_copy, getObjectByOriginalNamespaceAndName, st_bind, get_rec, on_env.
  generalize (original_key obj). intros key. simpl.
  set (current := if bool_decide _ then _ else obj). destruct (_ || _).
  - cbn [fst snd]. match goal with |- context [local_List ?g ?n ?l s] => destruct (local_List g n l s) as [res s'] eqn:E end.
    destruct res as [[|o [|]]|e]; simpl; try done. intros Heq; injection Heq as <-.
    destruct (local_List_read _ _ _ _ [o] (f_equal fst E) o) as (Hg & _ & _ & t & Ht); [left|].
    exists t. unfold target, GVKForObject. simpl. by rewrite Hg.
  - cbn [fst snd]. pose proof (local_Get_read (GVKForObject current) (obj_key obj) s) as Hread.
    destruct (local_Get _ _ s) as [[o|e] s']; simpl in *; [|destruct (IsNotFound e); done].
    intros Heq; injection Heq as <-. destruct Hread as (t & Ht & Hk & Hg). exists t. unfold target. simpl.
    assert (GVKForObject (with_type (obj_type current) o) = GVKForObject current) as ->.
    { unfold GVKForObject at 1. simpl. rewrite Hg. unfold GVKForObject. by destruct (obj_type current). }
    change (obj_key (with_type (obj_type current) o)) with (obj_key o). by rewrite Hk.
Qed.

(** The guards of a deletion let no protected object pass. *)
Lemma guards_unprotected r m cur :
  owner_of cur ≠ "" → isOwnedByAnotherAliveCluster r m (owner_of cur) = false →
  ¬ protected (sr_clusterID r) m cur.
Proof. intros Hn Hf [He|Ht]%protected_refuse; congruence. Qed.

(** A deletion after such a read touches no shielded object. *)
Lemma keeps_delete A w w1 cur :
  keeps A w w1 → (∃ t, visible w.2 (target cur) (Some (with_type t cur))) →
  ¬ protected (sr_clusterID w.1) (manager_of w.2) cur →
  keeps A w (on_env (local_Delete (GVKForObject cur) (obj_key cur)) w1).2.
Proof.
  intros (Hi & Hr & Hm & Hk) [t Ht] Hp. unfold on_env.
  destruct (local_Delete_effect (GVKForObject cur) (obj_key cur) w1.2) as [(Hdm & Hother & _) _].
  destruct (local_Delete _ _ w1.2) as [e s']. simpl in *. split_and!; [done|done|simpl; congruence|].
  intros k o HA Ho Hsh. destruct (Hk k o HA Ho Hsh) as (Hv' & o' & Ho' & Hs).
  destruct (decide (k = target cur)) as [->|Hne].
  { destruct Hp. exact (Hsh _ Ht). }
  destruct (Hother k Hne) as [Hsame Hv]. split; [|exists o'; simpl; by rewrite Hsame].
  intros c Hc. by apply Hv', Hv.
Qed.

Lemma keeps_deleteResource A obj : moves (keeps A) (deleteResource (S:=S) obj).
Proof.
  intros w. unfold deleteResource, st_bind at 1, get_rec at 1. simpl.
  unfold st_bind at 1. pose proof (keeps_find_copy A obj w) as Hk. pose proof (find_copy_stored obj w) as Hst.
  destruct (find_copy obj w) as [[[cur|]|e] w1]; simpl in *; try done.
  specialize (Hst cur eq_refl). case_bool_decide as Hown; [done|]. unfold st_bind, get_manager. simpl.
  destruct (isOwnedByAnotherAliveCluster w.1 (manager_of w1.2) (owner_of cur)) eqn:Hf; [done|].
  pose proof Hk as (_ & _ & Hm & _). rewrite Hm in Hf.
  assert (Hw2 := keeps_delete A w w1 cur Hk Hst (guards_unprotected _ _ _ Hown Hf)).
  destruct (on_env _ w1) as [[e|] w2]; [destruct (IsNotFound e)|]; exact Hw2.
Qed.

Lemma keeps_mutateObject A obj rules : moves (keeps A) (mutateObject (S:=S) obj rules).
Proof.
  unfold mutateObject, apply_overrides, note_original_name, note_original_namespace. moves_tac.
Qed.

(** A block whose parts may rely on the state they start in. *)
Lemma keeps_bind {B C} A (c : ST (syncReconciler * S) B) (f : B → ST (syncReconciler * S) C) w :
  keeps A w (c w).2 → (∀ b w', c w = (b, w') → keeps A w w' → keeps A w' (f b w').2) → keeps A w (st_bind c f w).2.
Proof. intros Hc Hf. unfold st_bind. destruct (c w) as [b w']. simpl in Hc. etrans; [exact Hc|by apply Hf]. Qed.

Lemma keeps_write_copy A req obj rules w :
  MatchedRules_GetMutationSyncStatus rules = false ∨ (A (target obj) → status_only (GVKForObject obj)) →
  keeps A w (write_copy req obj rules w).2.
Proof.
  intros Hst. unfold write_copy. unfold st_bind at 1, get_rec at 1. unfold st_bind at 1, get_manager at 1.
  apply keeps_bind; [apply keeps_ReconcileResource|]. intros err w1 _ _.
  destruct err as [e|]; [destruct (IsAlreadyExists (Cause e)); reflexivity|].
  apply keeps_bind; [apply keeps_quiet; apply local_Get_quiet|]. intros res w2 _ _.
  destruct res as [o|e]; [|destruct (IsNotFound e); reflexivity].
  apply keeps_bind.
  - destruct (MatchedRules_GetMutationSyncStatus rules); [|reflexivity]. destruct Hst as [|Hst]; [done|].
    by apply keeps_StatusUpdate.
  - intros err w3 _ _. revert w3.
    match goal with |- ∀ w1, keeps A w1 (?c w1).2 => change (moves (keeps A) c) end. moves_tac.
Qed.

(** The status updates of the copies of an object leave the metadata of the objects of
    [A] alone: the rule makes none, or the kind of the copy is one for which the server
    takes the status only. *)
Definition status_safe A (r : syncReconciler) (obj : Object) : Prop :=
  no_status_sync (sr_rule r)
  ∨ ∀ (s : S) copy, mo_err (ResourceSyncRule_Match (sr_rule r) obj) = None →
      (mutateObject obj (mo_rules (ResourceSyncRule_Match (sr_rule r) obj)) (r, s)).1 = Ok copy →
      A (target copy) → status_only (GVKForObject copy).

Lemma keeps_found A r req obj s : status_safe A r obj → keeps A (r, s) (reconcile_found r req obj (r, s)).2.
Proof.
  intros Hst. unfold reconcile_found. destruct (om_DeletionTimestamp (obj_meta obj)).
  { revert s. enough (moves (keeps A) (let! err := deleteResource (S:=S) obj in return! (Result_zero, err))) by auto.
    pose proof (keeps_deleteResource A). moves_tac. }
  cbv zeta. destruct (mo_ok _); [|reflexivity]. destruct (mo_err _) as [e|] eqn:Herr; [reflexivity|].
  simpl (negb _). cbn iota. apply keeps_bind; [apply keeps_mutateObject|]. intros [o|e] w1 Hmut _; [|reflexivity].
  apply keeps_bind; [revert w1 Hmut; enough (moves (keeps A) (namespace_gate (S:=S) req o)) by auto; unfold namespace_gate; moves_tac|].
  intros [out|] w2 _ _; [reflexivity|].
  apply keeps_bind; [revert w2; enough (moves (keeps A) (rate_gate (S:=S) req)) by auto; unfold rate_gate; moves_tac|].
  intros [out|] w3 _ _; [reflexivity|].
  apply keeps_write_copy. destruct Hst as [Hns|Hst]; [left|right].
  - apply SyncStatus_spec, matched_forall; [by apply SyncStatus_spec|done].
  - apply (Hst s); [done|by rewrite Hmut].
Qed.

(** The object that a request is about, as the reconciler sees it. *)
Definition requested (r : syncReconciler) (req : Request) (o : Object) : Object :=
  with_type (obj_type (initObjectFromGVK (sr_gvk r) req)) o.

Definition remote_kind (r : syncReconciler) (req : Request) : GroupVersionKind :=
  GVKForObject (initObjectFromGVK (sr_gvk r) req).

Lemma keeps_Reconcile A req r s :
  (∀ o, (remote_Get (remote_kind r req) req s).1 = Ok o → status_safe A r (requested r req o)) →
  keeps A (r, s) (Reconcile req (r, s)).2.
Proof.
  intros Hst. assert (Hdel : ∀ x, moves (keeps A) (let! err := deleteResource (S:=S) x in return! (Result_zero, err))).
  { pose proof (keeps_deleteResource A). moves_tac. }
  unfold Reconcile. apply keeps_bind.
  - unfold reconcile. unfold st_bind at 1, get_rec at 1. cbn [fst].
    unfold st_bind at 1. pose proof (keeps_quiet A _ (remote_Get_quiet (remote_kind r req) req) (r, s)) as Hq.
    unfold on_env, remote_kind in *. cbn [fst snd] in *. destruct (remote_Get _ req s) as [res s1]. cbn [fst snd] in *.
    etrans; [exact Hq|]. destruct res as [o|e]; [by apply keeps_found, Hst|].
    destruct (IsNotFound e); [apply Hdel|reflexivity].
  - intros out w' _ _. revert w'.
    match goal with |- ∀ w1, keeps A w1 (?c w1).2 => change (moves (keeps A) c) end. moves_tac.
Qed.

Lemma keeps_key req r s k :
  status_only k.1 ∨ no_status_sync (sr_rule r) → keeps (λ k', k' = k) (r, s) (Reconcile req (r, s)).2.
Proof.
  intros Hst. apply keeps_Reconcile. intros x _. destruct Hst as [Hso|Hns]; [right|by left].
  intros s' copy _ _ <-. exact Hso.
Qed.

(** One object whose kind is safe, or any object when the rule copies no status. *)
Lemma keeps_object req r s k o :
  objects s !! k = Some o → shielded (r, s) k → status_only k.1 ∨ no_status_sync (sr_rule r) →
  ∃ o', objects (Reconcile req (r, s)).2.2 !! k = Some o' ∧ same_spec o o'.
Proof.
  intros Hk Hp Hst. destruct (keeps_key req r s k Hst) as (_ & _ & _ & H). by apply (H k o).
Qed.

(** C1: a reconciliation never deletes a protected object of the local cluster, and
    changes neither its content nor its labels and annotations: an object without an
    owner, or owned by another live peer, survives every request, whatever the peer
    sends, whatever fails on the way. Protected means that every version of the object
    is, that the cache of the client may still return; and the status updates of the
    reconciler must not write metadata: its rule does not copy the status, or the kind
    is one for which the server takes the status only. Nothing else writes the object
    during the request. *)
Theorem sync_protects_local_objects req (r : syncReconciler) (s : S) k o :
  objects s !! k = Some o →
  (∀ c, visible s k (Some c) → protected (sr_clusterID r) (manager_of s) c) →
  status_only k.1 ∨ no_status_sync (sr_rule r) →
  ∃ o', objects (Reconcile req (r, s)).2.2 !! k = Some o' ∧ same_spec o o'.
Proof.
  intros Hk Hp Hst. by apply keeps_object.
Qed.

(** ** Copies are made *)

(** The server has [new] for what was sent, with the labels and annotations that were
    sent at least; the annotations of other tools aside. *)
Definition stored_as (sent new : Object) : Prop :=
  obj_key new = obj_key sent ∧ stored_body (obj_body sent) (obj_body new)
  ∧ obj_labels sent ⊆ obj_labels new
  ∧ ∀ a v, a ∉ dropped_annotations → obj_annotations sent !! a = Some v → obj_annotations new !! a = Some v.

(** A status update of what was sent keeps that. *)
Lemma stored_as_status sent d new (s : S) :
  target d = target sent → obj_labels d = obj_labels sent → obj_annotations d = obj_annotations sent →
  objects s !! target sent = Some new → stored_as sent new →
  ∃ new', objects (local_StatusUpdate d s).2 !! target sent = Some new' ∧ stored_as sent new'.
Proof.
  intros Ht Hl Ha Hnew (Hk & Hb & Hlb & Han).
  destruct (local_StatusUpdate_effect d s) as (_ & Hd). rewrite Ht, Hnew in Hd.
  destruct Hd as (new' & Hn' & Hs). exists new'. split; [done|].
  destruct Hs as [(Hb' & Ha' & Hl' & Hk')|(_ & Hb' & Hk' & Hl' & Ha')].
  - unfold stored_as. by rewrite Hb', Ha', Hl', Hk'.
  - unfold stored_as. rewrite Hb', Hk', Hl', Ha', Hl, Ha. by split_and!.
Qed.

Lemma write_copy_creates req obj rules r s :
  (∀ v, visible s (target obj) v → v = None) →
  ShouldCreate (getObjectDesiredState r (manager_of s)) obj = true →
  let '(out, w') := write_copy req obj rules (r, s) in
  out.2 = None → Requeue out.1 = false →
  ∃ new, objects w'.2 !! target obj = Some new ∧ stored_as obj new.
Proof.
  intros Hno Hsc. unfold write_copy. unfold st_bind at 1, get_rec at 1. unfold st_bind at 1, get_manager at 1.
  unfold st_bind at 1, on_env at 1. simpl (_.1). simpl (_.2).
  pose proof (ReconcileResource_create obj (getObjectDesiredState r (manager_of s)) s Hno Hsc) as Hc.
  destruct (ReconcileResource obj _ s) as [[e|] s1]; [by destruct (IsAlreadyExists (Cause e))|].
  destruct (Hc eq_refl) as (new & Hnew & Hk & Hl & Ha & Hb). simpl in Hnew. clear Hc.
  assert (Hs : stored_as obj new) by by split_and!. clear Hk Hl Ha Hb.
  (* what follows keeps the copy *)
  unfold st_bind at 1, on_env at 1. simpl (_.1). simpl (_.2).
  destruct (local_Get_quiet (GVKForObject obj) (obj_key obj) s1) as [Hq _].
  destruct (local_Get _ _ s1) as [[o|e] s2]; simpl in Hq; rewrite <-Hq in Hnew;
    [|destruct (IsNotFound e); simpl; [by eauto|done]].
  unfold st_bind at 1. set (d := SetResourceVersion _ obj).
  pose proof (stored_as_status obj d new s2 eq_refl eq_refl eq_refl Hnew Hs) as Hst.
  destruct (MatchedRules_GetMutationSyncStatus rules).
  - unfold on_env at 1. simpl (_.1). simpl (_.2).
    destruct (local_StatusUpdate d s2) as [[e|] s3]; simpl in Hst; [done|].
    destruct Hst as (new' & Hn' & Hs'). unfold st_bind. case_bool_decide; simpl; [|by eauto].
    unfold on_env. simpl. match goal with |- context [RecordEvent ?e s3] =>
      destruct (RecordEvent_quiet e s3) as [Ho _]; destruct (RecordEvent e s3) as [[] s4] end.
    simpl in *. rewrite Ho. by eauto.
  - simpl. unfold st_bind. case_bool_decide; simpl; [|by eauto].
    unfold on_env. simpl. match goal with |- context [RecordEvent ?e s2] =>
      destruct (RecordEvent_quiet e s2) as [Ho _]; destruct (RecordEvent e s2) as [[] s4] end.
    simpl in *. rewrite Ho. by eauto.
Qed.

(** Nothing changed, and no new version is visible. *)
Definition unwritten (s s' : S) : Prop :=
  objects s' = objects s ∧ manager_of s' = manager_of s ∧ ∀ k v, visible s' k v → visible s k v.

#[global] Instance unwritten_preorder : PreOrder unwritten.
Proof.
  split; [by intros s|]. intros s1 s2 s3 (Ho & Hm & Hv) (Ho' & Hm' & Hv'). split_and!; [congruence..|]. auto.
Qed.

(** A gate changes nothing, and when it stops a request it asks for a retry. *)
Definition is_gate (g : ST (syncReconciler * S) (option (Result * option error))) : Prop :=
  ∀ r s, ∃ s', (g (r, s)).2 = (r, s') ∧ unwritten s s'
    ∧ ∀ out, (g (r, s)).1 = Some out → out.2 ≠ None ∨ out.1 ≠ Result_zero.

Lemma namespace_gate_ok req obj : is_gate (namespace_gate req obj).
Proof.
  intros r s. unfold namespace_gate. case_bool_decide; [|by exists s].
  unfold st_bind, on_env. simpl.
  pose proof (local_GetNamespace_quiet (om_Namespace (obj_meta obj)) s) as Hq.
  destruct (local_GetNamespace _ s) as [[e|] s1]; simpl in *; [|by exists s1].
  destruct (IsNotFound e); [|exists s1; split_and!; [done|exact Hq|]; intros out [= <-]; by left]. cbn [fst snd].
  match goal with |- context [RecordEvent ?e s1] =>
    pose proof (RecordEvent_quiet e s1) as Hq'; destruct (RecordEvent e s1) as [[] s2] end.
  simpl in *. exists s2. split_and!; [done|by etrans; [exact Hq|exact Hq']|]. intros out [= <-]. by right.
Qed.

Lemma rate_gate_ok req : is_gate (rate_gate req).
Proof.
  intros r s. unfold rate_gate, st_bind, get_rec, on_env. simpl. destruct (sr_rateLimited r); [|by exists s]. simpl.
  pose proof (RateLimit_quiet (NamespacedName_String req) s) as Hq.
  destruct (RateLimit _ s) as [[[]|e] s1]; simpl in *; [|by exists s1|].
  - cbn [fst snd]. match goal with |- context [RecordEvent ?e s1] =>
      pose proof (RecordEvent_quiet e s1) as Hq'; destruct (RecordEvent e s1) as [[] s2] end.
    simpl in *. exists s2. split_and!; [done|by etrans; [exact Hq|exact Hq']|]. intros out [= <-]. by right.
  - exists s1. split_and!; [done|exact Hq|]. intros out [= <-]. by left.
Qed.

(** C7: the peer has an object that is not being deleted and that the rule selects,
    and the matched rules have no overrides. When the local cluster has no object under
    the kind and name of the copy and the cache shows none, and the decision function
    allows to create the copy (sync is not disabled for it, it does not belong to the
    local cluster or to another live peer), a request that neither fails nor asks for a
    retry has created it: with the name of the original, the content of the original as
    the server completes it, and the labels and annotations that the mutations leave of
    the original ones, with the owner filled in. *)
Theorem reconcile_creates_copy req (r : syncReconciler) (s : S) o rules :
  let obj := with_type (obj_type (initObjectFromGVK (sr_gvk r) req)) o in
  let copy := mutate_meta r obj rules in
  (remote_Get (GVKForObject (initObjectFromGVK (sr_gvk r) req)) req s).1 = Ok o →
  om_DeletionTimestamp (obj_meta o) = None →
  ResourceSyncRule_Match (sr_rule r) obj = mkMatchOutcome true rules None →
  Forall (λ rule, Overrides (sr_Mutations rule) = []) rules →
  (∀ v, visible s (target copy) v → v = None) →
  ShouldCreate (getObjectDesiredState r (manager_of s)) copy = true →
  let '(out, w') := reconcile req (r, s) in
  out.2 = None → out.1 = Result_zero →
  ∃ new, objects w'.2 !! target copy = Some new
    ∧ obj_key new = obj_key o ∧ stored_body (obj_body o) (obj_body new)
    ∧ (∀ k v x, after_mutations mut_Labels rules (obj_labels o) k v →
         copied_value r k v = Some x → obj_labels new !! k = Some x)
    ∧ (∀ k v x, k ∉ dropped_annotations → (k = OriginalGVKAnnotation → ¬ kind_changed rules) →
         after_mutations mut_Annotations rules (obj_annotations o) k v →
         copied_value r k v = Some x → obj_annotations new !! k = Some x).
Proof.
  intros obj copy Hget Hdel Hmatch Hov Hno Hsc. unfold reconcile, reconcile_found.
  unfold st_bind at 1, get_rec at 1. simpl (_.1). unfold st_bind at 1, on_env at 1. simpl (_.1). simpl (_.2).
  pose proof (remote_Get_quiet (GVKForObject (initObjectFromGVK (sr_gvk r) req)) req s) as Hq1.
  destruct (remote_Get _ req s) as [res s1]. simpl in Hget, Hq1. subst res. cbv zeta. fold obj.
  assert (om_DeletionTimestamp (obj_meta obj) = None) as -> by done.
  rewrite Hmatch. simpl (negb _). cbn iota. simpl (mo_err _). cbn iota. simpl (mo_rules _).
  unfold st_bind at 1. rewrite mutateObject_plain by (by apply no_overrides). fold copy.
  unfold st_bind at 1. destruct (namespace_gate_ok req copy r s1) as (s2 & Hw2 & Hq2 & Hg2).
  destruct (namespace_gate req copy (r, s1)) as [[out|] w2]; simpl in Hw2, Hg2; subst w2.
  { simpl. intros H1 H2. destruct (Hg2 out eq_refl); congruence. }
  unfold st_bind at 1. destruct (rate_gate_ok req r s2) as (s3 & Hw3 & Hq3 & Hg3).
  destruct (rate_gate req (r, s2)) as [[out|] w3]; simpl in Hw3, Hg3; subst w3.
  { simpl. intros H1 H2. destruct (Hg3 out eq_refl); congruence. }
  pose proof (write_copy_creates req copy rules r s3) as Hw.
  destruct (write_copy req copy rules (r, s3)) as [out w4]. intros H1 H2.
  assert (Hq : unwritten s s3) by (etrans; [exact Hq1|by etrans]). destruct Hq as (_ & Hm & Hv).
  destruct Hw as (new & Hnew & Hk & Hb & Hl & Ha); [by intros v ?%Hv; apply Hno|by rewrite Hm|done|by rewrite H2|].
  exists new. split; [done|]. split; [rewrite Hk; exact (mutate_meta_key r obj rules)|]. split_and!.
  - unfold copy in Hb. rewrite mutate_meta_body in Hb. exact Hb.
  - intros k v x Hm' Hx. eapply lookup_weaken; [|exact Hl]. unfold copy. by rewrite (mutate_meta_label_value _ _ _ _ v).
  - intros k v x Hd Hg Hm' Hx. apply Ha; [done|]. unfold copy. by rewrite (mutate_meta_annotation_value _ _ _ _ v).
Qed.

(** ** Copies are removed *)

(** C8: when an object is gone from the peer, and no override of the reconciler has
    changed a name or a namespace so far, its copy in the local cluster, found under the
    kind of the copies and the same name, is deleted by a request that does not fail:
    it is gone, or marked as being deleted until its finalizers are done. The copy, in
    every version that the cache may return, has an owner, and no other live peer owns
    it. *)
Theorem reconcile_deletes_copy req (r : syncReconciler) (s : S) e :
  let gone := initObjectFromGVK (sr_gvk r) req in
  let kind := GVKForObject (if bool_decide (sr_gvk r ≠ localGVK r) then set_gvk (localGVK r) gone else gone) in
  (remote_Get (GVKForObject gone) req s).1 = Err e → IsNotFound e = true →
  resourceNameMutated r = false → resourceNamespaceMutated r = false →
  (∀ v, visible s (kind, req) v → ∃ o, v = Some o ∧ owner_of o ≠ "" ∧ ¬ foreign_owner r (manager_of s) o) →
  let '(out, w') := reconcile req (r, s) in
  out.2 = None →
  objects w'.2 !! (kind, req) = None ∨ ∃ new, objects w'.2 !! (kind, req) = Some new ∧ being_deleted new.
Proof.
  intros gone kind Hget He Hn Hns Hvis. unfold reconcile, reconcile_found.
  unfold st_bind at 1, get_rec at 1. simpl (_.1). unfold st_bind at 1, on_env at 1. simpl (_.1). simpl (_.2).
  fold gone. pose proof (remote_Get_quiet (GVKForObject gone) req s) as (_ & Hm1 & Hv1).
  destruct (remote_Get _ req s) as [res s1]. simpl in Hget, Hv1, Hm1. subst res. rewrite He.
  assert (Hkey : obj_key gone = req) by (unfold gone, initObjectFromGVK; destruct (scheme_knows _); by destruct req).
  unfold st_bind at 1, deleteResource. unfold st_bind at 1, get_rec at 1. simpl (_.1).
  unfold st_bind at 1, find_copy. unfold st_bind at 1, get_rec at 1. simpl (_.1). rewrite Hn, Hns. simpl (_ || _).
  cbn iota. unfold st_bind at 1, on_env at 1. simpl (_.1). simpl (_.2). rewrite Hkey. fold kind.
  destruct (local_Get_quiet kind req s1) as (_ & Hm2 & _). pose proof (local_Get_read kind req s1) as Hr.
  destruct (local_Get kind req s1) as [[o'|e'] s2]; simpl in Hm2, Hr.
  2: { destruct (IsNotFound e'); [|done]. by destruct (Hvis None) as (o & ? & _); [apply Hv1, Hr|]. }
  destruct Hr as (t & Ht & Hkey' & Hgvk). destruct (Hvis _ (Hv1 _ _ Ht)) as (o & [= Ho] & Hown & Hfor). simpl.
  set (cur := with_type _ o'). assert (owner_of cur = owner_of o) as Hoc by (by rewrite <-Ho).
  rewrite Hoc, bool_decide_false by done. unfold st_bind at 1, get_manager. simpl (_.1). simpl (_.2).
  assert (isOwnedByAnotherAliveCluster r (manager_of s2) (owner_of o) = false) as ->.
  { apply not_true_iff_false. rewrite Hm2, Hm1. by rewrite foreign_owner_spec. }
  assert (Htgt : (GVKForObject cur, obj_key cur) = (kind, req)).
  { unfold cur, obj_key. simpl. change (mkNamespacedName _ _) with (obj_key o'). rewrite Hkey'. f_equal.
    unfold GVKForObject at 1. simpl. rewrite Hgvk. unfold kind, GVKForObject.
    by destruct (obj_type (if bool_decide _ then _ else gone)). }
  injection Htgt as Hk1 Hk2. rewrite Hk1, Hk2. unfold st_bind, on_env. simpl.
  destruct (local_Delete_effect kind req s2) as [_ Hd].
  destruct (local_Delete kind req s2) as [[e2|] s3]; simpl in *.
  - destruct (IsNotFound e2); simpl; [|done]. intros _. left. by apply Hd.
  - intros _. destruct Hd as [?|(c & new & _ & Hnew & _ & Hdel)]; [by left|right; by exists new].
Qed.

(** ** Where the code falls short *)

(** An error of the matcher, such as an invalid selector in a rule, is not
    reported: the request ends as if the object did not match, since the flag is
    looked at before the error. *)
Theorem match_error_is_swallowed req (r : syncReconciler) (s : S) o :
  let obj := with_type (obj_type (initObjectFromGVK (sr_gvk r) req)) o in
  (remote_Get (GVKForObject (initObjectFromGVK (sr_gvk r) req)) req s).1 = Ok o →
  om_DeletionTimestamp (obj_meta o) = None →
  mo_err (ResourceSyncRule_Match (sr_rule r) obj) ≠ None →
  (Reconcile req (r, s)).1 = (Result_zero, None).
Proof.
  intros obj Hget Hdel Herr.
  cut (∃ w', reconcile req (r, s) = (Result_zero, None, w')).
  { intros [w' Hw]. unfold Reconcile, st_bind. by rewrite Hw. }
  unfold reconcile, reconcile_found. unfold st_bind at 1, get_rec at 1. simpl (_.1).
  unfold st_bind at 1, on_env at 1. simpl (_.1). simpl (_.2).
  destruct (remote_Get _ req s) as [res s1]. simpl in Hget. subst res. cbv zeta. fold obj.
  assert (om_DeletionTimestamp (obj_meta obj) = None) as -> by done.
  assert (mo_ok (ResourceSyncRule_Match (sr_rule r) obj) = false) as ->; [|by eexists].
  revert Herr. unfold ResourceSyncRule_Match, ResourceSyncRuleSpec_Match. case_bool_decide; [done|].
  generalize (@nil SyncRule). induction (Rules (rsr_Spec (sr_rule r))) as [|rule rs IH]; intros acc; simpl; [done|].
  destruct (SyncRule_Match rule obj) as [[]|e]; simpl; auto.
Qed.

(** Once an override has changed the name or the namespace of any object, the
    reconciler looks for the copy of a deleted object by the label that records a
    changed name. A copy without that label, such as one whose name was not changed,
    is then never deleted, whatever becomes of its original. *)
Theorem unlabelled_copy_is_never_deleted obj (r : syncReconciler) (s : S) k :
  resourceNamespaceMutated r || resourceNameMutated r = true →
  (∀ c, visible s k (Some c) → obj_labels c !! originalNameLabel = None) →
  objects (deleteResource obj (r, s)).2.2 !! k = objects s !! k.
Proof.
  intros Hmut Hl. unfold deleteResource. unfold st_bind at 1, get_rec at 1. simpl (_.1).
  unfold st_bind at 1. pose proof (find_copy_stored obj (r, s)) as Hst.
  assert (Hq : objects (find_copy obj (r, s)).2.2 = objects s
     ∧ ∀ cur, (find_copy obj (r, s)).1 = Ok (Some cur) → is_Some (obj_labels cur !! originalNameLabel)).
  { unfold find_copy, getObjectByOriginalNamespaceAndName, st_bind, get_rec, on_env. cbn [fst snd]. rewrite Hmut.
    generalize (original_key obj). intros key. cbn.
    match goal with |- context [local_List ?g ?n ?l s] =>
      pose proof (local_List_quiet g n l s) as [Ho _]; pose proof (local_List_read g n l s) as Hr;
      destruct (local_List g n l s) as [[[|o [|]]|e] s'] end; simpl in *; (split; [done|]); try done.
    intros cur Heq; injection Heq as <-. destruct (Hr _ eq_refl o) as (_ & Hsub & _); [left|].
    exists (nn_Name key). eapply lookup_weaken; [|exact Hsub]. apply lookup_insert_eq. }
  destruct Hq as [Hq Hlab]. destruct (find_copy obj (r, s)) as [[[cur|]|e] w1]; simpl in *; [|by rewrite Hq..].
  destruct (Hst cur eq_refl) as [t Ht]. destruct (Hlab cur eq_refl) as [v Hv].
  case_bool_decide; [simpl; by rewrite Hq|]. unfold st_bind, get_manager. simpl.
  destruct (isOwnedByAnotherAliveCluster _ _ _); [simpl; by rewrite Hq|].
  unfold on_env. destruct (local_Delete_effect (GVKForObject cur) (obj_key cur) w1.2) as [(_ & Hd & _) _].
  destruct (local_Delete _ _ w1.2) as [e s']. simpl in *.
  assert (objects s' !! k = objects s !! k).
  { rewrite <-Hq. apply Hd. intros ->. apply Hl in Ht.
    change (obj_labels (with_type t cur)) with (obj_labels cur) in Ht. congruence. }
  destruct e as [e|]; [destruct (IsNotFound e)|]; done.
Qed.

(** For a kind that the scheme knows, the object of a request whose original is
    gone has no kind in its type meta; the copy is then looked up, when names are
    changed, under the empty kind. *)
Theorem renamed_copy_is_listed_without_kind req (r : syncReconciler) (s : S) :
  scheme_knows (sr_gvk r) = true → sr_gvk r = localGVK r →
  resourceNamespaceMutated r || resourceNameMutated r = true →
  let gone := initObjectFromGVK (sr_gvk r) req in
  find_copy gone (r, s) = getObjectByOriginalNamespaceAndName gone GVK_zero (r, s).
Proof.
  intros Hs Hg Hm gone. unfold find_copy, st_bind, get_rec. cbn [fst snd]. rewrite Hm, Hg, bool_decide_false by naive_solver.
  cbn iota. f_equal. unfold gone, initObjectFromGVK. by rewrite Hs.
Qed.
End reconcile.
