(* ===== verification/SyncEffect.v ===== *)
(** * Who owns the objects after a reconciliation

    The effect of a whole reconciliation on the owners of the local objects: every
    object keeps its owner, but for the one that is the copy of the requested object,
    which gets the owner of the copy, and only when the ownership rules allow it. *)

From stdpp Require Import gmap strings list.
From S2P Require Import Prelude Errors Types Match Util Conditions Manager Sync SyncOwner SyncSafe.
Open Scope string_scope.
Open Scope go_scope.

(** ** Rules that leave ownership alone *)

(** A rule without overrides, whose mutations do not touch the ownership annotation. *)
Definition owner_neutral (rule : SyncRule) : Prop :=
  Overrides (sr_Mutations rule) = []
  ∧ Add (Mutations_GetAnnotations (sr_Mutations rule)) !! OwnershipAnnotation = None
  ∧ OwnershipAnnotation ∉ Remove (Mutations_GetAnnotations (sr_Mutations rule)).

(** Such a rule that does not change the kind either. *)
Definition plain_rule (rule : SyncRule) : Prop :=
  owner_neutral rule ∧ GVK_Empty (Mutations_GetGVK (sr_Mutations rule)) = true.

Lemma plain_neutral rules : Forall plain_rule rules → Forall owner_neutral rules.
Proof. intros H. eapply Forall_impl; [exact H|]. by intros ? []. Qed.

Lemma neutral_overrides rules : Forall owner_neutral rules → MatchedRules_GetMutationOverrides rules = [].
Proof. intros H. apply no_overrides. eapply Forall_impl; [exact H|]. by intros ? []. Qed.

Lemma plain_gvk rules g : Forall plain_rule rules → (MatchedRules_GetMutatedGVK rules g).1 = false.
Proof.
  intros H. rewrite GetMutatedGVK_flag. induction H as [|rule rules (_ & Hg) _ IH]; simpl; [done|].
  unfold rule_gvk. by rewrite Hg.
Qed.

Lemma neutral_owner rules o :
  Forall owner_neutral rules →
  map_get (apply_mutations (MatchedRules_GetMutationAnnotations rules) (obj_annotations o)) OwnershipAnnotation
  = owner_of o.
Proof.
  intros H. rewrite Forall_forall in H.
  unfold map_get, owner_of, MatchedRules_GetMutationAnnotations. rewrite apply_mutations_lookup, decide_False.
  - rewrite merge_mutations_Add. enough (foldl (λ acc rule,
      match Add (Mutations_GetAnnotations (sr_Mutations rule)) !! OwnershipAnnotation with
      | Some v => Some v | None => acc end) None rules = None) as -> by done.
    induction rules as [|rule rules IH] using rev_ind; [done|]. rewrite foldl_app. simpl.
    rewrite IH by set_solver. destruct (H rule) as (_ & -> & _); [set_solver|done].
  - rewrite merge_mutations_Remove. intros (rule & Hin & Hr). by destruct (H rule Hin) as (_ & _ & ?).
Qed.

(** The owner of the copy of an object: its own, or the peer it comes from. *)
Lemma neutral_copy_owner `{PL : PatchLib} r rules o :
  (OwnershipAnnotation ∉ dropped_annotations) → Forall owner_neutral rules →
  owner_of (mutate_meta r o rules) = if bool_decide (owner_of o = "") then sr_clusterID r else owner_of o.
Proof.
  intros Hd H. rewrite mutate_meta_owner by done. unfold copy_owner. by rewrite (neutral_owner rules o H).
Qed.

(** ** The effect *)

(** What the object reconciler stores: nothing new, or the object it was given, as far
    as the owner goes; an update may have removed the object to create it anew. *)
Class WriteLaws (M S : Type) `{SEL : SyncEnvLaws M S} : Prop := {
  ReconcileResource_write o ds s new :
    objects (ReconcileResource o ds s).2 !! target o = Some new →
    (∃ cur, objects s !! target o = Some cur ∧ owner_of new = owner_of cur) ∨ owner_of new = owner_of o }.

Section effect.
Context {M S : Type} `{AC : AliveClusters M} `{SE : !SyncEnv M S} `{CC : !ClusterClient S}.
Context `{EL : ErrorLib} `{SL : SelectorLib} `{CL : ContentLib} `{TL : !TemplateLib TemplateData} `{PL : PatchLib}.
Context `{SEL : !SyncEnvLaws M S} `{WL : !WriteLaws M S}.
Implicit Types (w : syncReconciler * S).

(** Every object afterwards has the owner it had, or satisfies [P]. *)
Definition owners_from (P : ObjKey → string → Prop) w w' : Prop :=
  ∀ k new, objects w'.2 !! k = Some new →
    (∃ old, objects w.2 !! k = Some old ∧ owner_of new = owner_of old) ∨ P k (owner_of new).

#[local] Instance owners_from_preorder P : PreOrder (owners_from P).
Proof.
  split.
  - intros w k new Hk. left. by exists new.
  - intros w1 w2 w3 H12 H23 k new Hk. destruct (H23 k new Hk) as [(mid & Hm & ->)|?]; [|by right].
    by apply H12.
Qed.

Lemma owners_from_quiet {A} (c : ST S A) P : quiet c → moves (owners_from P) (on_env c).
Proof.
  intros Hc [r s] k new. unfold on_env. simpl. destruct (Hc s) as [Ho _]. destruct (c s) as [a s'].
  simpl in *. rewrite Ho. left. by exists new.
Qed.

(** A write after which the object it is about has its owner still, or is gone. *)
Lemma owners_from_write P r s s' (k0 : ObjKey) :
  writes_at k0 s s' →
  (∀ new, objects s' !! k0 = Some new →
     (∃ old, objects s !! k0 = Some old ∧ owner_of new = owner_of old) ∨ P k0 (owner_of new)) →
  owners_from P (r, s) (r, s').
Proof.
  intros (_ & Hother & _) Hk k new. simpl. destruct (decide (k = k0)) as [->|Hne]; [apply Hk|].
  rewrite (proj1 (Hother k Hne)). left. by exists new.
Qed.

Lemma same_spec_owner o o' : same_spec o o' → owner_of o' = owner_of o.
Proof. intros (_ & Ha & _). unfold owner_of. by rewrite Ha. Qed.

Lemma owners_from_StatusUpdate o P :
  status_only (GVKForObject o) → moves (owners_from P) (on_env (local_StatusUpdate o)).
Proof.
  intros Hso [r s]. unfold on_env. simpl. destruct (local_StatusUpdate_effect o s) as (Hw & Hcur).
  destruct (local_StatusUpdate o s) as [e s']. simpl in *. apply (owners_from_write _ _ _ _ _ Hw). intros new Hn.
  destruct (objects s !! target o) as [cur|]; [|congruence].
  destruct Hcur as (n & Hn' & [Hs|[Hno _]]); [|by destruct Hno].
  rewrite Hn in Hn'. injection Hn' as <-. left. exists cur. split; [done|by apply same_spec_owner].
Qed.

Lemma owners_from_Delete g n P : moves (owners_from P) (on_env (local_Delete g n)).
Proof.
  intros [r s]. unfold on_env. simpl. destruct (local_Delete_effect g n s) as (Hw & Hd).
  destruct (local_Delete g n s) as [e s']. simpl in *. apply (owners_from_write _ _ _ _ _ Hw). intros new Hn. left.
  assert (H : objects s' !! (g, n) = objects s !! (g, n) ∨ deleted (g, n) s s') by (destruct e; [apply Hd|by right]).
  destruct H as [H|[H|(cur & new' & Hc & Hn' & Hs & _)]]; [exists new; by rewrite <-H|congruence|].
  exists cur. split; [done|]. rewrite Hn in Hn'. injection Hn' as <-. by apply same_spec_owner.
Qed.

Lemma owners_from_get_rec P : moves (owners_from P) (get_rec (S:=S)).
Proof. intros w. reflexivity. Qed.
Lemma owners_from_get_manager P : moves (owners_from P) (get_manager (S:=S)).
Proof. intros w. reflexivity. Qed.

(** The copy of the requested object may be written at [k], in the state [s]: after the
    read of some version. *)
Definition may_write (r : syncReconciler) (s : S) (copy : Object) (k : ObjKey) (owner : string) : Prop :=
  k = target copy ∧ owner = owner_of copy
  ∧ ∃ v, visible s k v ∧ match v with
    | None => ShouldCreate (getObjectDesiredState r (manager_of s)) copy = true
    | Some cur => ShouldUpdate (getObjectDesiredState r (manager_of s)) cur copy = true
    end.

Lemma owners_from_ReconcileResource r s copy :
  owners_from (may_write r s copy) (r, s)
    (on_env (ReconcileResource copy (getObjectDesiredState r (manager_of s))) (r, s)).2.
Proof.
  unfold on_env. cbn [fst snd]. set (ds := getObjectDesiredState r (manager_of s)).
  destruct (ReconcileResource_effect copy ds s) as (Hw & Hcur).
  pose proof (ReconcileResource_write copy ds s) as Hwr.
  destruct (ReconcileResource copy ds s) as [e s']. cbn [fst snd] in *.
  apply (owners_from_write _ _ _ _ _ Hw). intros new Hn.
  destruct (Hwr new Hn) as [?|Ho]; [by left|]. unfold may_write. fold ds.
  destruct Hcur as [He|[(cur & Hv & Hu)|(Hv & Hc & _)]].
  - left. exists new. by rewrite <-He.
  - right. split_and!; [done..|]. by exists (Some cur).
  - right. split_and!; [done..|]. by exists None.
Qed.
End effect.

#[export] Hint Resolve owners_from_quiet owners_from_Delete owners_from_get_rec
  owners_from_get_manager : registry.
#[export] Existing Instance owners_from_preorder.

Section reconcile.
Context {M S : Type} `{AC : AliveClusters M} `{SE : !SyncEnv M S} `{CC : !ClusterClient S}.
Context `{EL : ErrorLib} `{SL : SelectorLib} `{CL : ContentLib} `{TL : !TemplateLib TemplateData} `{PL : PatchLib}.
Context `{SEL : !SyncEnvLaws M S} `{WL : !WriteLaws M S}.

Lemma owners_from_deleteResource P obj : moves (owners_from P) (deleteResource (S:=S) obj).
Proof. unfold deleteResource, find_copy, getObjectByOriginalNamespaceAndName. moves_tac. Qed.

Lemma owners_from_bind {A B} P (c : ST (syncReconciler * S) A) (f : A → ST (syncReconciler * S) B) w :
  owners_from P w (c w).2 → (∀ a w', owners_from P w' (f a w').2) → owners_from P w (st_bind c f w).2.
Proof. intros Hc Hf. unfold st_bind. destruct (c w) as [a w']. simpl in Hc. etrans; [exact Hc|by apply Hf]. Qed.

Lemma owners_from_write_copy req copy rules r s :
  status_only (GVKForObject copy) ∨ MatchedRules_GetMutationSyncStatus rules = false →
  owners_from (may_write r s copy) (r, s) (write_copy req copy rules (r, s)).2.
Proof.
  intros Hst. unfold write_copy. unfold st_bind at 1, get_rec at 1. unfold st_bind at 1, get_manager at 1.
  apply owners_from_bind; [apply owners_from_ReconcileResource|].
  intros err w1. destruct err as [e|]; [destruct (IsAlreadyExists (Cause e)); reflexivity|].
  apply owners_from_bind; [apply owners_from_quiet, local_Get_quiet|].
  intros res w2. destruct res as [o|e]; [|destruct (IsNotFound e); reflexivity].
  apply owners_from_bind.
  - destruct (MatchedRules_GetMutationSyncStatus rules); [|reflexivity].
    apply owners_from_StatusUpdate. by destruct Hst.
  - intros err w3. revert w3.
    match goal with |- ∀ w1, owners_from ?P w1 (?c w1).2 => change (moves (owners_from P) c) end. moves_tac.
Qed.

(** The copy that a request may write. *)
Definition copy_written (r : syncReconciler) (req : Request) (s : S) (k : ObjKey) (owner : string) : Prop :=
  ∃ o rules, (remote_Get (remote_kind r req) req s).1 = Ok o
    ∧ Forall plain_rule rules ∧ may_write r s (mutate_meta r (requested r req o) rules) k owner.

Lemma owners_from_impl (P Q : ObjKey → string → Prop) (w w' : syncReconciler * S) :
  (∀ k x, P k x → Q k x) → owners_from P w w' → owners_from Q w w'.
Proof. intros HPQ H k new Hk. destruct (H k new Hk) as [?|?]; [by left|right; auto]. Qed.

Lemma owners_from_unwritten P r s s' : unwritten s s' → owners_from P (r, s) (r, s').
Proof. intros (Ho & _) k new. simpl. rewrite Ho. left. by exists new. Qed.

Lemma may_write_unwritten r s s' copy k x : unwritten s s' → may_write r s' copy k x → may_write r s copy k x.
Proof.
  intros (_ & Hm & Hv) (-> & -> & v & Hvis & Hd). rewrite Hm in Hd. split_and!; [done..|]. exists v. by split; [apply Hv|].
Qed.

(** Kind and mutations of the copy. *)
Lemma remote_kind_gvk r req : remote_kind r req = sr_gvk r.
Proof. unfold remote_kind, initObjectFromGVK, GVKForObject. by destruct (scheme_knows (sr_gvk r)). Qed.

Lemma requested_copy_gvk r req o rules :
  Forall plain_rule rules → obj_gvk o = remote_kind r req →
  GVKForObject (mutate_meta r (requested r req o) rules) = sr_gvk r.
Proof.
  intros Hp Hg. pose proof (plain_gvk rules (obj_gvk (requested r req o)) Hp) as Hf. unfold mutate_meta.
  destruct (MatchedRules_GetMutatedGVK rules _) as [b g]. simpl in Hf. subst b. simpl.
  rewrite <-(remote_kind_gvk r req).
  unfold GVKForObject at 1. simpl. rewrite Hg. unfold remote_kind, GVKForObject.
  by destruct (obj_type (initObjectFromGVK (sr_gvk r) req)).
Qed.

Section request.
Context (r : syncReconciler) (Hplain : Forall plain_rule (Rules (rsr_Spec (sr_rule r)))).
Context (Hst : status_only (sr_gvk r) ∨ no_status_sync (sr_rule r)).

Lemma owners_from_found req s o :
  obj_gvk o = remote_kind r req →
  owners_from (λ k x, ∃ rules, Forall plain_rule rules ∧ may_write r s (mutate_meta r (requested r req o) rules) k x)
    (r, s) (reconcile_found r req (requested r req o) (r, s)).2.
Proof.
  intros Hg. set (obj := requested r req o). unfold reconcile_found. destruct (om_DeletionTimestamp (obj_meta obj)).
  { refine (moves_bind _ _ _ _ (r, s)); [apply owners_from_deleteResource|moves_tac]. }
  cbv zeta. destruct (mo_ok _); [|reflexivity]. destruct (mo_err _) as [e|] eqn:Herr; [reflexivity|].
  pose proof (matched_forall _ _ obj Hplain Herr) as Hrules. simpl (negb _). cbn iota.
  assert (Hst' : status_only (sr_gvk r) ∨ MatchedRules_GetMutationSyncStatus (mo_rules (ResourceSyncRule_Match (sr_rule r) obj)) = false).
  { destruct Hst as [|Hns]; [by left|right]. apply SyncStatus_spec, matched_forall; [by apply SyncStatus_spec|done]. }
  set (rules := mo_rules _) in *. set (copy := mutate_meta r obj rules).
  unfold st_bind at 1. rewrite mutateObject_plain by (by apply neutral_overrides, plain_neutral). fold copy.
  unfold st_bind at 1. destruct (namespace_gate_ok req copy r s) as (s2 & Hw2 & Hq2 & _).
  destruct (namespace_gate req copy (r, s)) as [[out|] w2]; simpl in Hw2; subst w2; [by apply owners_from_unwritten|].
  unfold st_bind at 1. destruct (rate_gate_ok req r s2) as (s3 & Hw3 & Hq3 & _).
  assert (Hq : unwritten s s3) by by etrans.
  destruct (rate_gate req (r, s2)) as [[out|] w3]; simpl in Hw3; subst w3; [by apply owners_from_unwritten|].
  etrans; [by apply (owners_from_unwritten _ r s s3)|]. eapply owners_from_impl; [|apply owners_from_write_copy].
  - intros k x Hmay. exists rules. split; [done|]. by eapply may_write_unwritten.
  - unfold copy, obj. by rewrite requested_copy_gvk.
Qed.

Lemma owners_from_reconcile req s :
  (∀ o, (remote_Get (remote_kind r req) req s).1 = Ok o → obj_gvk o = remote_kind r req) →
  owners_from (copy_written r req s) (r, s) (reconcile req (r, s)).2.
Proof.
  intros Hgvk. unfold reconcile.
  unfold st_bind at 1, get_rec at 1. simpl (_.1). unfold st_bind at 1, on_env at 1. simpl (_.1). simpl (_.2).
  pose proof (remote_Get_quiet (remote_kind r req) req s) as Hq.
  unfold copy_written. fold (remote_kind r req).
  destruct (remote_Get (remote_kind r req) req s) as [res s1]. simpl in Hq, Hgvk.
  destruct res as [o|e].
  - etrans; [by apply (owners_from_unwritten _ r s s1)|].
    eapply owners_from_impl; [|exact (owners_from_found req s1 o (Hgvk o eq_refl))].
    intros k x (rules & Hr & Hw). exists o, rules. split_and!; [done..|]. by eapply may_write_unwritten.
  - etrans; [by apply (owners_from_unwritten _ r s s1)|]. destruct (IsNotFound e); [|reflexivity].
    refine (moves_bind _ _ _ _ (r, s1)); [apply owners_from_deleteResource|moves_tac].
Qed.

Lemma owners_from_Reconcile req s :
  (∀ o, (remote_Get (remote_kind r req) req s).1 = Ok o → obj_gvk o = remote_kind r req) →
  owners_from (copy_written r req s) (r, s) (Reconcile req (r, s)).2.
Proof.
  intros Hgvk. unfold Reconcile. apply owners_from_bind; [by apply owners_from_reconcile|]. intros out w'. revert w'.
  match goal with |- ∀ w1, owners_from ?P w1 (?c w1).2 => change (moves (owners_from P) c) end. moves_tac.
Qed.

(** Objects without an owner stay. *)
Lemma unowned_kept req s k o :
  (∀ o, (remote_Get (remote_kind r req) req s).1 = Ok o → obj_gvk o = remote_kind r req) →
  objects s !! k = Some o → (∀ c, visible s k (Some c) → owner_of c = "") →
  ∃ o', objects (Reconcile req (r, s)).2.2 !! k = Some o' ∧ same_spec o o'.
Proof.
  intros Hgvk Hk Hu. destruct (keeps_Reconcile (λ _, True) req r s) as (_ & _ & _ & H).
  - intros x Hx. destruct Hst as [Hso|Hns]; [right|by left]. intros s' copy Herr.
    rewrite mutateObject_plain by (by apply neutral_overrides, plain_neutral, matched_forall).
    intros [= <-] _. rewrite requested_copy_gvk; [done|by apply matched_forall|by apply Hgvk].
  - apply (H k o); [done..|]. intros c Hc. left. by apply Hu.
Qed.
End request.
End reconcile.

(** ** Copies do not travel back *)

Section back.
Context {M S : Type} `{AC : AliveClusters M} `{SE : !SyncEnv M S} `{CC : !ClusterClient S}.
Context `{EL : ErrorLib} `{SL : SelectorLib} `{CL : ContentLib} `{TL : !TemplateLib TemplateData} `{PL : PatchLib}.
Context `{SEL : !SyncEnvLaws M S}.
Implicit Types (w : syncReconciler * S).

(** No version with an owner is visible. *)
Definition all_unowned (s : S) (k : ObjKey) : Prop := ∀ c, visible s k (Some c) → owner_of c = "".

(** Nothing appears where there is nothing. *)
Definition absent (k : ObjKey) w w' : Prop :=
  objects w.2 !! k = None → all_unowned w.2 k → objects w'.2 !! k = None ∧ all_unowned w'.2 k.

#[local] Instance absent_preorder k : PreOrder (absent k).
Proof.
  split; [by intros w|]. intros w1 w2 w3 H12 H23 Hn Hu. destruct (H12 Hn Hu) as [Hn' Hu']. by apply H23.
Qed.

Lemma absent_quiet {A} k (c : ST S A) : quiet c → moves (absent k) (on_env c).
Proof.
  intros Hc [r s] Hn Hu. unfold on_env. simpl in *. destruct (Hc s) as (Ho & _ & Hv). destruct (c s) as [a s'].
  simpl in *. rewrite Ho. split; [done|]. intros x Hx. by apply Hu, Hv.
Qed.

Lemma absent_write k r s s' (k0 : ObjKey) :
  writes_at k0 s s' →
  (objects s !! k0 = None → all_unowned s k0 → objects s' !! k0 = None) → absent k (r, s) (r, s').
Proof.
  intros (_ & Hother & Hv) Hk Hn Hu. simpl in *. destruct (decide (k = k0)) as [->|Hne].
  - specialize (Hk Hn Hu). split; [done|]. intros c Hc. destruct (Hv c Hc); [by apply Hu|congruence].
  - destruct (Hother k Hne) as [-> Hv']. split; [done|]. intros c Hc. by apply Hu, Hv'.
Qed.

Lemma absent_StatusUpdate k o : moves (absent k) (on_env (local_StatusUpdate o)).
Proof.
  intros [r s]. unfold on_env. simpl. destruct (local_StatusUpdate_effect o s) as (Hw & Hcur).
  destruct (local_StatusUpdate o s) as [e s']. simpl in *. apply (absent_write _ _ _ _ _ Hw). intros Hn _.
  by rewrite Hn in Hcur.
Qed.

Lemma absent_Delete k g n : moves (absent k) (on_env (local_Delete g n)).
Proof.
  intros [r s]. unfold on_env. simpl. destruct (local_Delete_effect g n s) as (Hw & Hd).
  destruct (local_Delete g n s) as [e s']. simpl in *. apply (absent_write _ _ _ _ _ Hw). intros Hn _.
  assert (H : objects s' !! (g, n) = objects s !! (g, n) ∨ deleted (g, n) s s') by (destruct e; [apply Hd|by right]).
  destruct H as [->|[?|(cur & new' & Hc & _)]]; congruence.
Qed.

(** An object that may not be created is not. *)
Lemma absent_ReconcileResource k copy w :
  ShouldCreate (getObjectDesiredState w.1 (manager_of w.2)) copy = false →
  absent k w (on_env (ReconcileResource copy (getObjectDesiredState w.1 (manager_of w.2))) w).2.
Proof.
  destruct w as [r s]. unfold on_env. cbn [fst snd]. set (ds := getObjectDesiredState r (manager_of s)). intros Hsc.
  destruct (ReconcileResource_effect copy ds s) as (Hw & Hcur).
  destruct (ReconcileResource copy ds s) as [e s']. cbn [fst snd] in *. apply (absent_write _ _ _ _ _ Hw). intros Hn Hu.
  destruct Hcur as [->|[(cur & Hv & (_ & Ho & _)%ShouldUpdate_spec)|(_ & ? & _)]]; [done| |congruence].
  by destruct Ho; apply Hu.
Qed.

Lemma absent_bind {A B} k (c : ST (syncReconciler * S) A) (f : A → ST (syncReconciler * S) B) w :
  absent k w (c w).2 → (∀ a w', absent k w' (f a w').2) → absent k w (st_bind c f w).2.
Proof. intros Hc Hf. unfold st_bind. destruct (c w) as [a w']. simpl in Hc. etrans; [exact Hc|by apply Hf]. Qed.

Lemma absent_get_rec k : moves (absent k) (get_rec (S:=S)).
Proof. intros w. reflexivity. Qed.
Lemma absent_get_manager k : moves (absent k) (get_manager (S:=S)).
Proof. intros w. reflexivity. Qed.

#[local] Hint Resolve absent_quiet absent_StatusUpdate absent_Delete absent_get_rec absent_get_manager : registry.

Lemma absent_write_copy k req copy rules w :
  ShouldCreate (getObjectDesiredState w.1 (manager_of w.2)) copy = false →
  absent k w (write_copy req copy rules w).2.
Proof.
  intros Hsc. unfold write_copy. unfold st_bind at 1, get_rec at 1. unfold st_bind at 1, get_manager at 1.
  apply absent_bind; [by apply absent_ReconcileResource|]. intros err w1. revert w1.
  match goal with |- ∀ w1, absent k w1 (?c w1).2 => change (moves (absent k) c) end. moves_tac.
Qed.

Lemma absent_unwritten k r s s' : unwritten s s' → absent k (r, s) (r, s').
Proof. intros (Ho & _ & Hv) Hn Hu. simpl in *. rewrite Ho. split; [done|]. intros c Hc. by apply Hu, Hv. Qed.

(** The copy of an object that belongs to the local cluster may not be created. *)
Lemma own_object_refused r m o rules :
  OwnershipAnnotation ∉ dropped_annotations → Forall owner_neutral rules →
  owner_of o = localClusterID r → localClusterID r ≠ "" →
  ShouldCreate (getObjectDesiredState r m) (mutate_meta r o rules) = false.
Proof.
  intros Hd Hr Ho Hl. assert (Hown : owner_of (mutate_meta r o rules) = localClusterID r).
  { rewrite neutral_copy_owner by done. by rewrite Ho, bool_decide_false. }
  apply not_true_iff_false. rewrite ShouldCreate_spec, Hown. naive_solver.
Qed.

Lemma absent_found k req r s obj :
  OwnershipAnnotation ∉ dropped_annotations → Forall owner_neutral (Rules (rsr_Spec (sr_rule r))) →
  owner_of obj = localClusterID r → localClusterID r ≠ "" →
  absent k (r, s) (reconcile_found r req obj (r, s)).2.
Proof.
  intros Hd Hr Ho Hl. unfold reconcile_found. destruct (om_DeletionTimestamp (obj_meta obj)).
  { revert s. enough (moves (absent k) (let! err := deleteResource (S:=S) obj in return! (Result_zero, err))) by auto.
    unfold deleteResource, find_copy, getObjectByOriginalNamespaceAndName. moves_tac. }
  cbv zeta. destruct (mo_ok _); [|reflexivity]. destruct (mo_err _) as [e|] eqn:Herr; [reflexivity|].
  pose proof (matched_forall _ _ obj Hr Herr) as Hrules. simpl (negb _). cbn iota. set (rules := mo_rules _) in *.
  unfold st_bind at 1. rewrite mutateObject_plain by (by apply neutral_overrides). set (copy := mutate_meta r obj rules).
  unfold st_bind at 1. destruct (namespace_gate_ok req copy r s) as (s2 & Hw2 & Hq2 & _).
  destruct (namespace_gate req copy (r, s)) as [[out|] w2]; simpl in Hw2; subst w2; [by apply absent_unwritten|].
  unfold st_bind at 1. destruct (rate_gate_ok req r s2) as (s3 & Hw3 & Hq3 & _).
  assert (Hq : unwritten s s3) by by etrans.
  destruct (rate_gate req (r, s2)) as [[out|] w3]; simpl in Hw3; subst w3; [by apply absent_unwritten|].
  etrans; [by apply (absent_unwritten _ r s s3)|]. apply absent_write_copy. by apply own_object_refused.
Qed.

Lemma absent_Reconcile k req r s c :
  OwnershipAnnotation ∉ dropped_annotations → Forall owner_neutral (Rules (rsr_Spec (sr_rule r))) →
  (remote_Get (remote_kind r req) req s).1 = Ok c → owner_of c = localClusterID r → localClusterID r ≠ "" →
  absent k (r, s) (Reconcile req (r, s)).2.
Proof.
  intros Hd Hr Hget Ho Hl. unfold Reconcile. apply absent_bind.
  - unfold reconcile. unfold st_bind at 1, get_rec at 1. cbn [fst]. unfold st_bind at 1, on_env at 1. cbn [fst snd].
    pose proof (remote_Get_quiet (remote_kind r req) req s) as Hq. unfold remote_kind in *.
    destruct (remote_Get _ req s) as [res s1]. simpl in Hget, Hq. subst res.
    etrans; [by apply (absent_unwritten _ r s s1)|]. by apply absent_found.
  - intros out w'. revert w'.
    match goal with |- ∀ w1, absent k w1 (?c w1).2 => change (moves (absent k) c) end. moves_tac.
Qed.

(** C6: copies do not travel back, for rules without overrides that do not touch the
    ownership annotation. The copy that the reconciler [rp] of a peer makes of an object
    without an owner of cluster [L] names [L] as its owner, and the watch of the
    reconciler [r] of [L] for that peer ignores it. Even when [L] reconciles it, under
    any name and in whatever later version that still names [L], nothing is created and
    nothing is deleted or changed in [L] under a kind and name for which the cache of
    [L] shows objects of [L] itself or none, but for the status; provided that status
    updates write no metadata for the kind, or the rule of [r] makes none. *)
Theorem no_copy_back rp (sp : S) o rules r :
  owner_of o = "" → Forall owner_neutral rules → OwnershipAnnotation ∉ dropped_annotations →
  localClusterID r = sr_clusterID rp → sr_clusterID rp ≠ "" →
  ∃ copy, mutateObject o rules (rp, sp) = (Ok copy, (rp, sp))
  ∧ owner_of copy = sr_clusterID rp ∧ watch_event r copy = false
  ∧ ∀ s req c k,
      Forall owner_neutral (Rules (rsr_Spec (sr_rule r))) →
      (remote_Get (remote_kind r req) req s).1 = Ok c → owner_of c = owner_of copy →
      all_unowned s k → status_only k.1 ∨ no_status_sync (sr_rule r) →
      match objects s !! k with
      | None => objects (Reconcile req (r, s)).2.2 !! k = None
      | Some old => ∃ new, objects (Reconcile req (r, s)).2.2 !! k = Some new ∧ same_spec old new
      end.
Proof.
  intros Ho Hrules Hd Hl Hne. exists (mutate_meta rp o rules).
  assert (Hown : owner_of (mutate_meta rp o rules) = sr_clusterID rp).
  { rewrite neutral_copy_owner by done. by rewrite Ho, bool_decide_true. }
  split_and!; [by apply mutateObject_plain, neutral_overrides|done| |].
  - unfold watch_event, isOwnedByUs. by rewrite Hown, Hl, bool_decide_true.
  - intros s req c k Hr Hget Hc Hu Hst. rewrite Hown, <-Hl in Hc. destruct (objects s !! k) as [old|] eqn:Hk.
    + apply keeps_object; [done| |done]. intros v Hv. left. by apply Hu.
    + apply (absent_Reconcile k req r s c); [done..|congruence|done|done].
Qed.
End back.
