(* ===== verification/SyncRun.v ===== *)
(** * The sync reconciler on a concrete pair of clusters

    An executable model of the two API servers that satisfies the laws of
    [SyncSafe], and runs of the reconciler on it. *)

From stdpp Require Import gmap strings list.
From S2P Require Import Prelude Errors Types Match Util ManagedReconciler Conditions Manager Sync SyncOwner SyncSafe SyncEffect.
Open Scope string_scope.

(** The peer, and the local cluster: its API server, and what the cache of the client
    holds when it lags behind. *)
Record Mesh := mkMesh {
  peer_objects : gmap ObjKey Object;
  local_objects : gmap ObjKey Object;
  local_cache : option (gmap ObjKey Object);
  local_namespaces : list string;
  known_clusters : list (bool * string);
  cluster_resources : list Cluster;
  recorded : list Event }.

Definition set_local (m : gmap ObjKey Object) (s : Mesh) : Mesh :=
  mkMesh (peer_objects s) m (local_cache s) (local_namespaces s) (known_clusters s) (cluster_resources s) (recorded s).

(** What the client reads. *)
Definition local_view (s : Mesh) : gmap ObjKey Object := default (local_objects s) (local_cache s).

#[refine] Instance list_alive : AliveClusters (list (bool * string)) := {|
  alive_by_id m id := bool_decide ((true, id) ∈ m);
  cluster_states m := m |}.
Proof. intros m id. apply bool_decide_eq_true. Defined.

Definition read_object (m : gmap ObjKey Object) (g : GroupVersionKind) (k : NamespacedName) : result error Object :=
  match m !! (g, k) with
  | None => Err (StatusError NotFound "not found")
  | Some o => if bool_decide (obj_key o = k ∧ obj_gvk o = g) then Ok o
              else Err (StatusError (OtherReason "malformed") "malformed")
  end.

(** The annotation that the object reconciler leaves on what it writes. *)
Definition last_applied : string := "banzaicloud.com/last-applied".

(** An object as the server stores it. *)
Definition store_form (o : Object) : Object :=
  SetResourceVersion "1" (set_meta (with_annotations (<[last_applied := "applied"]> (obj_annotations o)) (obj_meta o))
    (with_type None (set_gvk (GVKForObject o) o))).

(** The kinds whose status updates touch the status only: those outside of the core
    group, in this model. *)
Definition custom (g : GroupVersionKind) : bool := bool_decide (Group g ≠ "").

Definition status_of (o cur : Object) : Object :=
  mkObject (obj_type cur) (obj_gvk cur)
    (if custom (GVKForObject o) then obj_meta cur
     else with_labels (obj_labels o) (with_annotations (obj_annotations o) (obj_meta cur)))
    (obj_body cur) (obj_status o).

(** A deletion marks an object that has finalizers. *)
Definition marked (o : Object) : Object :=
  set_meta (mkObjectMeta (om_Name (obj_meta o)) (om_Namespace (obj_meta o)) (om_UID (obj_meta o))
    (om_ResourceVersion (obj_meta o)) (om_Generation (obj_meta o)) (om_SelfLink (obj_meta o))
    (om_CreationTimestamp (obj_meta o)) (Some 0%Z) (obj_labels o) (obj_annotations o)
    (om_Finalizers (obj_meta o)) (om_OwnerReferences (obj_meta o)) (om_ManagedFields (obj_meta o))) o.

Definition delete_object (k : ObjKey) (o : Object) (m : gmap ObjKey Object) : gmap ObjKey Object :=
  if nonempty (om_Finalizers (obj_meta o)) then <[k := marked o]> m else delete k m.

(** An update of a version that is not the stored one is a conflict, and an object that
    is there is not created again. *)
Definition reconcile_object (o : Object) (ds : DesiredState) (s : Mesh) : option error * Mesh :=
  match local_view s !! target o with
  | Some cur =>
      if ShouldUpdate ds cur o then
        match local_objects s !! target o with
        | Some stored =>
            if bool_decide (om_ResourceVersion (obj_meta stored) = om_ResourceVersion (obj_meta cur))
            then (None, set_local (<[target o := store_form o]> (local_objects s)) s)
            else (Some (StatusError Conflict "conflict"), s)
        | None => (Some (StatusError NotFound "not found"), s)
        end
      else (None, s)
  | None =>
      if ShouldCreate ds o then
        match local_objects s !! target o with
        | None => (None, set_local (<[target o := store_form o]> (local_objects s)) s)
        | Some _ => (Some (StatusError AlreadyExists "already exists"), s)
        end
      else (None, s)
  end.

Definition list_objects (m : gmap ObjKey Object) (g : GroupVersionKind) (ns : string) (l : gmap string string)
    : list Object :=
  (filter (λ kv : ObjKey * Object, kv.1 = (g, obj_key kv.2) ∧ obj_gvk kv.2 = g ∧ l ⊆ obj_labels kv.2
                   ∧ (ns = "" ∨ om_Namespace (obj_meta kv.2) = ns)) (map_to_list m)).*2.

(** A context that was cancelled. *)
Definition cancelled_ctx : list nat := [9].

#[local] Instance mesh_env : SyncEnv (list (bool * string)) Mesh := {|
  remote_Get g k s := (read_object (peer_objects s) g k, s);
  local_Get g k s := (read_object (local_view s) g k, s);
  local_List g n l s := (Ok (list_objects (local_view s) g n l), s);
  local_Delete g k s :=
    match local_objects s !! (g, k) with
    | None => (Some (StatusError NotFound "not found"), s)
    | Some o => (None, set_local (delete_object (g, k) o (local_objects s)) s)
    end;
  local_StatusUpdate o s :=
    match local_objects s !! target o with
    | None => (Some (StatusError NotFound "not found"), s)
    | Some cur => (None, set_local (<[target o := status_of o cur]> (local_objects s)) s)
    end;
  local_GetNamespace n s :=
    (if bool_decide (n ∈ local_namespaces s) then None else Some (StatusError NotFound n), s);
  ReconcileResource o ds s := reconcile_object o ds s;
  RateLimit _ s := (Ok false, s);
  RecordEvent e s :=
    (tt, mkMesh (peer_objects s) (local_objects s) (local_cache s) (local_namespaces s) (known_clusters s)
           (cluster_resources s) (recorded s ++ [e])%list);
  manager_of s := known_clusters s;
  remote_Review _ s := (Ok true, s);
  local_Review _ s := (Ok true, s);
  local_NewClient s := (None, s);
  local_NewDelegatingClient s := (None, s);
  local_NewCache s := (None, s);
  local_WaitForCacheSync x s := (match x with Some x => bool_decide (x ≠ cancelled_ctx) | None => false end, s);
  local_GetInformer _ s := (None, s);
  ctrl_Watch _ s := (None, s) |}.

#[local] Instance mesh_clusters : ClusterClient Mesh := {|
  client_GetCluster n s :=
    (match filter (λ c, cl_Name c = n) (cluster_resources s) with
     | c :: _ => Ok c | [] => Err (StatusError NotFound n) end, s);
  client_ListClusters s := (Ok (cluster_resources s), s);
  client_StatusUpdate _ s := (None, s);
  client_GetNamespaceUID _ s := (Ok "local-id", s) |}.

Existing Instance chain_lib.
Existing Instance subset_selectors.

#[local] Instance no_content : ContentLib := {|
  json_Marshal _ := Err (errorString "not used");
  gjson_GetBytes _ _ := mkGjson false 0 "" |}.
#[local] Instance no_templates : TemplateLib TemplateData := {|
  template_Parse _ := Err (errorString "not used");
  PointerToString o := default "" o |}.
#[local] Instance no_patches : PatchLib := {|
  ServiceIPModifier _ desired := Ok desired;
  pluralize_Plural k := k ++ "s";
  PatchYAMLModifier _ _ := Err (errorString "not used");
  dropped_annotations := ["kubectl.kubernetes.io/last-applied-configuration"; last_applied];
  scheme_knows g := bool_decide (g = mkGVK "" "v1" "Secret") |}.

(** A read may return what the server has, or what the cache holds. *)
Definition may_read (s : Mesh) (k : ObjKey) (v : option Object) : Prop :=
  v = local_objects s !! k ∨ ∃ c, local_cache s = Some c ∧ v = c !! k.

Lemma may_read_view s k : may_read s k (local_view s !! k).
Proof. unfold may_read, local_view. destruct (local_cache s) as [c|]; simpl; [right; by exists c|by left]. Qed.

(** A write at one key. *)
Lemma set_local_writes k m (s : Mesh) :
  (∀ k', k' ≠ k → m !! k' = local_objects s !! k') →
  known_clusters (set_local m s) = known_clusters s
  ∧ (∀ k', k' ≠ k → m !! k' = local_objects s !! k' ∧ ∀ v, may_read (set_local m s) k' v → may_read s k' v)
  ∧ (∀ o, may_read (set_local m s) k (Some o) → may_read s k (Some o) ∨ m !! k = Some o).
Proof.
  intros Hm. split; [done|]. split.
  - intros k' Hne. split; [by apply Hm|]. intros v [Hv|Hv]; [left; simpl in *; by rewrite <-Hm|by right].
  - intros o [Ho|Ho]; [right; by simpl in Ho|left; by right].
Qed.

Lemma unchanged_writes k (s : Mesh) :
  known_clusters s = known_clusters s
  ∧ (∀ k', k' ≠ k → local_objects s !! k' = local_objects s !! k' ∧ ∀ v, may_read s k' v → may_read s k' v)
  ∧ (∀ o, may_read s k (Some o) → may_read s k (Some o) ∨ local_objects s !! k = Some o).
Proof. split_and!; [done| |]; auto. Qed.

Lemma insert_elsewhere (k k' : ObjKey) (o : Object) m : k' ≠ k → <[k := o]> m !! k' = (m : gmap ObjKey Object) !! k'.
Proof. intros. by rewrite lookup_insert_ne. Qed.

#[local] Instance mesh_laws : SyncEnvLaws (list (bool * string)) Mesh.
Proof.
  refine {| objects := local_objects; visible := may_read; status_only := λ g, custom g = true;
            stored_body := eq |}; try (intros; by split_and!); try (by left).
  - intros g k s. simpl. unfold read_object. pose proof (may_read_view s (g, k)) as Hv.
    destruct (local_view s !! (g, k)) as [o|] eqn:Ho; simpl; [|done].
    case_bool_decide as Hb; simpl; [|done]. exists (obj_type o). destruct Hb. split_and!; [|done..]. by destruct o.
  - intros g n l s items [= <-] o. unfold list_objects. rewrite list_elem_of_fmap.
    intros ([[g' k'] o'] & -> & [(Hk & Hg & Hl & Hns) Hin]%list_elem_of_filter). simpl in *.
    apply elem_of_map_to_list in Hin. injection Hk as -> ->. split_and!; [done..|].
    exists (obj_type o'). pose proof (may_read_view s (g, obj_key o')) as Hv. rewrite Hin in Hv. by destruct o'.
  - intros g k s. simpl. destruct (local_objects s !! (g, k)) as [o|] eqn:Ho; simpl;
      [|split; [apply unchanged_writes|by split; [left|]]].
    split.
    + apply set_local_writes. intros k' Hne. unfold delete_object.
      destruct (nonempty _); [by apply insert_elsewhere|by rewrite lookup_delete_ne].
    + unfold delete_object. destruct (nonempty _); [right|left; apply lookup_delete_eq].
      exists o, (marked o). by rewrite lookup_insert_eq.
  - intros o s. simpl. destruct (local_objects s !! target o) as [cur|] eqn:Ho; simpl.
    + split; [apply set_local_writes; intros; by apply insert_elsewhere|].
      exists (status_of o cur). rewrite lookup_insert_eq. split; [done|]. unfold status_of.
      destruct (custom (GVKForObject o)) eqn:Hc; [by left|right]. by split_and!.
    + split; [apply unchanged_writes|done].
  - intros o ds s. simpl. unfold reconcile_object. pose proof (may_read_view s (target o)) as Hv.
    destruct (local_view s !! target o) as [cur|] eqn:Ho.
    + destruct (ShouldUpdate ds cur o) eqn:Hu; [|split; [apply unchanged_writes|by left]].
      destruct (local_objects s !! target o) as [stored|]; [|split; [apply unchanged_writes|by left]].
      case_bool_decide; [|split; [apply unchanged_writes|by left]].
      split; [apply set_local_writes; intros; by apply insert_elsewhere|]. right. left. by exists cur.
    + destruct (ShouldCreate ds o) eqn:Hu; [|split; [apply unchanged_writes|by left]].
      destruct (local_objects s !! target o) eqn:Hs; [split; [apply unchanged_writes|by left]|].
      split; [apply set_local_writes; intros; by apply insert_elsewhere|]. right. right. by split_and!.
  - intros o ds s Hno Hsc. simpl in *. unfold reconcile_object.
    rewrite (Hno _ (may_read_view s (target o))), Hsc. assert (local_objects s !! target o = None) as -> by (apply Hno; by left).
    intros _. simpl. rewrite lookup_insert_eq. exists (store_form o). split_and!; [done|done|reflexivity| |done].
    intros a v Ha Hv. unfold store_form, obj_annotations at 1. simpl. rewrite lookup_insert_ne; [done|].
    intros <-. apply Ha. right. left.
Defined.

(** ** A rule, a peer and an object *)

Definition service_kind : GroupVersionKind := mkGVK "" "v1" "Service".
Definition no_mutations (status : bool) : Mutations := mkMutations None None None [] status.
Definition all_objects : SyncRuleMatch := mkSyncRuleMatch [] [] [] [] (mkNamespacedName "" "").
Definition bad_match : SyncRuleMatch :=
  mkSyncRuleMatch [] [] [mkLabelSelector ∅ [mkLabelSelectorRequirement "k" "bad" []]] [] (mkNamespacedName "" "").
Definition rule_with (m : SyncRuleMatch) (status : bool) : ResourceSyncRule :=
  mkResourceSyncRule (named_meta "rule" "") (mkResourceSyncRuleSpec [] service_kind [mkSyncRule [m] (no_mutations status)]).
Definition reconciler_with (rule : ResourceSyncRule) (renamed : bool) : syncReconciler :=
  mkSyncReconciler (NewManagedReconciler "sync") service_kind service_kind "local-id" false "peer-id" rule ∅ true true true renamed false.

Definition cm_key : NamespacedName := mkNamespacedName "cm" "default".
Definition cm (anns : gmap string string) (status : json) : Object :=
  mkObject None service_kind (with_annotations anns (named_meta "cm" "default")) (JStr "data") status.
Definition owned_by (i : string) : gmap string string := {[ OwnershipAnnotation := i ]}.

Definition mesh (peer local : gmap ObjKey Object) : Mesh :=
  mkMesh peer local None ["default"] [(true, "peer-id"); (true, "third-id")] [] [].

Definition r0 : syncReconciler := reconciler_with (rule_with all_objects false) false.

(** The peer has the object, the local cluster has not. *)
Definition to_create : Mesh := mesh {[ (service_kind, cm_key) := cm ∅ JNull ]} ∅.
(** The object is gone from the peer, its copy is left. *)
Definition to_delete : Mesh := mesh ∅ {[ (service_kind, cm_key) := cm (owned_by "peer-id") JNull ]}.
(** Both clusters have an object of that name of their own. *)
Definition clash : Mesh :=
  mesh {[ (service_kind, cm_key) := cm ∅ (JStr "peer status") ]} {[ (service_kind, cm_key) := cm ∅ (JStr "own status") ]}.

Lemma rule_matches : ResourceSyncRule_Match (sr_rule r0) (cm ∅ JNull)
  = mkMatchOutcome true (Rules (rsr_Spec (sr_rule r0))) None.
Proof. vm_compute. reflexivity. Qed.

(** The cache is in step with the server. *)
Lemma in_step (s : Mesh) k v : local_cache s = None → may_read s k v → v = local_objects s !! k.
Proof. intros Hc [?|(c & Hs & _)]; [done|congruence]. Qed.

(** The same state with a cache that lags behind. *)
Definition with_cache (c : gmap ObjKey Object) (s : Mesh) : Mesh :=
  mkMesh (peer_objects s) (local_objects s) (Some c) (local_namespaces s) (known_clusters s)
    (cluster_resources s) (recorded s).

(** The local object was created after the last update of the cache. *)
Definition unseen_clash : Mesh := with_cache ∅ clash.

Lemma sync_protects_local_objects_witness :
  ∃ o', objects (Reconcile cm_key (r0, unseen_clash)).2.2 !! (service_kind, cm_key) = Some o'
        ∧ same_spec (cm ∅ (JStr "own status")) o'.
Proof.
  refine (sync_protects_local_objects cm_key r0 unseen_clash (service_kind, cm_key) (cm ∅ (JStr "own status")) _ _ _).
  - vm_compute. reflexivity.
  - intros c [Hc|(m & [= <-] & Hc)]; [|by rewrite lookup_empty in Hc]. left. vm_compute in Hc. injection Hc as ->.
    vm_compute. reflexivity.
  - right. vm_compute. reflexivity.
Defined.

Lemma reconcile_creates_copy_witness :
  ∃ new, objects (reconcile cm_key (r0, to_create)).2.2 !! (service_kind, cm_key) = Some new
         ∧ obj_key new = cm_key ∧ obj_body new = JStr "data" ∧ obj_annotations new !! OwnershipAnnotation = Some "peer-id".
Proof.
  pose proof (reconcile_creates_copy cm_key r0 to_create (cm ∅ JNull) (Rules (rsr_Spec (sr_rule r0)))
    eq_refl eq_refl rule_matches ltac:(repeat constructor) (λ v, in_step to_create _ v eq_refl) eq_refl) as H.
  destruct (reconcile cm_key (r0, to_create)) as [out w'] eqn:E.
  assert (out = (Result_zero, None)) as -> by (apply (f_equal fst) in E; vm_compute in E; symmetry; exact E).
  destruct (H eq_refl eq_refl) as (new & Hn & Hk & Hb & _ & Ha). exists new.
  split_and!; [exact Hn|exact Hk|symmetry; exact Hb|].
  apply (Ha OwnershipAnnotation None "peer-id"); [|discriminate| |vm_compute; reflexivity].
  - apply (bool_decide_unpack _). vm_compute. exact I.
  - split; intros _; [reflexivity|vm_compute; reflexivity].
Defined.

(** A copy with a finalizer. *)
Definition guarded (o : Object) : Object :=
  set_meta (mkObjectMeta (om_Name (obj_meta o)) (om_Namespace (obj_meta o)) "" "" 0 "" None None (obj_labels o)
    (obj_annotations o) ["finalizer"] [] []) o.
Definition to_delete_guarded : Mesh :=
  mesh ∅ {[ (service_kind, cm_key) := guarded (cm (owned_by "peer-id") JNull) ]}.

Lemma reconcile_deletes_copy_witness :
  ∃ new, objects (reconcile cm_key (r0, to_delete_guarded)).2.2 !! (service_kind, cm_key) = Some new
         ∧ being_deleted new.
Proof.
  pose proof (reconcile_deletes_copy cm_key r0 to_delete_guarded (StatusError NotFound "not found")
    eq_refl eq_refl eq_refl eq_refl) as H. cbv zeta in H.
  destruct (reconcile cm_key (r0, to_delete_guarded)) as [out w'] eqn:E.
  assert (Hout : out.2 = None) by (apply (f_equal fst) in E; vm_compute in E; subst out; reflexivity).
  assert (Hthere : is_Some (objects w'.2 !! (service_kind, cm_key))).
  { assert (w' = (reconcile cm_key (r0, to_delete_guarded)).2) as -> by (rewrite E; reflexivity).
    apply (bool_decide_unpack _). vm_compute. exact I. }
  destruct H as [Hn|(new & Hn & Hd)]; [|exact Hout| |by exists new].
  - intros v Hv. apply in_step in Hv; [|reflexivity]. vm_compute in Hv. eexists. split; [exact Hv|].
    split; [vm_compute; discriminate|]. intros (_ & Hne & _). apply Hne. vm_compute. reflexivity.
  - change (objects w'.2 !! (service_kind, cm_key) = None) in Hn. rewrite Hn in Hthere. by destruct Hthere.
Defined.

(** Two rules that change labels and annotations. *)
Definition label_rules : list SyncRule :=
  [mkSyncRule [] (mkMutations (Some (mkMetaMutations {[ "note" := "1" ]} [])) None
                    (Some (mkMetaMutations {[ "team" := "a" ]} [])) [] false);
   mkSyncRule [] (mkMutations (Some (mkMetaMutations ∅ ["note"])) None
                    (Some (mkMetaMutations {[ "team" := "b" ]} [])) [] false)].

Lemma mutateObject_correct_witness :
  ∃ o', mutateObject (cm {[ "note" := "0" ]} JNull) label_rules (r0, to_create) = (Ok o', (r0, to_create))
        ∧ obj_labels o' !! "team" = Some "b" ∧ obj_annotations o' !! "note" = None.
Proof.
  destruct (mutateObject_correct r0 to_create (cm {[ "note" := "0" ]} JNull) label_rules) as
    (o' & Hm & _ & _ & _ & _ & _ & Hl & _ & _ & Ha); [repeat constructor|].
  exists o'. split; [exact Hm|]. split.
  - apply (Hl "team" (Some "b")). split; [|reflexivity]. intros (rule & mm & Hin & Hmm & Hk).
    repeat (apply elem_of_cons in Hin as [->|Hin]; [injection Hmm as <-; by apply elem_of_nil in Hk|]).
    by apply elem_of_nil in Hin.
  - apply (Ha "note" None); [| |split; [reflexivity|]].
    + apply (bool_decide_unpack _). vm_compute. exact I.
    + discriminate.
    + intros Hno. destruct Hno. eexists _, (mkMetaMutations ∅ ["note"]). split; [right; left|]. split; [reflexivity|left].
Defined.

Definition bad_rule_reconciler : syncReconciler := reconciler_with (rule_with bad_match false) false.

Lemma match_error_is_swallowed_witness :
  (Reconcile cm_key (bad_rule_reconciler, to_create)).1 = (Result_zero, None).
Proof.
  refine (match_error_is_swallowed cm_key bad_rule_reconciler to_create (cm ∅ JNull) _ _ _);
    [vm_compute; reflexivity|vm_compute; reflexivity|vm_compute; discriminate].
Defined.

Definition renamed_once : syncReconciler := reconciler_with (rule_with all_objects false) true.

Lemma unlabelled_copy_is_never_deleted_witness :
  objects (deleteResource (initObjectFromGVK service_kind cm_key) (renamed_once, to_delete)).2.2 !! (service_kind, cm_key)
  = Some (cm (owned_by "peer-id") JNull).
Proof.
  refine (unlabelled_copy_is_never_deleted (initObjectFromGVK service_kind cm_key) renamed_once to_delete
    (service_kind, cm_key) _ _); [vm_compute; reflexivity|].
  intros c Hc. apply in_step in Hc; [|reflexivity]. vm_compute in Hc. injection Hc as ->. vm_compute. reflexivity.
Defined.

Definition secret_kind : GroupVersionKind := mkGVK "" "v1" "Secret".
Definition secret_reconciler : syncReconciler :=
  mkSyncReconciler (NewManagedReconciler "sync") secret_kind secret_kind "local-id" false "peer-id" (rule_with all_objects false) ∅ true true true true false.

Lemma renamed_copy_is_listed_without_kind_witness :
  find_copy (initObjectFromGVK secret_kind cm_key) (secret_reconciler, to_delete)
  = getObjectByOriginalNamespaceAndName (initObjectFromGVK secret_kind cm_key) GVK_zero
      (secret_reconciler, to_delete).
Proof.
  exact (renamed_copy_is_listed_without_kind cm_key secret_reconciler to_delete eq_refl eq_refl eq_refl).
Defined.

Definition peer_side : syncReconciler :=
  mkSyncReconciler (NewManagedReconciler "sync") service_kind service_kind "peer-id" false "local-id" (rule_with all_objects false) ∅ true true true false false.

(** The peer has a copy of an object of the local cluster. *)
Definition copied_out : Mesh :=
  mesh {[ (service_kind, cm_key) := cm (owned_by "local-id") JNull ]} {[ (service_kind, cm_key) := cm ∅ JNull ]}.

Lemma no_copy_back_witness :
  ∃ new, objects (Reconcile cm_key (r0, copied_out)).2.2 !! (service_kind, cm_key) = Some new
         ∧ same_spec (cm ∅ JNull) new.
Proof.
  assert (Hneutral : Forall owner_neutral (Rules (rsr_Spec (sr_rule r0)))) by (repeat constructor; set_solver).
  destruct (no_copy_back peer_side to_create (cm ∅ JNull) (Rules (rsr_Spec (sr_rule r0))) r0)
    as (copy & _ & Hown & _ & H); [reflexivity|exact Hneutral| |reflexivity|discriminate|].
  { apply (bool_decide_unpack _). vm_compute. exact I. }
  refine (H copied_out cm_key (cm (owned_by "local-id") JNull) (service_kind, cm_key) Hneutral _ _ _ _).
  - vm_compute. reflexivity.
  - rewrite Hown. vm_compute. reflexivity.
  - intros c Hc. apply in_step in Hc; [|reflexivity]. vm_compute in Hc. injection Hc as ->. vm_compute. reflexivity.
  - right. vm_compute. reflexivity.
Defined.

(** With status synchronisation on, the status of a local object is overwritten
    even when the ownership rules refuse to update it. For a kind whose status updates
    carry labels and annotations, the object of the local cluster even gets the owner
    of the copy: from then on it is updated and deleted as a copy. *)
Theorem status_of_protected_object_overwritten :
  let r := reconciler_with (rule_with all_objects true) false in
  let own := cm ∅ (JStr "own status") in
  let after := local_objects (Reconcile cm_key (r, clash)).2.2 !! (service_kind, cm_key) in
  protected (sr_clusterID r) (manager_of clash) own
  ∧ ShouldUpdate (getObjectDesiredState r (manager_of clash)) own (cm ∅ (JStr "peer status")) = false
  ∧ (obj_status <$> local_objects clash !! (service_kind, cm_key)) = Some (JStr "own status")
  ∧ (obj_status <$> after) = Some (JStr "peer status")
  ∧ (owner_of <$> after) = Some "peer-id".
Proof. split_and!; [left|..]; vm_compute; reflexivity. Qed.

(** A deletion names no version. When the cache still shows a copy that users have
    replaced by an object of their own, that object is deleted. *)
Definition replaced_copy : Mesh :=
  with_cache {[ (service_kind, cm_key) := cm (owned_by "peer-id") JNull ]}
    (mesh ∅ {[ (service_kind, cm_key) := cm ∅ (JStr "of the user") ]}).

Theorem stale_cache_deletes_user_object :
  (owner_of <$> local_objects replaced_copy !! (service_kind, cm_key)) = Some ""
  ∧ (Reconcile cm_key (r0, replaced_copy)).1.2 = None
  ∧ local_objects (Reconcile cm_key (r0, replaced_copy)).2.2 !! (service_kind, cm_key) = None.
Proof. split_and!; vm_compute; reflexivity. Qed.
