(* ===== verification/SyncController.v ===== *)
(** * The sync reconciler under a managed controller

    The pre-checks of controllers/sync_reconciler.go against the permissions of the
    two clusters, and the sync reconciler as an instance of the interface that a
    managed controller works with. *)

From stdpp Require Import gmap strings list.
From S2P Require Import Prelude Errors Types Match Util Cluster ManagedReconciler ManagedController Conditions Manager Sync SyncRun.
Open Scope string_scope.
Open Scope go_scope.

(** What the set-up relies on: an access review stores nothing, a client is built from
    the configuration alone, and a cache does not sync under a context that is done. *)
Class AccessLaws (M S : Type) `{SE : SyncEnv M S} (done : ctx → Prop) : Type := {
  remote_allows : ResourceAttributes → result error bool;
  local_allows : ResourceAttributes → result error bool;
  client_error : option error;
  remote_Review_pure a s : remote_Review a s = (remote_allows a, s);
  local_Review_pure a s : local_Review a s = (local_allows a, s);
  local_NewClient_pure s : local_NewClient s = (client_error, s);
  local_sync_dead x s : done x → (local_WaitForCacheSync (Some x) s).1 = false }.

Section controller.
Context {M S : Type} `{AC : AliveClusters M} `{SE : !SyncEnv M S} `{CC : !ClusterClient S}.
Context `{EL : ErrorLib} `{SL : SelectorLib} `{CL : ContentLib} `{TL : !TemplateLib TemplateData} `{PL : PatchLib}.

(** ** The pre-checks *)

Section laws.
Context (done : ctx → Prop) `{AL : !AccessLaws M S done}.

(** The verbs of a list are all allowed. *)
Definition all_allowed (allows : ResourceAttributes → result error bool) (g : GroupVersionKind) (verbs : list string) : Prop :=
  ∀ verb, verb ∈ verbs → allows (review_attributes verb g) = Ok true.

(** The first verb that is not allowed is reported. *)
Definition first_refusal (allows : ResourceAttributes → result error bool) (refusal : string → error)
    (g : GroupVersionKind) (verbs : list string) (e : error) : Prop :=
  ∃ pre verb post, verbs = (pre ++ verb :: post)%list ∧ all_allowed allows g pre
    ∧ (allows (review_attributes verb g) = Ok false ∧ e = refusal verb
       ∨ ∃ e', allows (review_attributes verb g) = Err e' ∧ e = WrapIf e' "failed to create self subject access review").

Lemma review_loop_spec review allows refusal g verbs (w : syncReconciler * S) :
  (∀ a s, review a s = (allows a, s)) →
  (review_loop review refusal g verbs w).2 = w
  ∧ match (review_loop review refusal g verbs w).1 with
    | None => all_allowed allows g verbs
    | Some e => first_refusal allows refusal g verbs e
    end.
Proof.
  intros Hr. destruct w as [r s]. induction verbs as [|v vs IH]; simpl.
  { split; [done|]. intros verb Hv. by apply not_elem_of_nil in Hv. }
  unfold Sync.on_env, st_bind. simpl. rewrite Hr. simpl.
  destruct (allows (review_attributes v g)) as [[|]|e] eqn:Ha; simpl.
  - destruct IH as [IH1 IH2]. split; [done|]. destruct (review_loop _ _ _ vs _) as [[e|] w']; simpl in *.
    + destruct IH2 as (pre & verb & post & -> & Hp & He). exists (v :: pre), verb, post. split_and!; [done| |done].
      by intros u [->|Hu]%elem_of_cons; [|apply Hp].
    + by intros u [->|Hu]%elem_of_cons; [|apply IH2].
  - split; [done|]. exists [], v, vs. split_and!; [done|by intros u Hu%not_elem_of_nil|by left].
  - split; [done|]. exists [], v, vs. split_and!; [done|by intros u Hu%not_elem_of_nil|]. right. by eexists.
Qed.

Lemma refusal_not_allowed allows refusal g verbs e :
  first_refusal allows refusal g verbs e → ¬ all_allowed allows g verbs.
Proof.
  intros (pre & verb & post & -> & _ & Hv) Hall.
  assert (allows (review_attributes verb g) = Ok true) as Ht by (apply Hall; set_solver).
  destruct Hv as [[Hf _]|(e' & He & _)]; congruence.
Qed.

#[local] Arguments review_loop : simpl never.

Lemma PreCheck_keeps r s : (PreCheck (r, s)).2 = (r, s).
Proof.
  unfold PreCheck, writePreCheck, get_rec, Sync.on_env, st_bind. simpl.
  match goal with |- context [review_loop remote_Review ?rf ?g ?vs (r, s)] =>
    destruct (review_loop_spec remote_Review remote_allows rf g vs (r, s) remote_Review_pure) as [Hw _];
    destruct (review_loop remote_Review rf g vs (r, s)) as [[e|] w'] end; simpl in *; subst w'; [done|].
  simpl. rewrite local_NewClient_pure. destruct client_error as [e|]; simpl; [done|].
  by apply (review_loop_spec local_Review local_allows), local_Review_pure.
Qed.

(** The pre-check passes exactly when the local client can be made, the peer lets
    the controller read the kind of the rule and the local cluster lets it write the
    kind of the copies. It changes nothing. When it fails the error is that of the
    client, or of the first verb that is refused or whose review fails, reading on
    the peer before writing on the local cluster. *)
Theorem PreCheck_correct r s :
  (PreCheck (r, s)).2 = (r, s)
  ∧ ((PreCheck (r, s)).1 = None ↔
      all_allowed remote_allows (sr_gvk r) read_verbs ∧ client_error = None
      ∧ all_allowed local_allows (localGVK r) write_verbs)
  ∧ (∀ e, (PreCheck (r, s)).1 = Some e →
      first_refusal remote_allows
        (λ verb, errorString ("do not have access to " ++ verb ++ " gvk: " ++ GVK_String (sr_gvk r)))
        (sr_gvk r) read_verbs e
      ∨ all_allowed remote_allows (sr_gvk r) read_verbs
        ∧ ((∃ e', client_error = Some e' ∧ e = WrapIf e' "error creating local client")
           ∨ client_error = None ∧ first_refusal local_allows
               (λ verb, errorString ("do not have local access to " ++ verb ++ " gvk: " ++ GVK_String (sr_gvk r)))
               (localGVK r) write_verbs e)).
Proof.
  unfold PreCheck, writePreCheck, get_rec, Sync.on_env, st_bind. simpl.
  match goal with |- context [review_loop remote_Review ?rf ?g ?vs (r, s)] =>
    pose proof (review_loop_spec remote_Review remote_allows rf g vs (r, s) remote_Review_pure) as [Hw Hr];
    destruct (review_loop remote_Review rf g vs (r, s)) as [[e|] w'] end; simpl in *; subst w'.
  { pose proof (refusal_not_allowed _ _ _ _ _ Hr). split_and!; [done|naive_solver|]. intros e' [= <-]. by left. }
  simpl. rewrite local_NewClient_pure. destruct client_error as [e|] eqn:Hc; simpl.
  { split_and!; [done|naive_solver|]. intros e' [= <-]. right. split; [done|]. left. by exists e. }
  match goal with |- context [review_loop local_Review ?rf ?g ?vs (r, s)] =>
    pose proof (review_loop_spec local_Review local_allows rf g vs (r, s) local_Review_pure) as [Hw Hl];
    destruct (review_loop local_Review rf g vs (r, s)) as [[e|] w'] end; simpl in *; subst w'.
  - pose proof (refusal_not_allowed _ _ _ _ _ Hl). split_and!; [done|naive_solver|]. intros e' [= <-]. right. by auto.
  - by split_and!.
Qed.

(** ** The interface of a managed controller *)

#[export] Instance sync_reconciler_ops : ManagedReconcilerOps syncReconciler S := {|
  mr_base := sr_base;
  mr_set_base := set_base;
  mr_PreCheck := PreCheck;
  mr_Start := Start_sync;
  mr_SetupWithController := SetupWithController_sync |}.

(** The base of the reconciler, which the steps of the set-up after the first leave
    as it is. *)
Definition same_base (w w' : syncReconciler * S) : Prop := sr_base w'.1 = sr_base w.1.
#[local] Instance same_base_preorder : PreOrder same_base.
Proof. split; [by intros w|]. intros w1 w2 w3. unfold same_base. congruence. Qed.

Lemma same_base_env {A} (c : ST S A) : moves same_base (Sync.on_env c).
Proof. intros [r s]. unfold Sync.on_env. simpl. by destruct (c s). Qed.

Lemma same_base_cache : moves same_base Sync.createAndStartCache.
Proof.
  pose proof (λ A c, @same_base_env A c) as Henv. assert (moves same_base get_rec) by done.
  unfold Sync.createAndStartCache. moves_tac; apply Henv.
Qed.

Lemma same_base_client : moves same_base Sync.createClient.
Proof. pose proof (λ A c, @same_base_env A c) as Henv. unfold Sync.createClient. moves_tac; apply Henv. Qed.

Lemma Setup_sync_base x w : sr_base (SetupWithController_sync x w).2.1 = SetContext x (sr_base w.1).
Proof.
  destruct w as [r s]. unfold SetupWithController_sync, get_rec, modify_rec, Base_SetupWithController.
  cbv beta iota zeta delta [st_bind]. simpl.
  transitivity (sr_base (set_base (SetContext x (sr_base r)) r)); [|done].
  match goal with |- context [Sync.createAndStartCache ?w] => pose proof (same_base_cache w) as Hc end.
  destruct (Sync.createAndStartCache _) as [[e|] [r1 s1]]; simpl; [exact Hc|].
  match goal with |- context [Sync.createClient ?w] => pose proof (same_base_client w) as Hl end.
  destruct (Sync.createClient _) as [[e|] [r2 s2]]; unfold same_base in *; simpl in *; [by rewrite Hl|].
  unfold Sync.on_env. simpl. destruct (ctrl_Watch _ s2) as [[e|] s3]; simpl; [by rewrite Hl|].
  destruct (ctrl_Watch _ s3) as [[e|] s4]; simpl; by rewrite Hl.
Qed.

#[export] Instance sync_reconciler_laws : ManagedReconcilerLaws syncReconciler S done.
Proof.
  split.
  - done.
  - intros [r s]. simpl. by rewrite PreCheck_keeps.
  - exact Setup_sync_base.
  - intros x x' [r s] Hx Hd. simpl in *. unfold SetupWithController_sync, get_rec, modify_rec, Base_SetupWithController.
    cbv beta iota zeta delta [st_bind]. simpl. unfold Sync.createAndStartCache, Sync.on_env, get_rec, st_bind. simpl.
    destruct (local_NewCache s) as [[e|] s1]; simpl; [done|]. rewrite Hx.
    pose proof (local_sync_dead x' s1 Hd) as Hf. by destruct (local_WaitForCacheSync (Some x') s1) as [b s2]; simpl in *; subst b.
Qed.
End laws.
End controller.

(** ** A concrete controller *)

Existing Instance mesh_env.
Existing Instance mesh_clusters.
Existing Instance chain_lib.
Existing Instance subset_selectors.
Existing Instance no_content.
Existing Instance no_templates.
Existing Instance no_patches.

Definition mesh_done (x : ctx) : Prop := x = cancelled_ctx.

#[local] Instance mesh_access : AccessLaws (list (bool * string)) Mesh mesh_done.
Proof.
  refine {| remote_allows := λ _, Ok true; local_allows := λ _, Ok true; client_error := None |}; try done.
  intros x s ->. reflexivity.
Defined.

#[local] Instance mesh_runtime : ControllerRuntime Mesh := {|
  controller_NewUnmanaged _ s := (None, s);
  cache_New s := (None, s);
  cache_WaitForCacheSync x s := (bool_decide (x ≠ cancelled_ctx), s);
  client_New s := (Ok 1, s);
  client_NewDelegatingClient _ s := (Ok 2, s);
  controller_InjectFunc s := (None, s);
  manager_WaitForCacheSync _ s := (true, s);
  controller_Start _ s := (None, s) |}.

(** The controller of a rule, with the base [b]. *)
Definition mesh_controller (b : ManagedReconcilerBase) : ctrlState syncReconciler * Mesh :=
  (mkCtrlState "sync" (set_base b r0) None false None None None false, to_create).

Lemma PreCheck_correct_witness : (PreCheck (r0, to_create)).1 = None ∧ (PreCheck (r0, to_create)).2 = (r0, to_create).
Proof.
  destruct (PreCheck_correct mesh_done r0 to_create) as (Hw & Hn & _). split; [|exact Hw].
  apply Hn. split; [by intros verb _|split; [reflexivity|by intros verb _]].
Defined.

Lemma start_sets_up_witness :
  set_up mesh_done [0; 1] 7
    (check_loop 3 (begin_Start [0; 1] 7 (run_cleanup (mesh_controller (NewManagedReconciler "sync"))).2).2).2.
Proof.
  apply (start_sets_up mesh_done 3 [0; 1] 7 (mesh_controller (NewManagedReconciler "sync"))).
  vm_compute. reflexivity.
Defined.

(** The reconciler still has the cancelled context when the controller starts again. *)
Definition stale_base : ManagedReconcilerBase := SetContext cancelled_ctx (NewManagedReconciler "sync").

Lemma stale_context_blocks_restart_witness :
  (check_loop 100 (begin_Start [0; 2] 7 (mesh_controller stale_base)).2).1 = false.
Proof.
  apply (stale_context_blocks_restart mesh_done 100 cancelled_ctx
    (begin_Start [0; 2] 7 (mesh_controller stale_base)).2); reflexivity.
Defined.
