(* ===== verification/Ownership.v ===== *)
(** * The ownership protocol, abstractly

    What the sync reconcilers of a mesh do to the ownership of one object: for every
    cluster, whether it has the object and who owns it there. A copy is created with
    the cluster as owner that has the original; an update of a copy takes over the
    owner that the object of its owner has by then; a copy can be dropped. Users may
    remove objects and put objects of their own anywhere. *)

From stdpp Require Import base strings relations list gmap.
From S2P Require Import Prelude.
Open Scope string_scope.

(** For every cluster: no object, or the owner it names; an object of the cluster
    itself has no owner. *)
Definition ownership : Type := string → option string.

Definition only_at (i : string) (f f' : ownership) : Prop := ∀ n, n ≠ i → f' n = f n.

Inductive own_step (members : gset string) (f f' : ownership) : Prop :=
| own_user i : only_at i f f' → (f' i = None ∨ f' i = Some "") → own_step members f f'
| own_create i j :
    only_at i f f' → i ≠ j → j ∈ members → f i = None → f j = Some "" → f' i = Some j → own_step members f f'
| own_follow i j x :
    only_at i f f' → f i = Some j → j ≠ "" → f j = Some x → x ≠ "" → f' i = Some x → own_step members f f'
| own_drop i j : only_at i f f' → f i = Some j → j ≠ "" → f' i = None → own_step members f f'.

(** The copy at [n] names [m] as its owner. *)
Definition owned_by (f : ownership) (n m : string) : Prop := f n = Some m ∧ m ≠ "".

Definition acyclic (f : ownership) : Prop := ∀ n, ¬ tc (owned_by f) n n.

(** ** Acyclicity *)

Lemma acyclic_irrefl f n : acyclic f → f n ≠ Some n ∨ n = "".
Proof.
  intros Ha. destruct (decide (n = "")); [by right|]. left. intros Hn. by apply (Ha n), tc_once.
Qed.

Lemma acyclic_sub f f' : (∀ n m, owned_by f' n m → owned_by f n m) → acyclic f → acyclic f'.
Proof.
  intros Hsub Ha n Hn. apply (Ha n). revert Hn. generalize n at 2 4. induction 1 as [x y H|x y z H _ IH].
  - by apply tc_once, Hsub.
  - eapply tc_l; [by apply Hsub|done].
Qed.

Section redirect.
Context (f f' : ownership) (i y : string).
Context (Honly : only_at i f f') (Hy : f' i = Some y).

(** A path to [i] does not need the edge that leaves [i]. *)
Lemma path_to_redirected n : rtc (owned_by f') n i → rtc (owned_by f) n i.
Proof.
  intros H. remember i as z eqn:Hz. induction H as [|n m z [Hm Hne] _ IH]; subst; [done|].
  destruct (decide (n = i)) as [->|Hn]; [done|]. eapply rtc_l; [|by apply IH].
  split; [|done]. by rewrite <-(Honly n Hn).
Qed.

(** A path in the new graph is an old one, or passes through [i]. *)
Lemma path_passes n m : tc (owned_by f') n m → tc (owned_by f) n m ∨ (rtc (owned_by f') n i ∧ rtc (owned_by f') y m).
Proof.
  assert (Hedge : ∀ a b, owned_by f' a b → owned_by f a b ∨ (a = i ∧ b = y)).
  { intros a b [Ha Hb]. destruct (decide (a = i)) as [->|Hn]; [right; split; congruence|].
    left. split; [|done]. by rewrite <-(Honly a Hn). }
  induction 1 as [a b H|a b c H Hbc IH].
  - destruct (Hedge a b H) as [?|[-> ->]]; [left; by apply tc_once|right; by split].
  - destruct (Hedge a b H) as [Hab|[-> ->]].
    + destruct IH as [IH|[IH1 IH2]]; [left; by eapply tc_l|]. right. split; [|done]. by eapply rtc_l.
    + right. split; [done|]. by apply tc_rtc.
Qed.

Lemma acyclic_redirect : acyclic f → ¬ rtc (owned_by f) y i → acyclic f'.
Proof.
  intros Ha Hno n [Hn|[H1 H2]]%path_passes; [by apply (Ha n)|].
  apply Hno, path_to_redirected. by etrans.
Qed.
End redirect.

Lemma acyclic_forget f f' i : only_at i f f' → (f' i = None ∨ f' i = Some "") → acyclic f → acyclic f'.
Proof.
  intros Honly Hi. apply acyclic_sub. intros n m [Hn Hm]. split; [|done].
  destruct (decide (n = i)) as [->|Hne]; [destruct Hi; congruence|]. by rewrite <-Honly.
Qed.

(** Every step of the protocol keeps the owners free of cycles. *)
Lemma own_step_acyclic members f f' : own_step members f f' → acyclic f → acyclic f'.
Proof.
  intros [i Ho Hi|i j Ho Hne _ Hi Hj Hi'|i j x Ho Hi Hj Hjx Hx Hi'|i j Ho Hi Hj Hi'] Ha.
  - by eapply acyclic_forget.
  - apply (acyclic_redirect f f' i j Ho Hi' Ha). intros H. inversion H as [|? z ? [Hz ?] _]; [done|congruence].
  - apply (acyclic_redirect f f' i x Ho Hi' Ha). intros H. apply (Ha i).
    eapply tc_l; [by split|]. eapply tc_rtc_r; [by apply tc_once|done].
  - eapply acyclic_forget; eauto.
Qed.

(** Owners stay among the clusters of the mesh. *)
Definition owners_in (members : gset string) (f : ownership) : Prop :=
  ∀ n x, f n = Some x → x ≠ "" → x ∈ members.

Lemma own_step_owners_in members f f' : own_step members f f' → owners_in members f → owners_in members f'.
Proof.
  intros Hs Hin n x Hx Hne. assert (Hat : ∀ i, only_at i f f' → n ≠ i → x ∈ members).
  { intros i Ho Hn. apply (Hin n); [|done]. by rewrite <-(Ho n Hn). }
  destruct Hs as [i Ho Hi|i j Ho _ Hj _ _ Hi'|i j y Ho _ _ Hjx Hy Hi'|i j Ho _ _ Hi'];
    destruct (decide (n = i)) as [->|Hn]; eauto.
  - destruct Hi; congruence.
  - congruence.
  - apply (Hin j); [congruence|done].
  - congruence.
Qed.

(** In a finite mesh a chain of owners without a cycle ends: following the owners
    from any object leads to a cluster whose own object has no owner, or that has no
    object any more. *)
Fixpoint chain (fuel : nat) (f : ownership) (n : string) : option string :=
  match fuel with
  | 0 => None
  | S fuel' =>
      match f n with
      | Some m => if bool_decide (m = "") then Some n else chain fuel' f m
      | None => Some n
      end
  end.

Lemma chain_path fuel f n r : chain fuel f n = Some r → rtc (owned_by f) n r ∧ (f r = None ∨ f r = Some "").
Proof.
  revert n. induction fuel as [|fuel IH]; intros n; simpl; [done|].
  destruct (f n) as [m|] eqn:Hn; [|intros [= <-]; by split; [|auto]].
  case_bool_decide as Hm; [intros [= <-]; subst; by split; [|auto]|].
  intros [Hr Hend]%IH. split; [|done]. by eapply rtc_l.
Qed.

(** The clusters that were passed, by a chain that did not end. *)
Lemma chain_stuck fuel f n members :
  owners_in members f → chain fuel f n = None →
  ∃ path, length path = fuel ∧ (∀ m, m ∈ path → tc (owned_by f) n m ∧ m ∈ members)
          ∧ (acyclic f → NoDup path).
Proof.
  intros Hin. revert n. induction fuel as [|fuel IH]; intros n; simpl.
  { exists []. split_and!; [done|set_solver|constructor]. }
  destruct (f n) as [m|] eqn:Hn; [|done]. case_bool_decide as Hm; [done|]. intros Hc.
  assert (Hedge : owned_by f n m) by done. destruct (IH m Hc) as (path & Hl & Hp & Hnd).
  exists (m :: path). split_and!; [simpl; lia| |].
  - intros x [->|Hx]%elem_of_cons.
    + split; [by apply tc_once|by eapply Hin].
    + destruct (Hp x Hx) as [Ht Hmem]. split; [by eapply tc_l|done].
  - intros Ha. constructor; [|by apply Hnd]. intros Hx. by apply (Ha m), Hp.
Qed.

Lemma chain_ends members f n :
  owners_in members f → acyclic f → is_Some (chain (S (size members)) f n).
Proof.
  intros Hin Ha. destruct (chain (S (size members)) f n) eqn:Hc; [by eexists|]. exfalso.
  destruct (chain_stuck _ _ _ _ Hin Hc) as (path & Hl & Hp & Hnd). specialize (Hnd Ha).
  assert (Hsub : list_to_set path ⊆ members) by (intros x Hx%elem_of_list_to_set; by apply Hp).
  apply subseteq_size in Hsub. rewrite size_list_to_set in Hsub by done. lia.
Qed.
