(* ===== verification/Mesh.v ===== *)
(** * A mesh of clusters

    The sync reconcilers of several clusters together. Every cluster runs a
    reconciler per peer, which reads the API server of the peer and writes its own.
    Here: the world of such a mesh, its steps (the requests of all the reconcilers and
    the users, in any order), and what they keep. *)

From stdpp Require Import gmap strings list relations.
From S2P Require Import Prelude Errors Types Match Util Cluster Conditions Manager Sync SyncOwner SyncSafe SyncEffect Ownership.
Open Scope string_scope.
Open Scope go_scope.

(** ** The world *)

Section world.
Context {M L : Type} `{AC : AliveClusters M} `{SE : !SyncEnv M L} `{CC : !ClusterClient L}.

(** Every cluster, by its id, with what it holds: the API server, and the clients,
    the manager and the rate limiter of its controller. *)
Definition World : Type := string → L.

Definition set_node (n : string) (l : L) (w : World) : World := λ m, if decide (m = n) then l else w m.

Definition at_node {A} (n : string) (c : ST L A) : ST World A :=
  λ w, let '(a, l) := c (w n) in (a, set_node n l w).

(** The environment of the reconciler of cluster [i] for its peer [j]: what is remote
    for [i] is what [j] has locally. *)
Definition pair_env (i j : string) : SyncEnv M World := {|
  remote_Get g k := at_node j (local_Get g k);
  local_Get g k := at_node i (local_Get g k);
  local_List g n l := at_node i (local_List g n l);
  local_Delete g k := at_node i (local_Delete g k);
  local_StatusUpdate o := at_node i (local_StatusUpdate o);
  local_GetNamespace n := at_node i (local_GetNamespace n);
  ReconcileResource o ds := at_node i (ReconcileResource o ds);
  RateLimit k := at_node i (RateLimit k);
  RecordEvent e := at_node i (RecordEvent e);
  manager_of w := manager_of (w i);
  remote_Review a := at_node j (local_Review a);
  local_Review a := at_node i (local_Review a);
  local_NewClient := at_node i local_NewClient;
  local_NewDelegatingClient := at_node i local_NewDelegatingClient;
  local_NewCache := at_node i local_NewCache;
  local_WaitForCacheSync x := at_node i (local_WaitForCacheSync x);
  local_GetInformer g := at_node i (local_GetInformer g);
  ctrl_Watch src := at_node i (ctrl_Watch src) |}.

Definition node_client (i : string) : ClusterClient World := {|
  client_GetCluster n := at_node i (client_GetCluster n);
  client_ListClusters := at_node i client_ListClusters;
  client_StatusUpdate c := at_node i (client_StatusUpdate c);
  client_GetNamespaceUID n := at_node i (client_GetNamespaceUID n) |}.

Lemma set_node_eq n l w : set_node n l w n = l.
Proof. unfold set_node. by rewrite decide_True. Qed.
Lemma set_node_ne n m l w : m ≠ n → set_node n l w m = w m.
Proof. intros. unfold set_node. by rewrite decide_False. Qed.
End world.

Arguments World : clear implicits.

(** ** The laws of the members make the laws of every pair *)

Section pair.
Context {M L : Type} `{AC : AliveClusters M} `{SE : !SyncEnv M L} `{CC : !ClusterClient L} `{EL : ErrorLib} `{PL : PatchLib}.
Context `{SEL : !SyncEnvLaws M L} `{WL : !WriteLaws M L}.

Lemma at_node_result {A} n (c : ST L A) w : (at_node n c w).1 = (c (w n)).1.
Proof. unfold at_node. by destruct (c (w n)). Qed.
Lemma at_node_here {A} n (c : ST L A) w : (at_node n c w).2 n = (c (w n)).2.
Proof. unfold at_node. destruct (c (w n)). apply set_node_eq. Qed.
Lemma at_node_elsewhere {A} n (c : ST L A) w m : m ≠ n → (at_node n c w).2 m = w m.
Proof. intros. unfold at_node. destruct (c (w n)). by apply set_node_ne. Qed.

(** A quiet call at any node. *)
Lemma at_node_quiet {A} i n (c : ST L A) :
  quiet c → ∀ w : World L, unwritten (w i) ((at_node n c w).2 i).
Proof.
  intros Hc w. destruct (decide (i = n)) as [->|Hne].
  - rewrite at_node_here. apply Hc.
  - by rewrite at_node_elsewhere.
Qed.

Definition pair_laws (i j : string) : SyncEnvLaws (SE := pair_env i j) (CC := node_client i) M (World L).
Proof.
  refine {| objects := λ w : World L, objects (w i); visible := λ (w : World L) k v, visible (w i) k v;
            status_only := status_only; stored_body := stored_body |}; simpl; intros.
  - apply visible_present.
  - apply at_node_quiet, local_Get_quiet.
  - apply at_node_quiet, local_Get_quiet.
  - apply at_node_quiet, local_List_quiet.
  - apply at_node_quiet, local_GetNamespace_quiet.
  - apply at_node_quiet, RateLimit_quiet.
  - apply at_node_quiet, RecordEvent_quiet.
  - apply at_node_quiet, ListClusters_quiet.
  - rewrite at_node_result. apply local_Get_read.
  - rewrite at_node_result in *. by eapply local_List_read.
  - rewrite at_node_result, at_node_here. apply local_Delete_effect.
  - rewrite at_node_here. apply local_StatusUpdate_effect.
  - rewrite at_node_here. apply ReconcileResource_effect.
  - rewrite at_node_result in *. rewrite at_node_here. by apply ReconcileResource_create.
Defined.

Lemma pair_write_laws i j : WriteLaws (SE := pair_env i j) (CC := node_client i) (SEL := pair_laws i j) M (World L).
Proof. split. intros o ds w new. simpl. rewrite at_node_here. apply ReconcileResource_write. Qed.
End pair.

(** ** Requests *)

Section requests.
Context {M L : Type} `{AC : AliveClusters M} `{SE : !SyncEnv M L} `{CC : !ClusterClient L} `{EL : ErrorLib}.
Context `{SL : SelectorLib} `{CL : ContentLib} `{TL : !TemplateLib TemplateData} `{PL : PatchLib}.

(** One request of the reconciler [r] of cluster [i] for its peer [j]. *)
Definition sync_request (i j : string) (r : syncReconciler) (req : Request) (w : World L) : World L :=
  (Reconcile (SE := pair_env i j) (CC := node_client i) req (r, w)).2.2.

Context `{SEL : !SyncEnvLaws M L} `{WL : !WriteLaws M L}.

(** Nothing but the objects of [i] changes, and no new version is visible elsewhere. *)
Definition only_node (i : string) (w w' : syncReconciler * World L) : Prop :=
  (∀ n, n ≠ i → unwritten (w.2 n) (w'.2 n)) ∧ ∀ n, manager_of (w'.2 n) = manager_of (w.2 n).

#[local] Instance only_node_preorder i : PreOrder (only_node i).
Proof.
  split; [by intros w|]. intros w1 w2 w3 [Ho Hm] [Ho' Hm'].
  split; [intros n Hn; by etrans; [apply Ho|apply Ho']|intros n; by rewrite Hm', Hm].
Qed.

Lemma only_node_quiet {A} i n (c : ST L A) : quiet c → moves (only_node i) (on_env (S := World L) (at_node n c)).
Proof.
  intros Hc [r w]. unfold on_env. simpl.
  split; intros m; [intros _|]; pose proof (at_node_quiet m n c Hc w) as Hq;
    destruct (at_node n c w) as [a w']; simpl in *; [exact Hq|apply Hq].
Qed.

Lemma only_node_local {A} i (c : ST L A) :
  (∀ l, manager_of (c l).2 = manager_of l) → moves (only_node i) (on_env (S := World L) (at_node i c)).
Proof.
  intros Hc [r w]. unfold on_env. simpl.
  assert (Hw : ∀ m, m ≠ i → (at_node i c w).2 m = w m) by (intros; by apply at_node_elsewhere).
  assert (Hi : (at_node i c w).2 i = (c (w i)).2) by apply at_node_here.
  destruct (at_node i c w) as [a w']. simpl in *. split; simpl.
  - intros n Hn. by rewrite Hw.
  - intros n. destruct (decide (n = i)) as [->|Hne]; [by rewrite Hi|by rewrite Hw].
Qed.

Lemma only_node_write i o ds : moves (only_node i) (on_env (S := World L) (at_node i (ReconcileResource o ds))).
Proof. apply only_node_local. intros l. apply ReconcileResource_effect. Qed.
Lemma only_node_status i o : moves (only_node i) (on_env (S := World L) (at_node i (local_StatusUpdate o))).
Proof. apply only_node_local. intros l. apply local_StatusUpdate_effect. Qed.
Lemma only_node_delete i g k : moves (only_node i) (on_env (S := World L) (at_node i (local_Delete g k))).
Proof. apply only_node_local. intros l. apply local_Delete_effect. Qed.
Lemma only_node_clusters i : moves (only_node i) (on_env (S := World L) (GetClusters (CC := node_client i))).
Proof.
  intros [r w]. unfold on_env, GetClusters, st_bind. simpl.
  pose proof (only_node_quiet i i client_ListClusters ListClusters_quiet (r, w)) as H. unfold on_env in H. simpl in H.
  by destruct (at_node i client_ListClusters w) as [[cs|e] w'].
Qed.

#[local] Hint Resolve only_node_quiet only_node_write only_node_status only_node_delete only_node_clusters : registry.

Lemma only_node_request i j r req w : only_node i (r, w) (r, sync_request i j r req w).
Proof.
  enough (moves (only_node i) (Reconcile (SE := pair_env i j) (CC := node_client i) req)) as H by exact (H (r, w)).
  assert (moves (only_node i) (get_rec (S := World L))) by (by intros ?).
  assert (moves (only_node i) (get_manager (SE := pair_env i j) (S := World L))) by (by intros ?).
  assert (∀ f, moves (only_node i) (modify_rec (S := World L) f)) by (by intros ? ?).
  unfold Reconcile, reconcile, reconcile_found, namespace_gate, rate_gate, write_copy, mutateObject, apply_overrides,
    note_original_name, note_original_namespace, deleteResource, find_copy, getObjectByOriginalNamespaceAndName.
  cbn [remote_Get local_Get local_List local_Delete local_StatusUpdate local_GetNamespace ReconcileResource
    RateLimit RecordEvent pair_env].
  moves_tac.
Qed.
End requests.

(** ** The steps of a mesh *)

Section mesh.
Context {M L : Type} `{AC : AliveClusters M} `{SE : !SyncEnv M L} `{CC : !ClusterClient L} `{EL : ErrorLib}.
Context `{SL : SelectorLib} `{CL : ContentLib} `{TL : !TemplateLib TemplateData} `{PL : PatchLib}.
Context `{SEL : !SyncEnvLaws M L} `{WL : !WriteLaws M L}.
Context (members : gset string).

(** The reconciler [r] is one that cluster [i] runs for its peer [j], in whatever state
    its earlier requests have left it, for a rule that leaves ownership and kind alone
    and whose status updates, if it makes any, write no metadata. *)
Record serves (i j : string) (r : syncReconciler) : Prop := {
  serves_local : localClusterID r = i;
  serves_peer : sr_clusterID r = j;
  serves_plain : Forall plain_rule (Rules (rsr_Spec (sr_rule r)));
  serves_status : status_only (sr_gvk r) ∨ no_status_sync (sr_rule r) }.

(** Cluster [i] knows the other members, and they are alive. *)
Definition sees_all (i : string) (w : World L) : Prop :=
  ∀ j, j ∈ members → j ≠ i → (true, j) ∈ cluster_states (manager_of (w i)).

(** The cache of the cluster has caught up with its API server. *)
Definition fresh (l : L) : Prop := ∀ k v, visible l k v → v = objects l !! k.

(** What users and other controllers do to the objects of a cluster: they do not claim
    objects for another cluster. *)
Definition user_change (m m' : gmap ObjKey Object) : Prop :=
  ∀ k new, m' !! k = Some new →
    owner_of new = "" ∨ ∃ old, m !! k = Some old ∧ owner_of new = owner_of old.

Inductive mesh_step (w : World L) : World L → Prop :=
| mesh_sync i j r req :
    i ∈ members → j ∈ members → i ≠ j → serves i j r → sees_all i w → fresh (w i) → fresh (w j) →
    mesh_step w (sync_request i j r req w)
| mesh_user i l :
    i ∈ members → user_change (objects (w i)) (objects l) → mesh_step w (set_node i l w).

(** The ownership of one object over the mesh. *)
Definition own (k : ObjKey) (w : World L) : ownership := λ n, owner_of <$> objects (w n) !! k.

Definition mesh_ok (w : World L) : Prop := ∀ k, acyclic (own k w) ∧ owners_in members (own k w).

Lemma own_Some k w n x : own k w n = Some x ↔ ∃ o, objects (w n) !! k = Some o ∧ owner_of o = x.
Proof. unfold own. rewrite fmap_Some. naive_solver. Qed.
Lemma own_None k w n : own k w n = None ↔ objects (w n) !! k = None.
Proof. unfold own. apply fmap_None. Qed.

Context (Hdropped : OwnershipAnnotation ∉ dropped_annotations).

(** The copy of an object that was read for a request is stored under the same kind
    and name. *)
Lemma target_copy r req o rules :
  Forall plain_rule rules → obj_key o = req → obj_gvk o = remote_kind r req →
  target (mutate_meta r (requested r req o) rules) = (remote_kind r req, req).
Proof.
  intros Hp Hk Hg. unfold target. rewrite mutate_meta_key. f_equal; [|exact Hk].
  by rewrite requested_copy_gvk, remote_kind_gvk.
Qed.

(** What a request writes: the copy of the object that the peer has under the key,
    with its owner, or with the peer as its owner. *)
Lemma request_writes i j r req w k x :
  serves i j r → fresh (w i) → fresh (w j) →
  copy_written (SE := pair_env i j) (CC := node_client i) (SEL := pair_laws i j) r req w k x →
  ∃ o copy, objects (w j) !! k = Some o ∧ owner_of copy = x
    ∧ x = (if bool_decide (owner_of o = "") then j else owner_of o)
    ∧ match objects (w i) !! k with
      | None => ShouldCreate (getObjectDesiredState r (manager_of (w i))) copy = true
      | Some cur => ShouldUpdate (getObjectDesiredState r (manager_of (w i))) cur copy = true
      end.
Proof.
  intros [_ Hpeer _ _] Hfi Hfj (o & rules & Hget & Hp & -> & -> & v & Hv & Hmay).
  simpl in Hget. rewrite at_node_result in Hget. simpl in Hv. apply Hfi in Hv. subst v.
  pose proof (local_Get_read (remote_kind r req) req (w j)) as Hread. rewrite Hget in Hread.
  destruct Hread as (t & Ht%Hfj & Hk & Hg). set (copy := mutate_meta r (requested r req o) rules) in *.
  assert (Htgt : target copy = (remote_kind r req, req)) by (by apply target_copy).
  exists (with_type t o), copy. rewrite Htgt in *. split_and!; [done..| |exact Hmay].
  unfold copy. rewrite neutral_copy_owner by (by try apply plain_neutral). rewrite Hpeer. done.
Qed.

(** What is read from the peer has the kind that was asked for. *)
Lemma request_kind j r req (w : World L) o :
  (at_node j (local_Get (remote_kind r req) req) w).1 = Ok o → obj_gvk o = remote_kind r req.
Proof.
  rewrite at_node_result. intros Hget. pose proof (local_Get_read (remote_kind r req) req (w j)) as Hread.
  rewrite Hget in Hread. by destruct Hread as (t & _ & _ & ?).
Qed.

(** One request, on the ownership of one object. *)
Lemma request_simulated i j r req w k :
  j ∈ members → i ≠ j → j ≠ "" → serves i j r → sees_all i w → fresh (w i) → fresh (w j) → mesh_ok w →
  let w' := sync_request i j r req w in
  (∀ n, own k w' n = own k w n) ∨ own_step members (own k w) (own k w').
Proof.
  intros Hj Hij Hj0 Hr Hsee Hfi Hfj Hok w'. pose proof Hr as [Hloc Hpeer Hplain Hst]. destruct (Hok k) as [Hac Hin].
  destruct (only_node_request i j r req w) as [Honly _]. simpl in Honly. fold w' in Honly.
  assert (Hat : only_at i (own k w) (own k w')) by (intros n Hn; unfold own; by rewrite (proj1 (Honly n Hn))).
  assert (Hsame : own k w' i = own k w i → (∀ n, own k w' n = own k w n) ∨ own_step members (own k w) (own k w')).
  { intros Hi. left. intros n. destruct (decide (n = i)) as [->|Hn]; [done|by apply Hat]. }
  assert (Hknown : ∀ x, own k w i = Some x → x ≠ "" → (true, x) ∈ cluster_states (manager_of (w i))).
  { intros x Hx Hne. apply Hsee; [by eapply Hin|]. intros ->. by destruct (acyclic_irrefl _ i Hac). }
  destruct (objects (w' i) !! k) as [new|] eqn:Hnew.
  - pose proof (owners_from_Reconcile (SE := pair_env i j) (CC := node_client i) (SEL := pair_laws i j)
      (WL := pair_write_laws i j) r Hplain Hst req w (request_kind j r req w) k new Hnew) as [(old & Hold & Ho)|Hw].
    { apply Hsame. unfold own. rewrite Hnew. simpl in Hold. rewrite Hold. simpl. by rewrite Ho. }
    apply (request_writes i j) in Hw as (o & copy & Hoj & Hc & Hx & Hmay); [|done..].
    assert (Hown' : own k w' i = Some (owner_of new)) by (unfold own; by rewrite Hnew).
    assert (Hownj : own k w j = Some (owner_of o)) by (unfold own; by rewrite Hoj).
    destruct (objects (w i) !! k) as [cur|] eqn:Hcur.
    + assert (Howni : own k w i = Some (owner_of cur)) by (unfold own; by rewrite Hcur).
      apply ShouldUpdate_spec in Hmay as (_ & Hne & Hnf).
      assert (Hcj : owner_of cur = j).
      { destruct (decide (owner_of cur = j)); [done|]. destruct Hnf. split_and!; [done|congruence|by apply Hknown]. }
      case_bool_decide as Ho; [apply Hsame; congruence|]. right.
      apply (own_follow _ _ _ i j (owner_of o)); try done; congruence.
    + apply ShouldCreate_spec in Hmay as (_ & Hl & Hnf). unfold foreign_owner in Hnf. rewrite Hc in Hl, Hnf.
      case_bool_decide as Ho.
      * right. apply (own_create _ _ _ i j); [done|done|done|by apply own_None|congruence|congruence].
      * exfalso. apply Hnf. rewrite Hx, Hpeer. split_and!; [done| |].
        -- intros Heq. destruct (acyclic_irrefl _ j Hac); congruence.
        -- apply Hsee; [by eapply Hin|]. destruct Hl as [Hl|Hl]; congruence.
  - assert (Hown' : own k w' i = None) by (by apply own_None).
    destruct (objects (w i) !! k) as [o|] eqn:Ho.
    + right. apply (own_drop _ _ _ i (owner_of o)); [done|unfold own; by rewrite Ho| |done].
      intros Hu. destruct (unowned_kept (SE := pair_env i j) (CC := node_client i) (SEL := pair_laws i j)
        r Hplain Hst req w k o (request_kind j r req w) Ho) as (o' & Ho' & _).
      { intros c Hc. apply (Hfi k (Some c)) in Hc. simpl in *. congruence. }
      simpl in Ho'. unfold w', sync_request in Hnew. congruence.
    + apply Hsame. by rewrite Hown', (proj2 (own_None k w i)).
Qed.

Lemma own_ext k w w' : (∀ n, own k w' n = own k w n) → acyclic (own k w) → acyclic (own k w').
Proof. intros He. apply acyclic_sub. intros n m [Hn Hm]. split; [by rewrite <-He|done]. Qed.

Lemma user_simulated i l w k :
  user_change (objects (w i)) (objects l) →
  let w' := set_node i l w in
  (∀ n, own k w' n = own k w n) ∨ own_step members (own k w) (own k w').
Proof.
  intros Hu w'. assert (Hat : only_at i (own k w) (own k w')).
  { intros n Hn. unfold own, w'. by rewrite set_node_ne. }
  assert (Hi : own k w' i = owner_of <$> objects l !! k) by (unfold own, w'; by rewrite set_node_eq).
  destruct (objects l !! k) as [new|] eqn:Hl; [|right; apply (own_user _ _ _ i); auto].
  destruct (Hu k new Hl) as [Hn|(old & Hold & Ho)].
  - right. apply (own_user _ _ _ i); [done|]. right. by rewrite Hi, <-Hn.
  - left. intros n. destruct (decide (n = i)) as [->|Hne]; [|by apply Hat].
    rewrite Hi. simpl. unfold own. by rewrite Hold, Ho.
Qed.

Context (Hids : "" ∉ members).

Lemma step_simulated w w' :
  mesh_ok w → mesh_step w w' →
  ∀ k, (∀ n, own k w' n = own k w n) ∨ own_step members (own k w) (own k w').
Proof.
  intros Hok [i j r req Hi Hj Hij Hr Hsee Hfi Hfj|i l Hi Hu] k.
  - apply request_simulated; try done. by intros ->.
  - by apply user_simulated.
Qed.

Lemma mesh_step_ok w w' : mesh_ok w → mesh_step w w' → mesh_ok w'.
Proof.
  intros Hok Hs k. destruct (Hok k) as [Ha Hin]. destruct (step_simulated w w' Hok Hs k) as [He|Ho].
  - split; [by eapply own_ext|]. intros n x. rewrite He. apply Hin.
  - split; [by eapply own_step_acyclic|by eapply own_step_owners_in].
Qed.

(** A mesh in which no cluster has a copy yet. *)
Definition no_copies (w : World L) : Prop := ∀ n k o, objects (w n) !! k = Some o → owner_of o = "".

Lemma no_copies_ok w : no_copies w → mesh_ok w.
Proof.
  intros Hw k. assert (Hn : ∀ n x, own k w n = Some x → x = "").
  { intros n x (o & Ho & <-)%own_Some. by eapply Hw. }
  split.
  - intros n Hc. inversion Hc as [? ? [Hx ?]|? ? ? [Hx ?] _]; subst; by apply Hn in Hx.
  - intros n x Hx. by apply Hn in Hx.
Qed.

Lemma mesh_reachable_ok w0 w : no_copies w0 → rtc mesh_step w0 w → mesh_ok w.
Proof. intros H0 H. apply no_copies_ok in H0. induction H as [|w1 w2 w3 H12 _ IH]; [done|]. eauto using mesh_step_ok. Qed.

(** C2: the reconcilers of a mesh implement the ownership protocol, as long as the
    clusters see each other, their caches have caught up when a request is served, the
    rules have no overrides and change neither the kind nor the ownership annotation,
    status updates write no metadata, and users do not claim objects for another
    cluster. Every such request and every such change is, for each object, a step of
    [own_step] on the owners that the clusters record for it, or changes none of them;
    and the protocol's invariant is kept. *)
Theorem mesh_refines_ownership w w' :
  mesh_ok w → mesh_step w w' →
  mesh_ok w' ∧ ∀ k, (∀ n, own k w' n = own k w n) ∨ own_step members (own k w) (own k w').
Proof. intros Hok Hs. split; [by eapply mesh_step_ok|by apply step_simulated]. Qed.

(** C3: start with a mesh without copies and let it make requests and changes under the
    conditions of [mesh_step] (the clusters see each other, caches have caught up, rules
    leave ownership and kind alone, status updates write no metadata, users do not claim
    objects for another cluster), in any number and order: no cluster has a copy that
    claims to be its own, owners do not form a cycle, and following the owners of any
    object ends, within as many steps as there are clusters, at a cluster that has the
    original, or has lost it. *)
Theorem mesh_owners_acyclic w0 w k n :
  no_copies w0 → rtc mesh_step w0 w →
  acyclic (own k w)
  ∧ (n ∈ members → own k w n ≠ Some n)
  ∧ ∃ root, chain (S (size members)) (own k w) n = Some root
            ∧ rtc (owned_by (own k w)) n root ∧ (own k w root = None ∨ own k w root = Some "").
Proof.
  intros H0 H. destruct (mesh_reachable_ok w0 w H0 H k) as [Ha Hin]. split_and!; [done| |].
  - intros Hn. destruct (acyclic_irrefl _ n Ha) as [|Hn']; [done|]. by rewrite Hn' in Hn.
  - destruct (chain_ends members _ n Hin Ha) as [root Hr]. exists root. split; [done|]. by eapply chain_path.
Qed.
End mesh.

(** ** What users keep *)

Section users.
Context {M L : Type} `{AC : AliveClusters M} `{SE : !SyncEnv M L} `{CC : !ClusterClient L} `{EL : ErrorLib}.
Context `{SL : SelectorLib} `{CL : ContentLib} `{TL : !TemplateLib TemplateData} `{PL : PatchLib}.
Context `{SEL : !SyncEnvLaws M L}.

(** Any request of any reconciler, whatever its rule and whoever is alive, and any
    change, but for changes of users to the object [k] of cluster [i]. Requests of the
    reconcilers of [i] that copy the status are left out when the API server takes more
    than the status for the kind of the object. *)
Inductive spared_step (i : string) (k : ObjKey) (w : World L) : World L → Prop :=
| spared_sync a b r req :
    (a = i → status_only k.1 ∨ no_status_sync (sr_rule r)) → spared_step i k w (sync_request a b r req w)
| spared_user n l :
    (n = i → objects l !! k = objects (w i) !! k ∧ ∀ v, visible l k v → visible (w i) k v) →
    spared_step i k w (set_node n l w).

(** Every version of the object that the cache may return has no owner. *)
Lemma spared_step_keeps i k w w' o :
  spared_step i k w w' → objects (w i) !! k = Some o → all_unowned (w i) k →
  all_unowned (w' i) k ∧ ∃ o', objects (w' i) !! k = Some o' ∧ same_spec o o'.
Proof.
  intros [a b r req Hst|n l Hn] Hk Hu.
  - destruct (decide (i = a)) as [<-|Hne].
    + destruct (keeps_key (SE := pair_env i b) (CC := node_client i) (SEL := pair_laws i b) req r w k (Hst eq_refl))
        as (_ & _ & _ & H). destruct (H k o eq_refl Hk) as (Hv & o' & Ho' & Hs); [intros c Hc; left; by apply Hu|].
      split; [|by exists o']. intros c Hc. destruct (Hv c Hc) as (c0 & Hc0 & Hsc).
      rewrite (same_spec_owner _ _ Hsc). by apply Hu.
    + destruct (only_node_request a b r req w) as [H _]. destruct (H i Hne) as (Ho & _ & Hv). simpl in *.
      rewrite Ho. split; [|by exists o]. intros c Hc. by apply Hu, Hv.
  - destruct (decide (n = i)) as [->|Hne].
    + rewrite set_node_eq. destruct (Hn eq_refl) as [-> Hv]. split; [|by exists o]. intros c Hc. by apply Hu, Hv.
    + rewrite set_node_ne by done. split; [done|]. by exists o.
Qed.

(** C4: an object that belongs to a cluster of the mesh survives every run of the mesh.
    As long as the users of the cluster do not touch it themselves, no sequence of
    requests of any reconcilers, and no change elsewhere, deletes it or changes its
    content, labels or annotations. At the start every version of the object that the
    cache of the cluster may return has no owner; and the requests of the cluster's own
    reconcilers do not copy the status, or the kind of the object is one for which the
    server takes the status only. *)
Theorem mesh_keeps_user_objects i k w w' o :
  objects (w i) !! k = Some o → all_unowned (w i) k → rtc (spared_step i k) w w' →
  ∃ o', objects (w' i) !! k = Some o' ∧ same_spec o o'.
Proof.
  intros Hk Hu H. revert o Hk Hu. induction H as [w|w1 w2 w3 H12 _ IH]; intros o Hk Hu; [by exists o|].
  destruct (spared_step_keeps i k w1 w2 o H12 Hk Hu) as (Hu2 & o2 & Hk2 & Hs).
  destruct (IH o2 Hk2 Hu2) as (o3 & Hk3 & Hs3). exists o3. split; [done|by etrans].
Qed.
End users.
