(* ===== verification/MeshRun.v ===== *)
(** * Runs of a concrete mesh

    The theorems of [Mesh] on a mesh of three clusters, and what happens to ownership
    when a cluster of the mesh goes away. *)

From stdpp Require Import gmap strings list relations.
From S2P Require Import Prelude Errors Types Match Util ManagedReconciler Conditions Manager Sync SyncOwner SyncSafe SyncEffect SyncRun Ownership Mesh.
Open Scope string_scope.

Existing Instance mesh_env.
Existing Instance mesh_clusters.
Existing Instance mesh_laws.
Existing Instance chain_lib.
Existing Instance subset_selectors.
Existing Instance no_content.
Existing Instance no_templates.
Existing Instance no_patches.

Lemma store_form_owner o : owner_of (store_form o) = owner_of o.
Proof. unfold owner_of, map_get, store_form, obj_annotations at 1. simpl. by rewrite lookup_insert_ne. Qed.

#[local] Instance mesh_write_laws : WriteLaws (list (bool * string)) Mesh.
Proof.
  split. intros o ds s new. simpl. unfold reconcile_object.
  assert (Hsame : local_objects s !! target o = Some new →
    (∃ cur, local_objects s !! target o = Some cur ∧ owner_of new = owner_of cur) ∨ owner_of new = owner_of o).
  { intros Hn. left. by exists new. }
  assert (Hnew : <[target o := store_form o]> (local_objects s) !! target o = Some new →
    (∃ cur, local_objects s !! target o = Some cur ∧ owner_of new = owner_of cur) ∨ owner_of new = owner_of o).
  { rewrite lookup_insert_eq. intros [= <-]. right. apply store_form_owner. }
  destruct (local_view s !! target o) as [cur|].
  - destruct (ShouldUpdate ds cur o); [|exact Hsame].
    destruct (local_objects s !! target o) eqn:E; [|simpl; by rewrite E].
    case_bool_decide; simpl; [exact Hnew|by rewrite E].
  - destruct (ShouldCreate ds o); [|exact Hsame].
    destruct (local_objects s !! target o) eqn:E; simpl; [by rewrite E|exact Hnew].
Qed.

(** ** Three clusters *)

(** A cluster with its objects and the peers it sees. *)
Definition node (objs : gmap ObjKey Object) (alive : list string) : Mesh :=
  mkMesh ∅ objs None ["default"] ((λ i, (true, i)) <$> alive) [] [].

Definition three (a b c : Mesh) : World Mesh :=
  λ n, if bool_decide (n = "a") then a else if bool_decide (n = "b") then b else c.

Definition abc : gset string := {["a"; "b"; "c"]}.

(** The reconciler of cluster [i] for its peer [j]. *)
Definition sync_of (i j : string) : syncReconciler :=
  mkSyncReconciler (NewManagedReconciler "sync") service_kind service_kind i false j (rule_with all_objects false)
    ∅ true true true false false.

Definition the_key : ObjKey := (service_kind, cm_key).
Definition original : gmap ObjKey Object := {[ the_key := cm ∅ JNull ]}.

Lemma sync_of_serves i j : serves i j (sync_of i j).
Proof.
  split; [done|done| |right; vm_compute; reflexivity]. repeat constructor; set_solver.
Qed.

(** Cluster [a] has the original. *)
Definition start : World Mesh := three (node original ["b"; "c"]) (node ∅ ["a"; "c"]) (node ∅ ["a"; "b"]).

Lemma start_no_copies : no_copies start.
Proof.
  intros n k o. unfold start, three. repeat case_bool_decide; simpl; intros Hk; [|done..].
  unfold original in Hk. apply lookup_singleton_Some in Hk as [_ <-]. reflexivity.
Qed.

(** [b] copies from [a], then [c] asks [b], then [c] copies from [a]. *)
Definition copied : World Mesh :=
  sync_request "c" "a" (sync_of "c" "a") cm_key
    (sync_request "c" "b" (sync_of "c" "b") cm_key
      (sync_request "b" "a" (sync_of "b" "a") cm_key start)).

Lemma sees_all_manager i (w w' : World Mesh) :
  manager_of (w' i) = manager_of (w i) → sees_all abc i w → sees_all abc i w'.
Proof. unfold sees_all. by intros ->. Qed.

Lemma start_sees_all i : i ∈ abc → sees_all abc i start.
Proof.
  intros Hi j Hj Hne. assert (Hi' : i = "a" ∨ i = "b" ∨ i = "c") by (unfold abc in Hi; set_solver).
  assert (Hj' : j = "a" ∨ j = "b" ∨ j = "c") by (unfold abc in Hj; set_solver).
  destruct Hi' as [-> | [-> | ->]], Hj' as [-> | [-> | ->]]; try done; apply (bool_decide_unpack _); vm_compute; exact I.
Qed.

Lemma request_sees_all i a b w : sees_all abc i w → sees_all abc i (sync_request a b (sync_of a b) cm_key w).
Proof.
  apply sees_all_manager. exact (proj2 (only_node_request a b (sync_of a b) cm_key w) i).
Qed.

Lemma in_step_fresh (l : Mesh) : local_cache l = None → fresh l.
Proof. intros Hc k v. by apply in_step. Qed.

Lemma request_step i j w :
  i ∈ abc → j ∈ abc → i ≠ j → sees_all abc i w → local_cache (w i) = None → local_cache (w j) = None →
  mesh_step abc w (sync_request i j (sync_of i j) cm_key w).
Proof. intros. apply mesh_sync; try done; [apply sync_of_serves|by apply in_step_fresh..]. Qed.

Lemma copied_reached : rtc (mesh_step abc) start copied.
Proof.
  unfold copied. do 3 (eapply rtc_r; [|apply request_step; [set_solver|set_solver|discriminate|
    repeat apply request_sees_all; apply start_sees_all; set_solver|vm_compute; reflexivity|vm_compute; reflexivity]]).
  done.
Qed.

Lemma mesh_refines_ownership_witness :
  mesh_ok abc (sync_request "b" "a" (sync_of "b" "a") cm_key start).
Proof.
  refine (proj1 (mesh_refines_ownership abc _ _ start _ (no_copies_ok abc start start_no_copies) _)).
  - apply (bool_decide_unpack _). vm_compute. exact I.
  - apply (bool_decide_unpack _). vm_compute. exact I.
  - apply request_step; [set_solver|set_solver|discriminate|apply start_sees_all; set_solver|reflexivity|reflexivity].
Defined.

Lemma mesh_owners_acyclic_witness :
  own the_key copied "c" = Some "a" ∧ chain 4 (own the_key copied) "c" = Some "a" ∧ acyclic (own the_key copied).
Proof.
  destruct (mesh_owners_acyclic abc ltac:(apply (bool_decide_unpack _); vm_compute; exact I)
    ltac:(apply (bool_decide_unpack _); vm_compute; exact I) start copied the_key "c" start_no_copies copied_reached)
    as (Ha & _).
  split_and!; [vm_compute; reflexivity|vm_compute; reflexivity|exact Ha].
Defined.

Lemma mesh_keeps_user_objects_witness :
  ∃ o', objects (copied "a") !! the_key = Some o' ∧ same_spec (cm ∅ JNull) o'.
Proof.
  refine (mesh_keeps_user_objects "a" the_key start copied (cm ∅ JNull) _ _ _).
  - vm_compute. reflexivity.
  - intros c Hc. apply in_step in Hc; [|reflexivity]. vm_compute in Hc. injection Hc as ->. vm_compute. reflexivity.
  - unfold copied. do 3 (eapply rtc_r; [|apply spared_sync; intros _; right; vm_compute; reflexivity]). apply rtc_refl.
Defined.

(** ** When a cluster goes away *)

(** [b] has copied the object of [a]; then the users of [a] removed it, and [a] copied
    the object that [c] has under the same name; then [c] is lost. *)
Definition before_loss : World Mesh :=
  let w := sync_request "b" "a" (sync_of "b" "a") cm_key start in
  let w := set_node "a" (node ∅ ["b"; "c"]) w in
  let w := set_node "c" (node original ["a"; "b"]) w in
  sync_request "a" "c" (sync_of "a" "c") cm_key w.

Definition without_c : World Mesh :=
  set_node "a" (node (local_objects (before_loss "a")) ["b"]) before_loss.

(** While [c] is there the request for [b] changes nothing. Once [c] is lost, its copy
    in [a] may be updated from any peer, and the update takes the owner of the object
    of the peer over without looking at it: [a] gets an object that names [a] itself
    as its owner, which the rules for updates and deletions keep treating as a copy. *)
Theorem lost_owner_leads_to_self_ownership :
  own the_key before_loss "a" = Some "c" ∧ own the_key before_loss "b" = Some "a"
  ∧ own the_key (sync_request "a" "b" (sync_of "a" "b") cm_key before_loss) "a" = Some "c"
  ∧ own the_key (sync_request "a" "b" (sync_of "a" "b") cm_key without_c) "a" = Some "a".
Proof. split_and!; vm_compute; reflexivity. Qed.
