(* ===== verification/Meta.v ===== *)
(** * Cluster metadata

    pkg/clustermeta: the detection of the provider and of the distribution of a
    cluster from its nodes, and the metadata that the status of a [Cluster] shows. *)

From Stdlib Require Import Ascii.
From stdpp Require Import gmap strings list.
From S2P Require Import Prelude Errors Types Util.
Open Scope string_scope.
Open Scope go_scope.

(** The fields of a [corev1.Node] that are read. *)
Record Node := mkNode {
  n_Labels : gmap string string;
  n_Annotations : gmap string string;
  ProviderID : string;
  KubeProxyVersion : string;
  KubeletVersion : string }.

(** The API server of the cluster, and the cancellation of the caller's context. *)
Class NodeEnv (S : Type) : Type := {
  client_ListNodes : ST S (result error (list Node));
  ctx_Done : ST S bool }.

(** The outcome of a detection function: [None] is a nil pointer panic; otherwise
    the match flag, the name and the error. *)
Abbreviation Detection := (option (bool * string * option error)).

Section meta.
Context {S : Type} `{NE : NodeEnv S} `{UL : UrlLib}.

(** ** provider.go *)

Definition getK8sNode : ST S (option Node * bool * option error) :=
  let! l := client_ListNodes in
  match l with
  | Err e => return! (None, false, Some e)
  | Ok [] => return! (None, false, None)
  | Ok (n :: _) => return! (Some n, true, None)
  end.

Definition detectNodeByProviderID (node : option Node) (scheme : string)
    : ST S (bool * option Node * option error) :=
  let! found := match node with
                | Some n => return! (Some n, true, None)
                | None => getK8sNode
                end in
  match found with
  | (_, _, Some e) => return! (false, None, Some e)
  | (None, _, None) | (_, false, None) => return! (false, None, None)
  | (Some n, true, None) =>
      if bool_decide (ProviderID n ≠ "") then
        match url_Parse (ProviderID n) with
        | Err e => return! (false, None, Some e)
        | Ok u => if bool_decide (Scheme u = scheme) then return! (true, Some n, None)
                  else return! (false, Some n, None)
        end
      else return! (false, Some n, None)
  end.

(** ** providers.go *)

Definition AMAZON : string := "amazon".
Definition AZURE : string := "azure".
Definition GOOGLE : string := "google".
Definition VSPHERE : string := "vsphere".
Definition KINDP : string := "kind".
Definition CISCO : string := "cisco".

Definition iks_label : string := "iks.intersight.cisco.com/version".

(** The shape of [IsAmazon], [IsAzure], [IsGoogle] and [IsKind]. *)
Definition IsProviderByScheme (scheme name : string) (node : option Node) : ST S Detection :=
  let! d := detectNodeByProviderID node scheme in
  match d with
  | (ok, _, Some e) => return! Some (ok, "", Some e)
  | (ok, _, None) => return! Some (ok, name, None)
  end.

Definition IsAmazon : option Node → ST S Detection := IsProviderByScheme "aws" AMAZON.
Definition IsAzure : option Node → ST S Detection := IsProviderByScheme "azure" AZURE.
Definition IsGoogle : option Node → ST S Detection := IsProviderByScheme "gce" GOOGLE.
Definition IsKind : option Node → ST S Detection := IsProviderByScheme "kind" KINDP.

Definition IsVsphere (node : option Node) : ST S Detection :=
  let! d := detectNodeByProviderID node "vsphere" in
  match d with
  | (ok, _, Some e) => return! Some (ok, "", Some e)
  | (_, None, None) => return! None
  | (ok, Some n, None) =>
      if bool_decide (map_get (n_Labels n) iks_label ≠ "") then return! Some (false, "", None)
      else return! Some (ok, VSPHERE, None)
  end.

Definition IsCisco (node : option Node) : ST S Detection :=
  let! d := detectNodeByProviderID node "vsphere" in
  match d with
  | (ok, _, Some e) => return! Some (ok, "", Some e)
  | (_, None, None) => return! None
  | (ok, Some n, None) =>
      if bool_decide (map_get (n_Labels n) iks_label = "") then return! Some (false, "", None)
      else return! Some (ok, CISCO, None)
  end.

(** The loop of [DetectProvider] and of [DetectDistribution]: [None] is a panic. *)
Fixpoint detect_loop (unknown : error) (fs : list (option Node → ST S Detection)) (node : option Node)
    : ST S (option (result error string)) :=
  match fs with
  | [] => return! Some (Err unknown)
  | f :: fs' =>
      let! done := ctx_Done in
      if (done : bool) then return! Some (Err unknown) else
      let! d := f node in
      match d with
      | None => return! None
      | Some (_, _, Some e) => return! Some (Err e)
      | Some (true, name, None) => return! Some (Ok name)
      | Some (false, _, None) => detect_loop unknown fs' node
      end
  end.

Definition knownProviders : list (option Node → ST S Detection) :=
  [IsAmazon; IsAzure; IsGoogle; IsVsphere; IsKind; IsCisco].

Definition DetectProvider (node : option Node) : ST S (option (result error string)) :=
  detect_loop UnknownProviderError knownProviders node.

(** ** distributions.go *)

Definition PKE : string := "PKE".
Definition EKS : string := "EKS".
Definition GKE : string := "GKE".
Definition AKS : string := "AKS".
Definition KINDD : string := "KIND".
Definition IKS : string := "IKS".
Definition OPENSHIFT : string := "OPENSHIFT".

Definition cri_socket : string := "kubeadm.alpha.kubernetes.io/cri-socket".
Definition openshift_label : string := "node.openshift.io/os_id".

(** The common first part: a missing node is fetched, and then dereferenced. *)
Definition with_node (name : string) (node : option Node) (k : Node → ST S Detection) : ST S Detection :=
  match node with
  | Some n => k n
  | None =>
      let! found := getK8sNode in
      match found with
      | (_, _, Some e) => return! Some (false, name, Some e)
      | (Some n, _, None) => k n
      | (None, _, None) => return! None
      end
  end.

(** The common last part: the provider must be the expected one. *)
Definition with_provider (name expected : string) (n : Node) : ST S Detection :=
  let! p := DetectProvider (Some n) in
  match p with
  | None => return! None
  | Some (Err e) => if IsUnknownProviderError e then return! Some (false, name, None)
                    else return! Some (true, name, Some e)
  | Some (Ok provider) => if bool_decide (provider ≠ expected) then return! Some (false, name, None)
                          else return! Some (true, name, None)
  end.

Definition IsPKE (node : option Node) : ST S Detection :=
  with_node PKE node (λ n,
    if bool_decide (map_get (n_Labels n) "nodepool.banzaicloud.io/name" = "") then return! Some (false, PKE, None)
    else if bool_decide (map_get (n_Annotations n) cri_socket = "") then return! Some (false, PKE, None)
    else return! Some (true, PKE, None)).

Definition IsEKS (node : option Node) : ST S Detection :=
  with_node EKS node (λ n,
    match n_Annotations n !! cri_socket, n_Labels n !! openshift_label with
    | Some _, _ => return! Some (false, EKS, None)
    | None, Some _ => return! Some (false, EKS, None)
    | None, None => with_provider EKS AMAZON n
    end).

(** The shape of [IsGKE], [IsAKS] and [IsIKS]: a label, then the provider. *)
Definition IsDistributionByLabel (name label expected : string) (node : option Node) : ST S Detection :=
  with_node name node (λ n,
    if bool_decide (map_get (n_Labels n) label = "") then return! Some (false, name, None)
    else with_provider name expected n).

Definition IsGKE : option Node → ST S Detection := IsDistributionByLabel GKE "cloud.google.com/gke-nodepool" GOOGLE.
Definition IsAKS : option Node → ST S Detection := IsDistributionByLabel AKS "agentpool" AZURE.
Definition IsIKS : option Node → ST S Detection := IsDistributionByLabel IKS iks_label CISCO.

Definition IsKIND (node : option Node) : ST S Detection := with_node KINDD node (with_provider KINDD KINDP).

Definition IsOpenShift (node : option Node) : ST S Detection :=
  with_node OPENSHIFT node (λ n,
    if bool_decide (map_get (n_Labels n) openshift_label = "") then return! Some (false, OPENSHIFT, None)
    else return! Some (true, OPENSHIFT, None)).

Definition knownDistributions : list (option Node → ST S Detection) :=
  [IsEKS; IsPKE; IsGKE; IsAKS; IsKIND; IsIKS; IsOpenShift].

Definition DetectDistribution (node : option Node) : ST S (option (result error string)) :=
  detect_loop UnknownDistributionError knownDistributions node.

(** ** metadata.go *)

Definition LabelZoneRegionStable : string := "topology.kubernetes.io/region".
Definition LabelZoneFailureDomainStable : string := "topology.kubernetes.io/zone".

(** The keys of a map, in the order of an iteration over it. *)
Definition label_set (label : string) (nodes : list Node) : gset string :=
  list_to_set (filter (λ v, v ≠ "") ((λ n, map_get (n_Labels n) label) <$> nodes)).

Fixpoint strings_Join (l : list string) (sep : string) : string :=
  match l with
  | [] => ""
  | [s] => s
  | s :: l' => s ++ sep ++ strings_Join l' sep
  end.

(** The part of [GetClusterMetadata] after the detection. *)
Definition metadata_of (provider distribution : string) (nodes : list Node) : ClusterMetadata :=
  let kubeProxyVersions : list string := elements (list_to_set (KubeProxyVersion <$> nodes) : gset string) in
  let kubeletVersions : list string := elements (list_to_set (KubeletVersion <$> nodes) : gset string) in
  let regions := elements (label_set LabelZoneRegionStable nodes) in
  let zones := elements (label_set LabelZoneFailureDomainStable nodes) in
  mkClusterMetadata provider distribution kubeProxyVersions kubeletVersions
    (match kubeProxyVersions with [] => "" | v :: _ => v end)
    (if nonempty regions || nonempty zones
     then Some (mkLocality (strings_Join regions ", ") regions zones) else None).

(** The error of a detection, unless it says that nothing was recognised. *)
Definition detected (r : result error string) (is_unknown : error → bool) : result error string :=
  match r with
  | Ok name => Ok name
  | Err e => if is_unknown e then Ok "" else Err e
  end.

Definition GetClusterMetadata : ST S (option (result error ClusterMetadata)) :=
  let! nodes := client_ListNodes in
  match nodes with
  | Err e => return! Some (Err e)
  | Ok [] => return! Some (Ok ClusterMetadata_zero)
  | Ok ((n :: _) as nodes) =>
      let! provider := DetectProvider (Some n) in
      match provider with
      | None => return! None
      | Some provider =>
          match detected provider IsUnknownProviderError with
          | Err e => return! Some (Err e)
          | Ok provider =>
              let! distribution := DetectDistribution (Some n) in
              match distribution with
              | None => return! None
              | Some distribution =>
                  match detected distribution IsUnknownDistributionError with
                  | Err e => return! Some (Err e)
                  | Ok distribution => return! Some (Ok (metadata_of provider distribution nodes))
                  end
              end
          end
      end
  end.
End meta.

(** ** Detection as a table *)

(** The provider of a node: by the scheme of its provider id, with vSphere nodes told
    apart by the label of Intersight. *)
Definition provider_spec `{UL : UrlLib} (n : Node) : result error string :=
  if bool_decide (ProviderID n = "") then Err UnknownProviderError else
  match url_Parse (ProviderID n) with
  | Err e => Err e
  | Ok u =>
      if bool_decide (Scheme u = "aws") then Ok AMAZON
      else if bool_decide (Scheme u = "azure") then Ok AZURE
      else if bool_decide (Scheme u = "gce") then Ok GOOGLE
      else if bool_decide (Scheme u = "vsphere")
      then Ok (if bool_decide (map_get (n_Labels n) iks_label = "") then VSPHERE else CISCO)
      else if bool_decide (Scheme u = "kind") then Ok KINDP
      else Err UnknownProviderError
  end.

(** The distributions in the order of their precedence, with what each asks of the
    provider (empty when unknown) and of the node. *)
Definition distribution_table (provider : string) (n : Node) : list (string * bool) :=
  let label k := bool_decide (map_get (n_Labels n) k ≠ "") in
  [ (EKS, bool_decide (n_Annotations n !! cri_socket = None) && bool_decide (n_Labels n !! openshift_label = None)
          && bool_decide (provider = AMAZON));
    (PKE, label "nodepool.banzaicloud.io/name" && bool_decide (map_get (n_Annotations n) cri_socket ≠ ""));
    (GKE, label "cloud.google.com/gke-nodepool" && bool_decide (provider = GOOGLE));
    (AKS, label "agentpool" && bool_decide (provider = AZURE));
    (KINDD, bool_decide (provider = KINDP));
    (IKS, label iks_label && bool_decide (provider = CISCO));
    (OPENSHIFT, label openshift_label) ].

Definition distribution_spec (provider : string) (n : Node) : result error string :=
  match List.find snd (distribution_table provider n) with
  | Some (name, _) => Ok name
  | None => Err UnknownDistributionError
  end.

Section meta_facts.
Context {S : Type} `{NE : NodeEnv S} `{UL : UrlLib}.
(** The context of the caller is not cancelled. *)
Context (live : ∀ s : S, ctx_Done s = (false, s)).

(** The scheme of the provider id, if there is one. *)
Definition node_scheme (n : Node) : option (result error string) :=
  if bool_decide (ProviderID n = "") then None else Some (res_map Scheme (url_Parse (ProviderID n))).

Lemma detectNode_some n scheme s :
  detectNodeByProviderID (Some n) scheme s =
    (match node_scheme n with
     | None => (false, Some n, None)
     | Some (Err e) => (false, None, Some e)
     | Some (Ok sch) => (bool_decide (sch = scheme), Some n, None)
     end, s).
Proof.
  unfold detectNodeByProviderID, node_scheme, st_bind. simpl. rewrite bool_decide_not.
  case_bool_decide; simpl; [done|]. destruct (url_Parse (ProviderID n)) as [u|e]; simpl; [|done].
  by case_bool_decide.
Qed.

Lemma IsProviderByScheme_some scheme name n s :
  IsProviderByScheme scheme name (Some n) s =
    (match node_scheme n with
     | None => Some (false, name, None)
     | Some (Err e) => Some (false, "", Some e)
     | Some (Ok sch) => Some (bool_decide (sch = scheme), name, None)
     end, s).
Proof.
  unfold IsProviderByScheme, st_bind. rewrite detectNode_some. by destruct (node_scheme n) as [[]|].
Qed.

Definition scheme_is (n : Node) (scheme : string) : bool :=
  match node_scheme n with Some (Ok sch) => bool_decide (sch = scheme) | _ => false end.

Lemma IsVsphere_some n s :
  IsVsphere (Some n) s =
    (match node_scheme n with
     | Some (Err e) => Some (false, "", Some e)
     | _ => if bool_decide (map_get (n_Labels n) iks_label = "")
            then Some (scheme_is n "vsphere", VSPHERE, None) else Some (false, "", None)
     end, s).
Proof.
  unfold IsVsphere, st_bind, scheme_is. rewrite detectNode_some. destruct (node_scheme n) as [[]|]; try done;
    rewrite bool_decide_not; by case_bool_decide.
Qed.

Lemma IsCisco_some n s :
  IsCisco (Some n) s =
    (match node_scheme n with
     | Some (Err e) => Some (false, "", Some e)
     | _ => if bool_decide (map_get (n_Labels n) iks_label = "")
            then Some (false, "", None) else Some (scheme_is n "vsphere", CISCO, None)
     end, s).
Proof.
  unfold IsCisco, st_bind, scheme_is. rewrite detectNode_some. destruct (node_scheme n) as [[]|]; try done;
    by case_bool_decide.
Qed.

Lemma detect_step unknown f fs node s d :
  f node s = (d, s) →
  detect_loop unknown (f :: fs) node s =
    match d with
    | None => (None, s)
    | Some (_, _, Some e) => (Some (Err e), s)
    | Some (true, name, None) => (Some (Ok name), s)
    | Some (false, _, None) => detect_loop unknown fs node s
    end.
Proof.
  intros Hf. simpl. unfold st_bind. rewrite live. simpl. rewrite Hf. by destruct d as [[[[] ?] []]|].
Qed.

Lemma DetectProvider_spec n s : DetectProvider (Some n) s = (Some (provider_spec n), s).
Proof.
  unfold DetectProvider, knownProviders, provider_spec.
  rewrite (detect_step _ _ _ _ _ _ (IsProviderByScheme_some "aws" AMAZON n s)).
  rewrite (detect_step _ _ _ _ _ _ (IsProviderByScheme_some "azure" AZURE n s)).
  rewrite (detect_step _ _ _ _ _ _ (IsProviderByScheme_some "gce" GOOGLE n s)).
  rewrite (detect_step _ _ _ _ _ _ (IsVsphere_some n s)).
  rewrite (detect_step _ _ _ _ _ _ (IsProviderByScheme_some "kind" KINDP n s)).
  rewrite (detect_step _ _ _ _ _ _ (IsCisco_some n s)). simpl.
  unfold scheme_is, node_scheme. case_bool_decide; [by case_bool_decide|].
  destruct (url_Parse (ProviderID n)) as [u|e]; simpl; [|done].
  do 3 (case_bool_decide; [done|]).
  destruct (decide (Scheme u = "vsphere")) as [->|Hv]; [by case_bool_decide|].
  rewrite (bool_decide_false (Scheme u = "vsphere")) by done.
  by repeat case_bool_decide.
Qed.

(** The provider a distribution check sees; empty when it is not known. *)
Lemma with_provider_spec name expected n s p :
  provider_spec n = Ok p ∨ (provider_spec n = Err UnknownProviderError ∧ p = "") → expected ≠ "" →
  with_provider name expected n s = (Some (bool_decide (p = expected), name, None), s).
Proof.
  intros Hp He. unfold with_provider, st_bind. rewrite DetectProvider_spec.
  destruct Hp as [->|[-> ->]]; simpl; [rewrite bool_decide_not; by case_bool_decide|].
  by rewrite bool_decide_false.
Qed.

Lemma DetectDistribution_spec n s p :
  provider_spec n = Ok p ∨ (provider_spec n = Err UnknownProviderError ∧ p = "") →
  DetectDistribution (Some n) s = (Some (distribution_spec p n), s).
Proof.
  intros Hp. unfold DetectDistribution, knownDistributions, distribution_spec, IsGKE, IsAKS, IsIKS.
  assert (Heks : IsEKS (Some n) s = (Some ((distribution_table p n !!! 0).2, EKS, None), s)).
  { unfold IsEKS. simpl. destruct (n_Annotations n !! cri_socket), (n_Labels n !! openshift_label); try done.
    by apply with_provider_spec. }
  assert (Hlab : ∀ name label expected, expected ≠ "" →
    IsDistributionByLabel name label expected (Some n) s
    = (Some (bool_decide (map_get (n_Labels n) label ≠ "") && bool_decide (p = expected), name, None), s)).
  { intros name label expected He. unfold IsDistributionByLabel. simpl. rewrite bool_decide_not.
    case_bool_decide; [done|]. by apply with_provider_spec. }
  assert (Hpke : IsPKE (Some n) s = (Some ((distribution_table p n !!! 1).2, PKE, None), s)).
  { unfold IsPKE. simpl. rewrite !bool_decide_not. by repeat case_bool_decide. }
  assert (Hos : IsOpenShift (Some n) s = (Some ((distribution_table p n !!! 6).2, OPENSHIFT, None), s)).
  { unfold IsOpenShift. simpl. rewrite !bool_decide_not. by case_bool_decide. }
  assert (Hkind : IsKIND (Some n) s = (Some ((distribution_table p n !!! 4).2, KINDD, None), s)).
  { unfold IsKIND. simpl. by apply with_provider_spec. }
  rewrite (detect_step _ _ _ _ _ _ Heks), (detect_step _ _ _ _ _ _ Hpke).
  rewrite (detect_step _ _ _ _ _ _ (Hlab GKE _ GOOGLE ltac:(done))), (detect_step _ _ _ _ _ _ (Hlab AKS _ AZURE ltac:(done))).
  rewrite (detect_step _ _ _ _ _ _ Hkind), (detect_step _ _ _ _ _ _ (Hlab IKS _ CISCO ltac:(done))).
  rewrite (detect_step _ _ _ _ _ _ Hos). unfold distribution_table. cbn [lookup_total list_lookup_total snd List.find].
  repeat case_match; simplify_eq/=; try done.
Qed.

(** With a live context the detection of the provider of a node is the table of
    provider-id schemes, and the detection of its distribution the first match in
    the precedence table, so that for example an OpenShift node on AWS is reported as
    OpenShift and not as EKS; nothing is asked of the API server. *)
Theorem detection_tables n s :
  DetectProvider (Some n) s = (Some (provider_spec n), s)
  ∧ (∀ p, provider_spec n = Ok p ∨ (provider_spec n = Err UnknownProviderError ∧ p = "") →
       DetectDistribution (Some n) s = (Some (distribution_spec p n), s)).
Proof. split; [apply DetectProvider_spec|]. intros p. apply DetectDistribution_spec. Qed.

Lemma elements_set (l : list string) v : v ∈ elements (list_to_set l : gset string) ↔ v ∈ l.
Proof. by rewrite elem_of_elements, elem_of_list_to_set. Qed.

Lemma label_set_spec label nodes v :
  v ∈ elements (label_set label nodes) ↔ v ≠ "" ∧ ∃ n, n ∈ nodes ∧ n_Labels n !! label = Some v.
Proof.
  unfold label_set. rewrite elements_set, list_elem_of_filter, list_elem_of_fmap.
  unfold map_get. split.
  - intros (Hv & n & -> & Hn). split; [done|]. exists n. split; [done|]. by destruct (n_Labels n !! label).
  - intros (Hv & n & Hn & Hl). split; [done|]. exists n. by rewrite Hl.
Qed.

(** The metadata of a cluster with nodes lists every kube-proxy and kubelet
    version of a node once, and nothing else; its version is one of them; it has a
    locality exactly when some node has a region or a zone label, which lists those
    labels once each; its provider and distribution are those of the first node, and
    empty when they are not known. *)
Theorem GetClusterMetadata_correct s s' n nodes p :
  client_ListNodes s = (Ok (n :: nodes), s') →
  provider_spec n = Ok p ∨ (provider_spec n = Err UnknownProviderError ∧ p = "") →
  ∃ md, GetClusterMetadata s = (Some (Ok md), s')
    ∧ Provider md = p
    ∧ Distribution md = match distribution_spec p n with Ok d => d | Err _ => "" end
    ∧ (NoDup (KubeProxyVersions md) ∧ ∀ v, v ∈ KubeProxyVersions md ↔ v ∈ KubeProxyVersion <$> n :: nodes)
    ∧ (NoDup (KubeletVersions md) ∧ ∀ v, v ∈ KubeletVersions md ↔ v ∈ KubeletVersion <$> n :: nodes)
    ∧ md_Version md ∈ KubeProxyVersions md
    ∧ match md_Locality md with
      | None => ∀ l m, l ∈ [LabelZoneRegionStable; LabelZoneFailureDomainStable] → m ∈ n :: nodes →
          map_get (n_Labels m) l = ""
      | Some loc =>
          (NoDup (Regions loc) ∧ ∀ v, v ∈ Regions loc ↔
             v ≠ "" ∧ ∃ m, m ∈ n :: nodes ∧ n_Labels m !! LabelZoneRegionStable = Some v)
          ∧ (NoDup (Zones loc) ∧ ∀ v, v ∈ Zones loc ↔
             v ≠ "" ∧ ∃ m, m ∈ n :: nodes ∧ n_Labels m !! LabelZoneFailureDomainStable = Some v)
      end.
Proof.
  intros Hl Hp. exists (metadata_of p (match distribution_spec p n with Ok d => d | Err _ => "" end) (n :: nodes)).
  split_and!.
  - unfold GetClusterMetadata, st_bind. rewrite Hl, DetectProvider_spec.
    assert (detected (provider_spec n) IsUnknownProviderError = Ok p) as ->
      by (destruct Hp as [->|[-> ->]]; done).
    rewrite (DetectDistribution_spec n s' p Hp). unfold distribution_spec.
    destruct (List.find snd (distribution_table p n)) as [[d b]|]; reflexivity.
  - done.
  - done.
  - exact (NoDup_elements (list_to_set (KubeProxyVersion <$> n :: nodes) : gset string)).
  - intros v. exact (elements_set (KubeProxyVersion <$> n :: nodes) v).
  - exact (NoDup_elements (list_to_set (KubeletVersion <$> n :: nodes) : gset string)).
  - intros v. exact (elements_set (KubeletVersion <$> n :: nodes) v).
  - unfold metadata_of. cbn [KubeProxyVersions md_Version].
    assert (KubeProxyVersion n ∈ elements (list_to_set (KubeProxyVersion <$> n :: nodes) : gset string))
      as Hin by (apply elements_set; left).
    destruct (elements (list_to_set (KubeProxyVersion <$> n :: nodes) : gset string)); [inversion Hin|left].
  - unfold metadata_of. cbn [md_Locality]. set (rs := elements (label_set LabelZoneRegionStable (n :: nodes))).
    set (zs := elements (label_set LabelZoneFailureDomainStable (n :: nodes))).
    destruct (nonempty rs || nonempty zs) eqn:Hne; simpl.
    { split; (split; [apply NoDup_elements|intros v; apply label_set_spec]). }
    apply orb_false_iff in Hne as [Hr Hz]. intros l m Hlab Hm.
    assert (Hempty : ∀ l, nonempty (elements (label_set l (n :: nodes))) = false → map_get (n_Labels m) l = "").
    { intros l' Hl'. destruct (decide (map_get (n_Labels m) l' = "")) as [|Hv]; [done|].
      assert (map_get (n_Labels m) l' ∈ elements (label_set l' (n :: nodes))) as Hin.
      { apply label_set_spec. split; [done|]. exists m. split; [done|]. unfold map_get in *.
        by destruct (n_Labels m !! l'). }
      destruct (elements (label_set l' (n :: nodes))); [inversion Hin|done]. }
    apply elem_of_cons in Hlab as [->|[->|Hlab]%elem_of_cons]; [by apply Hempty..|inversion Hlab].
Qed.

(** A detection function that is given no node takes one of the cluster; on a
    cluster without nodes it then dereferences a nil pointer. *)
Theorem missing_node_panics s s1 :
  client_ListNodes s = (Ok [], s1) →
  IsVsphere None s = (None, s1) ∧ IsCisco None s = (None, s1) ∧ IsPKE None s = (None, s1)
  ∧ IsEKS None s = (None, s1) ∧ IsGKE None s = (None, s1) ∧ IsOpenShift None s = (None, s1).
Proof.
  intros Hl.
  unfold IsVsphere, IsCisco, IsPKE, IsEKS, IsGKE, IsOpenShift, IsDistributionByLabel, with_node,
    detectNodeByProviderID, getK8sNode, st_bind. rewrite Hl. split_and!; try done.
Qed.
End meta_facts.

(** ** No panic on the way to the metadata *)

Section meta_total.
Context {S : Type} `{NE : NodeEnv S} `{UL : UrlLib}.

Definition safe {A} (c : ST S (option A)) : Prop := ∀ s, (c s).1 ≠ None.

Lemma detect_loop_safe unknown fs n :
  Forall (λ f, safe (f (Some n))) fs → safe (detect_loop unknown fs (Some n)).
Proof.
  induction 1 as [|f fs Hf Hfs IH]; intros s; simpl; [done|]. unfold st_bind.
  destruct (ctx_Done s) as [[] s1]; [done|]. specialize (Hf s1).
  by destruct (f (Some n) s1) as [[[[[] name] [e|]]|] s2].
Qed.

Lemma detectNode_node n scheme s :
  ∃ b e, (detectNodeByProviderID (Some n) scheme s).1 = (b, Some n, None)
         ∨ (detectNodeByProviderID (Some n) scheme s).1 = (b, None, Some e).
Proof.
  unfold detectNodeByProviderID, st_bind. simpl. case_bool_decide; simpl.
  - destruct (url_Parse (ProviderID n)) as [u|e]; simpl; [|by exists false, e; right].
    exists (bool_decide (Scheme u = scheme)), UnknownProviderError. left. by case_bool_decide.
  - exists false, UnknownProviderError. by left.
Qed.

Lemma DetectProvider_safe n : safe (DetectProvider (Some n)).
Proof.
  apply detect_loop_safe.
  assert (Hs : ∀ scheme name, safe (IsProviderByScheme scheme name (Some n))).
  { intros scheme name s. unfold IsProviderByScheme, st_bind.
    destruct (detectNodeByProviderID (Some n) scheme s) as [[[b o] [e|]] s1]; done. }
  repeat constructor; try apply Hs; intros s; unfold IsVsphere, IsCisco, st_bind;
    destruct (detectNode_node n "vsphere" s) as (b & e & Hd);
    destruct (detectNodeByProviderID (Some n) "vsphere" s) as [[[b' o] o'] s1]; simpl in Hd;
    destruct Hd as [Hd|Hd]; simplify_eq; try done; by case_bool_decide.
Qed.

Lemma with_provider_safe name expected n : safe (with_provider name expected n).
Proof.
  intros s. unfold with_provider, st_bind. pose proof (DetectProvider_safe n s) as Hs.
  destruct (DetectProvider (Some n) s) as [[[p|e]|] s1]; try done; by case_match.
Qed.

Lemma DetectDistribution_safe n : safe (DetectDistribution (Some n)).
Proof.
  apply detect_loop_safe. pose proof with_provider_safe as Hw.
  repeat constructor; intros s; unfold IsEKS, IsPKE, IsGKE, IsAKS, IsKIND, IsIKS, IsOpenShift,
    IsDistributionByLabel, with_node; repeat case_match; try done; apply Hw.
Qed.

(** [GetClusterMetadata] passes the first node of a non-empty list to the detection
    functions, which therefore never dereference a nil pointer. *)
Lemma GetClusterMetadata_total (s : S) : (GetClusterMetadata s).1 ≠ None.
Proof.
  unfold GetClusterMetadata, st_bind. destruct (client_ListNodes s) as [[[|n ns]|e] s1]; try done.
  pose proof (DetectProvider_safe n s1) as Hp. destruct (DetectProvider (Some n) s1) as [[p|] s2]; [|done].
  destruct (detected p _); [|done].
  pose proof (DetectDistribution_safe n s2) as Hd. destruct (DetectDistribution (Some n) s2) as [[d|] s3]; [|done].
  by destruct (detected d _).
Qed.
End meta_total.

(** ** Concrete nodes *)

Section meta_runs.
(** A URL parser that knows the scheme before the first colon. *)
#[local] Instance colon_urls : UrlLib := {|
  url_Parse s := match split_first ":"%char s with
                 | Some (sch, rest) => Ok (mkURL sch rest)
                 | None => Ok (mkURL "" s)
                 end;
  url_String u := Scheme u ++ ":" ++ url_rest u |}.

#[local] Instance fixed_nodes : NodeEnv (list Node) := {|
  client_ListNodes s := (Ok s, s);
  ctx_Done s := (false, s) |}.

Definition aws_node (labels : gmap string string) : Node :=
  mkNode labels ∅ "aws:///eu-west-1a/i-1" "v1.23" "v1.23".

(** An OpenShift node on AWS. *)
Lemma detection_tables_witness :
  DetectDistribution (Some (aws_node {[ openshift_label := "rhcos" ]})) []
  = (Some (Ok OPENSHIFT), []).
Proof.
  refine (proj2 (detection_tables (NE:=fixed_nodes) (λ s, eq_refl) (aws_node {[ openshift_label := "rhcos" ]}) []) AMAZON _).
  left. vm_compute. reflexivity.
Defined.

Lemma GetClusterMetadata_correct_witness :
  ∃ md, GetClusterMetadata [aws_node ∅] = (Some (Ok md), [aws_node ∅]) ∧ Distribution md = EKS.
Proof.
  destruct (GetClusterMetadata_correct (NE:=fixed_nodes) (λ s, eq_refl) [aws_node ∅] [aws_node ∅] (aws_node ∅) [] AMAZON
    eq_refl ltac:(left; vm_compute; reflexivity)) as (md & Hmd & _ & Hd & _).
  exists md. split; [exact Hmd|]. rewrite Hd. vm_compute. reflexivity.
Defined.
End meta_runs.
