(* ===== verification/Secret.v ===== *)
(** * The secret of the local cluster

    pkg/util/cluster_secret.go and [GetKubeconfigWithSAToken] of
    pkg/util/kubeconfig.go: how the local cluster gets the secret with the kubeconfig
    that its peers use; pkg/util/provision_local_cluster.go: the [Cluster] resource
    of the local cluster itself. *)

From Stdlib Require Import String.
From stdpp Require Import gmap strings list.
From S2P Require Import Prelude Errors Types Util Conditions.
Open Scope string_scope.
Open Scope go_scope.

Record Secret := mkSecret {
  sec_meta : ObjectMeta;
  sec_Type : string;
  sec_Data : gmap string string }.

Definition SecretTypeServiceAccountToken : string := "kubernetes.io/service-account-token".
Definition ServiceAccountNameKey : string := "kubernetes.io/service-account.name".

(** The fields of [rest.Config] that are read. *)
Record RestConfig := mkRestConfig { CAData : string; Host : string }.

(** A kubeconfig with one cluster, one context and one user. *)
Record Kubeconfig := mkKubeconfig {
  kc_Name : string; kc_User : string; kc_Server : string; kc_CAData : string; kc_Token : string }.

Record WebhookConfiguration := mkWebhookConfiguration {
  wh_meta : ObjectMeta; wh_FailurePolicies : list string }.

Class SecretEnv (S : Type) : Type := {
  client_GetSecret : NamespacedName → ST S (result error Secret);
  client_GetServiceAccountNamespace : NamespacedName → ST S (result error string);
  client_ListSecrets : string → ST S (result error (list Secret));
  client_CreateSecret : Secret → ST S (option error);
  (** the addresses the API server reports per client network *)
  discovery_ServerAddresses : RestConfig → ST S (result error (list (string * string)));
  yaml_Marshal : Kubeconfig → result error string;
  client_GetWebhook : string → ST S (result error WebhookConfiguration);
  client_UpdateWebhook : WebhookConfiguration → ST S (option error);
  client_CreateCluster : Cluster → ST S (option error) }.

(** [wait.ExponentialBackoff]: at most [steps] attempts. *)
Fixpoint ExponentialBackoff {S} (steps : nat) (condition : ST S (result error bool)) : ST S (option error) :=
  match steps with
  | 0 => return! Some (errorString "timed out waiting for the condition")
  | Datatypes.S steps' =>
      let! r := condition in
      match r with
      | Err e => return! Some e
      | Ok true => return! None
      | Ok false => ExponentialBackoff steps' condition
      end
  end.

(** [bytes.Contains(s, sub)]. *)
Fixpoint bytes_Contains (s sub : string) : bool :=
  String.prefix sub s || match s with EmptyString => false | String _ s' => bytes_Contains s' sub end.

Section secret.
Context {S : Type} `{SE : SecretEnv S} `{EL : ErrorLib} `{UL : UrlLib}.

Definition any_network : string := "0.0.0.0/0".

Definition GetExternalAddressOfAPIServer (kubeConfig : RestConfig) : ST S (result error string) :=
  let! l := discovery_ServerAddresses kubeConfig in
  match l with
  | Err e => return! Err (WithStackIf e)
  | Ok l =>
      match List.find (λ a, bool_decide (a.1 = any_network)) l with
      | Some a => return! Ok a.2
      | None => return! Err (errorString "could not determine external apiserver address")
      end
  end.

(** One attempt of [waitForSecretTokenGenerated]; it leaves what it read. *)
Definition token_attempt (ref : NamespacedName) : ST (S * (option string * option string)) (result error bool) :=
  λ '(s, old),
    let '(r, s) := client_GetSecret ref s in
    match r with
    | Err e => if IsNotFound e then (Ok false, (s, old)) else (Err e, (s, old))
    | Ok sec =>
        let token := sec_Data sec !! "token" in
        let caCert := sec_Data sec !! "ca.crt" in
        (Ok (match token, caCert with Some _, Some _ => true | _, _ => false end), (s, (token, caCert)))
    end.

Definition backoff_steps : nat := 3.

Definition waitForSecretTokenGenerated (ref : NamespacedName)
    : ST S (option string * option string * option error) :=
  λ s,
    let '(err, (s, (token, caCert))) := ExponentialBackoff backoff_steps (token_attempt ref) (s, (None, None)) in
    ((token, caCert, (λ e, WrapIf e "fail to wait for the token and CA cert to be generated") <$> err), s).

(** The secret of the service account among those of its namespace. *)
Definition is_token_secret (saName : string) (sec : Secret) : bool :=
  bool_decide (sec_Type sec = SecretTypeServiceAccountToken)
  && bool_decide (om_Annotations (sec_meta sec) !! ServiceAccountNameKey = Some saName).

Definition GetReaderSecretTokenAndCACert (saRef : NamespacedName)
    : ST S (option string * option string * option error) :=
  let! sa := client_GetServiceAccountNamespace saRef in
  match sa with
  | Err e => return! (None, None, Some (WithStackIf e))
  | Ok saNamespace =>
      let! l := client_ListSecrets saNamespace in
      match l with
      | Err e => return! (None, None, Some (WrapIf e "retrieving kubernetes secrets failed with unexpected error"))
      | Ok l =>
          match List.find (is_token_secret (nn_Name saRef)) l with
          | Some sec => return! (sec_Data sec !! "token", sec_Data sec !! "ca.crt", None)
          | None =>
              let ref := mkNamespacedName (nn_Name saRef ++ "-token") (nn_Namespace saRef) in
              let sec := mkSecret (with_annotations {[ ServiceAccountNameKey := nn_Name saRef ]}
                                     (named_meta (nn_Name ref) (nn_Namespace ref)))
                           SecretTypeServiceAccountToken ∅ in
              let! err := client_CreateSecret sec in
              match err with
              | Some e => return! (None, None, Some (WrapIf e "creating kubernetes secret failed"))
              | None => waitForSecretTokenGenerated ref
              end
          end
      end
  end.

Definition GetKubeconfigWithSAToken (name username endpointURL caData saToken : string) : result error string :=
  match getURLWithHTTPSScheme endpointURL with
  | Err e => Err (WithStack e)
  | Ok address => yaml_Marshal (mkKubeconfig name username address caData saToken)
  end.

Definition newline : string := String (Ascii.ascii_of_nat 10) "".

(** The certificates the kubeconfig carries. *)
Definition reader_ca (caCert : string) (kubeConfig : RestConfig) (endpoint : KubernetesAPIEndpoint) : string :=
  let caData := if bytes_Contains caCert (CAData kubeConfig) then caCert
                else caCert ++ newline ++ CAData kubeConfig in
  if bool_decide (CABundle endpoint ≠ "") then caData ++ newline ++ CABundle endpoint else caData.

(** The address the kubeconfig carries: from the resource, from the configuration,
    from the API server, from the controller's own kubeconfig. *)
Definition reader_address (kubeConfig : RestConfig) (endpoint : KubernetesAPIEndpoint)
    (configured : string) : ST S string :=
  let address := if bool_decide (ServerAddress endpoint ≠ "") then ServerAddress endpoint else configured in
  let! address := if bool_decide (address = "") then
                    let! ext := GetExternalAddressOfAPIServer kubeConfig in
                    return! match ext with Ok a => a | Err _ => "" end
                  else return! address in
  return! (if bool_decide (address = "") then Host kubeConfig else address).

Definition GetReaderSecretForCluster (kubeConfig : RestConfig) (cluster : Cluster) (saRef : NamespacedName)
    (apiServerEndpointAddress : string) : ST S (result error Secret) :=
  let! t := GetReaderSecretTokenAndCACert saRef in
  match t with
  | (_, _, Some e) => return! Err (WrapIf e "error getting reader secret for cluster")
  | (token, caCert, None) =>
      let endpoint := GetEndpointForClusterByNetwork cluster "" in
      let caData := reader_ca (default "" caCert) kubeConfig endpoint in
      let! address := reader_address kubeConfig endpoint apiServerEndpointAddress in
      match GetKubeconfigWithSAToken (cl_Name cluster) (nn_Name saRef) address caData (default "" token) with
      | Err e => return! Err (WithStackIf e)
      | Ok kubeconfig =>
          let ref := SecretRef (cs_AuthInfo (cl_Spec cluster)) in
          return! Ok (mkSecret (named_meta (nn_Name ref) (nn_Namespace ref)) SecretTypeClusterRegistry
                        {[ "kubeconfig" := kubeconfig ]})
      end
  end.

(** ** provision_local_cluster.go *)

Context `{CC : !ClusterClient S}.

Definition NewLocalCluster (namespace name apiServerEndpointAddress : string) : ST S (result error Cluster) :=
  let! uid := client_GetNamespaceUID NamespaceSystem in
  match uid with
  | Err e => return! Err e
  | Ok uid =>
      return! Ok (mkCluster (named_meta name "")
        (mkClusterSpec uid (mkAuthInfo (mkNamespacedName name namespace))
           [mkKubernetesAPIEndpoint "" apiServerEndpointAddress ""])
        (mkClusterStatus "" "" "" false ClusterMetadata_zero []))
  end.

Definition Ignore : string := "Ignore".

Definition ProvisionLocalClusterObject (configuration : Configuration) : ST S (option error) :=
  let! existing := client_GetCluster (ProvisionLocalCluster configuration) in
  match existing with
  | Ok _ => return! None
  | Err _ =>
      let! err :=
        if Enabled (cfg_ClusterValidatorWebhook configuration) then
          let! webhook := client_GetWebhook (cvw_Name (cfg_ClusterValidatorWebhook configuration)) in
          match webhook with
          | Err e => return! Some (WrapIf e "could not get validating webhook configuration")
          | Ok webhook =>
              let! err := client_UpdateWebhook
                (mkWebhookConfiguration (wh_meta webhook) ((λ _, Ignore) <$> wh_FailurePolicies webhook)) in
              return! ((λ e, WrapIf e "could not update validating webhook configuration") <$> err)
          end
        else return! None in
      match err with
      | Some e => return! Some e
      | None =>
          let! c := NewLocalCluster (cfg_Namespace configuration) (ProvisionLocalCluster configuration)
                      (APIServerEndpointAddress configuration) in
          match c with
          | Err e => return! Some (WrapIf e "cannot create new local cluster object")
          | Ok c =>
              let! err := client_CreateCluster c in
              return! ((λ e, WrapIf e "cannot create new local cluster object") <$> err)
          end
      end
  end.
End secret.

(** ** What the secret carries *)

Lemma prefix_app_r a b c : String.prefix a b = true → String.prefix a (b ++ c) = true.
Proof.
  revert b. induction a as [|x a IH]; intros b; [by destruct (b ++ c)|].
  destruct b as [|y b]; [done|]. simpl. destruct (Ascii.ascii_dec x y); [apply IH|done].
Qed.

Lemma Contains_self_app a b sub : bytes_Contains b sub = true → bytes_Contains (a ++ b) sub = true.
Proof. intros Hb. induction a as [|x a IH]; [done|]. simpl. rewrite IH. apply orb_true_r. Qed.

Lemma Contains_app_l a b sub : bytes_Contains a sub = true → bytes_Contains (a ++ b) sub = true.
Proof.
  induction a as [|x a IH].
  - simpl. rewrite orb_false_r. intros Hp. assert (sub = "") as -> by (by destruct sub).
    destruct b; done.
  - change (String x a ++ b) with (String x (a ++ b)). cbn [bytes_Contains].
    rewrite !orb_true_iff. intros [Hp|Ha]; [left|right; auto]. exact (prefix_app_r sub (String x a) b Hp).
Qed.

Lemma Contains_refl sub : bytes_Contains sub sub = true.
Proof.
  assert (Hp : String.prefix sub sub = true).
  { induction sub as [|c sub IH]; [done|]. simpl. by destruct (Ascii.ascii_dec c c). }
  destruct sub; [done|]. cbn [bytes_Contains]. by rewrite Hp.
Qed.

Section secret_facts.
Context {S : Type} `{SE : SecretEnv S} `{EL : ErrorLib} `{UL : UrlLib}.

Lemma reader_ca_complete caCert kubeConfig endpoint :
  bytes_Contains (reader_ca caCert kubeConfig endpoint) caCert = true
  ∧ bytes_Contains (reader_ca caCert kubeConfig endpoint) (CAData kubeConfig) = true
  ∧ bytes_Contains (reader_ca caCert kubeConfig endpoint) (CABundle endpoint) = true.
Proof.
  unfold reader_ca.
  assert (H1 : bytes_Contains (if bytes_Contains caCert (CAData kubeConfig) then caCert
                 else caCert ++ newline ++ CAData kubeConfig) (CAData kubeConfig) = true).
  { destruct (bytes_Contains caCert (CAData kubeConfig)) eqn:Hc; [done|].
    apply Contains_self_app, Contains_self_app, Contains_refl. }
  assert (H2 : bytes_Contains (if bytes_Contains caCert (CAData kubeConfig) then caCert
                 else caCert ++ newline ++ CAData kubeConfig) caCert = true).
  { case_match; [apply Contains_refl|apply Contains_app_l, Contains_refl]. }
  case_bool_decide as Hb.
  - split_and!; [by apply Contains_app_l..|]. apply Contains_self_app, Contains_self_app, Contains_refl.
  - rewrite Hb. split_and!; [done..|]. by destruct (if bytes_Contains _ _ then _ else _).
Qed.

(** The secret that is made for the local cluster is of the registry's type, is
    named by the resource, and its kubeconfig trusts the CA of the service account,
    the CA of the controller's own connection and the CA bundle of the resource. *)
Theorem GetReaderSecretForCluster_correct kubeConfig cluster saRef configured (s : S) sec :
  (GetReaderSecretForCluster kubeConfig cluster saRef configured s).1 = Ok sec →
  sec_Type sec = SecretTypeClusterRegistry
  ∧ om_Name (sec_meta sec) = nn_Name (SecretRef (cs_AuthInfo (cl_Spec cluster)))
  ∧ om_Namespace (sec_meta sec) = nn_Namespace (SecretRef (cs_AuthInfo (cl_Spec cluster)))
  ∧ ∃ address ca token text,
      sec_Data sec = {[ KubeconfigKey := text ]}
      ∧ yaml_Marshal (mkKubeconfig (cl_Name cluster) (nn_Name saRef) address ca token) = Ok text
      ∧ bytes_Contains ca (CAData kubeConfig) = true
      ∧ bytes_Contains ca (CABundle (GetEndpointForClusterByNetwork cluster "")) = true.
Proof.
  unfold GetReaderSecretForCluster, st_bind.
  destruct (GetReaderSecretTokenAndCACert saRef s) as [[[token caCert] [e|]] s1]; [done|].
  destruct (reader_address _ _ _ s1) as [address s2]. unfold GetKubeconfigWithSAToken.
  destruct (getURLWithHTTPSScheme address) as [url|e]; [|done].
  destruct (yaml_Marshal _) as [text|e] eqn:Hy; [|done]. simpl. intros [= <-]. split_and!; try done.
  exists url, (reader_ca (default "" caCert) kubeConfig (GetEndpointForClusterByNetwork cluster "")),
    (default "" token), text.
  split_and!; [done|done|apply reader_ca_complete..].
Qed.
End secret_facts.
