(* ===== verification/ClusterReconciler.v ===== *)
(** * The cluster reconciler

    controllers/cluster_reconciler.go, cluster_reconciler_watches.go and
    core_syncers.go: the reconciliation of [Cluster] resources, which keeps the
    clusters manager in step with the resources and their secrets. *)

From stdpp Require Import gmap strings list.
From S2P Require Import Prelude Errors Types Match Util Features Cluster Manager Conditions Meta Secret.
Open Scope string_scope.
Open Scope go_scope.

Record ClusterReconcilerState := mkClusterReconcilerState {
  cr_config : Configuration;
  cr_clusterID : string;
  cr_queue : option (list Request) }.

(** The resources that [reconcileCoreSyncers] maintains. *)
Inductive CoreObject := CoreFeature (f : ClusterFeatureCR) | CoreRule (r : ResourceSyncRule).

Definition core_name (o : CoreObject) : string :=
  match o with CoreFeature f => om_Name (cf_meta f) | CoreRule r => om_Name (rsr_meta r) end.

(** What the reconciler uses besides the API server. *)
Class CtrlEnv (S : Type) : Type := {
  time_Now : ST S Z;
  RecordClusterEvent : Event → ST S unit;
  clientcmd_Load : string → option error;
  clientcmd_ClientConfig : string → ConfigOverrides → option error;
  (** the first probe of a new cluster, and whether its manager could be created *)
  first_probe : string → ST S (probe * bool);
  local_restConfig : RestConfig;
  ReconcileSecret : Secret → ST S (option error);
  SetControllerReference : Cluster → CoreObject → option error;
  ReconcileCore : CoreObject → bool → ST S (option error);
  (** what a status update leaves in the object it is given: the answer of the server,
      or the object as it was *)
  client_StatusResponse : Cluster → S → Cluster }.

Record RWorld (S : Type) := mkRWorld {
  rw_rec : ClusterReconcilerState; rw_mgr : MWorld; rw_env : S }.
Arguments mkRWorld {S} _ _ _.
Arguments rw_rec {S} _.
Arguments rw_mgr {S} _.
Arguments rw_env {S} _.

Section cluster_reconciler.
Context {S : Type} `{CC : ClusterClient S} `{NE : !NodeEnv S} `{SE : !SecretEnv S} `{CE : !CtrlEnv S}.
Context `{EL : ErrorLib} `{UL : UrlLib} `{SL : SelectorLib}.
Context (callback : string → option Ptr → gmap Ptr CWorld → gmap Ptr CWorld).

Abbreviation W := (RWorld S).
(** The resource that is being reconciled, and its conditions so far. *)
Abbreviation RC := (Cluster * ClusterConditionsMap)%type.

Definition env {A} (c : ST S A) : ST W A :=
  λ w, let '(a, s) := c (rw_env w) in (a, mkRWorld (rw_rec w) (rw_mgr w) s).
Definition get_rec : ST W ClusterReconcilerState := λ w, (rw_rec w, w).
Definition get_mgr : ST W MWorld := λ w, (rw_mgr w, w).
Definition modify_mgr (f : MWorld → MWorld) : ST W unit :=
  λ w, (tt, mkRWorld (rw_rec w) (f (rw_mgr w)) (rw_env w)).
Definition modify_rec (f : ClusterReconcilerState → ClusterReconcilerState) : ST W unit :=
  λ w, (tt, mkRWorld (f (rw_rec w)) (rw_mgr w) (rw_env w)).

Definition set_condition (c : ClusterCondition) (rc : RC) : ST W RC :=
  let! now := env time_Now in
  let '(m, event) := SetCondition now rc.2 c in
  let! _ := match event with Some e => env (RecordClusterEvent e) | None => return! tt end in
  return! (rc.1, m).

Definition set_status (f : ClusterStatus → ClusterStatus) (rc : RC) : RC :=
  (with_status (f (cl_Status rc.1)) rc.1, rc.2).

(** [triggerClusterReconcile]. *)
Definition triggerClusterReconcile (c : Cluster) : ST W unit :=
  modify_rec (λ r, mkClusterReconcilerState (cr_config r) (cr_clusterID r)
    ((λ q, (q ++ [mkNamespacedName (cl_Name c) ""])%list) <$> cr_queue r)).

Definition in_conflict (status : string) (c : Cluster) : bool :=
  bool_decide (cc_Status (GetCurrentCondition c ClusterConditionTypeLocalConflict) = status).

Definition triggerLocalClusterReconciles : ST W (option error) :=
  let! l := env client_ListClusters in
  match l with
  | Err e => return! Some e
  | Ok items =>
      st_for items (λ c, if in_conflict ConditionTrue c
                         then let! _ := triggerClusterReconcile c in return! None
                         else return! None)
  end.

Definition setClusterID : ST W (option error) :=
  let! r := get_rec in
  if bool_decide (cr_clusterID r = "") then
    let! id := env GetClusterID in
    match id with
    | Err e => return! Some (WrapIf e "could not get cluster id")
    | Ok id =>
        let! _ := modify_rec (λ r, mkClusterReconcilerState (cr_config r) id (cr_queue r)) in return! None
    end
  else return! None.

(** ** Remote clusters *)

Definition removeRemoteCluster (name : string) : ST W (option error) :=
  let! m := get_mgr in
  match Get name m with
  | Ok p => let! _ := modify_mgr (Manager_Remove callback (Some p)) in return! None
  | Err e => return! Some e
  end.

(** The error of a removal, unless the cluster was not known. *)
Definition removal_failed (err : option error) : option error :=
  match err with
  | Some e => if errors_Is (Cause e) ErrClusterNotFound then None else Some e
  | None => None
  end.

Definition getK8SConfigForCluster (namespace name : string) : ST W (result error string) :=
  let! s := env (client_GetSecret (mkNamespacedName name namespace)) in
  match s with
  | Err e => return! Err e
  | Ok s =>
      if bool_decide (sec_Type s ≠ SecretTypeClusterRegistry)
      then return! Err (WithDetails (sentinel ErrInvalidSecret) [("type", sec_Type s)])
      else match sec_Data s !! KubeconfigKey with
           | Some content => return! Ok content
           | None => return! Err (sentinel ErrInvalidSecretContent)
           end
  end.

(** [onDeadFunc] puts a request for the cluster on the queue and cannot fail. *)
Definition requeueFunc : ClusterFunc := mkClusterFunc "requeue" (λ _, true).

(** The two controllers of a new cluster, [NewRemoteClusterReconciler] and
    [NewClusterFeatureReconciler], with which it is started. *)
Definition new_remote_cluster (parent : ctx) (name secretID kubeconf : string) (pr : probe) (created : bool)
    : bool * CWorld :=
  let w := NewCluster parent name (Some secretID) kubeconf [requeueFunc] in
  let w := set_heap (<[0 := NewManagedController "remote-cluster" (OtherReconciler name) []]> (heap w)) w in
  let w := AddController 0 w in
  let w := set_heap (<[1 := NewManagedController "remote-cluster-feature" (OtherReconciler name) []]> (heap w)) w in
  let w := AddController 1 w in
  Start pr created w.

Definition secret_id (cluster : Cluster) : string :=
  nn_Namespace (SecretRef (cs_AuthInfo (cl_Spec cluster))) ++ "/" ++ nn_Name (SecretRef (cs_AuthInfo (cl_Spec cluster))).

(** The credentials of a known cluster differ from the resource and its secret. *)
Definition credentialsChanged (cw : CWorld) (secretID k8sconfig : string) : bool :=
  (match Cluster.secretID (cl cw) with Some i => bool_decide (i ≠ secretID) | None => false end)
  || (bool_decide (kubeconfig (cl cw) ≠ "") && bool_decide (k8sconfig ≠ kubeconfig (cl cw))).

Definition reconcile_ctx : ctx := [0].

(** The second half of [getRemoteCluster]: a new cluster is set up and registered. *)
Definition create_remote_cluster (cluster : Cluster) (k8sconfig : string) : ST W (result error Ptr) :=
  match clientcmd_Load k8sconfig with
  | Some e => return! Err (WrapIf e "could not load kubeconfig")
  | None =>
      let! r := get_rec in
      match GetKubeconfigOverridesForClusterByNetwork cluster (NetworkName (cr_config r)) with
      | Err e => return! Err (WithStack e)
      | Ok overrides =>
          match clientcmd_ClientConfig k8sconfig overrides with
          | Some e => return! Err (WrapIf e "could not create k8s rest config")
          | None =>
              let! pc := env (first_probe (cl_Name cluster)) in
              let '(failed, cw) := new_remote_cluster reconcile_ctx (cl_Name cluster) (secret_id cluster) k8sconfig pc.1 pc.2 in
              if (failed : bool)
              then return! Err (WrapIf (errorString "could not get cluster ID") "could not start cluster")
              else
                let! m := get_mgr in
                let p := fresh (dom (peers m)) in
                let! _ := modify_mgr (λ m, Manager_Add callback p (set_peers (<[p := cw]> (peers m)) m)) in
                return! Ok p
          end
      end
  end.

Definition getRemoteCluster (rc : RC) : ST W (result error Ptr * RC) :=
  let cluster := rc.1 in
  let ref := SecretRef (cs_AuthInfo (cl_Spec cluster)) in
  let! m := get_mgr in
  let remoteCluster := match Get (cl_Name cluster) m with Ok p => Some p | Err _ => None end in
  let! k8sconfig := getK8SConfigForCluster (nn_Namespace ref) (nn_Name ref) in
  match k8sconfig with
  | Err e =>
      let rc := set_status (status_set_State ClusterStateInvalidAuthInfo) rc in
      let! _ := match remoteCluster with
                | Some p => modify_mgr (Manager_Remove callback (Some p))
                | None => return! tt
                end in
      return! (Err (WrapAsPermanentError e), rc)
  | Ok k8sconfig =>
      match remoteCluster with
      | Some p =>
          match peers m !! p with
          | Some cw =>
              if negb (IsAlive cw)
              then return! (Err (WrapAsPermanentError (errorString "remote cluster is not alive")), rc)
              else if negb (credentialsChanged cw (secret_id cluster) k8sconfig) then return! (Ok p, rc)
              else
                let! _ := modify_mgr (Manager_Remove callback (Some p)) in
                let! res := create_remote_cluster cluster k8sconfig in
                return! (res, rc)
          | None => let! res := create_remote_cluster cluster k8sconfig in return! (res, rc)
          end
      | None => let! res := create_remote_cluster cluster k8sconfig in return! (res, rc)
      end
  end.

Definition reconcileRemoteCluster (rc : RC) : ST W (option error * RC) :=
  let! rc := set_condition (LocalClusterCondition false) rc in
  let ref := SecretRef (cs_AuthInfo (cl_Spec rc.1)) in
  if bool_decide (nn_Name ref = "") || bool_decide (nn_Namespace ref = "")
  then return! (None, set_status (status_set_State ClusterStateMissingAuthInfo) rc)
  else
    let! out := getRemoteCluster rc in
    match out with
    | (Ok _, rc) => return! (None, rc)
    | (Err e, rc) =>
        let e := WithStackIf e in
        let! rc := set_condition (ClustersSyncedCondition (Some e)) rc in
        return! (Some (WithStackIf e), rc)
    end.

(** ** The local cluster *)

(** The loop of [checkLocalClusterConflict] over the resources. *)
Fixpoint conflict_loop (rc : RC) (items : list Cluster) : ST W (option error * RC) :=
  match items with
  | [] => let! rc := set_condition (LocalClusterConflictCondition false) rc in return! (None, rc)
  | c :: items' =>
      if bool_decide (cl_UID c = cl_UID rc.1) then conflict_loop rc items'
      else if bool_decide (ClusterID (cl_Spec c) = ClusterID (cl_Spec rc.1)) then
        let! _ := if in_conflict ConditionFalse c then triggerClusterReconcile c else return! tt in
        let! rc := set_condition (LocalClusterConflictCondition true) rc in
        return! (Some (WrapAsPermanentError (sentinel ErrLocalClusterConflict)), rc)
      else conflict_loop rc items'
  end.

Definition checkLocalClusterConflict (rc : RC) : ST W (option error * RC) :=
  let! l := env client_ListClusters in
  match l with
  | Err e => return! (Some (WrapIf e "could not list objects"), rc)
  | Ok items => conflict_loop rc items
  end.

Definition provisionLocalClusterReaderSecret (cluster : Cluster) : ST W (option error) :=
  let! r := get_rec in
  let ref := SecretRef (cs_AuthInfo (cl_Spec cluster)) in
  if negb (ManageLocalClusterSecret (cr_config r)) then return! None
  else if bool_decide (nn_Name ref = "") || bool_decide (nn_Namespace ref = "") then return! None
  else
    let! secret := env (GetReaderSecretForCluster local_restConfig cluster
      (mkNamespacedName (ReaderServiceAccountName (cr_config r)) (cfg_Namespace (cr_config r)))
      (APIServerEndpointAddress (cr_config r))) in
    match secret with
    | Err e => return! Some (WithStackIf e)
    | Ok secret => let! err := env (ReconcileSecret secret) in return! (WithStackIf <$> err)
    end.

(** *** core_syncers.go *)

Definition CoreResourcesSourceFeatureName : string := "cluster-registry-core-resources-source".
Definition CoreResourceLabelName : string := "cluster-registry-controller.k8s.cisco.com/core-sync-resource".
Definition registry_gvk (kind : string) : GroupVersionKind :=
  mkGVK "clusterregistry.k8s.cisco.com" "v1alpha1" kind.

Definition core_meta (name : string) : ObjectMeta :=
  with_labels {[ CoreResourceLabelName := "true" ]} (named_meta name "").

Definition coreSyncersClusterFeature : ClusterFeatureCR :=
  mkClusterFeatureCR (core_meta "cluster-registry-core-resources") CoreResourcesSourceFeatureName.

(** The rules of the core resources: kind and matches. *)
Definition core_rule (name : string) (gvk : GroupVersionKind) (matches : list SyncRuleMatch) : ResourceSyncRule :=
  mkResourceSyncRule (core_meta name)
    (mkResourceSyncRuleSpec [mkClusterFeatureMatch CoreResourcesSourceFeatureName ∅ []] gvk
       [mkSyncRule matches (mkMutations None None None [] false)]).

Definition clustersSyncRule : ResourceSyncRule :=
  core_rule "cluster-registry-core-resource-clusters-sink" (registry_gvk "Cluster") [].

Definition clusterSecretsSyncRule (namespace : string) : ResourceSyncRule :=
  core_rule "cluster-registry-core-resource-cluster-secrets-sink" (mkGVK "" "v1" "Secret")
    [mkSyncRuleMatch [] [mkContentSelector "type" (intstr_FromString SecretTypeClusterRegistry)] []
       [namespace] (mkNamespacedName "" "")].

Definition resourceSyncRuleSync : ResourceSyncRule :=
  core_rule "cluster-registry-core-resource-syncrules-sink" (registry_gvk "ResourceSyncRule") [].

(** The loop of [reconcileCoreSyncers]: objects with their desired presence. *)
Fixpoint core_loop (cluster : Cluster) (l : list (CoreObject * bool)) : ST W (option error) :=
  match l with
  | [] => return! None
  | (o, present) :: l' =>
      match SetControllerReference cluster o with
      | Some e => return! Some (WrapIf e "couldn't set local Cluster as resource owner for resource")
      | None =>
          let! err := env (ReconcileCore o present) in
          match err with
          | Some e => return! Some e
          | None => core_loop cluster l'
          end
      end
  end.

Definition core_objects (cfg : Configuration) : list (CoreObject * bool) :=
  [ (CoreFeature coreSyncersClusterFeature, CoreResourcesSourceEnabled cfg);
    (CoreRule clustersSyncRule, true);
    (CoreRule (clusterSecretsSyncRule (cfg_Namespace cfg)), true);
    (CoreRule resourceSyncRuleSync, true) ].

(** The map of the objects is visited in the order [order]. *)
Definition reconcileCoreSyncers_in (order : list (CoreObject * bool)) (cluster : Cluster) : ST W (option error) :=
  core_loop cluster order.
Definition reconcileCoreSyncers (cluster : Cluster) : ST W (option error) :=
  let! r := get_rec in reconcileCoreSyncers_in (core_objects (cr_config r)) cluster.

(** [GetClusterMetadata] on the local cluster; see [GetClusterMetadata_total] for the
    panic, which cannot happen. *)
Definition local_metadata : ST W (result error ClusterMetadata) :=
  let! md := env GetClusterMetadata in
  return! match md with Some r => r | None => Err (errorString "nil pointer dereference") end.

Definition reconcileLocalCluster (rc : RC) : ST W (option error * RC) :=
  let! rc := set_condition (LocalClusterCondition true) rc in
  let! out := checkLocalClusterConflict rc in
  match out with
  | (Some e, rc) => return! (Some (WithStackIf e), rc)
  | (None, rc) =>
      let! md := local_metadata in
      let! rc := set_condition (ClusterMetadataCondition (res_err md)) rc in
      match md with
      | Err e => return! (Some (WithStackIf e), rc)
      | Ok md =>
          let rc := set_status (status_set_Metadata md) rc in
          let! err := provisionLocalClusterReaderSecret rc.1 in
          match err with
          | Some e => return! (Some (WithStackIf e), rc)
          | None =>
              let! err := reconcileCoreSyncers rc.1 in
              return! (WithStackIf <$> err, rc)
          end
      end
  end.

(** ** Reconcile *)

(** The branch for a cluster that is not disabled. The Ready condition is computed
    from the outcome [err] of reading the resource, which is nil here. *)
Definition reconcile_enabled (isClusterLocal : bool) (err : option error) (rc : RC) : ST W (option error * RC) :=
  let! out := if isClusterLocal then reconcileLocalCluster rc else reconcileRemoteCluster rc in
  let! rc := set_condition (ClusterReadyCondition err) out.2 in
  return! (out.1, rc).

(** The product of two [time.Duration]s. *)
Definition refresh (cfg : Configuration) : Result :=
  mkResult false (int64 (time_Second * RefreshIntervalSeconds (cfg_ClusterController cfg))).

(** The end of [Reconcile]. *)
Definition finish (isClusterLocal : bool) (reconcileError : option error) (rc : RC) : ST W (Result * option error) :=
  let! r := get_rec in
  let! err :=
    if isClusterLocal || (match reconcileError with Some _ => true | None => false end)
    then env (UpdateCluster reconcileError rc.1 rc.2) else return! None in
  match err with
  | Some e => return! (Result_zero, Some e)
  | None => return! (refresh (cr_config r), None)
  end.

(** The resource is gone. *)
Definition reconcile_gone (name : string) : ST W (Result * option error) :=
  let! removeErr := removeRemoteCluster name in
  match removal_failed removeErr with
  | Some e => return! (Result_zero, Some (WithStackIf e))
  | None =>
      let! err := triggerLocalClusterReconciles in
      match err with
      | Some e => return! (Result_zero, Some (WithStackIf e))
      | None => return! (Result_zero, None)
      end
  end.

(** The branch for a disabled cluster: [inl] is an early return. What follows works on
    the object as the update has left it. *)
Definition reconcile_disabled (rc : RC) : ST W ((Result * option error) + RC) :=
  let! removeErr := removeRemoteCluster (cl_Name rc.1) in
  match removal_failed removeErr with
  | Some e => return! (inl (Result_zero, Some (WithStackIf e)))
  | None =>
      let rc := set_status (λ s, status_set_State ClusterStateDisabled (ClusterStatus_Reset s)) rc in
      let rc := (rc.1, ∅) in
      let! cluster := env (λ s, (client_StatusResponse (with_outcome None rc.1 rc.2) s, s)) in
      let! err := env (UpdateCluster None rc.1 rc.2) in
      match err with
      | Some e => return! (inl (Result_zero, Some e))
      | None => return! (inr (cluster, rc.2))
      end
  end.

(** A local cluster may have been a remote one: [Some] is an early return. *)
Definition prepare_type (isClusterLocal : bool) (cluster : Cluster) : ST W (option error * Cluster) :=
  let cluster := with_status (ClusterStatus_Reset (cl_Status cluster)) cluster in
  if isClusterLocal then
    let! removeErr := removeRemoteCluster (cl_Name cluster) in
    match removal_failed removeErr with
    | Some e => return! (Some (WithStackIf e), cluster)
    | None => return! (None, with_status (status_set_Type ClusterTypeLocal (cl_Status cluster)) cluster)
    end
  else if bool_decide (cst_Type (cl_Status cluster) = ClusterTypeLocal) then
    let! err := triggerLocalClusterReconciles in
    return! (WithStackIf <$> err, cluster)
  else return! (None, cluster).

Definition Reconcile_cluster (req : Request) : ST W (Result * option error) :=
  let! err := setClusterID in
  match err with
  | Some e => return! (Result_zero, Some (WithStackIf e))
  | None =>
      let! res := env (client_GetCluster (nn_Name req)) in
      match res with
      | Err e => if IsNotFound e then reconcile_gone (nn_Name req)
                 else return! (Result_zero, Some (WrapIf e "could not get object"))
      | Ok cluster =>
          let! r := get_rec in
          let isClusterLocal := bool_decide (ClusterID (cl_Spec cluster) = cr_clusterID r) in
          let! prep := prepare_type isClusterLocal cluster in
          match prep with
          | (Some e, _) => return! (Result_zero, Some e)
          | (None, cluster) =>
              let rc := (cluster, GetCurrentConditions cluster) in
              match om_Annotations (cl_meta cluster) !! ClusterDisabledAnnotation with
              | Some _ =>
                  let! out := reconcile_disabled rc in
                  match out with
                  | inl early => return! early
                  | inr rc => finish isClusterLocal None rc
                  end
              | None =>
                  let! out := reconcile_enabled isClusterLocal None rc in
                  finish isClusterLocal out.1 out.2
              end
          end
      end
  end.

(** ** Watches *)

Definition cluster_request (c : Cluster) : Request := mkNamespacedName (cl_Name c) (om_Namespace (cl_meta c)).

(** [localClusterMapFunc], and the map function of [watchLocalClustersForConflict],
    which lists the clusters by id first. *)
Definition localClusterMapFunc : ST W (list Request) :=
  let! l := env client_ListClusters in
  match l with
  | Err _ => return! []
  | Ok items => return! (cluster_request <$> filter (λ c, cst_Type (cl_Status c) = ClusterTypeLocal) items)
  end.

Definition conflictMapFunc : ST W (list Request) :=
  let! l := env GetClusters in
  match l with
  | Err _ => return! []
  | Ok m => return! (cluster_request <$> filter (λ c, cst_Type (cl_Status c) = ClusterTypeLocal) (map_to_list m).*2)
  end.

(** The map function of [watchClusterRegistrySecrets]. *)
Definition secretMapFunc (secret : Secret) : ST W (list Request) :=
  if bool_decide (sec_Type secret ≠ SecretTypeClusterRegistry) then return! [] else
  let! l := env GetClusters in
  match l with
  | Err _ => return! []
  | Ok m =>
      return! (cluster_request <$> filter (λ c,
        nn_Name (SecretRef (cs_AuthInfo (cl_Spec c))) = om_Name (sec_meta secret)
        ∧ nn_Namespace (SecretRef (cs_AuthInfo (cl_Spec c))) = om_Namespace (sec_meta secret)) (map_to_list m).*2)
  end.

(** The update predicates of the watches on the core resources and on [Cluster]. *)
Definition core_update_predicate (old : ObjectMeta) : bool :=
  bool_decide (om_Labels old !! CoreResourceLabelName = Some "true").
Definition cluster_update_predicate (old new : ObjectMeta) : bool :=
  if bool_decide (om_Generation new ≠ om_Generation old) then true
  else if negb (bool_decide (om_Annotations old = om_Annotations new)) then true
  else false.
End cluster_reconciler.
