(* ===== verification/RegistryFacts.v ===== *)
(** * Properties of the cluster reconciler *)

From stdpp Require Import gmap strings list.
From S2P Require Import Prelude Errors Types Match Util Features Cluster Manager Conditions Meta Secret ClusterReconciler.
Open Scope string_scope.

Section registry.
Context {S : Type} `{CC : ClusterClient S} `{NE : !NodeEnv S} `{SE : !SecretEnv S} `{CE : !CtrlEnv S}.
Context `{EL : ErrorLib} `{UL : UrlLib} `{SL : SelectorLib}.
Context (callback : string → option Ptr → gmap Ptr CWorld → gmap Ptr CWorld).
Context (callback_grows : ∀ f c h, heap_grows h (callback f c h)).

(** ** Conditions *)

Lemma SetCondition_status now m c :
  ∃ c', (SetCondition now m c).1 !! cc_Type c = Some c' ∧ cc_Status c' = cc_Status c.
Proof.
  unfold SetCondition. destruct (m !! cc_Type c) as [old|]; [case_bool_decide|]; simpl;
    rewrite lookup_insert_eq; eexists; (split; [done|]); simpl; by repeat case_match.
Qed.

Lemma set_condition_status c rc (w : RWorld S) :
  ∃ c', ((set_condition c rc w).1).2 !! cc_Type c = Some c' ∧ cc_Status c' = cc_Status c.
Proof.
  unfold set_condition, st_bind, env. destruct (time_Now (rw_env w)) as [now s1].
  pose proof (SetCondition_status now rc.2 c) as Hs. destruct (SetCondition now rc.2 c) as [m [e|]]; simpl in *;
    [by destruct (RecordClusterEvent e s1)|done].
Qed.

Lemma set_condition_cluster c rc (w : RWorld S) :
  ((set_condition c rc w).1).1 = rc.1 ∧ rw_mgr (set_condition c rc w).2 = rw_mgr w
  ∧ rw_rec (set_condition c rc w).2 = rw_rec w.
Proof.
  unfold set_condition, st_bind, env. destruct (time_Now (rw_env w)) as [now s1].
  destruct (SetCondition now rc.2 c) as [m [e|]]; simpl; [by destruct (RecordClusterEvent e s1)|done].
Qed.

(** The Ready condition of a cluster is True after every reconciliation of an
    enabled cluster, also after one that failed: it is computed from the error of
    reading the resource, not from the error of the reconciliation. *)
Theorem ready_condition_ignores_failure isClusterLocal rc (w : RWorld S) :
  let '((reconcileError, rc'), _) := reconcile_enabled callback isClusterLocal None rc w in
  ∃ c, rc'.2 !! ClusterConditionTypeReady = Some c ∧ cc_Status c = ConditionTrue.
Proof.
  unfold reconcile_enabled, st_bind.
  destruct ((if isClusterLocal then reconcileLocalCluster rc else reconcileRemoteCluster callback rc) w)
    as [[e rc1] w1]. cbn [fst snd].
  pose proof (set_condition_status (ClusterReadyCondition None) rc1 w1) as Hs.
  destruct (set_condition (ClusterReadyCondition None) rc1 w1) as [rc2 w2]. exact Hs.
Qed.

(** A peer whose resource names no secret gets the state MissingAuthInfo only in
    memory: the reconciliation ends without an error and without writing the status. *)
Theorem missing_auth_info_not_reported rc (w : RWorld S) :
  let ref := SecretRef (cs_AuthInfo (cl_Spec rc.1)) in
  nn_Name ref = "" ∨ nn_Namespace ref = "" →
  let '((reconcileError, rc'), w') := reconcile_enabled callback false None rc w in
  reconcileError = None ∧ State (cl_Status rc'.1) = ClusterStateMissingAuthInfo
  ∧ finish false reconcileError rc' w' = ((refresh (cr_config (rw_rec w')), None), w').
Proof.
  intros ref Href. unfold reconcile_enabled, reconcileRemoteCluster, st_bind.
  destruct (set_condition_cluster (LocalClusterCondition false) rc w) as (Hc & _).
  destruct (set_condition (LocalClusterCondition false) rc w) as [rc1 w1]. simpl in Hc. rewrite Hc. fold ref.
  assert (bool_decide (nn_Name ref = "") || bool_decide (nn_Namespace ref = "") = true) as ->.
  { apply orb_true_iff. rewrite !bool_decide_eq_true. done. }
  cbn iota. unfold st_ret at 1. cbn [fst snd]. set (rc2 := set_status _ rc1).
  destruct (set_condition_cluster (ClusterReadyCondition None) rc2 w1) as (Hc2 & _).
  destruct (set_condition (ClusterReadyCondition None) rc2 w1) as [rc3 w3]. simpl in *.
  split_and!; [done| |done]. by rewrite Hc2.
Qed.

(** ** Conflicting local clusters *)

(** Another resource for the same cluster. *)
Definition conflicting (cluster c : Cluster) : Prop :=
  cl_UID c ≠ cl_UID cluster ∧ ClusterID (cl_Spec c) = ClusterID (cl_Spec cluster).

Lemma conflict_loop_spec rc items (w : RWorld S) :
  let '((err, rc'), _) := conflict_loop rc items w in
  (err = Some (WrapAsPermanentError (sentinel ErrLocalClusterConflict)) ∧ Exists (conflicting rc.1) items)
  ∨ (err = None ∧ Forall (λ c, ¬ conflicting rc.1 c) items).
Proof.
  revert w. induction items as [|c items IH]; intros w; simpl.
  { unfold st_bind. destruct (set_condition _ rc w) as [rc1 w1]. simpl. right. by split. }
  case_bool_decide as Hu; [|case_bool_decide as Hi].
  - specialize (IH w). destruct (conflict_loop rc items w) as [[err rc'] w1].
    destruct IH as [[-> He]|[-> Hf]]; [left; split; [done|by right]|right; split; [done|]].
    constructor; [|done]. by intros [? _].
  - unfold st_bind.
    destruct ((if in_conflict ConditionFalse c then triggerClusterReconcile c else st_ret tt) w) as [u w1].
    destruct (set_condition (new_condition _ _ _ _ _) rc w1) as [rc1 w2]. simpl.
    left. split; [done|]. left. by split.
  - specialize (IH w). destruct (conflict_loop rc items w) as [[err rc'] w1].
    destruct IH as [[-> He]|[-> Hf]]; [left; split; [done|by right]|right; split; [done|]].
    constructor; [|done]. by intros [_ ?].
Qed.

(** ** Credentials *)

Lemma secret_quiet ns n (w : RWorld S) :
  rw_mgr (getK8SConfigForCluster ns n w).2 = rw_mgr w ∧ rw_rec (getK8SConfigForCluster ns n w).2 = rw_rec w.
Proof.
  unfold getK8SConfigForCluster, st_bind, env. destruct (client_GetSecret _ _) as [[s|e] s1]; [|done].
  case_bool_decide; [done|]. by destruct (sec_Data s !! KubeconfigKey).
Qed.

Lemma new_remote_cluster_facts parent name i k pr created :
  let cw := (new_remote_cluster parent name i k pr created).2 in
  c_name (cl cw) = name ∧ secretID (cl cw) = Some i ∧ kubeconfig (cl cw) = k.
Proof.
  set (P := λ c : RtCluster, c_name c = name ∧ secretID c = Some i ∧ kubeconfig c = k).
  assert (Hadd : ∀ p w, P (cl w) → P (cl (AddController p w))).
  { intros p w Hw. unfold AddController, addController, addPendingController, start_under_manager,
      managedController_Start. repeat (case_match; simplify_eq/=; try done). }
  assert (Hstart : ∀ l x w, P (cl w) → P (cl (foldl (λ w p, managedController_Start x p w) w l))).
  { induction l as [|p l IH]; intros x w Hw; simpl; [done|]. apply IH.
    unfold managedController_Start. by repeat (case_match; simplify_eq/=; try done). }
  assert (Hfuncs : ∀ l w, P (cl w) → P (cl (foldl (λ w f, runClusterFunc f w) w l))).
  { induction l as [|f l IH]; intros w Hw; simpl; [done|]. by apply IH. }
  assert (Hstop : ∀ w, P (cl w) → P (cl (stopManager w))).
  { intros w Hw. unfold stopManager, cancel. by repeat case_match. }
  unfold new_remote_cluster, Start. set (w1 := AddController 1 _).
  assert (Hw1 : P (cl w1)) by (unfold w1; apply Hadd; simpl; by apply Hadd).
  clearbody w1. destruct pr as [| |uid]; simpl.
  1, 2: unfold setDead; case_match; [done|]; simpl; apply Hfuncs, Hstop, Hw1.
  unfold setAlive. case_match; [done|]. simpl. apply Hfuncs. case_match; [|done].
  unfold StartManager, StartManager_in. case_match; [done|]. simpl. case_match; [done|]. by apply Hstart.
Qed.

(** The credentials of a cluster: where its secret is, and what the secret holds. *)
Definition has_credentials (cw : CWorld) (id content : string) : Prop :=
  Cluster.secretID (cl cw) = Some id ∧ kubeconfig (cl cw) = content.

(** The secret that was read is of the type of the registry, and has a kubeconfig. *)
Definition secret_holds (got : result error Secret) (content : string) : Prop :=
  ∃ s, got = Ok s ∧ sec_Type s = SecretTypeClusterRegistry ∧ sec_Data s !! KubeconfigKey = Some content.

Lemma getK8SConfig_holds ns n (w : RWorld S) :
  match (getK8SConfigForCluster ns n w).1 with
  | Ok content => ∀ content', secret_holds (client_GetSecret (mkNamespacedName n ns) (rw_env w)).1 content' → content' = content
  | Err _ => ∀ content', ¬ secret_holds (client_GetSecret (mkNamespacedName n ns) (rw_env w)).1 content'
  end
  ∧ ∀ content, (getK8SConfigForCluster ns n w).1 = Ok content →
      secret_holds (client_GetSecret (mkNamespacedName n ns) (rw_env w)).1 content.
Proof.
  unfold getK8SConfigForCluster, st_bind, env, secret_holds.
  destruct (client_GetSecret (mkNamespacedName n ns) (rw_env w)) as [[s|e] s1]; simpl; [|by split; [intros c (x & ? & _)|]].
  case_bool_decide as Ht; simpl; [split; [intros c (x & ? & ? & _); congruence|done]|].
  destruct (sec_Data s !! KubeconfigKey) as [c|] eqn:Hc; simpl.
  - split; [intros c' (x & [= <-] & _ & ?); congruence|]. intros c' [= <-]. exists s. split_and!; [done| |done].
    destruct (decide (sec_Type s = SecretTypeClusterRegistry)); [done|by destruct Ht].
  - split; [intros c' (x & [= <-] & _ & ?); congruence|done].
Qed.

Lemma create_remote_cluster_ok cluster content (w : RWorld S) p :
  manager_wf (rw_mgr w) →
  let '(res, w') := create_remote_cluster callback cluster content w in
  let m := rw_mgr w' in
  res = Ok p →
  manager_wf m ∧ Get (cl_Name cluster) m = Ok p
  ∧ ∃ cw, peers m !! p = Some cw ∧ has_credentials cw (secret_id cluster) content.
Proof.
  intros Hwf. unfold create_remote_cluster. destruct (clientcmd_Load content); [done|].
  unfold st_bind at 1, get_rec. destruct (GetKubeconfigOverridesForClusterByNetwork _ _); [|done].
  destruct (clientcmd_ClientConfig content _); [done|]. unfold st_bind, env.
  destruct (first_probe (cl_Name cluster) (rw_env w)) as [[pr created] s1]. simpl.
  pose proof (new_remote_cluster_facts reconcile_ctx (cl_Name cluster) (secret_id cluster) content pr created) as Hn.
  destruct (new_remote_cluster _ _ _ _ _ _) as [[] cw]; [done|]. simpl in *. intros [= <-].
  set (p := fresh _). set (m1 := set_peers (<[p := cw]> (peers (rw_mgr w))) (rw_mgr w)).
  assert (Hp : peers m1 !! p = Some cw) by apply lookup_insert_eq.
  assert (Hfresh : peers (rw_mgr w) !! p = None) by (apply not_elem_of_dom, is_fresh).
  assert (Hwf1 : manager_wf m1).
  { intros n q Hq. destruct (Hwf n q Hq) as (cw' & Hcw' & <-). exists cw'. split; [|done]. simpl.
    rewrite lookup_insert_ne; [done|]. intros <-. congruence. }
  destruct (Manager_Add_effect callback callback_grows p m1) as (Hm & Hh & _); [by rewrite Hp|].
  assert (Hname : cluster_name (peers m1) p = cl_Name cluster) by (unfold cluster_name; rewrite Hp; apply Hn).
  destruct (Hh p cw Hp) as (cw' & Hcw' & (Hn1 & Hi1 & Hk1) & _). split_and!.
  - apply Manager_Add_wf; [done|by rewrite Hp|done].
  - unfold Get. rewrite Hm, Hname, lookup_insert_eq. done.
  - exists cw'. split; [done|]. destruct Hn as (_ & Hi & Hk). unfold has_credentials. by rewrite Hi1, Hi, Hk1, Hk.
Qed.

(** The test for changed credentials, for a cluster that was made with some. *)
Lemma credentialsChanged_spec cw id content :
  is_Some (Cluster.secretID (cl cw)) → kubeconfig (cl cw) ≠ "" →
  credentialsChanged cw id content = false ↔ has_credentials cw id content.
Proof.
  intros [i Hi] Hk. unfold credentialsChanged, has_credentials. rewrite Hi, (bool_decide_true (kubeconfig _ ≠ "")) by done.
  simpl. rewrite orb_false_iff, !bool_decide_eq_false. split.
  - intros [H1%dec_stable H2%dec_stable]. split; congruence.
  - intros [[= ->] ->]. split; naive_solver.
Qed.

(** C28: a cluster that [getRemoteCluster] returns is the one registered under the
    name of the resource, and was made with the secret that the resource names and the
    kubeconfig that this secret holds now: a cluster with other credentials has been
    replaced. When the secret cannot be read, has another type or no kubeconfig, the
    cluster is no longer registered, the state says InvalidAuthInfo, and the error is
    permanent. The map of the manager stays well formed. A cluster that is registered
    already was made with some secret and a kubeconfig that is not empty, as those that
    [getRemoteCluster] registers are when their secret is not empty. *)
Theorem getRemoteCluster_credentials rc (w : RWorld S) :
  manager_wf (rw_mgr w) →
  (∀ p cw, m_clusters (mg (rw_mgr w)) !! cl_Name rc.1 = Some p → peers (rw_mgr w) !! p = Some cw →
     is_Some (Cluster.secretID (cl cw)) ∧ kubeconfig (cl cw) ≠ "") →
  let cluster := rc.1 in
  let ref := SecretRef (cs_AuthInfo (cl_Spec cluster)) in
  let got := (client_GetSecret (mkNamespacedName (nn_Name ref) (nn_Namespace ref)) (rw_env w)).1 in
  let '((res, rc'), w') := getRemoteCluster callback rc w in
  (∀ p, res = Ok p →
     manager_wf (rw_mgr w') ∧ Get (cl_Name cluster) (rw_mgr w') = Ok p
     ∧ ∃ cw content, peers (rw_mgr w') !! p = Some cw ∧ secret_holds got content
         ∧ Cluster.secretID (cl cw) = Some (nn_Namespace ref ++ "/" ++ nn_Name ref) ∧ kubeconfig (cl cw) = content)
  ∧ ((∀ content, ¬ secret_holds got content) →
      manager_wf (rw_mgr w') ∧ Exists_ (cl_Name cluster) (rw_mgr w') = false
      ∧ State (cl_Status rc'.1) = ClusterStateInvalidAuthInfo
      ∧ ∃ e, res = Err (WrapAsPermanentError e)).
Proof.
  intros Hwf Hmade cluster ref got. unfold getRemoteCluster, st_bind at 1, get_mgr. simpl. fold cluster ref.
  destruct (secret_quiet (nn_Namespace ref) (nn_Name ref) w) as [Hm Hr].
  destruct (getK8SConfig_holds (nn_Namespace ref) (nn_Name ref) w) as [_ Hholds]. fold got in Hholds.
  unfold st_bind at 1. destruct (getK8SConfigForCluster (nn_Namespace ref) (nn_Name ref) w) as [[content|e] w1];
    simpl in Hm, Hr, Hholds |- *.
  - specialize (Hholds content eq_refl).
    assert (Hcreate : ∀ w2, manager_wf (rw_mgr w2) →
      let '((res, rc'), w') := st_bind (create_remote_cluster callback cluster content)
                                 (λ res, st_ret (res, rc)) w2 in
      ∀ p, res = Ok p → manager_wf (rw_mgr w') ∧ Get (cl_Name cluster) (rw_mgr w') = Ok p
        ∧ ∃ cw content, peers (rw_mgr w') !! p = Some cw ∧ secret_holds got content ∧ has_credentials cw (secret_id cluster) content).
    { intros w2 Hwf2. unfold st_bind. pose proof (λ p, create_remote_cluster_ok cluster content w2 p Hwf2) as Hc.
      destruct (create_remote_cluster callback cluster content w2) as [res w3]. intros p Hp.
      destruct (Hc p Hp) as (? & ? & cw & ? & ?). split_and!; [done..|]. by exists cw, content. }
    unfold Get at 1. destruct (m_clusters (mg (rw_mgr w)) !! cl_Name cluster) as [p|] eqn:Hp;
      [|unfold st_bind in *; specialize (Hcreate w1 ltac:(by rewrite Hm));
        destruct (create_remote_cluster _ _ _ w1) as [res w']; split; [exact Hcreate|intros Hn; by destruct (Hn content)]].
    destruct (Hwf _ _ Hp) as (cw & Hcw & Hn). rewrite Hcw. destruct (Hmade p cw Hp Hcw) as [Hid Hkc].
    destruct (IsAlive cw); simpl; [|by split; [|intros Hno; destruct (Hno content)]].
    destruct (credentialsChanged cw (secret_id cluster) content) eqn:Hcc; simpl.
    + unfold st_bind at 1, modify_mgr. simpl.
      assert (Hwf2 : manager_wf (Manager_Remove callback (Some p) (rw_mgr w1))).
      { rewrite Hm. apply Manager_Remove_wf; [done|by rewrite Hcw|done]. }
      specialize (Hcreate (mkRWorld (rw_rec w1) (Manager_Remove callback (Some p) (rw_mgr w1)) (rw_env w1)) Hwf2).
      unfold st_bind in *. destruct (create_remote_cluster _ _ _ _) as [res w'].
      split; [exact Hcreate|intros Hno; by destruct (Hno content)].
    + split; [|intros Hno; by destruct (Hno content)].
      apply credentialsChanged_spec in Hcc; [|done..].
      intros p' [= <-]. rewrite Hm. split_and!; [done| |by exists cw, content]. unfold Get. by rewrite Hp.
  - assert (Hend : manager_wf (rw_mgr (mkRWorld (rw_rec w1) (match m_clusters (mg (rw_mgr w)) !! cl_Name cluster with
        Some p => Manager_Remove callback (Some p) (rw_mgr w1) | None => rw_mgr w1 end) (rw_env w1)))
      ∧ Exists_ (cl_Name cluster) (match m_clusters (mg (rw_mgr w)) !! cl_Name cluster with
        Some p => Manager_Remove callback (Some p) (rw_mgr w1) | None => rw_mgr w1 end) = false).
    { cbn [rw_mgr]. rewrite Hm. destruct (m_clusters (mg (rw_mgr w)) !! cl_Name cluster) as [p|] eqn:Hp.
      - destruct (Hwf _ _ Hp) as (cw & Hcw & Hn).
        destruct (Manager_Remove_effect callback callback_grows p cw (rw_mgr w) Hcw) as (Hd & _); [by rewrite Hn, Hp|].
        split; [apply Manager_Remove_wf; [done|by rewrite Hcw|done]|].
        unfold Exists_. by rewrite Hd, Hn, lookup_delete_eq.
      - split; [done|]. unfold Exists_. by rewrite Hp. }
    unfold Get. destruct (m_clusters (mg (rw_mgr w)) !! cl_Name cluster) as [p|] eqn:Hp;
      unfold st_bind, modify_mgr, st_ret; cbn [rw_mgr fst snd] in *; (split; [done|]); intros _;
      (split_and!; [apply Hend|apply Hend|done|by exists e]).
Qed.

(** A local cluster is in conflict exactly when another resource, with another
    UID, claims the same cluster id: the error is then permanent, and names the
    conflict; otherwise there is no error. *)
Theorem checkLocalClusterConflict_correct rc (w : RWorld S) items s1 :
  client_ListClusters (rw_env w) = (Ok items, s1) →
  let '((err, rc'), _) := checkLocalClusterConflict rc w in
  (err = None ↔ ∀ c, c ∈ items → ¬ conflicting rc.1 c)
  ∧ (∀ e, err = Some e → IsPermanent e = true ∧ errors_Is e ErrLocalClusterConflict = true).
Proof.
  intros Hl. unfold checkLocalClusterConflict, st_bind, env. rewrite Hl.
  pose proof (conflict_loop_spec rc items (mkRWorld (rw_rec w) (rw_mgr w) s1)) as Hs.
  destruct (conflict_loop rc items _) as [[err rc'] w1]. destruct Hs as [[-> He]|[-> Hf]].
  - split; [|by intros e [= <-]]. split; [done|]. intros Hno. apply Exists_exists in He as (c & Hc & Hcf).
    by destruct (Hno c Hc).
  - split; [|done]. split; [|done]. intros _. by apply Forall_forall.
Qed.
End registry.
