(* ===== verification/RegistrySync.v ===== *)
(** * The clusters manager follows the Cluster resources

    What a whole reconciliation of a [Cluster] resource does to the clusters manager:
    whichever branch it takes and whatever fails, no other name is touched, and a cluster
    whose resource is gone, local or disabled is not registered afterwards. *)

From stdpp Require Import gmap strings list.
From S2P Require Import Prelude Errors Types Match Util Features Cluster Manager Conditions Meta Secret ClusterReconciler RegistryFacts.
Open Scope string_scope.
Open Scope go_scope.

Section registry_sync.
Context {S : Type} `{CC : ClusterClient S} `{NE : !NodeEnv S} `{SE : !SecretEnv S} `{CE : !CtrlEnv S}.
Context `{EL : ErrorLib} `{UL : UrlLib} `{SL : SelectorLib}.
Context (callback : string → option Ptr → gmap Ptr CWorld → gmap Ptr CWorld).
Context (callback_grows : ∀ f c h, heap_grows h (callback f c h)).

Abbreviation W := (RWorld S).

(** ** Blocks that leave the manager alone *)

Definition same_manager (w w' : W) : Prop := rw_mgr w' = rw_mgr w.

#[local] Instance same_manager_preorder : PreOrder same_manager.
Proof. split; [done|]. intros x y z H1 H2. unfold same_manager in *. congruence. Qed.

Lemma same_env {A} (c : ST S A) : moves same_manager (env c).
Proof. intros w. unfold env, same_manager. by destruct (c (rw_env w)). Qed.
Lemma same_get_rec : moves same_manager get_rec.
Proof. by intros w. Qed.
Lemma same_get_mgr : moves same_manager get_mgr.
Proof. by intros w. Qed.
Lemma same_modify_rec f : moves same_manager (modify_rec f).
Proof. by intros w. Qed.
Lemma same_set_condition c rc : moves same_manager (set_condition c rc).
Proof. intros w. by destruct (set_condition_cluster c rc w) as (_ & H & _). Qed.
#[local] Hint Resolve same_env same_get_rec same_get_mgr same_modify_rec same_set_condition : registry.

Lemma same_trigger : moves same_manager triggerLocalClusterReconciles.
Proof. unfold triggerLocalClusterReconciles, triggerClusterReconcile. moves_tac. Qed.
Lemma same_setClusterID : moves same_manager setClusterID.
Proof. unfold setClusterID. moves_tac. Qed.
Lemma same_secret ns n : moves same_manager (getK8SConfigForCluster ns n).
Proof. intros w. by destruct (secret_quiet ns n w). Qed.
Lemma same_conflict_loop rc items : moves same_manager (conflict_loop rc items).
Proof.
  revert rc. induction items as [|c items IH]; intros rc; simpl; [moves_tac|].
  unfold triggerClusterReconcile. moves_tac.
Qed.
Lemma same_core_loop cluster l : moves same_manager (core_loop cluster l).
Proof. induction l as [|[o b] l IH]; simpl; moves_tac. Qed.
#[local] Hint Resolve same_trigger same_setClusterID same_secret same_conflict_loop same_core_loop : registry.

Lemma same_local rc : moves same_manager (reconcileLocalCluster rc).
Proof.
  unfold reconcileLocalCluster, checkLocalClusterConflict, local_metadata, provisionLocalClusterReaderSecret,
    reconcileCoreSyncers, reconcileCoreSyncers_in. moves_tac.
Qed.
Lemma same_finish b e rc : moves same_manager (finish b e rc).
Proof. unfold finish. moves_tac. Qed.
#[local] Hint Resolve same_local same_finish : registry.

(** ** Blocks that act on one name *)

Abbreviation names w := (m_clusters (mg (rw_mgr w))).

Definition only_name (name : string) (w w' : W) : Prop :=
  manager_wf (rw_mgr w) → manager_wf (rw_mgr w') ∧ ∀ n, n ≠ name → names w' !! n = names w !! n.

#[local] Instance only_name_preorder name : PreOrder (only_name name).
Proof.
  split; [by intros w Hwf|]. intros x y z H1 H2 Hx. destruct (H1 Hx) as [Hy E1]. destruct (H2 Hy) as [Hz E2].
  split; [done|]. intros n Hn. by rewrite E2, E1.
Qed.

Lemma same_only {A} name (c : ST W A) : moves same_manager c → moves (only_name name) c.
Proof. intros Hc w Hwf. specialize (Hc w). unfold same_manager in Hc. by rewrite Hc. Qed.

Lemma Remove_name name p (m : MWorld) :
  manager_wf m → m_clusters (mg m) !! name = Some p →
  manager_wf (Manager_Remove callback (Some p) m)
  ∧ m_clusters (mg (Manager_Remove callback (Some p) m)) = delete name (m_clusters (mg m)).
Proof.
  intros Hwf Hp. destruct (Hwf name p Hp) as (cw & Hcw & Hn).
  split; [apply Manager_Remove_wf; [done|by rewrite Hcw|done]|].
  destruct (Manager_Remove_effect callback callback_grows p cw m Hcw) as (-> & _); [by rewrite Hn, Hp|]. by rewrite Hn.
Qed.

Lemma removeRemoteCluster_spec name (w : W) :
  manager_wf (rw_mgr w) →
  manager_wf (rw_mgr (removeRemoteCluster callback name w).2)
  ∧ names (removeRemoteCluster callback name w).2 = delete name (names w).
Proof.
  intros Hwf. unfold removeRemoteCluster, st_bind, get_mgr, Get. simpl.
  destruct (names w !! name) as [p|] eqn:Hp; simpl.
  - by apply Remove_name.
  - by rewrite delete_id.
Qed.

Lemma remove_only name : moves (only_name name) (removeRemoteCluster callback name).
Proof.
  intros w Hwf. destruct (removeRemoteCluster_spec name w Hwf) as [Hwf' ->].
  split; [done|]. intros n Hn. by rewrite lookup_delete_ne.
Qed.

Lemma Add_new name cw (m : MWorld) :
  manager_wf m → c_name (cl cw) = name →
  let p := fresh (dom (peers m)) in
  let m' := Manager_Add callback p (set_peers (<[p := cw]> (peers m)) m) in
  manager_wf m' ∧ m_clusters (mg m') = <[name := p]> (m_clusters (mg m)).
Proof.
  intros Hwf Hn p m'. set (m1 := set_peers (<[p := cw]> (peers m)) m).
  assert (Hp : peers m1 !! p = Some cw) by apply lookup_insert_eq.
  assert (Hfresh : peers m !! p = None) by (apply not_elem_of_dom, is_fresh).
  assert (Hwf1 : manager_wf m1).
  { intros n q Hq. destruct (Hwf n q Hq) as (cw' & Hcw' & <-). exists cw'. split; [|done]. simpl.
    rewrite lookup_insert_ne; [done|]. intros <-. congruence. }
  unfold m'. fold m1. split; [apply Manager_Add_wf; [done|by rewrite Hp|done]|].
  destruct (Manager_Add_effect callback callback_grows p m1) as (Hm & _); [by rewrite Hp|].
  rewrite Hm. unfold cluster_name. by rewrite Hp, Hn.
Qed.

Lemma create_only cluster content : moves (only_name (cl_Name cluster)) (create_remote_cluster callback cluster content).
Proof.
  unfold create_remote_cluster. destruct (clientcmd_Load content); [apply moves_ret|].
  apply moves_bind; [apply same_only, same_get_rec|]. intros r.
  destruct (GetKubeconfigOverridesForClusterByNetwork _ _); [|apply moves_ret].
  destruct (clientcmd_ClientConfig content _); [apply moves_ret|].
  apply moves_bind; [apply same_only, same_env|]. intros [pr created]. simpl.
  pose proof (new_remote_cluster_facts reconcile_ctx (cl_Name cluster) (secret_id cluster) content pr created) as Hn.
  destruct (new_remote_cluster _ _ _ _ _ _) as [[] cw]; [apply moves_ret|]. simpl in Hn.
  intros w Hwf. destruct (Add_new (cl_Name cluster) cw (rw_mgr w) Hwf (proj1 Hn)) as [Hwf' Hm].
  unfold st_bind, get_mgr, modify_mgr. simpl. split; [done|]. intros n Hne. rewrite Hm. by rewrite lookup_insert_ne.
Qed.

Lemma getRemote_only rc : moves (only_name (cl_Name rc.1)) (getRemoteCluster callback rc).
Proof.
  assert (Hcreate : ∀ content, moves (only_name (cl_Name rc.1))
    (let! res := create_remote_cluster callback rc.1 content in return! (res, rc))).
  { intros content. apply moves_bind; [apply create_only|]. intros res. apply moves_ret. }
  assert (Hremove : ∀ p w, names w !! cl_Name rc.1 = Some p →
    only_name (cl_Name rc.1) w (mkRWorld (rw_rec w) (Manager_Remove callback (Some p) (rw_mgr w)) (rw_env w))).
  { intros p w Hp Hwf. destruct (Remove_name _ _ _ Hwf Hp) as [Hwf2 Hm2]. cbn [rw_mgr]. split; [done|].
    intros n Hn. by rewrite Hm2, lookup_delete_ne. }
  intros w. unfold getRemoteCluster, st_bind at 1, get_mgr. set (ref := SecretRef _). simpl.
  destruct (secret_quiet (nn_Namespace ref) (nn_Name ref) w) as [Hm _].
  unfold st_bind at 1. destruct (getK8SConfigForCluster (nn_Namespace ref) (nn_Name ref) w) as [res w1]. simpl in Hm.
  trans w1; [intros Hwf; by rewrite Hm|]. rewrite <-Hm. clear Hm. unfold Get. destruct res as [content|e].
  - destruct (names w1 !! cl_Name rc.1) as [p|] eqn:Hp; [|exact (Hcreate content w1)].
    destruct (peers (rw_mgr w1) !! p) as [cw|]; [|exact (Hcreate content w1)].
    destruct (IsAlive cw); simpl; [|done]. destruct (credentialsChanged _ _ _); simpl; [|done].
    etrans; [exact (Hremove p w1 Hp)|]. exact (Hcreate content _).
  - destruct (names w1 !! cl_Name rc.1) as [p|] eqn:Hp; [exact (Hremove p w1 Hp)|done].
Qed.

(** ** The whole reconciliation *)

#[local] Hint Resolve remove_only getRemote_only : registry.

Lemma only_remote rc : moves (only_name (cl_Name rc.1)) (reconcileRemoteCluster callback rc).
Proof.
  unfold reconcileRemoteCluster. intros w.
  destruct (set_condition_cluster (LocalClusterCondition false) rc w) as (Hc & Hm & _). unfold st_bind at 1.
  destruct (set_condition (LocalClusterCondition false) rc w) as [rc1 w1]. simpl in Hc, Hm. rewrite <-Hc.
  trans w1; [intros Hwf; by rewrite Hm|]. clear Hc Hm w. revert w1.
  match goal with |- ∀ w1, only_name ?n w1 (?c w1).2 => change (moves (only_name n) c) end.
  destruct (_ || _); [apply moves_ret|]. apply moves_bind; [apply getRemote_only|].
  intros [[p|e] rc2]; [apply moves_ret|]. apply moves_bind; [apply same_only, same_set_condition|].
  intros rc3. apply moves_ret.
Qed.

Lemma only_gone name : moves (only_name name) (reconcile_gone callback name).
Proof.
  unfold reconcile_gone. apply moves_bind; [apply remove_only|]. intros e.
  destruct (removal_failed e); [apply moves_ret|]. apply moves_bind; [apply same_only, same_trigger|].
  intros [?|]; apply moves_ret.
Qed.

Lemma only_disabled rc : moves (only_name (cl_Name rc.1)) (reconcile_disabled callback rc).
Proof.
  unfold reconcile_disabled. apply moves_bind; [apply remove_only|]. intros e.
  destruct (removal_failed e); [apply moves_ret|]. apply moves_bind; [apply same_only, same_env|]. intros c.
  apply moves_bind; [apply same_only, same_env|].
  intros [?|]; apply moves_ret.
Qed.

Lemma only_prepare b c : moves (only_name (cl_Name c)) (prepare_type callback b c).
Proof.
  unfold prepare_type. destruct b.
  - apply moves_bind; [apply remove_only|]. intros e. destruct (removal_failed e); apply moves_ret.
  - case_bool_decide; [|apply moves_ret]. apply moves_bind; [apply same_only, same_trigger|]. intros e. apply moves_ret.
Qed.

Lemma prepare_name b c (w : W) : cl_meta (prepare_type callback b c w).1.2 = cl_meta c
  ∧ cl_Spec (prepare_type callback b c w).1.2 = cl_Spec c.
Proof.
  unfold prepare_type, st_bind. destruct b.
  - destruct (removeRemoteCluster callback _ w) as [e w1]. by destruct (removal_failed e).
  - case_bool_decide; [|done]. by destruct (triggerLocalClusterReconciles w).
Qed.

Lemma only_enabled b e rc : moves (only_name (cl_Name rc.1)) (reconcile_enabled callback b e rc).
Proof.
  unfold reconcile_enabled. apply moves_bind.
  - destruct b; [apply same_only, same_local|apply only_remote].
  - intros out. apply moves_bind; [apply same_only, same_set_condition|]. intros rc2. apply moves_ret.
Qed.

(** The rest of [Reconcile] after the type is prepared. *)
Definition after_prepare (isClusterLocal : bool) (prep : option error * Cluster) : ST W (Result * option error) :=
  match prep with
  | (Some e, _) => return! (Result_zero, Some e)
  | (None, cluster) =>
      let rc := (cluster, GetCurrentConditions cluster) in
      match om_Annotations (cl_meta cluster) !! ClusterDisabledAnnotation with
      | Some _ =>
          let! out := reconcile_disabled callback rc in
          match out with
          | inl early => return! early
          | inr rc => finish isClusterLocal None rc
          end
      | None =>
          let! out := reconcile_enabled callback isClusterLocal None rc in
          finish isClusterLocal out.1 out.2
      end
  end.

Lemma only_after b e c : moves (only_name (cl_Name c)) (after_prepare b (e, c)).
Proof.
  unfold after_prepare. destruct e; [apply moves_ret|]. set (rc := (c, GetCurrentConditions c)).
  change (cl_Name c) with (cl_Name rc.1). destruct (_ !! _).
  - apply moves_bind; [apply only_disabled|]. intros [early|rc2]; [apply moves_ret|apply same_only, same_finish].
  - apply moves_bind; [apply only_enabled|]. intros out. apply same_only, same_finish.
Qed.

(** A name that is not registered stays so. *)
Definition absent (name : string) (w : W) : Prop := manager_wf (rw_mgr w) ∧ names w !! name = None.

Lemma same_absent {A} name (c : ST W A) w : moves same_manager c → absent name w → absent name (c w).2.
Proof. intros Hc [Hwf Ha]. specialize (Hc w). unfold same_manager in Hc. unfold absent. by rewrite Hc. Qed.

Lemma remove_absent name w : manager_wf (rw_mgr w) → absent name (removeRemoteCluster callback name w).2.
Proof.
  intros Hwf. destruct (removeRemoteCluster_spec name w Hwf) as [Hwf' Hn]. split; [done|]. by rewrite Hn, lookup_delete_eq.
Qed.

Lemma disabled_absent rc w : manager_wf (rw_mgr w) → absent (cl_Name rc.1) (reconcile_disabled callback rc w).2.
Proof.
  intros Hwf. unfold reconcile_disabled, st_bind at 1. pose proof (remove_absent (cl_Name rc.1) w Hwf) as Ha.
  destruct (removeRemoteCluster callback (cl_Name rc.1) w) as [e w1]. simpl in Ha.
  destruct (removal_failed e); [done|]. apply same_absent; [|done].
  apply moves_bind; [apply same_env|]. intros c. apply moves_bind; [apply same_env|]. intros [?|]; apply moves_ret.
Qed.

Lemma prepare_local_absent c w : manager_wf (rw_mgr w) → absent (cl_Name c) (prepare_type callback true c w).2.
Proof.
  intros Hwf. unfold prepare_type, st_bind. pose proof (remove_absent (cl_Name c) w Hwf) as Ha.
  change (cl_Name (with_status _ c)) with (cl_Name c).
  destruct (removeRemoteCluster callback (cl_Name c) w) as [e w1]. by destruct (removal_failed e).
Qed.

(** The status has been reset, so that a peer is never taken for a former local cluster. *)
Lemma prepare_peer c (w : W) : (prepare_type callback false c w).1.1 = None.
Proof. unfold prepare_type. by rewrite bool_decide_false. Qed.

(** Local or disabled: not registered after the rest of [Reconcile]. *)
Lemma after_prepare_absent b c w :
  manager_wf (rw_mgr w) → (b = true ∧ absent (cl_Name c) w) ∨ is_Some (om_Annotations (cl_meta c) !! ClusterDisabledAnnotation) →
  absent (cl_Name c) (after_prepare b (None, c) w).2.
Proof.
  intros Hwf Hor. unfold after_prepare. set (rc := (c, GetCurrentConditions c)).
  destruct (om_Annotations (cl_meta c) !! ClusterDisabledAnnotation) as [a|] eqn:Ha.
  - unfold st_bind. pose proof (disabled_absent rc w Hwf) as Hd.
    destruct (reconcile_disabled callback rc w) as [[early|rc2] w1]; [done|]. by apply same_absent; [apply same_finish|].
  - destruct Hor as [[-> Habs]|[? ?]]; [|done]. apply same_absent; [|done].
    apply moves_bind; [|intros out; apply same_finish]. unfold reconcile_enabled.
    apply moves_bind; [apply same_local|]. intros out. apply moves_bind; [apply same_set_condition|].
    intros rc2. apply moves_ret.
Qed.

(** The API server returns the resource that is asked for. *)
Context (GetCluster_name : ∀ n s c, (client_GetCluster n s).1 = Ok c → cl_Name c = n).

(** [Reconcile] on what reading the resource gives. *)
Definition reconcile_got (req : Request) (got : result error Cluster) : ST W (Result * option error) :=
  match got with
  | Err e => if IsNotFound e then reconcile_gone callback (nn_Name req)
             else return! (Result_zero, Some (WrapIf e "could not get object"))
  | Ok cluster =>
      let! r := get_rec in
      let isClusterLocal := bool_decide (ClusterID (cl_Spec cluster) = cr_clusterID r) in
      let! prep := prepare_type callback isClusterLocal cluster in
      after_prepare isClusterLocal prep
  end.

Lemma Reconcile_cluster_unfold req w :
  Reconcile_cluster callback req w
  = let '(err, w1) := setClusterID w in
    match err with
    | Some e => ((Result_zero, Some (WithStackIf e)), w1)
    | None => let '(got, w2) := env (client_GetCluster (nn_Name req)) w1 in reconcile_got req got w2
    end.
Proof.
  unfold Reconcile_cluster, st_bind at 1. destruct (setClusterID w) as [[e|] w1]; [done|].
  unfold st_bind at 1. by destruct (env (client_GetCluster (nn_Name req)) w1) as [[c|e] w2].
Qed.

Lemma only_got req got :
  (∀ c, got = Ok c → cl_Name c = nn_Name req) → moves (only_name (nn_Name req)) (reconcile_got req got).
Proof.
  intros Hn. unfold reconcile_got. destruct got as [c|e].
  - rewrite <-(Hn c eq_refl). apply moves_bind; [apply same_only, same_get_rec|]. intros r.
    set (b := bool_decide _). intros w. unfold st_bind. pose proof (only_prepare b c w) as Hp.
    destruct (prepare_name b c w) as [Hname _]. destruct (prepare_type callback b c w) as [[e c1] w1].
    simpl in Hp, Hname. trans w1; [exact Hp|].
    replace (cl_Name c) with (cl_Name c1) by (unfold cl_Name; by rewrite Hname). apply only_after.
  - destruct (IsNotFound e); [apply only_gone|apply moves_ret].
Qed.

Lemma got_absent req got w :
  (∀ c, got = Ok c → cl_Name c = nn_Name req) → manager_wf (rw_mgr w) →
  match got with
  | Err e => IsNotFound e = true
  | Ok c => ClusterID (cl_Spec c) = cr_clusterID (rw_rec w)
            ∨ is_Some (om_Annotations (cl_meta c) !! ClusterDisabledAnnotation)
  end → absent (nn_Name req) (reconcile_got req got w).2.
Proof.
  intros Hn Hwf. unfold reconcile_got. destruct got as [c|e].
  - intros Hor. rewrite <-(Hn c eq_refl). unfold st_bind, get_rec. set (b := bool_decide _).
    pose proof (only_prepare b c w Hwf) as [Hwf1 _]. destruct (prepare_name b c w) as [Hname _].
    assert (b = true → absent (cl_Name c) (prepare_type callback b c w).2) as Hloc.
    { intros ->. by apply prepare_local_absent. }
    assert (b = false → (prepare_type callback b c w).1.1 = None) as Hpeer by (intros ->; apply prepare_peer).
    destruct (prepare_type callback b c w) as [[[e|] c1] w1]; simpl in *.
    { destruct b; [by apply Hloc|by specialize (Hpeer eq_refl)]. }
    replace (cl_Name c) with (cl_Name c1) in * by (unfold cl_Name; by rewrite Hname).
    apply after_prepare_absent; [done|]. rewrite Hname. destruct Hor as [Hid|Hdis]; [left|by right].
    assert (b = true) as Hb by (by apply bool_decide_eq_true). split; [done|by apply Hloc].
  - intros ->. unfold reconcile_gone, st_bind at 1. pose proof (remove_absent (nn_Name req) w Hwf) as Ha.
    destruct (removeRemoteCluster callback (nn_Name req) w) as [e1 w1]. simpl in Ha.
    destruct (removal_failed e1); [done|]. apply same_absent; [|done].
    apply moves_bind; [apply same_trigger|]. intros [?|]; apply moves_ret.
Qed.

(** C27: a reconciliation of a [Cluster] resource acts on its own name only: whichever
    branch it takes and whatever fails, the clusters registered under other names stay,
    and every registered cluster still has the name it is registered under. When the
    resource is gone, or is the local cluster, or is disabled, no cluster is registered
    under its name afterwards, also when the reconciliation ends in an error. *)
Theorem manager_follows_resources req w :
  manager_wf (rw_mgr w) →
  let w' := (Reconcile_cluster callback req w).2 in
  manager_wf (rw_mgr w')
  ∧ (∀ n, n ≠ nn_Name req → names w' !! n = names w !! n)
  ∧ ∀ w1, setClusterID w = (None, w1) →
    match (client_GetCluster (nn_Name req) (rw_env w1)).1 with
    | Err e => IsNotFound e = true
    | Ok c => ClusterID (cl_Spec c) = cr_clusterID (rw_rec w1)
              ∨ is_Some (om_Annotations (cl_meta c) !! ClusterDisabledAnnotation)
    end → Exists_ (nn_Name req) (rw_mgr w') = false.
Proof.
  intros Hwf w'. unfold w'. clear w'. rewrite Reconcile_cluster_unfold. pose proof (same_setClusterID w) as Hs. unfold same_manager in Hs.
  destruct (setClusterID w) as [[e|] w1]; simpl in Hs; [simpl; rewrite Hs; by split_and!|].
  pose proof (GetCluster_name (nn_Name req) (rw_env w1)) as Hname. unfold env.
  destruct (client_GetCluster (nn_Name req) (rw_env w1)) as [got s2] eqn:E. simpl in Hname.
  set (w2 := mkRWorld _ _ _). assert (manager_wf (rw_mgr w2)) as Hwf2 by (simpl; by rewrite Hs).
  destruct (only_got req got Hname w2 Hwf2) as [Hwf' Ho].
  pose proof (got_absent req got w2 Hname Hwf2) as Ha.
  destruct (reconcile_got req got w2) as [[res err] w']. simpl in *. split_and!; [done| |].
  - intros n Hn. rewrite Ho by done. by rewrite Hs.
  - intros w1' [= <-]. rewrite E. simpl. intros Hcase. destruct (Ha Hcase) as [_ Habs].
    unfold Exists_. by rewrite Habs.
Qed.
End registry_sync.
