(* ===== verification/Webhook.v ===== *)
(** * The validating webhook for Cluster resources

    pkg/webhooks/cluster_validator.go. *)

From stdpp Require Import gmap strings list.
From S2P Require Import Prelude Errors Types Conditions.
Open Scope string_scope.
Open Scope go_scope.

Definition StatusBadRequest : Z := 400.
Definition StatusConflict : Z := 409.

(** [ClusterValidator]: its manager, and the decoder that controller-runtime injects. *)
Record ClusterValidator := mkClusterValidator { val_manager : nat; val_decoder : option nat }.
Definition NewClusterValidator (manager : nat) : ClusterValidator := mkClusterValidator manager None.
Definition InjectDecoder (d : nat) (v : ClusterValidator) : option error * ClusterValidator :=
  (None, mkClusterValidator (val_manager v) (Some d)).

(** [admission.Response]. *)
Inductive Response := Allowed | Errored (code : Z) (err : error).

Section webhook.
Context `{EL : ErrorLib} {S : Type} `{CC : ClusterClient S}.

Definition duplicate_error (oldName newID : string) : error :=
  errorString ("a local cluster CR with name " ++ oldName ++ " already exists with the same clusterID " ++ newID).

Fixpoint duplicate_loop (new : Cluster) (old : list Cluster) : option error :=
  match old with
  | [] => None
  | c :: old' =>
      if bool_decide (cst_Type (cl_Status c) = ClusterTypeLocal)
         && bool_decide (ClusterID (cl_Spec c) = ClusterID (cl_Spec new))
         && bool_decide (cl_Name c ≠ cl_Name new)
      then Some (duplicate_error (cl_Name c) (ClusterID (cl_Spec new)))
      else duplicate_loop new old'
  end.

Definition validateUniqueLocalCluster (new : Cluster) (old : list Cluster) : option error :=
  if bool_decide (cst_Type (cl_Status new) = ClusterTypePeer) then None else duplicate_loop new old.

(** [Handle] on a request that decodes to the given result. *)
Definition Handle (decoded : result error Cluster) : ST S Response :=
  match decoded with
  | Err e => return! Errored StatusBadRequest (Wrap e "decoding admission request as new cluster CR failed")
  | Ok new =>
      let! l := client_ListClusters in
      match l with
      | Err e => return! Errored StatusConflict (Wrap e "listing existing cluster CRs failed")
      | Ok old =>
          match validateUniqueLocalCluster new old with
          | Some e => return! Errored StatusConflict (Wrap e "validating unique local cluster CR failed")
          | None => return! Allowed
          end
      end
  end.

(** [Handle] of a validator: without a decoder, decoding dereferences nil and panics. *)
Definition ClusterValidator_Handle (decode : nat → result error Cluster) (v : ClusterValidator) : option (ST S Response) :=
  match val_decoder v with
  | None => None
  | Some d => Some (Handle (decode d))
  end.

(** ** What admission guarantees *)

Definition is_local (c : Cluster) : Prop := cst_Type (cl_Status c) = ClusterTypeLocal.

(** At most one local resource per cluster id, up to its name. *)
Definition unique_local (l : list Cluster) : Prop :=
  ∀ c1 c2, c1 ∈ l → c2 ∈ l → is_local c1 → is_local c2 →
    ClusterID (cl_Spec c1) = ClusterID (cl_Spec c2) → cl_Name c1 = cl_Name c2.

(** The resources after an admitted create or update. *)
Definition admitted (new : Cluster) (old : list Cluster) : list Cluster :=
  new :: filter (λ c, cl_Name c ≠ cl_Name new) old.

Lemma duplicate_loop_None new old :
  duplicate_loop new old = None ↔
  ∀ c, c ∈ old → is_local c → ClusterID (cl_Spec c) = ClusterID (cl_Spec new) → cl_Name c = cl_Name new.
Proof.
  induction old as [|c old IH]; simpl; [set_solver|].
  destruct (_ && _ && _) eqn:E.
  - rewrite !andb_true_iff, !bool_decide_eq_true in E. destruct E as [[Hl Hi] Hn].
    split; [done|]. intros H. destruct Hn. apply H; [left|done..].
  - apply not_true_iff_false in E. rewrite !andb_true_iff, !bool_decide_eq_true in E. rewrite IH.
    setoid_rewrite elem_of_cons. split; [|naive_solver].
    intros H d [->|Hd]; [|naive_solver]. intros Hl Hi. destruct (decide (cl_Name c = cl_Name new)); naive_solver.
Qed.

(** C34: a request is refused with a conflict exactly when it is for a resource that
    is not declared a peer and another local resource claims its cluster id; when a
    request is allowed, every two local resources for the same cluster have the same
    name, if they had before. *)
Theorem webhook_keeps_local_unique new old (s s1 : S) :
  client_ListClusters s = (Ok old, s1) →
  ((Handle (Ok new) s).1 = Allowed ↔
     cst_Type (cl_Status new) = ClusterTypePeer
     ∨ ∀ c, c ∈ old → is_local c → ClusterID (cl_Spec c) = ClusterID (cl_Spec new) → cl_Name c = cl_Name new)
  ∧ ((Handle (Ok new) s).1 = Allowed → unique_local old → unique_local (admitted new old)).
Proof.
  intros Hl.
  assert (Hiff : (Handle (Ok new) s).1 = Allowed ↔
     cst_Type (cl_Status new) = ClusterTypePeer
     ∨ ∀ c, c ∈ old → is_local c → ClusterID (cl_Spec c) = ClusterID (cl_Spec new) → cl_Name c = cl_Name new).
  { unfold Handle, st_bind, validateUniqueLocalCluster. rewrite Hl. case_bool_decide as Hp; [naive_solver|].
    rewrite <-duplicate_loop_None. destruct (duplicate_loop new old); naive_solver. }
  split; [done|]. rewrite Hiff. intros Hok Hu c1 c2 H1 H2 Hl1 Hl2 Hid.
  unfold admitted in H1, H2. rewrite elem_of_cons, list_elem_of_filter in H1, H2.
  destruct Hok as [Hp|Hok].
  - destruct H1 as [->|[_ H1]]; [unfold is_local in Hl1; rewrite Hp in Hl1; discriminate|].
    destruct H2 as [->|[_ H2]]; [unfold is_local in Hl2; rewrite Hp in Hl2; discriminate|]. by apply Hu.
  - destruct H1 as [->|[_ H1]], H2 as [->|[_ H2]]; [done|symmetry; by apply Hok|by apply Hok|by apply Hu].
Qed.
End webhook.

Section webhook_run.
Existing Instance server_client.

Existing Instance chain_lib.

(** Two local resources of different clusters. *)
Definition local_cluster (name id : string) : Cluster :=
  mkCluster (named_meta name "") (mkClusterSpec id (mkAuthInfo (mkNamespacedName "" "")) [])
    (mkClusterStatus "" "" ClusterTypeLocal false ClusterMetadata_zero []).

Lemma webhook_keeps_local_unique_witness :
  let s : gmap string Cluster := {[ "a" := local_cluster "a" "id-a" ]} in
  (Handle (Ok (local_cluster "b" "id-b")) s).1 = Allowed
  ∧ unique_local (admitted (local_cluster "b" "id-b") [local_cluster "a" "id-a"]).
Proof.
  set (s := _ : gmap string Cluster).
  pose proof (webhook_keeps_local_unique (local_cluster "b" "id-b") [local_cluster "a" "id-a"] s s eq_refl) as [_ H].
  split; [reflexivity|]. apply H; [reflexivity|].
  intros c1 c2 ->%list_elem_of_singleton ->%list_elem_of_singleton _ _ _. reflexivity.
Defined.
End webhook_run.
