(* ===== verification/RuleReconciler.v ===== *)
(** * The reconcilers that act on peer clusters

    controllers/resource_sync_rule_reconciler.go, which gives every peer cluster a
    sync controller per rule, with pkg/ratelimit, and remote_cluster_feature_reconciler.go, which follows
    the features a peer advertises. *)

From stdpp Require Import gmap strings list.
From S2P Require Import Prelude Errors Types Match Util Features Cluster ClusterGate Manager Conditions Meta.
Open Scope string_scope.
Open Scope go_scope.

(** ** ratelimit.go *)

(** A rate per second, and the burst. *)
Record RateQuota := mkRateQuota { MaxRate : Z; rq_MaxBurst : Z }.

(** The constructors of the throttled library, by their errors. *)
Class RateLib : Type := {
  memstore_New : Z → option error;
  NewGCRARateLimiter : RateQuota → option error }.

Definition defaultRateQuota : RateQuota := mkRateQuota 1 0.

Definition NewRateLimiter `{RateLib} `{ErrorLib} (maxKeys : Z) (quota : option RateQuota) : option error :=
  match memstore_New maxKeys with
  | Some e => Some (WrapIf e "could not create memstore for rate limit")
  | None =>
      let quota := default defaultRateQuota quota in
      match NewGCRARateLimiter quota with
      | Some e => Some (WrapIf e "could not create rate limiter")
      | None => None
      end
  end.

(** ** resource_sync_rule_reconciler.go *)

(** The requirements of a rule's controller. *)
Definition rule_requirements (rule : ResourceSyncRule) : list ClusterFeatureRequirement :=
  (λ m, mkClusterFeatureRequirement (FeatureName m) (cfm_MatchLabels m) (cfm_MatchExpressions m))
    <$> ClusterFeatureMatches (rsr_Spec rule).

(** What a call on a cluster leads to: it returns, panics on a nil pointer, or waits
    for a channel that nobody closes. *)
Inductive CallOutcome := Returned (err : option error) (w : CWorld) | Panicked | Blocked.

Section rules.
Context `{SL : SelectorLib} `{EL : ErrorLib}.
Context `{RL : RateLib}.
(** [reflect.DeepEqual] on rule specifications. *)
Context (spec_equal : ResourceSyncRuleSpec → ResourceSyncRuleSpec → bool).

(** The rate limiter of the configuration. *)
Definition rate_limiter (cfg : Configuration) : option error :=
  let limit := RateLimit (cfg_SyncController cfg) in
  NewRateLimiter (MaxKeys limit) (Some (mkRateQuota (MaxRatePerSecond limit) (MaxBurst limit))).

(** [InitNewResourceSyncController]: the new controller is the next free one. *)
Definition InitNewResourceSyncController (cfg : Configuration) (rule : ResourceSyncRule) (w : CWorld)
    : option error * CWorld :=
  match rate_limiter cfg with
  | Some e => (Some (WrapIf e "could not create rate limiter"), w)
  | None =>
      let c := NewManagedController (om_Name (rsr_meta rule)) (SyncReconcilerOf rule) (rule_requirements rule) in
      let p := fresh (dom (heap w)) in
      (None, AddController p (set_heap (<[p := c]> (heap w)) w))
  end.

(** The rule a controller works for. A reconciler that is not a sync reconciler
    leaves the empty rule. *)
Definition rule_of (c : managedController) : ResourceSyncRuleSpec :=
  match mc_reconciler c with
  | SyncReconcilerOf rule => rsr_Spec rule
  | OtherReconciler _ => mkResourceSyncRuleSpec [] GVK_zero []
  end.

Definition syncClusterController (cfg : Configuration) (sr : ResourceSyncRule) (w : CWorld) : CallOutcome :=
  let name := om_Name (rsr_meta sr) in
  if negb (HasController name w) then
    let '(err, w) := InitNewResourceSyncController cfg sr w in Returned err w
  else
    match GetController name w with
    | None => Panicked
    | Some p =>
        match heap w !! p with
        | None => Panicked
        | Some c =>
            if spec_equal (rule_of c) (rsr_Spec sr) then Returned None w
            else
              let w := RemoveController p w in
              match managedController_Stopped p w with
              | None => Panicked
              | Some x =>
                  if Done x w then
                    let '(err, w) := InitNewResourceSyncController cfg sr w in Returned err w
                  else Blocked
              end
        end
    end.

(** The loop over the clusters when the rule is gone. *)
Definition remove_rule (name : string) (order : list Ptr) (h : gmap Ptr CWorld) : gmap Ptr CWorld :=
  foldl (λ h p, alter (RemoveControllerByName name) p h) h order.

(** The loop when the rule is there: errors are logged, a panic or a block ends it. *)
Fixpoint sync_rule (cfg : Configuration) (sr : ResourceSyncRule) (order : list Ptr) (h : gmap Ptr CWorld)
    : option (gmap Ptr CWorld) :=
  match order with
  | [] => Some h
  | p :: order' =>
      match h !! p with
      | None => sync_rule cfg sr order' h
      | Some w =>
          match syncClusterController cfg sr w with
          | Returned _ w' => sync_rule cfg sr order' (<[p := w']> h)
          | Panicked | Blocked => None
          end
      end
  end.

(** [reconcile] on what reading the rule gives; [None] when it does not return. *)
Definition reconcile_rule (cfg : Configuration) (name : string) (got : result error ResourceSyncRule)
    (m : MWorld) : option (option error * MWorld) :=
  match got with
  | Err e => if IsNotFound e
             then Some (None, set_peers (remove_rule name (map_to_list (GetAll m)).*2 (peers m)) m)
             else Some (Some e, m)
  | Ok sr => (λ h, (None, set_peers h m)) <$> sync_rule cfg sr (map_to_list (GetAll m)).*2 (peers m)
  end.

(** [Reconcile]: permanent errors are not retried. *)
Definition Reconcile_rule (cfg : Configuration) (name : string) (got : result error ResourceSyncRule)
    (m : MWorld) : option (option error * MWorld) :=
  match reconcile_rule cfg name got m with
  | Some (Some e, m) => Some (if IsPermanent e then None else Some (WithStackIf e), m)
  | out => out
  end.

(** The callback that [SetupWithController] registers: all rules are queued. *)
Definition requeue_rules (queue : option (list Request)) (rules : result error (list ResourceSyncRule))
    : option (list Request) :=
  (λ q, (q ++ ((λ r, mkNamespacedName (om_Name (rsr_meta r)) "")
                 <$> match rules with Ok l => l | Err _ => [] end))%list) <$> queue.

(** ** remote_cluster_feature_reconciler.go *)

Definition Reconcile_feature (req : Request) (got : result error ClusterFeatureCR) (w : CWorld)
    : option error * CWorld :=
  match got with
  | Err e => if IsNotFound e then (None, RemoveFeature (NamespacedName_String req) w)
             else (Some (WrapIf e "could not get object"), w)
  | Ok feature =>
      (None, AddFeature (NewClusterFeature (NamespacedName_String req) (cf_FeatureName feature)
                           (om_Labels (cf_meta feature))) w)
  end.

(** ** Facts *)

(** The controller of a name, active or pending. *)
Definition rule_controller (name : string) (w : CWorld) : option managedController :=
  match registered w !! name with Some p => heap w !! p | None => None end.

Lemma mcStart_keeps_rec x p w q c :
  heap w !! q = Some c →
  ∃ c', heap (managedController_Start x p w) !! q = Some c' ∧ mc_reconciler c' = mc_reconciler c.
Proof.
  intros Hq. unfold managedController_Start. destruct (heap w !! p) as [d|] eqn:Hp; [|by exists c].
  destruct (ctrlContextCancel d); [by exists c|]. simpl. destruct (decide (p = q)) as [<-|Hne].
  - rewrite lookup_insert_eq. eexists. split; [done|]. simpl. congruence.
  - rewrite lookup_insert_ne by done. by exists c.
Qed.

Lemma AddController_keeps_rec p w q c :
  heap w !! q = Some c →
  ∃ c', heap (AddController p w) !! q = Some c' ∧ mc_reconciler c' = mc_reconciler c.
Proof.
  intros Hq. unfold AddController, addController, addPendingController, start_under_manager.
  repeat (case_match; try by exists c). by apply mcStart_keeps_rec.
Qed.

Lemma Init_registers cfg sr w :
  rate_limiter cfg = None → gated w → HasController (om_Name (rsr_meta sr)) w = false →
  let '(err, w') := InitNewResourceSyncController cfg sr w in
  err = None ∧ gated w'
  ∧ ∃ p c, registered w' = <[om_Name (rsr_meta sr) := p]> (registered w)
           ∧ heap w' !! p = Some c ∧ mc_reconciler c = SyncReconcilerOf sr.
Proof.
  intros Hrl Hg Hh. unfold InitNewResourceSyncController. rewrite Hrl.
  set (c := NewManagedController _ _ _). set (p := fresh _). set (w1 := set_heap _ w).
  assert (Hp : heap w !! p = None) by (apply not_elem_of_dom, is_fresh).
  assert (Hc : controllers (cl w1) !! mc_name c = None).
  { unfold HasController in Hh. simpl in *. by destruct (controllers (cl w) !! _). }
  assert (Hp1 : heap w1 !! p = Some c) by apply lookup_insert_eq.
  destruct (AddController_gated (λ _, True) p c w1) as [Hg' Hr]; [by apply gated_alloc|done|done|].
  split_and!; [done|done|]. exists p.
  destruct (AddController_keeps_rec p w1 p c Hp1) as (c' & Hc' & Hrec). exists c'. by split_and!.
Qed.

(** Stopping a controller keeps its context, for [Stopped] to wait on. *)
Lemma RemoveControllerByName_ctx n p c w :
  controllers (cl w) !! n = Some p → heap w !! p = Some c →
  managedController_Stopped p (RemoveControllerByName n w) = ctrlContext c.
Proof.
  intros Hn Hp. unfold RemoveControllerByName, GetController. simpl. rewrite Hn.
  unfold managedController_Stopped, managedController_Stop. simpl. rewrite Hp. simpl.
  assert (heap match ctrlContextCancel c with
    | Some x => cancel x (removePendingControllerByName n w) | None => removePendingControllerByName n w end
    = heap w) as -> by (by destruct (ctrlContextCancel c) as [[]|]).
  by rewrite lookup_insert_eq.
Qed.

(** The controller that works for a rule is there, and works for this version. *)
Definition works_for (sr : ResourceSyncRule) (w : CWorld) : Prop :=
  ∃ p c, registered w !! om_Name (rsr_meta sr) = Some p ∧ heap w !! p = Some c ∧ rule_of c = rsr_Spec sr.

Lemma Init_works cfg sr w :
  rate_limiter cfg = None → gated w → HasController (om_Name (rsr_meta sr)) w = false →
  let '(err, w') := InitNewResourceSyncController cfg sr w in
  err = None ∧ gated w' ∧ works_for sr w'
  ∧ ∀ n, n ≠ om_Name (rsr_meta sr) → registered w' !! n = registered w !! n.
Proof.
  intros Hrl Hg Hh. pose proof (Init_registers cfg sr w Hrl Hg Hh) as Hi.
  destruct (InitNewResourceSyncController cfg sr w) as [err w'].
  destruct Hi as (-> & Hg' & p & c & Hr & Hp & Hc). split_and!; [done|done| |].
  - exists p, c. rewrite Hr, lookup_insert_eq. split_and!; [done..|]. unfold rule_of. by rewrite Hc.
  - intros n Hn. by rewrite Hr, lookup_insert_ne.
Qed.

(** When [syncClusterController] returns, the cluster has a controller under the
    name of the rule, active or pending, that works for the
    present version of the rule; the controllers of other names are untouched. *)
Theorem syncClusterController_correct cfg sr w :
  rate_limiter cfg = None → (∀ a b, spec_equal a b = true → a = b) → gated w →
  ∀ err w', syncClusterController cfg sr w = Returned err w' →
  err = None ∧ gated w' ∧ works_for sr w'
  ∧ ∀ n, n ≠ om_Name (rsr_meta sr) → registered w' !! n = registered w !! n.
Proof.
  intros Hrl Heq Hg err w'. unfold syncClusterController. destruct (HasController _ w) eqn:Hh; simpl.
  2: { pose proof (Init_works cfg sr w Hrl Hg Hh) as Hi.
       destruct (InitNewResourceSyncController cfg sr w) as [e w1]. intros [= <- <-]. exact Hi. }
  unfold GetController, HasController in *.
  destruct (controllers (cl w) !! om_Name (rsr_meta sr)) as [p|] eqn:Hc; [|done].
  destruct (heap w !! p) as [c|] eqn:Hp; [|done].
  destruct (g_ctrl _ _ _ Hg _ _ Hc) as (req & Hid & _).
  assert (Hn : mc_name c = om_Name (rsr_meta sr)) by (rewrite (heap_ids_lookup _ _ _ Hp) in Hid; congruence).
  destruct (spec_equal (rule_of c) (rsr_Spec sr)) eqn:Hs.
  { intros [= <- <-]. split_and!; [done|done| |done]. exists p, c. split_and!; [|done|by apply Heq].
    unfold registered. rewrite lookup_union, Hc. by destruct (pendingControllers (cl w) !! _). }
  unfold RemoveController. rewrite Hp, Hn. rewrite (RemoveControllerByName_ctx _ _ c) by done.
  destruct (ctrlContext c) as [x|]; [|done]. destruct (Done x _); [|done].
  destruct (RemoveControllerByName_gated _ (om_Name (rsr_meta sr)) w Hg) as [Hg' Hr'].
  destruct (RemoveControllerByName_effect (om_Name (rsr_meta sr)) w) as (_ & _ & Hct & _).
  assert (Hh' : HasController (om_Name (rsr_meta sr)) (RemoveControllerByName (om_Name (rsr_meta sr)) w) = false).
  { unfold HasController. by rewrite Hct, lookup_delete_eq. }
  pose proof (Init_works cfg sr _ Hrl Hg' Hh') as Hi.
  destruct (InitNewResourceSyncController cfg sr _) as [e w1]. intros [= <- <-].
  destruct Hi as (-> & Hg1 & Hw1 & Ho). split_and!; [done..|]. intros n Hne.
  rewrite Ho by done. by rewrite Hr', lookup_delete_ne.
Qed.

(** A change of a rule whose controller has no context, because it was never
    started or because its peer was lost and its run has ended, ends in a nil pointer
    panic: the reconciler waits for the end of a run that does not exist. *)
Theorem rule_change_panics_without_context cfg sr w p c :
  controllers (cl w) !! om_Name (rsr_meta sr) = Some p → heap w !! p = Some c →
  mc_name c = om_Name (rsr_meta sr) →
  spec_equal (rule_of c) (rsr_Spec sr) = false → ctrlContext c = None →
  syncClusterController cfg sr w = Panicked.
Proof.
  intros Hc Hp Hn Hs Hx. unfold syncClusterController, HasController, GetController. rewrite Hc. simpl.
  rewrite Hp, Hs. unfold RemoveController. rewrite Hp, Hn. by rewrite (RemoveControllerByName_ctx _ _ c), Hx by done.
Qed.

(** When the rule is gone no cluster keeps a controller for it. *)
Lemma remove_rule_removes name order h p w :
  p ∈ order → h !! p = Some w →
  ∃ w', remove_rule name order h !! p = Some w' ∧ registered w' !! name = None.
Proof.
  assert (Hgone : ∀ w, registered (RemoveControllerByName name w) !! name = None).
  { intros v. destruct (RemoveControllerByName_effect name v) as (_ & _ & Hc & Hd).
    unfold registered. by rewrite Hc, Hd, lookup_union, !lookup_delete_eq. }
  assert (Hkeep : ∀ l h p w, h !! p = Some w → registered w !! name = None →
    ∃ w', remove_rule name l h !! p = Some w' ∧ registered w' !! name = None).
  { clear -Hgone. induction l as [|q l IH]; intros h p w Hp Hr; [by exists w|].
    unfold remove_rule in *. simpl. destruct (decide (p = q)) as [<-|Hne].
    - apply (IH _ _ (RemoveControllerByName name w)); [by rewrite lookup_alter_eq, Hp|done].
    - apply (IH _ _ w); [by rewrite lookup_alter_ne|done]. }
  revert h w. induction order as [|q order IH]; intros h w Hin Hp; [inversion Hin|].
  unfold remove_rule. simpl. destruct (decide (p = q)) as [<-|Hne].
  - apply (Hkeep order _ p (RemoveControllerByName name w)); [by rewrite lookup_alter_eq, Hp|done].
  - apply elem_of_cons in Hin as [->|Hin]; [done|].
    apply (IH (alter (RemoveControllerByName name) q h) w Hin). by rewrite lookup_alter_ne.
Qed.

(** ** The whole reconciliation of a rule *)

(** Controllers of other names are as they were. *)
Definition others_kept (name : string) (w w' : CWorld) : Prop :=
  ∀ n, n ≠ name → registered w' !! n = registered w !! n.

#[local] Instance others_kept_preorder name : PreOrder (others_kept name).
Proof. split; [by intros w n|]. intros w1 w2 w3 H1 H2 n Hn. by rewrite H2, H1. Qed.

Lemma syncClusterController_step cfg sr w err w' :
  rate_limiter cfg = None → (∀ a b, spec_equal a b = true → a = b) → gated w →
  syncClusterController cfg sr w = Returned err w' →
  gated w' ∧ works_for sr w' ∧ others_kept (om_Name (rsr_meta sr)) w w'.
Proof.
  intros Hrl Heq Hg Hs. by destruct (syncClusterController_correct cfg sr w Hrl Heq Hg err w' Hs) as (_ & ? & ? & ?).
Qed.

Lemma sync_rule_spec cfg sr order h h' :
  rate_limiter cfg = None → (∀ a b, spec_equal a b = true → a = b) →
  sync_rule cfg sr order h = Some h' → map_Forall (λ _, gated) h →
  ∀ p w, h !! p = Some w →
  ∃ w', h' !! p = Some w' ∧ gated w' ∧ others_kept (om_Name (rsr_meta sr)) w w'
        ∧ (p ∈ order ∨ works_for sr w → works_for sr w').
Proof.
  intros Hrl Heq. revert h. induction order as [|q order IH]; intros h Hs Hg p w Hp; simpl in Hs.
  - injection Hs as <-. exists w. split_and!; [done|by eapply Hg|done|]. intros [?%elem_of_nil|?]; done.
  - destruct (h !! q) as [v|] eqn:Hq.
    2: { destruct (IH h Hs Hg p w Hp) as (w' & ? & ? & ? & Hw). exists w'. split_and!; [done..|].
         intros [[->|?]%elem_of_cons|?]; [congruence|auto..]. }
    destruct (syncClusterController cfg sr v) as [err v'| |] eqn:Hv; [|done..].
    destruct (syncClusterController_step cfg sr v err v' Hrl Heq (Hg q v Hq) Hv) as (Hgv & Hwv & Hov).
    assert (map_Forall (λ _, gated) (<[q := v']> h)) as Hg' by (by apply map_Forall_insert_2).
    destruct (decide (p = q)) as [->|Hne].
    + assert (v = w) as -> by congruence.
      destruct (IH _ Hs Hg' q v' (lookup_insert_eq _ _ _)) as (w' & ? & ? & Ho & Hw).
      exists w'. split_and!; [done|done|by etrans|]. intros _. apply Hw. by right.
    + destruct (IH _ Hs Hg' p w) as (w' & ? & ? & Ho & Hw); [by rewrite lookup_insert_ne|].
      exists w'. split_and!; [done..|]. intros [[->|?]%elem_of_cons|?]; [done|auto..].
Qed.

Lemma remove_rule_spec name order h :
  map_Forall (λ _, gated) h →
  ∀ p w, h !! p = Some w → ∃ w', remove_rule name order h !! p = Some w' ∧ gated w' ∧ others_kept name w w'.
Proof.
  revert h. induction order as [|q order IH]; intros h Hg p w Hp; [exists w; split_and!; [done|by eapply Hg|done]|].
  unfold remove_rule in *. simpl.
  assert (map_Forall (λ _, gated) (alter (RemoveControllerByName name) q h)) as Hg'.
  { intros k v [[-> (v0 & Hv0 & ->)]|[_ Hv]]%lookup_alter_Some; [|by eapply Hg].
    apply RemoveControllerByName_gated. by eapply Hg. }
  destruct (decide (p = q)) as [->|Hne].
  - destruct (IH _ Hg' q (RemoveControllerByName name w)) as (w' & ? & ? & Ho); [by rewrite lookup_alter_eq, Hp|].
    exists w'. split_and!; [done..|]. etrans; [|exact Ho]. intros n Hn.
    destruct (RemoveControllerByName_gated _ name w (Hg q w Hp)) as [_ ->]. by rewrite lookup_delete_ne.
  - apply IH; [done|]. by rewrite lookup_alter_ne.
Qed.

Lemma known_cluster_visited (m : gmap string Ptr) n p : m !! n = Some p → p ∈ (map_to_list m).*2.
Proof. intros Hn. apply list_elem_of_fmap. exists (n, p). split; [done|]. by apply elem_of_map_to_list. Qed.

(** C29: a reconciliation of a rule that returns, and could read the rule or found it
    gone, leaves every known peer cluster in step with the rule: while the rule exists,
    each of them has a controller under the name of the rule, active or pending, that
    works for the present specification; when the rule is gone, none has one. The
    clusters that are known and their controllers for other rules are as before, and
    neither case is an error. When reading fails otherwise nothing is changed, and the
    error is returned unless it is permanent. The peers keep the invariant [gated], as
    all reachable ones do: no pending controller has all the features it requires. The
    rate limiter of the controllers can be made; otherwise the error is only logged and
    a peer is left without controller. *)
Theorem Reconcile_rule_correct cfg name got m err m' :
  rate_limiter cfg = None → (∀ a b, spec_equal a b = true → a = b) →
  map_Forall (λ _, gated) (peers m) →
  (∀ n p, GetAll m !! n = Some p → is_Some (peers m !! p)) →
  (∀ sr, got = Ok sr → om_Name (rsr_meta sr) = name) →
  Reconcile_rule cfg name got m = Some (err, m') →
  match got with
  | Err e => IsNotFound e = false → m' = m ∧ err = if IsPermanent e then None else Some (WithStackIf e)
  | Ok _ => True
  end
  ∧ (match got with Err e => IsNotFound e = true | Ok _ => True end →
     err = None ∧ GetAll m' = GetAll m
     ∧ ∀ n p, GetAll m !! n = Some p →
       ∃ w w', peers m !! p = Some w ∧ peers m' !! p = Some w' ∧ gated w' ∧ others_kept name w w'
         ∧ match got with Ok sr => works_for sr w' | Err _ => registered w' !! name = None end).
Proof.
  intros Hrl Heq Hg Hk Hname. unfold Reconcile_rule, reconcile_rule. destruct got as [sr|e].
  - rewrite <-(Hname sr eq_refl). destruct (sync_rule cfg sr _ (peers m)) as [h'|] eqn:Hs; simpl; [|done]. intros [= <- <-].
    split; [done|]. intros _. split_and!; [done|done|]. intros n p Hn. destruct (Hk n p Hn) as [w Hw]. exists w.
    destruct (sync_rule_spec cfg sr _ _ _ Hrl Heq Hs Hg p w Hw) as (w' & Hw' & Hgw & Ho & Hworks). exists w'.
    split_and!; [done..|]. apply Hworks. left. by eapply known_cluster_visited.
  - destruct (IsNotFound e); simpl; intros [= <- <-]; [|by split].
    split; [done|]. intros _. split_and!; [done|done|]. intros n p Hn.
    destruct (Hk n p Hn) as [w Hw].
    destruct (remove_rule_spec name (map_to_list (GetAll m)).*2 _ Hg p w Hw) as (w' & Hw' & Hgw & Ho).
    destruct (remove_rule_removes name (map_to_list (GetAll m)).*2 (peers m) p w) as (w'' & Hw'' & Hr);
      [by eapply known_cluster_visited|done|].
    exists w, w'. simpl. split_and!; [done..|]. by rewrite Hw' in Hw''; injection Hw'' as ->.
Qed.
End rules.
