(* ===== verification/RemoteReconciler.v ===== *)
(** * The reconciler of a peer's own view

    controllers/remote_cluster_reconciler.go: runs against the peer, and reports its
    metadata, and whether its registry agrees with the local one, in the status of
    the local [Cluster] resource of the peer. *)

From stdpp Require Import gmap strings list.
From S2P Require Import Prelude Errors Types Util Conditions Meta.
Open Scope string_scope.
Open Scope go_scope.

(** The local and the remote API server. *)
Class RemoteEnv (S : Type) : Type := {
  local_clusters :: ClusterClient S;
  remote_clusters : ClusterClient S;
  remote_nodes :: NodeEnv S;
  remote_Now : ST S Z;
  local_RecordEvent : Event → ST S unit }.

Section remote.
Context {S : Type} `{RE : RemoteEnv S} `{EL : ErrorLib} `{UL : UrlLib}.

(** The only field that changes is the id of the remote cluster. *)
Abbreviation W := (string * S)%type.
Abbreviation RC := (Cluster * ClusterConditionsMap)%type.

Definition on_env {A} (c : ST S A) : ST W A := λ w, let '(a, s) := c w.2 in (a, (w.1, s)).

Definition set_condition (c : ClusterCondition) (rc : RC) : ST W RC :=
  let! now := on_env remote_Now in
  let '(m, event) := SetCondition now rc.2 c in
  let! _ := match event with Some e => on_env (local_RecordEvent e) | None => return! tt end in
  return! (rc.1, m).

Definition setClusterID : ST W (option error) :=
  λ w,
    if bool_decide (w.1 = "") then
      let '(id, s) := GetClusterID (CC := remote_clusters) w.2 in
      match id with
      | Err e => (Some (WrapIf e "could not get cluster id"), (w.1, s))
      | Ok id => (None, (id, s))
      end
    else (None, w).

(** One round of the loop of [syncClusters]. *)
Definition compare_cluster (remote : gmap string Cluster) (errs : option error) (c : Cluster) : option error :=
  match remote !! ClusterID (cl_Spec c) with
  | None =>
      Some (Append errs (WithDetails (errorString ("cluster '" ++ cl_Name c ++ "' not found at remote side"))
                           [("uid", ClusterID (cl_Spec c)); ("name", cl_Name c)]))
  | Some rc =>
      let errs :=
        if bool_decide (cl_Name c ≠ cl_Name rc)
        then Some (Append errs (WithDetails (errorString ("cluster name mismatch " ++ cl_Name c ++ " != " ++ cl_Name rc))
                                  [("localName", cl_Name c); ("remoteName", cl_Name rc)]))
        else errs in
      if bool_decide (State (cl_Status rc) ≠ ClusterStateReady)
      then Some (Append errs (WithDetails (errorString ("cluster '" ++ cl_Name rc ++ "' status is not ready"))
                                [("status", State (cl_Status rc))]))
      else errs
  end.

Definition syncClusters_in (order : list Cluster) (remote : gmap string Cluster) : option error :=
  foldl (compare_cluster remote) None order.

Definition syncClusters : ST W (option error) :=
  let! l := on_env (GetClusters (CC := local_clusters)) in
  match l with
  | Err e => return! Some (WrapIf e "could not get local clusters")
  | Ok localClusters =>
      let! r := on_env (GetClusters (CC := remote_clusters)) in
      match r with
      | Err e => return! Some (WrapIf e "could not get remote clusters")
      | Ok remoteClusters => return! (syncClusters_in (map_to_list localClusters).*2 remoteClusters)
      end
  end.

(** [reconcile]; see [GetClusterMetadata_total] for the panic, which cannot happen. *)
Definition reconcile (rc : RC) : ST W (option error * RC) :=
  λ w,
    if bool_decide (w.1 ≠ ClusterID (cl_Spec rc.1))
    then (Some (WrapAsPermanentError (WithDetails (sentinel ErrInvalidClusterID)
                  [("nsUID", w.1); ("clusterUID", cl_UID rc.1)])), rc, w)
    else
      (let! md := on_env GetClusterMetadata in
       let md := match md with Some r => r | None => Err (errorString "nil pointer dereference") end in
       let! rc := set_condition (ClusterMetadataCondition (res_err md)) rc in
       match md with
       | Err e =>
           let e := WithStackIf e in
           let! rc := set_condition (ClustersSyncedCondition (Some e)) rc in
           return! (Some (WithStackIf e), rc)
       | Ok md =>
           let rc := (with_status (status_set_Metadata md (cl_Status rc.1)) rc.1, rc.2) in
           let! errs := syncClusters in
           let! rc := set_condition (ClustersSyncedCondition errs) rc in
           return! (None, rc)
       end) w.

Definition Reconcile_remote (req : Request) : ST W (Result * option error) :=
  let! err := setClusterID in
  match err with
  | Some e => return! (Result_zero, Some (WithStackIf e))
  | None =>
      let! res := on_env (client_GetCluster (nn_Name req)) in
      match res with
      | Err e => if IsNotFound e then return! (Result_zero, None)
                 else return! (Result_zero, Some (WrapIf e "could not get object"))
      | Ok cluster =>
          let cluster := with_status (ClusterStatus_Reset (cl_Status cluster)) cluster in
          let! out := reconcile (cluster, GetCurrentConditions cluster) in
          let! rc := match out.1 with
                     | Some e => set_condition (ClustersSyncedCondition (Some e)) out.2
                     | None => return! out.2
                     end in
          let! err := on_env (UpdateCluster out.1 rc.1 rc.2) in
          return! (Result_zero, err)
      end
  end.

(** The update predicate of the watch on the peer's [Cluster] resources. *)
Definition remote_update_predicate (old new : Cluster) : bool :=
  bool_decide (State (cl_Status old) ≠ State (cl_Status new))
  || bool_decide (cst_Message (cl_Status old) ≠ cst_Message (cl_Status new)).

(** ** Agreement of the registries *)

(** The peer knows the cluster under the same name, and finds it ready. *)
Definition agrees (remote : gmap string Cluster) (c : Cluster) : Prop :=
  ∃ rc, remote !! ClusterID (cl_Spec c) = Some rc ∧ cl_Name c = cl_Name rc
        ∧ State (cl_Status rc) = ClusterStateReady.

Lemma compare_cluster_None remote errs c :
  compare_cluster remote errs c = None ↔ errs = None ∧ agrees remote c.
Proof.
  unfold compare_cluster, agrees. destruct (remote !! ClusterID (cl_Spec c)) as [rc|]; [|naive_solver].
  do 2 case_bool_decide; naive_solver.
Qed.

Lemma syncClusters_in_None order remote : syncClusters_in order remote = None ↔ Forall (agrees remote) order.
Proof.
  unfold syncClusters_in. induction order as [|c order IH] using rev_ind; [done|].
  rewrite foldl_app, Forall_app, Forall_singleton. simpl. by rewrite compare_cluster_None, IH.
Qed.

(** The registries of the two clusters are reported in sync exactly when the peer
    knows every local cluster by its id, under the same name and ready, whatever the
    order of the comparison. *)
Theorem syncClusters_correct (w : W) localClusters remoteClusters s1 s2 :
  GetClusters (CC := local_clusters) w.2 = (Ok localClusters, s1) →
  GetClusters (CC := remote_clusters) s1 = (Ok remoteClusters, s2) →
  ((syncClusters w).1 = None ↔ ∀ id c, localClusters !! id = Some c → agrees remoteClusters c)
  ∧ (∀ order, order ≡ₚ (map_to_list localClusters).*2 →
       (syncClusters_in order remoteClusters = None ↔ (syncClusters w).1 = None)).
Proof.
  intros Hl Hr.
  assert (Hs : (syncClusters w).1 = syncClusters_in (map_to_list localClusters).*2 remoteClusters).
  { unfold syncClusters, st_bind, on_env. rewrite Hl. simpl. by rewrite Hr. }
  rewrite Hs. split.
  - rewrite syncClusters_in_None, Forall_forall. setoid_rewrite list_elem_of_fmap. split.
    + intros H id c Hc. apply H. exists (id, c). split; [done|]. by apply elem_of_map_to_list.
    + intros H c ([id c'] & -> & Hc%elem_of_map_to_list). by eapply H.
  - intros order Ho. rewrite !syncClusters_in_None. by rewrite Ho.
Qed.
End remote.
