(* ===== verification/RegistryRun.v ===== *)
(** * The reconcilers on concrete clusters

    An executable environment for the reconcilers of [ClusterReconciler],
    [RuleReconciler] and [RemoteReconciler], and runs on it. *)

From stdpp Require Import gmap strings list relations.
From S2P Require Import Prelude Errors Types Match Util Features Cluster ClusterGate ClusterLife Manager.
From S2P Require Import Conditions Meta Secret ClusterReconciler RegistryFacts RegistrySync RuleReconciler RemoteReconciler.
Open Scope string_scope.

(** A registry with its Cluster resources and its secrets. *)
Record Reg := mkReg { reg_clusters : list Cluster; reg_secrets : list Secret }.

#[local] Instance reg_client : ClusterClient Reg := {|
  client_GetCluster n s :=
    (match filter (λ c, cl_Name c = n) (reg_clusters s) with
     | c :: _ => Ok c | [] => Err (StatusError NotFound n) end, s);
  client_ListClusters s := (Ok (reg_clusters s), s);
  client_StatusUpdate c s :=
    (None, mkReg ((λ d, if bool_decide (cl_Name d = cl_Name c) then with_status (cl_Status c) d else d)
                    <$> reg_clusters s) (reg_secrets s));
  client_GetNamespaceUID _ s := (Ok "local-id", s) |}.

#[local] Instance reg_nodes : NodeEnv Reg := {|
  client_ListNodes s := (Ok [], s);
  ctx_Done s := (false, s) |}.

#[local] Instance reg_secrets_env : SecretEnv Reg := {|
  client_GetSecret k s :=
    (match filter (λ x, om_Name (sec_meta x) = nn_Name k ∧ om_Namespace (sec_meta x) = nn_Namespace k)
                  (reg_secrets s) with
     | x :: _ => Ok x | [] => Err (StatusError NotFound (nn_Name k)) end, s);
  client_GetServiceAccountNamespace k s := (Ok (nn_Namespace k), s);
  client_ListSecrets n s := (Ok (filter (λ x, om_Namespace (sec_meta x) = n) (reg_secrets s)), s);
  client_CreateSecret x s := (None, mkReg (reg_clusters s) (x :: reg_secrets s));
  discovery_ServerAddresses _ s := (Ok [(any_network, "10.0.0.1")], s);
  yaml_Marshal k := Ok (kc_Name k ++ " " ++ kc_Server k ++ " " ++ kc_CAData k);
  client_GetWebhook n s := (Err (StatusError NotFound n), s);
  client_UpdateWebhook _ s := (None, s);
  client_CreateCluster c s := (None, mkReg (c :: reg_clusters s) (reg_secrets s)) |}.

#[local] Instance reg_ctrl : CtrlEnv Reg := {|
  time_Now s := (7%Z, s);
  RecordClusterEvent _ s := (tt, s);
  clientcmd_Load _ := None;
  clientcmd_ClientConfig _ _ := None;
  first_probe _ s := ((ProbeUID "peer-id", true), s);
  local_restConfig := mkRestConfig "own-ca" "https://own";
  ReconcileSecret _ s := (None, s);
  SetControllerReference _ _ := None;
  ReconcileCore _ _ s := (None, s);
  client_StatusResponse c _ := c |}.

#[local] Instance plain_urls : UrlLib := {|
  url_Parse s := Ok (mkURL "https" s);
  url_String u := url_rest u |}.

Existing Instance chain_lib.
Existing Instance subset_selectors.

Definition peer_ref : NamespacedName := mkNamespacedName "peer" "registry".
Definition peer_cluster (id : string) (uid : string) : Cluster :=
  mkCluster (mkObjectMeta "peer" "" uid "1" 1 "" None None ∅ ∅ [] [] [])
    (mkClusterSpec id (mkAuthInfo peer_ref) []) a_status.
Definition peer_secret : Secret :=
  mkSecret (named_meta "peer" "registry") SecretTypeClusterRegistry {[ KubeconfigKey := "kc" ]}.

Definition a_config : Configuration :=
  mkConfiguration "" "" (mkLeaderElection false "" "") (mkLogging 0 LogFormatConsole) (mkClusterController 1 60)
    (mkSyncController 1 (mkSyncControllerRateLimit 1 1 1)) "registry" "" true "reader" "" "" true
    (mkClusterValidatorWebhook false "" "" 0).

Definition reg_world (s : Reg) : RWorld Reg :=
  mkRWorld (mkClusterReconcilerState a_config "local-id" (Some [])) (NewManager [0] [] ∅) s.

Definition peer_reg : Reg := mkReg [peer_cluster "peer-id" "u1"] [peer_secret].

Lemma empty_wf s : manager_wf (rw_mgr (reg_world s)).
Proof. intros n p. simpl. by rewrite lookup_empty. Qed.

Lemma idle_grows : ∀ f c h, heap_grows h (idle f c h).
Proof. intros f c h. reflexivity. Qed.

(** A peer with a usable secret is set up and registered. *)
Lemma getRemoteCluster_credentials_witness :
  ∃ p cw, Get "peer" (rw_mgr (getRemoteCluster idle (peer_cluster "peer-id" "u1", ∅) (reg_world peer_reg)).2) = Ok p
          ∧ peers (rw_mgr (getRemoteCluster idle (peer_cluster "peer-id" "u1", ∅) (reg_world peer_reg)).2) !! p = Some cw
          ∧ Cluster.secretID (cl cw) = Some (secret_id (peer_cluster "peer-id" "u1")).
Proof.
  pose proof (getRemoteCluster_credentials idle idle_grows (peer_cluster "peer-id" "u1", ∅) (reg_world peer_reg)
    (empty_wf peer_reg)) as H.
  destruct (getRemoteCluster idle _ (reg_world peer_reg)) as [[res rc'] w'] eqn:E.
  destruct H as [H _].
  { intros p cw Hp. vm_compute in Hp. discriminate Hp. }
  assert (∃ p, res = Ok p) as [p Hp].
  { apply (f_equal (λ x, x.1.1)) in E. vm_compute in E. eexists. symmetry. exact E. }
  destruct (H p Hp) as (_ & Hg & cw & content & Hcw & _ & Hid & _). exists p, cw.
  split; [exact Hg|split; [exact Hcw|exact Hid]].
Defined.

(** Two resources claim the same cluster. *)
Lemma checkLocalClusterConflict_correct_witness :
  ((checkLocalClusterConflict (peer_cluster "x" "u1", ∅)
     (reg_world (mkReg [peer_cluster "x" "u2"] []))).1).1 ≠ None.
Proof.
  pose proof (checkLocalClusterConflict_correct (peer_cluster "x" "u1", ∅)
    (reg_world (mkReg [peer_cluster "x" "u2"] [])) [peer_cluster "x" "u2"] (mkReg [peer_cluster "x" "u2"] [])
    eq_refl) as H.
  destruct (checkLocalClusterConflict _ _) as [[err rc'] w'] eqn:E. destruct H as [H _]. simpl.
  intros Hn. apply (proj1 H Hn (peer_cluster "x" "u2")); [left|]. split; [discriminate|reflexivity].
Defined.

Lemma missing_auth_info_not_reported_witness :
  ((reconcile_enabled idle false None (a_cluster "1", ∅) (reg_world (mkReg [] []))).1).1 = None.
Proof.
  pose proof (missing_auth_info_not_reported idle (a_cluster "1", ∅) (reg_world (mkReg [] []))
    (or_introl eq_refl)) as H.
  destruct (reconcile_enabled idle false None _ _) as [[e rc'] w']. exact (proj1 H).
Defined.

(** The reader secret of the local cluster, with an existing token. *)
Definition token_secret : Secret :=
  mkSecret (with_annotations {[ ServiceAccountNameKey := "reader" ]} (named_meta "t" "registry"))
    SecretTypeServiceAccountToken {[ "token" := "tk"; "ca.crt" := "ca" ]}.
Definition reader_run : result error Secret * Reg :=
  GetReaderSecretForCluster local_restConfig (peer_cluster "local-id" "u1") (mkNamespacedName "reader" "registry") ""
    (mkReg [] [token_secret]).

Lemma GetReaderSecretForCluster_correct_witness :
  ∃ sec, reader_run.1 = Ok sec ∧ sec_Type sec = SecretTypeClusterRegistry.
Proof.
  eexists. split; [vm_compute; reflexivity|].
  refine (proj1 (GetReaderSecretForCluster_correct local_restConfig (peer_cluster "local-id" "u1")
    (mkNamespacedName "reader" "registry") "" (mkReg [] [token_secret]) _ _)).
  vm_compute. reflexivity.
Defined.

(** ** Rules *)

#[local] Instance no_limit : RateLib := {| memstore_New _ := None; NewGCRARateLimiter _ := None |}.
Definition specs_by_kind (a b : ResourceSyncRuleSpec) : bool := false.
Definition istio_rule : ResourceSyncRule :=
  mkResourceSyncRule (named_meta "rule-a" "")
    (mkResourceSyncRuleSpec [mkClusterFeatureMatch "istio" ∅ []] (mkGVK "" "v1" "Secret") []).

(** A rule that needs a feature: its controller is registered, and pending. *)
Lemma syncClusterController_correct_witness :
  ∃ w', syncClusterController specs_by_kind a_config istio_rule peer_world = Returned None w'
        ∧ works_for istio_rule w'.
Proof.
  eexists. split; [reflexivity|].
  refine (proj1 (proj2 (proj2 (syncClusterController_correct specs_by_kind a_config istio_rule peer_world
    eq_refl _ (NewCluster_gated _ _ _ _ _) None _ _)))); [intros a b H; discriminate H|reflexivity].
Defined.

(** A manager that knows one peer. *)
Definition one_known : MWorld :=
  set_clusters {[ "peer" := 1 ]} (NewManager [0] [] {[ 1 := NewCluster [0] "peer" None "kc" [] ]}).

Lemma Reconcile_rule_correct_witness :
  ∃ m' w', Reconcile_rule specs_by_kind a_config "rule-a" (Ok istio_rule) one_known = Some (None, m')
           ∧ peers m' !! 1 = Some w' ∧ works_for istio_rule w'.
Proof.
  destruct (Reconcile_rule specs_by_kind a_config "rule-a" (Ok istio_rule) one_known) as [[err m']|] eqn:E;
    [|vm_compute in E; discriminate E].
  destruct (Reconcile_rule_correct specs_by_kind a_config "rule-a" (Ok istio_rule) one_known err m') as (_ & HH).
  - reflexivity.
  - intros a b Hab. discriminate Hab.
  - intros p w Hp. change (peers one_known) with ({[ 1 := NewCluster [0] "peer" None "kc" [] ]} : gmap Ptr CWorld) in Hp.
    apply lookup_singleton_Some in Hp as [_ <-]. apply NewCluster_gated.
  - intros n p Hn. change (GetAll one_known) with ({[ "peer" := 1 ]} : gmap string Ptr) in Hn.
    apply lookup_singleton_Some in Hn as [_ <-]. eexists. reflexivity.
  - intros sr [= <-]. reflexivity.
  - exact E.
  - destruct (HH I) as (He & _ & H). destruct (H "peer" 1 eq_refl) as (w & w' & _ & Hw' & _ & _ & Hworks). exists m', w'. rewrite He.
    split; [reflexivity|]. split; [exact Hw'|exact Hworks].
Defined.

(** A peer turns out to be the local cluster: it is no longer registered. *)
Lemma reg_GetCluster_name n (s : Reg) c : (client_GetCluster n s).1 = Ok c → cl_Name c = n.
Proof.
  simpl. destruct (filter (λ c, cl_Name c = n) (reg_clusters s)) as [|d l] eqn:E; [discriminate|]. intros [= <-].
  assert (d ∈ filter (λ c, cl_Name c = n) (reg_clusters s)) as Hd by (rewrite E; left).
  by apply list_elem_of_filter in Hd as [? _].
Qed.

Definition local_now : RWorld Reg :=
  mkRWorld (mkClusterReconcilerState a_config "local-id" (Some [])) one_known (mkReg [peer_cluster "local-id" "u1"] []).

Lemma manager_follows_resources_witness :
  Exists_ "peer" (rw_mgr local_now) = true
  ∧ Exists_ "peer" (rw_mgr (Reconcile_cluster idle (mkNamespacedName "peer" "") local_now).2) = false.
Proof.
  split; [reflexivity|].
  refine (proj2 (proj2 (manager_follows_resources idle idle_grows reg_GetCluster_name (mkNamespacedName "peer" "")
    local_now _)) local_now eq_refl (or_introl eq_refl)).
  intros n p Hn. change (m_clusters (mg (rw_mgr local_now))) with ({[ "peer" := 1 ]} : gmap string Ptr) in Hn.
  apply lookup_singleton_Some in Hn as [<- <-]. eexists. split; reflexivity.
Defined.

(** The rule changes while its controller has not been started. *)
Definition unstarted : CWorld :=
  AddController 3 (set_heap (<[3 := NewManagedController "rule-a" (OtherReconciler "r") []]> (heap peer_world)) peer_world).

Lemma rule_change_panics_without_context_witness :
  syncClusterController specs_by_kind a_config istio_rule unstarted = Panicked.
Proof.
  refine (rule_change_panics_without_context specs_by_kind a_config istio_rule unstarted 3
    (NewManagedController "rule-a" (OtherReconciler "r") []) _ _ _ _ _); vm_compute; reflexivity.
Defined.

(** ** Agreement of registries *)

#[local] Instance two_sides : RemoteEnv Reg := {|
  local_clusters := reg_client;
  remote_clusters := reg_client;
  remote_nodes := reg_nodes;
  remote_Now s := (7%Z, s);
  local_RecordEvent _ s := (tt, s) |}.

Lemma syncClusters_correct_witness :
  (syncClusters (S:=Reg) ("peer-id", peer_reg)).1 = None.
Proof.
  refine (proj2 (proj1 (syncClusters_correct (S:=Reg) ("peer-id", peer_reg)
    {[ "peer-id" := peer_cluster "peer-id" "u1" ]} {[ "peer-id" := peer_cluster "peer-id" "u1" ]}
    peer_reg peer_reg _ _)) _); [vm_compute; reflexivity|vm_compute; reflexivity|].
  intros id c Hc. apply lookup_singleton_Some in Hc. destruct Hc as [_ <-].
  exists (peer_cluster "peer-id" "u1"). split; [reflexivity|]. split; reflexivity.
Defined.
