(* ===== verification/Watches.v ===== *)
(** * Watches

    How the reconcilers get their requests: the registrations that [SetupWithController]
    and [SetupWithManager] make with controller-runtime
    (controllers/cluster_reconciler.go, cluster_reconciler_watches.go,
    resource_sync_rule_reconciler.go, remote_cluster_reconciler.go,
    remote_cluster_feature_reconciler.go), the in-memory source of common.go, and which
    requests an event leads to. *)

From stdpp Require Import gmap strings list.
From S2P Require Import Prelude Errors Types Match Util Features Cluster ManagedReconciler Manager Conditions Meta Secret ClusterReconciler RuleReconciler RemoteReconciler.
Open Scope string_scope.
Open Scope go_scope.

(** ** Events and registrations *)

(** The objects that are watched. *)
Inductive Watched :=
| WCluster (c : Cluster)
| WRule (r : ResourceSyncRule)
| WFeature (f : ClusterFeatureCR)
| WSecret (s : Secret).

Definition watched_meta (o : Watched) : ObjectMeta :=
  match o with
  | WCluster c => cl_meta c | WRule r => rsr_meta r | WFeature f => cf_meta f | WSecret s => sec_meta s
  end.

(** The kind that the scheme has for the Go type of an object. *)
Definition watched_kind (o : Watched) : string :=
  match o with
  | WCluster _ => "Cluster" | WRule _ => "ResourceSyncRule" | WFeature _ => "ClusterFeature" | WSecret _ => "Secret"
  end.

Inductive WEvent :=
| Created (o : Watched)
| Updated (old new : Watched)
| Deleted (o : Watched)
| Generic (o : Watched).

Definition event_object (e : WEvent) : Watched :=
  match e with Created o | Deleted o | Generic o => o | Updated _ new => new end.

(** [predicate.Funcs]: a function may be nil. *)
Record PredicateFuncs := mkFuncs {
  pf_Create : option (Watched → bool);
  pf_Update : option (Watched → Watched → bool);
  pf_Delete : option (Watched → bool);
  pf_Generic : option (Watched → bool) }.

Inductive Predicate := PFuncs (f : PredicateFuncs) | PGenerationChanged.

(** [source.Kind], by the kind of the Go type and the kind its type meta names, the
    in-memory source, and [source.Informer]. *)
Inductive Source := SKind (go_type type_meta : string) | SMemory | SInformer (kind : string).

(** The map functions that the setups pass on: those of [watchLocalClustersForConflict],
    [watchClusterRegistrySecrets] and [SetupWithController] of the cluster reconciler,
    and those of the remote cluster reconciler, with its name. *)
Inductive MapFunc := ConflictMap | SecretMap | LocalClusterMap | OwnNameMap (name : string).

(** [handler.EnqueueRequestForObject], [handler.EnqueueRequestsFromMapFunc], and
    [handler.Funcs] without functions. *)
Inductive Handler :=
| EnqueueRequestForObject
| EnqueueRequestsFromMapFunc (f : MapFunc)
| HandlerFuncs.

Record Watch := mkWatch {
  wt_source : Source;
  wt_handler : Handler;
  wt_predicates : list Predicate }.

(** The calls of controller-runtime; the builder is given its watches, in the order in
    which it registers them (the watch of [For] first), and the number of workers. *)
Class WatchEnv (W : Type) : Type := {
  ctrl_Watch : Watch → ST W (option error);
  builder_Build : list Watch → Z → ST W (option error);
  GetInformerForKind : string → ST W (option error) }.

(** What controller-runtime makes of the registrations: the kind whose events a source
    delivers, what [predicate.Funcs] answers without a function,
    [predicate.GenerationChangedPredicate], and the objects for which a handler is
    asked after an update. *)
Class EventLib : Type := {
  source_kind : Source → option string;
  nil_func : bool;
  GenerationChanged : WEvent → bool;
  updated_objects : Watched → Watched → list Watched }.

(** The kind of a typed object is that of its Go type in the scheme; the in-memory source
    delivers no events. *)
Class EventLaws `{EventLib} : Prop := {
  source_kind_typed t m : source_kind (SKind t m) = Some t;
  source_kind_memory : source_kind SMemory = None;
  source_kind_informer k : source_kind (SInformer k) = Some k;
  nil_func_true : nil_func = true;
  GenerationChanged_update old new :
    GenerationChanged (Updated old new)
    = bool_decide (om_Generation (watched_meta new) ≠ om_Generation (watched_meta old));
  GenerationChanged_created o : GenerationChanged (Created o) = true;
  GenerationChanged_deleted o : GenerationChanged (Deleted o) = true;
  updated_objects_new old new : new ∈ updated_objects old new;
  updated_objects_only old new o : o ∈ updated_objects old new → o = old ∨ o = new }.

(** ** Which requests an event leads to *)

Section delivery.
Context {W : Type} `{EVL : EventLib} (map_func : MapFunc → Watched → ST W (list Request)).

Definition funcs_allow (f : PredicateFuncs) (e : WEvent) : bool :=
  match e with
  | Created o => match pf_Create f with Some p => p o | None => nil_func end
  | Updated old new => match pf_Update f with Some p => p old new | None => nil_func end
  | Deleted o => match pf_Delete f with Some p => p o | None => nil_func end
  | Generic o => match pf_Generic f with Some p => p o | None => nil_func end
  end.

Definition predicate_allows (p : Predicate) (e : WEvent) : bool :=
  match p with PFuncs f => funcs_allow f e | PGenerationChanged => GenerationChanged e end.

Definition handler_objects (e : WEvent) : list Watched :=
  match e with Updated old new => updated_objects old new | Created o | Deleted o | Generic o => [o] end.

Definition object_request (o : Watched) : Request :=
  mkNamespacedName (om_Name (watched_meta o)) (om_Namespace (watched_meta o)).

(** The requests of a handler for some objects, in order. *)
Fixpoint handler_requests (f : Watched → ST W (list Request)) (objs : list Watched) : ST W (list Request) :=
  match objs with
  | [] => return! []
  | o :: objs' =>
      let! here := f o in
      let! rest := handler_requests f objs' in
      return! (here ++ rest)%list
  end.

Definition enqueued (w : Watch) (e : WEvent) : ST W (list Request) :=
  if negb (bool_decide (source_kind (wt_source w) = Some (watched_kind (event_object e)))) then return! []
  else if negb (forallb (λ p, predicate_allows p e) (wt_predicates w)) then return! []
  else match wt_handler w with
       | EnqueueRequestForObject => return! (object_request <$> handler_objects e)
       | EnqueueRequestsFromMapFunc f => handler_requests (map_func f) (handler_objects e)
       | HandlerFuncs => return! []
       end.
End delivery.

(** ** Setting up *)

Section setup.
Context {W : Type} `{WE : WatchEnv W}.

(** The base of the reconciler, and the rest of the state. *)
Abbreviation WB := (ManagedReconcilerBase * W)%type.

Definition on_world {A} (c : ST W A) : ST WB A := λ w, let '(a, s) := c w.2 in (a, (w.1, s)).
Definition on_base (f : ManagedReconcilerBase → ManagedReconcilerBase) : ST WB unit := λ w, (tt, (f w.1, w.2)).
Definition base_call (c : ManagedReconcilerBase → option error * ManagedReconcilerBase) : ST WB (option error) :=
  λ w, let '(err, b) := c w.1 in (err, (b, w.2)).

(** Go's [if err != nil { return wrap(err) }]. *)
Definition on_error (wrap : error → error) (c k : ST WB (option error)) : ST WB (option error) :=
  let! err := c in
  match err with Some e => return! Some (wrap e) | None => k end.

(** A loop of calls of [Watch]; the first error ends it. *)
Definition watch_all (wrap : error → error) (ws : list Watch) : ST WB (option error) :=
  st_for ws (λ w, on_error wrap (on_world (ctrl_Watch w)) (return! None)).

(** [InMemorySource]: starting it hands the queue to the reconciler. *)
Definition InMemorySource_String : string := "in-memory".
Definition InMemorySource_Start {Q R} (setQueue : Q → R → R) (q : Q) (r : R) : option error * R :=
  (None, setQueue q r).
End setup.

Definition memory_watch : Watch := mkWatch SMemory HandlerFuncs [].

(** *** The cluster reconciler *)

Definition NewClusterReconciler (name : string) (config : Configuration)
    : ManagedReconcilerBase * ClusterReconcilerState :=
  (NewManagedReconciler name, mkClusterReconcilerState config "" None).

Definition setQueue_cluster (q : list Request) (r : ClusterReconcilerState) : ClusterReconcilerState :=
  mkClusterReconcilerState (cr_config r) (cr_clusterID r) (Some q).

Definition no_update_no_generic : PredicateFuncs := mkFuncs None (Some (λ _ _, false)) None (Some (λ _, false)).
Definition update_func (p : Watched → Watched → bool) : PredicateFuncs := mkFuncs None (Some p) None None.

Definition watchLocalClustersForConflict : Watch :=
  mkWatch (SKind "Cluster" "Cluster") (EnqueueRequestsFromMapFunc ConflictMap) [PFuncs no_update_no_generic].

Definition watchClusterRegistrySecrets : Watch :=
  mkWatch (SKind "Secret" "Secret") (EnqueueRequestsFromMapFunc SecretMap) [].

(** The watch that [For] adds. *)
Definition for_Cluster : Watch :=
  mkWatch (SKind "Cluster" "Cluster") EnqueueRequestForObject
    [PFuncs (update_func (λ old new, cluster_update_predicate (watched_meta old) (watched_meta new)))].

(** The loop over the core resources; the objects are both of type [ResourceSyncRule]. *)
Definition core_watches : list Watch :=
  (λ t, mkWatch (SKind t.1 t.2) (EnqueueRequestsFromMapFunc LocalClusterMap)
          [PFuncs (update_func (λ old _, core_update_predicate (watched_meta old)))])
  <$> [("ResourceSyncRule", "ResourceSyncRule"); ("ResourceSyncRule", "ClusterFeature")].

Section cluster_watches.
Context {S : Type} `{CC : ClusterClient S} `{NE : !NodeEnv S} `{SE : !SecretEnv S} `{CE : !CtrlEnv S}.
Context `{EL : ErrorLib} `{WE : !WatchEnv (RWorld S)}.
Abbreviation W := (RWorld S).

(** The map functions of the cluster reconciler. *)
Definition cluster_map_func (f : MapFunc) (o : Watched) : ST W (list Request) :=
  match f with
  | ConflictMap => conflictMapFunc
  | SecretMap => match o with WSecret s => secretMapFunc s | _ => return! [] end
  | LocalClusterMap => localClusterMapFunc
  | OwnNameMap _ => return! []
  end.

Definition SetupWithController_cluster (x : ctx) : ST (ManagedReconcilerBase * W) (option error) :=
  on_error WithStack (base_call (Base_SetupWithController x)) (
  on_error (λ e, e) (watch_all WithStack core_watches) (
  on_error WithStack (on_world (ctrl_Watch memory_watch)) (
  return! None))).

Definition SetupWithManager_cluster (x : ctx) (mgr : nat) : ST (ManagedReconcilerBase * W) (option error) :=
  on_error (λ e, e) (base_call (Base_SetupWithManager mgr)) (
  let! r := on_world (λ w, (rw_rec w, w)) in
  on_error (λ e, e)
    (on_world (builder_Build [for_Cluster; watchLocalClustersForConflict; watchClusterRegistrySecrets]
       (cc_WorkerCount (cfg_ClusterController (cr_config r))))) (
  on_error (λ e, e) (SetupWithController_cluster x) (
  let! _ := on_base (Base_SetClient mgr) in
  return! None))).
End cluster_watches.

(** *** The rule reconciler *)

Record ResourceSyncRuleReconcilerState := mkRuleReconcilerState {
  rr_config : Configuration;
  rr_queue : option (list Request) }.

Record RuleWorld (S : Type) := mkRuleWorld {
  ru_rec : ResourceSyncRuleReconcilerState; ru_mgr : MWorld; ru_env : S }.
Arguments mkRuleWorld {S} _ _ _.
Arguments ru_rec {S} _.
Arguments ru_mgr {S} _.
Arguments ru_env {S} _.

Definition requeue_id : string := "trigger-resource-sync-rule-reconcile".

Definition for_ResourceSyncRule : Watch :=
  mkWatch (SKind "ResourceSyncRule" "ResourceSyncRule") EnqueueRequestForObject [PGenerationChanged].

Section rule_watches.
Context {S : Type} `{EL : ErrorLib} `{WE : !WatchEnv (RuleWorld S)}.
(** The rules as the client of the reconciler lists them, and the time stamp of a
    registration. *)
Context (client_ListRules : ST S (result error (list ResourceSyncRule))) (now : string).
Abbreviation W := (RuleWorld S).

Definition NewResourceSyncRuleReconciler (name : string) (config : Configuration)
    : ManagedReconcilerBase * ResourceSyncRuleReconcilerState :=
  (NewManagedReconciler name, mkRuleReconcilerState config None).

Definition setQueue_rule (q : list Request) (r : ResourceSyncRuleReconcilerState)
    : ResourceSyncRuleReconcilerState := mkRuleReconcilerState (rr_config r) (Some q).

(** What the registered callback does to the queue; without a queue, nothing is read. *)
Definition requeue_callback : ST W unit := λ w,
  match rr_queue (ru_rec w) with
  | None => (tt, w)
  | Some q =>
      let '(rules, s) := client_ListRules (ru_env w) in
      (tt, mkRuleWorld (mkRuleReconcilerState (rr_config (ru_rec w)) (requeue_rules (Some q) rules)) (ru_mgr w) s)
  end.

Definition register_requeue : ST W unit := λ w,
  (tt, mkRuleWorld (ru_rec w)
         (mkMWorld (AddOnAfterAddFunc now requeue_id [requeue_id] (mg (ru_mgr w))) (peers (ru_mgr w)) (mlog (ru_mgr w)))
         (ru_env w)).

Definition SetupWithController_rule (x : ctx) : ST (ManagedReconcilerBase * W) (option error) :=
  on_error (λ e, e) (base_call (Base_SetupWithController x)) (
  on_error (λ e, e) (on_world (ctrl_Watch memory_watch)) (
  let! _ := on_world register_requeue in
  return! None)).

Definition SetupWithManager_rule (x : ctx) (mgr : nat) : ST (ManagedReconcilerBase * W) (option error) :=
  on_error (λ e, e) (base_call (Base_SetupWithManager mgr)) (
  let! r := on_world (λ w, (ru_rec w, w)) in
  on_error (λ e, e)
    (on_world (builder_Build [for_ResourceSyncRule] (sc_WorkerCount (cfg_SyncController (rr_config r))))) (
  on_error (λ e, e) (SetupWithController_rule x) (
  let! _ := on_base (Base_SetClient mgr) in
  return! None))).
End rule_watches.

(** *** The reconcilers of a peer *)

Definition remote_update (old new : Watched) : bool :=
  match old, new with WCluster o, WCluster n => remote_update_predicate o n | _, _ => false end.

Definition remote_clusters_watch (name : string) : Watch :=
  mkWatch (SKind "Cluster" "Cluster") (EnqueueRequestsFromMapFunc (OwnNameMap name)) [PFuncs (update_func remote_update)].
Definition local_informer_watch (name : string) : Watch :=
  mkWatch (SInformer "Cluster") (EnqueueRequestsFromMapFunc (OwnNameMap name)) [PGenerationChanged].

Definition features_watch : Watch :=
  mkWatch (SKind "ClusterFeature" "ClusterFeature") EnqueueRequestForObject [PFuncs (mkFuncs None None None None)].

Section peer_watches.
Context {W : Type} `{EL : ErrorLib} `{WE : !WatchEnv W}.

(** [NewRemoteClusterReconciler]: the base, and the empty id of the remote cluster. *)
Definition NewRemoteClusterReconciler (name : string) : ManagedReconcilerBase * string :=
  (NewManagedReconciler name, "").

Definition own_request (name : string) : list Request := [mkNamespacedName name ""].

Definition remote_map_func (f : MapFunc) (o : Watched) : ST W (list Request) :=
  match f with OwnNameMap name => return! own_request name | _ => return! [] end.

Definition SetupWithController_remote (x : ctx) : ST (ManagedReconcilerBase * W) (option error) :=
  on_error (λ e, e) (base_call (Base_SetupWithController x)) (
  let! name := (λ w, (mrb_name w.1, w)) in
  on_error (λ e, WrapIf e "could not create watch for remote clusters")
    (on_world (ctrl_Watch (remote_clusters_watch name))) (
  on_error (λ e, WrapIf e "could not create local informer for clusters")
    (on_world (GetInformerForKind "Cluster")) (
  on_error (λ e, WrapIf e "could not create watch for local informer")
    (on_world (ctrl_Watch (local_informer_watch name))) (
  return! None)))).

(** [NewClusterFeatureReconciler]: the base, and the cluster of the features. *)
Definition NewClusterFeatureReconciler (name : string) (cluster : Ptr) : ManagedReconcilerBase * Ptr :=
  (NewManagedReconciler name, cluster).

Definition SetupWithController_feature (x : ctx) : ST (ManagedReconcilerBase * W) (option error) :=
  on_error (λ e, e) (base_call (Base_SetupWithController x)) (
  on_error (λ e, WrapIf e "could not create watch for cluster features") (on_world (ctrl_Watch features_watch)) (
  return! None)).
End peer_watches.
