(* ===== verification/WatchFacts.v ===== *)
(** * What the watches achieve

    Setting up registers every watch or reports an error; the events that change what a
    reconciler works on wake it up, and its own status updates do not; a new cluster
    queues all the rules. *)

From stdpp Require Import gmap strings list.
From S2P Require Import Prelude Errors Types Match Util Features Cluster ClusterLife ManagedReconciler Manager Conditions Meta Secret ClusterReconciler RuleReconciler RemoteReconciler Watches.
Open Scope string_scope.
Open Scope go_scope.

(** ** Setting up *)

(** Documented behaviour: a call that succeeds has registered what it was given; one
    that fails may have registered some of it. Creating an informer registers nothing. *)
Class WatchLaws (W : Type) `{WatchEnv W} : Type := {
  watches : W → list Watch;
  ctrl_Watch_watches w s : ∃ l, watches (ctrl_Watch w s).2 = (watches s ++ l)%list
    ∧ match (ctrl_Watch w s).1 with None => l = [w] | Some _ => l ⊆ [w] end;
  builder_Build_watches ws n s : ∃ l, watches (builder_Build ws n s).2 = (watches s ++ l)%list
    ∧ match (builder_Build ws n s).1 with None => l = ws | Some _ => l ⊆ ws end;
  GetInformer_watches k s : watches (GetInformerForKind k s).2 = watches s }.

Section setup_facts.
Context {W : Type} `{WE : WatchEnv W} `{WL : !WatchLaws W}.

(** A piece of a setup: it registers all its watches and changes the base by [f], or
    reports an error, after at most some of the watches, with the client as it was. *)
Definition sets_up (ws : list Watch) (f : ManagedReconcilerBase → ManagedReconcilerBase)
    (c : ST (ManagedReconcilerBase * W) (option error)) : Prop :=
  ∀ b w, ∃ l, watches (c (b, w)).2.2 = (watches w ++ l)%list
    ∧ match (c (b, w)).1 with
      | None => l = ws ∧ (c (b, w)).2.1 = f b
      | Some _ => l ⊆ ws ∧ mrb_client (c (b, w)).2.1 = mrb_client b
      end.

Lemma sets_up_ret : sets_up [] id (return! None).
Proof. intros b w. exists []. simpl. by rewrite app_nil_r. Qed.

Lemma sets_up_watch w : sets_up [w] id (on_world (ctrl_Watch w)).
Proof.
  intros b s. destruct (ctrl_Watch_watches w s) as (l & Hl & H). exists l. unfold on_world. simpl.
  destruct (ctrl_Watch w s) as [[e|] s']; simpl in *; by split_and!.
Qed.

Lemma sets_up_build ws n : sets_up ws id (on_world (builder_Build ws n)).
Proof.
  intros b s. destruct (builder_Build_watches ws n s) as (l & Hl & H). exists l. unfold on_world. simpl.
  destruct (builder_Build ws n s) as [[e|] s']; simpl in *; by split_and!.
Qed.

Lemma sets_up_informer k : sets_up [] id (on_world (GetInformerForKind k)).
Proof.
  intros b s. pose proof (GetInformer_watches k s) as H. exists []. rewrite app_nil_r. unfold on_world. simpl.
  destruct (GetInformerForKind k s) as [[e|] s']; simpl in *; by split_and!.
Qed.

Lemma sets_up_base f : sets_up [] f (base_call (λ b, (None, f b))).
Proof. intros b w. exists []. simpl. by rewrite app_nil_r. Qed.

Lemma sets_up_seq wrap ws1 ws2 f g c k :
  (∀ b, mrb_client (f b) = mrb_client b) →
  sets_up ws1 f c → sets_up ws2 g k → sets_up (ws1 ++ ws2) (g ∘ f) (on_error wrap c k).
Proof.
  intros Hf Hc Hk b w. unfold on_error, st_bind. destruct (Hc b w) as (l1 & Hl1 & H1).
  destruct (c (b, w)) as [[e|] [b1 w1]]; simpl in *.
  - exists l1. split; [done|]. destruct H1. split; [set_solver|done].
  - destruct H1 as [-> ->]. destruct (Hk (f b) w1) as (l2 & Hl2 & H2). exists (ws1 ++ l2)%list.
    rewrite Hl2, Hl1, app_assoc. split; [done|].
    destruct (k (f b, w1)) as [[e|] [b2 w2]]; simpl in *; destruct H2 as [H2 H2'].
    + split; [set_solver|]. by rewrite H2', Hf.
    + by subst.
Qed.

Lemma sets_up_all wrap ws : sets_up ws id (watch_all wrap ws).
Proof.
  induction ws as [|w ws IH]; [apply sets_up_ret|].
  exact (sets_up_seq (λ e, e) [w] ws id id (on_error wrap (on_world (ctrl_Watch w)) (return! None)) _ (λ _, eq_refl)
    (sets_up_seq wrap [w] [] id id _ _ (λ _, eq_refl) (sets_up_watch w) sets_up_ret) IH).
Qed.

Lemma sets_up_client m : sets_up [] (Base_SetClient m) (let! _ := on_base (Base_SetClient m) in return! None).
Proof. intros b w. exists []. simpl. by rewrite app_nil_r. Qed.

(** Reading the state first changes nothing. *)
Lemma sets_up_read {A} (g : W → A) ws f k :
  (∀ a, sets_up ws f (k a)) → sets_up ws f (let! a := on_world (λ w, (g w, w)) in k a).
Proof. intros Hk b w. apply Hk. Qed.

Lemma SetContext_client x b : mrb_client (SetContext x b) = mrb_client b.
Proof. unfold SetContext. by destruct (mrb_ctx b). Qed.
Lemma SetManager_client m b : mrb_client (SetManager m b) = mrb_client b.
Proof. unfold SetManager. by destruct (mrb_mgr b). Qed.
End setup_facts.

Create HintDb watches.
#[export] Hint Resolve sets_up_ret sets_up_watch sets_up_build sets_up_informer sets_up_base sets_up_all
  sets_up_client SetContext_client SetManager_client : watches.
#[export] Hint Extern 1 (sets_up _ _ (base_call (Base_SetupWithController ?x))) => exact (sets_up_base (SetContext x)) : watches.
#[export] Hint Extern 1 (sets_up _ _ (base_call (Base_SetupWithManager ?m))) => exact (sets_up_base (SetManager m)) : watches.

Section cluster_setup.
Context {S : Type} `{CC : ClusterClient S} `{NE : !NodeEnv S} `{SE : !SecretEnv S} `{CE : !CtrlEnv S}.
Context `{EL : ErrorLib} `{WE : !WatchEnv (RWorld S)} `{WL : !WatchLaws (RWorld S)}.

(** The watches that the cluster reconciler should have, one by one: on clusters, for
    the cluster itself when its generation or its annotations change, and for the local
    clusters when one comes or goes; on secrets, for the clusters that use them; twice on
    rules, for the local clusters, the second time where cluster features are meant; and
    the in-memory source. *)
Definition cluster_watches : list Watch :=
  [mkWatch (SKind "Cluster" "Cluster") EnqueueRequestForObject
     [PFuncs (mkFuncs None (Some (λ old new, cluster_update_predicate (watched_meta old) (watched_meta new))) None None)];
   mkWatch (SKind "Cluster" "Cluster") (EnqueueRequestsFromMapFunc ConflictMap)
     [PFuncs (mkFuncs None (Some (λ _ _, false)) None (Some (λ _, false)))];
   mkWatch (SKind "Secret" "Secret") (EnqueueRequestsFromMapFunc SecretMap) [];
   mkWatch (SKind "ResourceSyncRule" "ResourceSyncRule") (EnqueueRequestsFromMapFunc LocalClusterMap)
     [PFuncs (mkFuncs None (Some (λ old _, core_update_predicate (watched_meta old))) None None)];
   mkWatch (SKind "ResourceSyncRule" "ClusterFeature") (EnqueueRequestsFromMapFunc LocalClusterMap)
     [PFuncs (mkFuncs None (Some (λ old _, core_update_predicate (watched_meta old))) None None)];
   mkWatch SMemory HandlerFuncs []].

Lemma SetupWithController_cluster_ok x :
  sets_up (core_watches ++ [memory_watch]) (SetContext x) (SetupWithController_cluster x).
Proof.
  change (core_watches ++ [memory_watch])%list with ([] ++ (core_watches ++ ([memory_watch] ++ [])))%list.
  change (SetContext x) with (((id ∘ id) ∘ id) ∘ SetContext x).
  unfold SetupWithController_cluster. repeat (apply sets_up_seq; auto with watches).
Qed.

Lemma SetupWithManager_cluster_ok x mgr :
  sets_up cluster_watches (Base_SetClient mgr ∘ (SetContext x ∘ SetManager mgr)) (SetupWithManager_cluster x mgr).
Proof.
  change cluster_watches with ([] ++ ([for_Cluster; watchLocalClustersForConflict; watchClusterRegistrySecrets]
    ++ ((core_watches ++ [memory_watch]) ++ [])))%list.
  change (Base_SetClient mgr ∘ (SetContext x ∘ SetManager mgr))
    with (((Base_SetClient mgr ∘ SetContext x) ∘ id) ∘ SetManager mgr).
  unfold SetupWithManager_cluster.
  apply sets_up_seq; [auto with watches..|]. apply (sets_up_read rw_rec). intros r.
  apply sets_up_seq; [done|apply sets_up_build|].
  apply sets_up_seq; [auto with watches|apply SetupWithController_cluster_ok|apply sets_up_client].
Qed.
End cluster_setup.

Section rule_setup.
Context {S : Type} `{EL : ErrorLib} `{WE : !WatchEnv (RuleWorld S)} `{WL : !WatchLaws (RuleWorld S)}.
(** What is registered with the controller is not part of the reconciler or of the
    clusters manager. *)
Context (watches_env : ∀ r m r' m' s, watches (mkRuleWorld r m s) = watches (mkRuleWorld r' m' s)) (now : string).

Lemma sets_up_requeue : sets_up [] id (let! _ := on_world (register_requeue now) in return! None).
Proof.
  intros b [r m s]. exists []. rewrite app_nil_r. split; [|done]. simpl. apply watches_env.
Qed.

Lemma SetupWithController_rule_ok x : sets_up [memory_watch] (SetContext x) (SetupWithController_rule now x).
Proof.
  change [memory_watch] with ([] ++ ([memory_watch] ++ []))%list.
  change (SetContext x) with ((id ∘ id) ∘ SetContext x).
  unfold SetupWithController_rule. repeat (apply sets_up_seq; auto using sets_up_requeue with watches).
Qed.

(** The watches of the rule reconciler: on rules whose generation changes, and the
    in-memory source. *)
Definition rule_watches : list Watch :=
  [mkWatch (SKind "ResourceSyncRule" "ResourceSyncRule") EnqueueRequestForObject [PGenerationChanged];
   mkWatch SMemory HandlerFuncs []].

Lemma SetupWithManager_rule_ok x mgr :
  sets_up rule_watches (Base_SetClient mgr ∘ (SetContext x ∘ SetManager mgr)) (SetupWithManager_rule now x mgr).
Proof.
  change rule_watches with ([] ++ ([for_ResourceSyncRule] ++ ([memory_watch] ++ [])))%list.
  change (Base_SetClient mgr ∘ (SetContext x ∘ SetManager mgr))
    with (((Base_SetClient mgr ∘ SetContext x) ∘ id) ∘ SetManager mgr).
  unfold SetupWithManager_rule.
  apply sets_up_seq; [auto with watches..|]. apply (sets_up_read ru_rec). intros r.
  apply sets_up_seq; [done|apply sets_up_build|].
  apply sets_up_seq; [auto with watches|apply SetupWithController_rule_ok|apply sets_up_client].
Qed.
End rule_setup.

Section peer_setup.
Context {W : Type} `{EL : ErrorLib} `{WE : !WatchEnv W} `{WL : !WatchLaws W}.

(** The watches of the two reconcilers that run against a peer: on the clusters of the
    peer whose state or message changes and, through the local informer, on the clusters
    here whose generation changes, both for the peer itself; and on the features of the
    peer. *)
Definition remote_watches (name : string) : list Watch :=
  [mkWatch (SKind "Cluster" "Cluster") (EnqueueRequestsFromMapFunc (OwnNameMap name))
     [PFuncs (mkFuncs None (Some remote_update) None None)];
   mkWatch (SInformer "Cluster") (EnqueueRequestsFromMapFunc (OwnNameMap name)) [PGenerationChanged]].
Definition feature_watches : list Watch :=
  [mkWatch (SKind "ClusterFeature" "ClusterFeature") EnqueueRequestForObject [PFuncs (mkFuncs None None None None)]].

Lemma SetContext_name x b : mrb_name (SetContext x b) = mrb_name b.
Proof. unfold SetContext. by destruct (mrb_ctx b). Qed.

Lemma SetupWithController_remote_ok x b w :
  ∃ l, watches (SetupWithController_remote x (b, w)).2.2 = (watches w ++ l)%list
    ∧ match (SetupWithController_remote x (b, w)).1 with
      | None => l = remote_watches (mrb_name b) ∧ (SetupWithController_remote x (b, w)).2.1 = SetContext x b
      | Some _ => l ⊆ remote_watches (mrb_name b) ∧ mrb_client (SetupWithController_remote x (b, w)).2.1 = mrb_client b
      end.
Proof.
  rewrite <-(SetContext_client x b), <-(SetContext_name x b).
  assert (∀ n, sets_up (W := W) ([remote_clusters_watch n] ++ ([] ++ ([local_informer_watch n] ++ []))) (((id ∘ id) ∘ id) ∘ id)
    (on_error (λ e, WrapIf e "could not create watch for remote clusters")
      (on_world (ctrl_Watch (remote_clusters_watch n))) (
    on_error (λ e, WrapIf e "could not create local informer for clusters")
      (on_world (GetInformerForKind "Cluster")) (
    on_error (λ e, WrapIf e "could not create watch for local informer")
      (on_world (ctrl_Watch (local_informer_watch n))) (
    return! None))))) as H by (intros n; repeat (apply sets_up_seq; auto with watches)).
  exact (H (mrb_name (SetContext x b)) (SetContext x b) w).
Qed.

Lemma SetupWithController_feature_ok x : sets_up feature_watches (SetContext x) (SetupWithController_feature x).
Proof.
  change feature_watches with ([] ++ ([features_watch] ++ []))%list.
  change (SetContext x) with ((id ∘ id) ∘ SetContext x).
  unfold SetupWithController_feature. repeat (apply sets_up_seq; auto with watches).
Qed.
End peer_setup.

(** ** Which events wake a reconciler up *)

(** The list of clusters by id: the last one of an id stays. *)
Definition by_id (items : list Cluster) : gmap string Cluster :=
  foldl (λ m c, <[ClusterID (cl_Spec c) := c]> m) ∅ items.

Lemma by_id_lookup_acc items (m : gmap string Cluster) k c :
  foldl (λ m c, <[ClusterID (cl_Spec c) := c]> m) m items !! k = Some c →
  (c ∈ items ∧ ClusterID (cl_Spec c) = k) ∨ m !! k = Some c.
Proof.
  revert m. induction items as [|d items IH]; intros m; simpl; [by right|].
  intros [[? ?]|[[<- <-]|[_ ?]]%lookup_insert_Some]%IH; set_solver.
Qed.

Lemma by_id_elem items k c : by_id items !! k = Some c → c ∈ items ∧ ClusterID (cl_Spec c) = k.
Proof. intros [?|H]%by_id_lookup_acc; [done|]. by rewrite lookup_empty in H. Qed.

Lemma by_id_keeps_acc items (m : gmap string Cluster) k c :
  k ∉ ((λ c, ClusterID (cl_Spec c)) <$> items) → m !! k = Some c →
  foldl (λ m c, <[ClusterID (cl_Spec c) := c]> m) m items !! k = Some c.
Proof.
  revert m. induction items as [|d items IH]; intros m; simpl; [done|].
  intros [Hd Hk]%not_elem_of_cons Hm. apply IH; [done|]. by rewrite lookup_insert_ne.
Qed.

Lemma by_id_complete items c :
  NoDup ((λ c, ClusterID (cl_Spec c)) <$> items) → c ∈ items → c ∈ (map_to_list (by_id items)).*2.
Proof.
  intros Hnd Hc. apply list_elem_of_fmap. exists (ClusterID (cl_Spec c), c). split; [done|].
  apply elem_of_map_to_list. unfold by_id. generalize (∅ : gmap string Cluster).
  induction items as [|d items IH]; simpl in *; [by apply not_elem_of_nil in Hc|]. intros m.
  apply NoDup_cons in Hnd as [Hd Hnd]. apply elem_of_cons in Hc as [->|Hc]; [|by apply IH].
  apply by_id_keeps_acc; [done|]. apply lookup_insert_eq.
Qed.

Section delivery_facts.
Context {W : Type} `{EVL : EventLib} `{EV : !EventLaws}.
Context (map_func : MapFunc → Watched → ST W (list Request)).

(** An event leads to the request, or to nothing at all. *)
Definition wakes (wt : Watch) (e : WEvent) (w : W) (r : Request) : Prop :=
  ∃ l, enqueued map_func wt e w = (l, w) ∧ r ∈ l.
Definition quiet (wt : Watch) (e : WEvent) (w : W) : Prop := enqueued map_func wt e w = ([], w).

Lemma handler_requests_const (f : Watched → ST W (list Request)) objs w (g : Watched → list Request) :
  (∀ o, o ∈ objs → f o w = (g o, w)) → handler_requests f objs w = (mjoin (g <$> objs), w).
Proof.
  induction objs as [|o objs IH]; intros H; simpl; [done|].
  unfold st_bind. rewrite (H o) by set_solver. rewrite IH by set_solver. done.
Qed.

Lemma event_object_handled e : event_object e ∈ handler_objects e.
Proof. destruct e; simpl; try set_solver. apply updated_objects_new. Qed.

(** The kinds of the objects of an event agree. *)
Definition event_of_kind (k : string) (e : WEvent) : Prop := ∀ o, o ∈ handler_objects e → watched_kind o = k.

Lemma wakes_object s ps e w :
  source_kind s = Some (watched_kind (event_object e)) → forallb (λ p, predicate_allows p e) ps = true →
  wakes (mkWatch s EnqueueRequestForObject ps) e w (object_request (event_object e)).
Proof.
  intros Hs Hp. unfold wakes, enqueued. simpl. rewrite bool_decide_true by done. rewrite Hp. simpl.
  eexists. split; [reflexivity|]. apply list_elem_of_fmap. exists (event_object e).
  split; [done|apply event_object_handled].
Qed.

Lemma wakes_map s f ps e w g r :
  source_kind s = Some (watched_kind (event_object e)) → forallb (λ p, predicate_allows p e) ps = true →
  (∀ o, o ∈ handler_objects e → map_func f o w = (g o, w)) → r ∈ g (event_object e) →
  wakes (mkWatch s (EnqueueRequestsFromMapFunc f) ps) e w r.
Proof.
  intros Hs Hp Hf Hr. unfold wakes, enqueued. simpl. rewrite bool_decide_true by done. rewrite Hp. simpl.
  eexists. split; [by apply handler_requests_const|]. apply list_elem_of_join. exists (g (event_object e)).
  split; [done|]. apply list_elem_of_fmap. eexists. split; [done|apply event_object_handled].
Qed.

Lemma quiet_kind s h ps e w :
  source_kind s ≠ Some (watched_kind (event_object e)) → quiet (mkWatch s h ps) e w.
Proof. intros Hs. unfold quiet, enqueued. simpl. by rewrite bool_decide_false. Qed.

Lemma quiet_predicate s h ps e w :
  forallb (λ p, predicate_allows p e) ps = false → quiet (mkWatch s h ps) e w.
Proof. intros Hp. unfold quiet, enqueued. simpl. rewrite Hp. by destruct (negb _). Qed.
End delivery_facts.

Section cluster_events.
Context {S : Type} `{CC : ClusterClient S} `{NE : !NodeEnv S} `{SE : !SecretEnv S} `{CE : !CtrlEnv S}.
Context `{EL : ErrorLib} `{EVL : EventLib} `{EV : !EventLaws}.

Abbreviation wakes := (wakes (cluster_map_func (S := S))).
Abbreviation quiet := (quiet (cluster_map_func (S := S))).

(** The registry as the client lists it. *)
Definition lists (w : RWorld S) (items : list Cluster) : Prop :=
  client_ListClusters (rw_env w) = (Ok items, rw_env w).

Definition is_local (c : Cluster) : Prop := cst_Type (cl_Status c) = ClusterTypeLocal.
Definition uses_secret (s : Secret) (c : Cluster) : Prop :=
  nn_Name (SecretRef (cs_AuthInfo (cl_Spec c))) = om_Name (sec_meta s)
  ∧ nn_Namespace (SecretRef (cs_AuthInfo (cl_Spec c))) = om_Namespace (sec_meta s).

Lemma localClusterMapFunc_lists w items :
  lists w items → localClusterMapFunc w = (cluster_request <$> filter (λ c, cst_Type (cl_Status c) = ClusterTypeLocal) items, w).
Proof. intros H. unfold localClusterMapFunc, st_bind, env. rewrite H. by destruct w. Qed.

Lemma env_GetClusters_lists w items : lists w items → env GetClusters w = (Ok (by_id items), w).
Proof. intros H. unfold env, GetClusters, st_bind. rewrite H. by destruct w. Qed.

Lemma conflictMapFunc_lists w items :
  lists w items →
  conflictMapFunc w = (cluster_request <$> filter (λ c, cst_Type (cl_Status c) = ClusterTypeLocal) (map_to_list (by_id items)).*2, w).
Proof. intros H. unfold conflictMapFunc, st_bind at 1. by rewrite (env_GetClusters_lists w items H). Qed.

Lemma secretMapFunc_lists w items s :
  lists w items →
  ∃ l, secretMapFunc s w = (l, w)
    ∧ ∀ c, sec_Type s = SecretTypeClusterRegistry → c ∈ (map_to_list (by_id items)).*2 → uses_secret s c →
           cluster_request c ∈ l.
Proof.
  intros H. unfold secretMapFunc. case_bool_decide as Ht; [by exists []|].
  unfold st_bind at 1. rewrite (env_GetClusters_lists w items H). eexists. split; [reflexivity|].
  intros c _ Hc Hu. apply list_elem_of_fmap. exists c. split; [done|]. by apply list_elem_of_filter.
Qed.

Lemma local_request_elem c (l : list Cluster) :
  c ∈ l → is_local c → cluster_request c ∈ (cluster_request <$> filter (λ c, cst_Type (cl_Status c) = ClusterTypeLocal) l).
Proof. intros Hc Hl. apply list_elem_of_fmap. exists c. split; [done|]. by apply list_elem_of_filter. Qed.

(** A cluster resource that comes or goes wakes itself up, and all local clusters. *)
Lemma cluster_comes_or_goes e c w items :
  e = Created (WCluster c) ∨ e = Deleted (WCluster c) →
  lists w items → NoDup ((λ c, ClusterID (cl_Spec c)) <$> items) →
  wakes for_Cluster e w (cluster_request c)
  ∧ ∀ l, l ∈ items → is_local l → wakes watchLocalClustersForConflict e w (cluster_request l).
Proof.
  intros He Hl Hnd. split.
  - replace (cluster_request c) with (object_request (event_object e)) by (by destruct He as [-> | ->]).
    apply wakes_object; [rewrite source_kind_typed; by destruct He as [-> | ->]|].
    destruct He as [-> | ->]; simpl; by rewrite nil_func_true.
  - intros l Hin Hloc.
    eapply (wakes_map _ _ _ _ _ _ (λ _, _)); [| |intros o _; exact (conflictMapFunc_lists w items Hl)|].
    + rewrite source_kind_typed. by destruct He as [-> | ->].
    + destruct He as [-> | ->]; simpl; by rewrite nil_func_true.
    + apply local_request_elem; [by apply by_id_complete|done].
Qed.

(** Whether an update of a cluster resource is worth a reconciliation. *)
Definition cluster_changed (old new : Cluster) : Prop :=
  om_Generation (cl_meta new) ≠ om_Generation (cl_meta old)
  ∨ om_Annotations (cl_meta old) ≠ om_Annotations (cl_meta new).

Lemma cluster_update_predicate_spec old new :
  cluster_update_predicate (cl_meta old) (cl_meta new) = true ↔ cluster_changed old new.
Proof.
  unfold cluster_update_predicate, cluster_changed.
  case_bool_decide; simpl; [naive_solver|]. case_bool_decide; simpl; naive_solver.
Qed.

Lemma cluster_changes old new (w : RWorld S) :
  cluster_changed old new → wakes for_Cluster (Updated (WCluster old) (WCluster new)) w (cluster_request new).
Proof.
  intros Hc. apply (wakes_object _ _ _ (Updated (WCluster old) (WCluster new))); [apply source_kind_typed|].
  simpl. by rewrite (proj2 (cluster_update_predicate_spec old new) Hc).
Qed.

Lemma cluster_status_quiet old new (w : RWorld S) wt :
  ¬ cluster_changed old new → wt ∈ cluster_watches → quiet wt (Updated (WCluster old) (WCluster new)) w.
Proof.
  intros Hc Hwt. unfold cluster_watches in Hwt.
  rewrite !elem_of_cons, elem_of_nil in Hwt. destruct Hwt as [-> | [-> | [-> | [-> | [-> | [-> | []]]]]]].
  - apply quiet_predicate. simpl.
    destruct (cluster_update_predicate _ _) eqn:E; [|done]. by apply cluster_update_predicate_spec in E.
  - apply quiet_predicate. done.
  - apply quiet_kind. by rewrite source_kind_typed.
  - apply quiet_kind. by rewrite source_kind_typed.
  - apply quiet_kind. by rewrite source_kind_typed.
  - apply quiet_kind. by rewrite source_kind_memory.
Qed.

(** A change of a registry secret wakes up the clusters that use it. *)
Lemma secret_changes e s c w items :
  event_object e = WSecret s → (∀ o, o ∈ handler_objects e → ∃ s', o = WSecret s') →
  sec_Type s = SecretTypeClusterRegistry → lists w items →
  NoDup ((λ c, ClusterID (cl_Spec c)) <$> items) → c ∈ items → uses_secret s c →
  wakes watchClusterRegistrySecrets e w (cluster_request c).
Proof.
  intros He Hk Ht Hl Hnd Hc Hu.
  destruct (secretMapFunc_lists w items s Hl) as (l & Hs & Hin).
  eapply (wakes_map _ _ _ _ _ _ (λ o, match o with WSecret s => (secretMapFunc s w).1 | _ => [] end)).
  - by rewrite He, source_kind_typed.
  - done.
  - intros o Ho. destruct (Hk o Ho) as [s' ->].
    destruct (secretMapFunc_lists w items s' Hl) as (l' & Hs' & _). by rewrite Hs'.
  - rewrite He, Hs. simpl. apply Hin; [done| |done]. by apply by_id_complete.
Qed.

(** A core rule that comes, goes or is edited wakes up all local clusters. *)
Lemma core_rule_changes e r l w items :
  e = Created (WRule r) ∨ e = Deleted (WRule r)
  ∨ (∃ old, e = Updated (WRule old) (WRule r) ∧ om_Labels (rsr_meta old) !! CoreResourceLabelName = Some "true") →
  lists w items → l ∈ items → is_local l → ∃ wt, wt ∈ cluster_watches ∧ wakes wt e w (cluster_request l).
Proof.
  intros He Hl Hin Hloc. eexists. split; [by do 3 right; left|].
  assert (event_object e = WRule r) as Ho by (destruct He as [-> | [-> | (old & -> & _)]]; done).
  eapply (wakes_map _ _ _ _ _ _ (λ _, _)); [| |intros o _; exact (localClusterMapFunc_lists w items Hl)|].
  - by rewrite Ho, source_kind_typed.
  - destruct He as [-> | [-> | (old & -> & Hlab)]]; simpl; rewrite ?nil_func_true; [done..|].
    unfold core_update_predicate. by rewrite bool_decide_true.
  - by apply local_request_elem.
Qed.

(** No watch of the cluster reconciler is on cluster features: both core watches are on
    [ResourceSyncRule]. *)
Theorem feature_changes_unseen (w : RWorld S) wt e f :
  event_object e = WFeature f → wt ∈ cluster_watches → quiet wt e w.
Proof.
  intros He Hwt. unfold cluster_watches in Hwt.
  rewrite !elem_of_cons, elem_of_nil in Hwt.
  destruct Hwt as [-> | [-> | [-> | [-> | [-> | [-> | []]]]]]]; apply quiet_kind;
    rewrite He, ?source_kind_typed, ?source_kind_memory; done.
Qed.

(** An update of a rule that did not carry the label of the core resources before is not
    seen. *)
Lemma unlabelled_rule_unseen (w : RWorld S) wt old new :
  om_Labels (rsr_meta old) !! CoreResourceLabelName ≠ Some "true" → wt ∈ cluster_watches →
  quiet wt (Updated (WRule old) (WRule new)) w.
Proof.
  intros Hl Hwt. unfold cluster_watches in Hwt. rewrite !elem_of_cons, elem_of_nil in Hwt.
  assert (core_update_predicate (rsr_meta old) = false) as Hp.
  { unfold core_update_predicate. by rewrite bool_decide_false. }
  destruct Hwt as [-> | [-> | [-> | [-> | [-> | [-> | []]]]]]].
  4,5: apply quiet_predicate; simpl; by rewrite Hp.
  all: apply quiet_kind; by rewrite ?source_kind_typed, ?source_kind_memory.
Qed.

(** C20: what the watches of the cluster reconciler deliver, while the clusters can be
    listed and have distinct ids: a cluster resource that comes or goes is reconciled
    together with all local clusters (whose conflict status depends on it), one whose
    generation or annotations change is reconciled, a registry secret that changes
    brings every cluster that uses it, a rule that comes or goes, or is changed while it
    carries the label of the core resources, brings the local clusters. An update of a
    cluster that changes neither its generation nor its annotations, such as the
    reconciler's own status update, leads to no request of any watch; neither does an
    event of a cluster feature, nor the update of a rule that did not carry the label
    before. *)
Theorem cluster_events_delivered w items :
  lists w items → NoDup ((λ c, ClusterID (cl_Spec c)) <$> items) →
  (∀ e c, e = Created (WCluster c) ∨ e = Deleted (WCluster c) →
     (∃ wt, wt ∈ cluster_watches ∧ wakes wt e w (cluster_request c))
     ∧ ∀ l, l ∈ items → is_local l → ∃ wt, wt ∈ cluster_watches ∧ wakes wt e w (cluster_request l))
  ∧ (∀ old new, cluster_changed old new →
       ∃ wt, wt ∈ cluster_watches ∧ wakes wt (Updated (WCluster old) (WCluster new)) w (cluster_request new))
  ∧ (∀ e s c, event_object e = WSecret s → (∀ o, o ∈ handler_objects e → ∃ s', o = WSecret s') →
       sec_Type s = SecretTypeClusterRegistry → c ∈ items → uses_secret s c →
       ∃ wt, wt ∈ cluster_watches ∧ wakes wt e w (cluster_request c))
  ∧ (∀ e r l, e = Created (WRule r) ∨ e = Deleted (WRule r)
       ∨ (∃ old, e = Updated (WRule old) (WRule r) ∧ om_Labels (rsr_meta old) !! CoreResourceLabelName = Some "true") →
       l ∈ items → is_local l → ∃ wt, wt ∈ cluster_watches ∧ wakes wt e w (cluster_request l))
  ∧ (∀ wt, wt ∈ cluster_watches →
       (∀ old new, ¬ cluster_changed old new → quiet wt (Updated (WCluster old) (WCluster new)) w)
       ∧ (∀ e f, event_object e = WFeature f → quiet wt e w)
       ∧ (∀ old new, om_Labels (rsr_meta old) !! CoreResourceLabelName ≠ Some "true" →
            quiet wt (Updated (WRule old) (WRule new)) w)).
Proof.
  intros Hl Hnd.
  assert (for_Cluster ∈ cluster_watches) by left.
  assert (watchLocalClustersForConflict ∈ cluster_watches) by (right; left).
  assert (watchClusterRegistrySecrets ∈ cluster_watches) by (do 2 right; left).
  split_and!.
  - intros e c He. destruct (cluster_comes_or_goes e c w items He Hl Hnd) as [Hself Hlocal]. split; eauto.
  - intros old new Hc. eexists. by split; [|apply cluster_changes].
  - intros e s c He Hk Ht Hin Hu. eexists. by split; [|eapply secret_changes].
  - intros e r l He Hin Hloc. by eapply core_rule_changes.
  - intros wt Hwt. split_and!.
    + intros old new Hc. by apply cluster_status_quiet.
    + intros e f He. by eapply feature_changes_unseen.
    + intros old new Ho. by apply unlabelled_rule_unseen.
Qed.

(** Clusters that conflict have the same id: the watch for conflicts, which lists the
    clusters by id, brings at most one of them. *)
Theorem conflict_watch_brings_one w items id :
  lists w items → (∀ c, c ∈ items → is_local c → ClusterID (cl_Spec c) = id) →
  (length (conflictMapFunc w).1 ≤ 1)%nat.
Proof.
  intros Hl Hid. rewrite (conflictMapFunc_lists w items Hl). simpl. rewrite length_fmap.
  set (m := by_id items). set (locals := filter _ _).
  destruct (decide (length locals ≤ 1)%nat) as [|Hlen]; [done|]. exfalso.
  assert (∀ c, c ∈ locals → m !! id = Some c) as Hall.
  { intros c [Hc [[k c'] [-> Hk]]%list_elem_of_fmap]%list_elem_of_filter.
    apply elem_of_map_to_list in Hk. simpl in *.
    destruct (by_id_elem _ _ _ Hk) as [Hin Heq]. by rewrite <-(Hid c' Hin Hc), Heq. }
  assert (NoDup locals) as Hnd.
  { apply NoDup_filter. apply NoDup_fmap_1 with (f := λ c, ClusterID (cl_Spec c)).
    replace ((λ c, ClusterID (cl_Spec c)) <$> (map_to_list m).*2) with (map_to_list m).*1; [apply NoDup_fst_map_to_list|].
    rewrite <-list_fmap_compose. apply list_fmap_ext. intros i [k c] Hk%list_elem_of_lookup_2.
    apply elem_of_map_to_list, by_id_elem in Hk as [_ Hk]. done. }
  destruct locals as [|a [|b l]]; simpl in *; try lia.
  assert (a = b) as -> by (apply (inj Some); rewrite <-(Hall a), <-(Hall b); set_solver).
  apply NoDup_cons in Hnd as [Hb _]. set_solver.
Qed.

End cluster_events.

(** ** Setups register everything or fail *)

Section setups.
Context {S T W : Type} `{EL : ErrorLib}.
Context `{WC : !WatchEnv (RWorld S)} `{LC : !WatchLaws (RWorld S)}.
Context `{WR : !WatchEnv (RuleWorld T)} `{LR : !WatchLaws (RuleWorld T)}.
Context `{WP : !WatchEnv W} `{LP : !WatchLaws W}.
(** What is registered with a controller is not part of the clusters manager. *)
Context (watches_env : ∀ r m r' m' (s : T), watches (mkRuleWorld r m s) = watches (mkRuleWorld r' m' s)).

(** C19: a setup that returns no error has registered the watches listed for the
    reconciler, in order; one that returns an error has registered none but these. The
    setups of the cluster reconciler and of the rule reconciler give it the client of the
    manager at the end, and only when no step failed, so that one with some of its
    watches missing is not taken for a ready one. *)
Theorem setups_are_complete_or_fail now x mgr b :
  (∀ w : RWorld S, ∃ l,
     watches (SetupWithManager_cluster x mgr (b, w)).2.2 = (watches w ++ l)%list
     ∧ match SetupWithManager_cluster x mgr (b, w) with
       | (None, (b', _)) => l = cluster_watches ∧ mrb_client b' = Some mgr
       | (Some _, (b', _)) => l ⊆ cluster_watches ∧ mrb_client b' = mrb_client b
       end)
  ∧ (∀ w : RuleWorld T, ∃ l,
     watches (SetupWithManager_rule now x mgr (b, w)).2.2 = (watches w ++ l)%list
     ∧ match SetupWithManager_rule now x mgr (b, w) with
       | (None, (b', _)) => l = rule_watches ∧ mrb_client b' = Some mgr
       | (Some _, (b', _)) => l ⊆ rule_watches ∧ mrb_client b' = mrb_client b
       end)
  ∧ (∀ w : W, ∃ l,
     watches (SetupWithController_remote x (b, w)).2.2 = (watches w ++ l)%list
     ∧ match (SetupWithController_remote x (b, w)).1 with
       | None => l = remote_watches (mrb_name b) | Some _ => l ⊆ remote_watches (mrb_name b)
       end)
  ∧ (∀ w : W, ∃ l,
     watches (SetupWithController_feature x (b, w)).2.2 = (watches w ++ l)%list
     ∧ match (SetupWithController_feature x (b, w)).1 with
       | None => l = feature_watches | Some _ => l ⊆ feature_watches
       end).
Proof.
  split_and!; intros w.
  - destruct (SetupWithManager_cluster_ok x mgr b w) as (l & Hl & H). exists l. split; [done|].
    destruct (SetupWithManager_cluster x mgr (b, w)) as [[e|] [b' w']]; [done|]. simpl in H. by destruct H as [-> ->].
  - destruct (SetupWithManager_rule_ok watches_env now x mgr b w) as (l & Hl & H). exists l. split; [done|].
    destruct (SetupWithManager_rule now x mgr (b, w)) as [[e|] [b' w']]; [done|]. simpl in H. by destruct H as [-> ->].
  - destruct (SetupWithController_remote_ok x b w) as (l & Hl & H). exists l. split; [done|].
    destruct (SetupWithController_remote x (b, w)).1; by destruct H.
  - destruct (SetupWithController_feature_ok x b w) as (l & Hl & H). exists l. split; [done|].
    destruct (SetupWithController_feature x (b, w)).1; by destruct H.
Qed.
End setups.

(** ** New clusters and rules *)

Section requeue.
Context {S : Type} `{EL : ErrorLib} `{WE : !WatchEnv (RuleWorld S)}.
Context (client_ListRules : ST S (result error (list ResourceSyncRule))) (now : string).
Context (callback : string → option Ptr → gmap Ptr CWorld → gmap Ptr CWorld).
Context (callback_grows : ∀ f c h, heap_grows h (callback f c h)).

Lemma SetupWithController_rule_registers x b w b' w' :
  SetupWithController_rule now x (b, w) = (None, (b', w')) →
  onAfterAddFuncs (mg (ru_mgr w')) !! requeue_id = Some requeue_id.
Proof.
  unfold SetupWithController_rule, on_error, st_bind, base_call, on_world. simpl.
  destruct (ctrl_Watch memory_watch w) as [[e|] w1]; simpl; [done|].
  intros [= <- <-]. simpl. apply lookup_insert_eq.
Qed.

(** A cluster is added while the rule reconciler is there: the callbacks that the manager
    calls are run in order, and the one that the reconciler has registered works on its
    queue. *)
Definition rule_side (w : RuleWorld S) (e : MEvent) : RuleWorld S :=
  match e with
  | ECallback f _ => if bool_decide (f = requeue_id) then (requeue_callback client_ListRules w).2 else w
  | _ => w
  end.

Definition Manager_Add_rules (p : Ptr) (w : RuleWorld S) : RuleWorld S :=
  let m := Manager_Add callback p (ru_mgr w) in
  foldl rule_side (mkRuleWorld (ru_rec w) m (ru_env w)) (drop (length (mlog (ru_mgr w))) (mlog m)).

Section listed.
Context (rules : list ResourceSyncRule) (Hlist : ∀ s, (client_ListRules s).1 = Ok rules).

Lemma requeue_callback_queue w q :
  rr_queue (ru_rec w) = Some q →
  rr_queue (ru_rec (requeue_callback client_ListRules w).2)
    = Some (q ++ ((λ r, mkNamespacedName (om_Name (rsr_meta r)) "") <$> rules))%list
  ∧ ru_mgr (requeue_callback client_ListRules w).2 = ru_mgr w.
Proof.
  intros Hq. unfold requeue_callback. rewrite Hq. pose proof (Hlist (ru_env w)) as Hl.
  destruct (client_ListRules (ru_env w)) as [res s]. simpl in *. by subst res.
Qed.

Lemma rule_side_grows es w q :
  rr_queue (ru_rec w) = Some q →
  ∃ q', rr_queue (ru_rec (foldl rule_side w es)) = Some q' ∧ q `prefix_of` q' ∧ ru_mgr (foldl rule_side w es) = ru_mgr w
    ∧ ∀ c rule, ECallback requeue_id c ∈ es → rule ∈ rules → mkNamespacedName (om_Name (rsr_meta rule)) "" ∈ q'.
Proof.
  revert w q. induction es as [|e es IH]; intros w q Hq; simpl.
  { exists q. split_and!; [done|done|done|]. by intros c rule H%not_elem_of_nil. }
  assert (Hkeep : (rule_side w e = w ∧ ∀ c, e ≠ ECallback requeue_id c) ∨ ∃ c, e = ECallback requeue_id c).
  { destruct e as [f c| | |]; simpl; try (by left). case_bool_decide; [subst; right; by exists c|left; naive_solver]. }
  destruct Hkeep as [[Hsame Hne]|[c ->]].
  - rewrite Hsame. destruct (IH w q Hq) as (q' & Hq' & Hpre & Hm & Hin). exists q'. split_and!; [done..|].
    intros c rule [Hc|Hc]%elem_of_cons Hr; [by destruct (Hne c)|by eapply Hin].
  - change (rule_side w (ECallback requeue_id c)) with (requeue_callback client_ListRules w).2.
    destruct (requeue_callback_queue w q Hq) as [Hq1 Hm1].
    destruct (IH _ _ Hq1) as (q' & Hq' & Hpre & Hm & _). exists q'. split_and!; [done| |congruence|].
    + etrans; [|exact Hpre]. by eexists.
    + intros c' rule _ Hr. eapply elem_of_prefix; [|exact Hpre]. apply elem_of_app. right.
      apply list_elem_of_fmap. by exists rule.
Qed.
End listed.

(** C21: once the rule reconciler is set up and has its queue, adding a cluster to the
    clusters manager queues the rules: while the rules can be listed, the manager knows
    the cluster afterwards, and the queue holds a request for every rule, after all that
    it held before. *)
Theorem new_clusters_requeue_rules x b w b' w' p q rules :
  SetupWithController_rule now x (b, w) = (None, (b', w')) →
  is_Some (peers (ru_mgr w') !! p) →
  rr_queue (ru_rec w') = Some q → (∀ s, (client_ListRules s).1 = Ok rules) →
  GetAll (ru_mgr (Manager_Add_rules p w')) !! cluster_name (peers (ru_mgr w')) p = Some p
  ∧ ∃ q', rr_queue (ru_rec (Manager_Add_rules p w')) = Some q'
    ∧ q `prefix_of` q'
    ∧ ∀ rule, rule ∈ rules → mkNamespacedName (om_Name (rsr_meta rule)) "" ∈ q'.
Proof.
  intros Hs Hp Hq Hlist. apply SetupWithController_rule_registers in Hs.
  destruct (Manager_Add_effect callback callback_grows p (ru_mgr w') Hp) as (Hk & _ & Hl).
  unfold Manager_Add_rules. rewrite Hl.
  match goal with |- context [drop _ ?l] => destruct (rule_side_grows rules Hlist (drop (length (mlog (ru_mgr w'))) l)
    (mkRuleWorld (ru_rec w') (Manager_Add callback p (ru_mgr w')) (ru_env w')) q Hq) as (q' & Hq' & Hpre & Hm & Hin) end.
  rewrite Hm. simpl. split; [unfold GetAll; rewrite Hk; apply lookup_insert_eq|].
  exists q'. split_and!; [done..|]. intros rule. apply (Hin (Some p)).
  rewrite drop_app_length. apply elem_of_app. right. right.
  apply list_elem_of_fmap. exists requeue_id. split; [done|].
  apply list_elem_of_fmap. exists (requeue_id, requeue_id). split; [done|]. by apply elem_of_map_to_list.
Qed.
End requeue.

(** ** The remote cluster reconciler *)

Section remote_events.
Context {W : Type} `{EVL : EventLib} `{EV : !EventLaws}.
Abbreviation wakes := (wakes (remote_map_func (W := W))).
Abbreviation quiet := (quiet (remote_map_func (W := W))).

(** A change of the state or of the message of any cluster at the peer, and a change of
    the specification of any cluster here, wake up the reconciler for the peer itself;
    whatever the event, no other request is made. *)
Theorem remote_events_delivered name (w : W) :
  (∀ old new, remote_update_predicate old new = true →
     wakes (remote_clusters_watch name) (Updated (WCluster old) (WCluster new)) w (mkNamespacedName name ""))
  ∧ (∀ old new, om_Generation (cl_meta new) ≠ om_Generation (cl_meta old) →
       wakes (local_informer_watch name) (Updated (WCluster old) (WCluster new)) w (mkNamespacedName name ""))
  ∧ ∀ wt e, wt ∈ remote_watches name →
      ∃ l, enqueued (remote_map_func (W := W)) wt e w = (l, w) ∧ Forall (λ r, r = mkNamespacedName name "") l.
Proof.
  split_and!.
  - intros old new H. apply (wakes_map _ _ _ _ _ _ (λ _, own_request name)); [apply source_kind_typed| |done|by left].
    simpl. by rewrite H.
  - intros old new H. apply (wakes_map _ _ _ _ _ _ (λ _, own_request name)); [apply source_kind_informer| |done|by left].
    simpl. rewrite GenerationChanged_update. simpl. by rewrite bool_decide_true.
  - intros wt e Hwt. assert (wt_handler wt = EnqueueRequestsFromMapFunc (OwnNameMap name)) as Hh by set_solver.
    unfold enqueued. rewrite Hh. destruct (negb _); [by exists []|]. destruct (negb _); [by exists []|].
    rewrite (handler_requests_const _ _ _ (λ _, own_request name)) by done.
    eexists. split; [reflexivity|]. apply Forall_join, Forall_fmap, Forall_forall. intros o _. by repeat constructor.
Qed.
End remote_events.
