(* ===== verification/Converge.v ===== *)
(** * The registry converges

    The cluster reconciler as it runs: changes of the [Cluster] resources become requests
    through the watches, a worker takes requests from the queue, and a request whose
    reconciliation ends in an error, or asks for it, comes back. Whatever the order, a
    name that is registered with the clusters manager and should not be has a request
    that waits. *)

From stdpp Require Import gmap strings list relations.
From S2P Require Import Prelude Errors Types Match Util Features Cluster Manager Conditions Meta Secret ClusterReconciler RegistryFacts RegistrySync Watches WatchFacts.
Open Scope string_scope.
Open Scope go_scope.

(** ** The resources behind the client *)

(** What the reconciler decides on: the specification and the annotations. *)
Definition meaning (c : Cluster) : ClusterSpec * gmap string string := (cl_Spec c, om_Annotations (cl_meta c)).

(** The client of a controller reads the cache whose changes are the events of the
    watches: [resources] is that cache. *)
Class Resources (S : Type) : Type := {
  resources : S → gmap string Cluster;
  system_uid : string }.

Section same.
Context {S : Type} `{RS : Resources S}.
Definition same_resources (s s' : S) : Prop := meaning <$> resources s' = meaning <$> resources s.
#[export] Instance same_resources_preorder : PreOrder same_resources.
Proof. split; [done|]. intros x y z H1 H2. unfold same_resources in *. congruence. Qed.
End same.

(** Documented behaviour: reads return what is there, and report its absence only when it
    is absent; the id of the system namespace is fixed; no call of the reconciler changes
    the specification or the annotations of a cluster resource. *)
Class ResourceLaws (S : Type) `{CC : ClusterClient S, NE : NodeEnv S, SE : SecretEnv S, CE : CtrlEnv S, EL : ErrorLib, RS : Resources S} : Prop := {
  resources_name s n c : resources s !! n = Some c → cl_Name c = n;
  GetCluster_found n s c : (client_GetCluster n s).1 = Ok c → resources s !! n = Some c;
  GetCluster_missing n s e : (client_GetCluster n s).1 = Err e → IsNotFound e = true → resources s !! n = None;
  uid_not_empty : system_uid ≠ "";
  NamespaceUID_fixed s id : (client_GetNamespaceUID NamespaceSystem s).1 = Ok id → id = system_uid;
  keep_GetCluster n : moves same_resources (client_GetCluster n);
  keep_ListClusters : moves same_resources client_ListClusters;
  keep_StatusUpdate c : moves same_resources (client_StatusUpdate c);
  keep_NamespaceUID n : moves same_resources (client_GetNamespaceUID n);
  keep_ListNodes : moves same_resources client_ListNodes;
  keep_ctx_Done : moves same_resources ctx_Done;
  keep_GetSecret n : moves same_resources (client_GetSecret n);
  keep_ServiceAccount n : moves same_resources (client_GetServiceAccountNamespace n);
  keep_ListSecrets n : moves same_resources (client_ListSecrets n);
  keep_CreateSecret x : moves same_resources (client_CreateSecret x);
  keep_ServerAddresses c : moves same_resources (discovery_ServerAddresses c);
  keep_Now : moves same_resources time_Now;
  keep_Event e : moves same_resources (RecordClusterEvent e);
  keep_probe n : moves same_resources (first_probe n);
  keep_ReconcileSecret x : moves same_resources (ReconcileSecret x);
  keep_ReconcileCore o b : moves same_resources (ReconcileCore o b) }.

#[export] Hint Resolve keep_GetCluster keep_ListClusters keep_StatusUpdate keep_NamespaceUID keep_ListNodes
  keep_ctx_Done keep_GetSecret keep_ServiceAccount keep_ListSecrets keep_CreateSecret keep_ServerAddresses
  keep_Now keep_Event keep_probe keep_ReconcileSecret keep_ReconcileCore : registry.

Section system.
Context {S : Type} `{CC : ClusterClient S} `{NE : !NodeEnv S} `{SE : !SecretEnv S} `{CE : !CtrlEnv S}.
Context `{EL : ErrorLib} `{UL : UrlLib} `{SL : SelectorLib} `{RS : !Resources S} `{RL : !ResourceLaws S}.
Context (callback : string → option Ptr → gmap Ptr CWorld → gmap Ptr CWorld).
Context (callback_grows : ∀ f c h, heap_grows h (callback f c h)).

Abbreviation W := (RWorld S).

(** ** What a reconciliation leaves alone *)

Lemma keep_UpdateCluster e c m : moves same_resources (UpdateCluster e c m).
Proof. unfold UpdateCluster, UpdateClusterStatus. moves_tac. Qed.
Lemma keep_GetClusterID : moves same_resources GetClusterID.
Proof. unfold GetClusterID. moves_tac. Qed.
Lemma keep_GetClusters : moves same_resources GetClusters.
Proof. unfold GetClusters. moves_tac. Qed.
Lemma keep_getK8sNode : moves same_resources getK8sNode.
Proof. unfold getK8sNode. moves_tac. Qed.
#[local] Hint Resolve keep_UpdateCluster keep_GetClusterID keep_GetClusters keep_getK8sNode : registry.

Lemma keep_detectNode n x : moves same_resources (detectNodeByProviderID n x).
Proof. unfold detectNodeByProviderID. moves_tac. Qed.
#[local] Hint Resolve keep_detectNode : registry.

Lemma keep_detect_loop u fs n :
  Forall (λ f, ∀ n, moves same_resources (f n)) fs → moves same_resources (detect_loop u fs n).
Proof. induction 1; simpl; moves_tac. Qed.

Lemma keep_DetectProvider n : moves same_resources (DetectProvider n).
Proof.
  apply keep_detect_loop. unfold knownProviders. repeat apply Forall_cons_2; [..|apply Forall_nil_2]; intros m;
    unfold IsAmazon, IsAzure, IsGoogle, IsVsphere, IsKind, IsCisco, IsProviderByScheme; moves_tac.
Qed.
#[local] Hint Resolve keep_DetectProvider : registry.

Lemma keep_DetectDistribution n : moves same_resources (DetectDistribution n).
Proof.
  apply keep_detect_loop. unfold knownDistributions. repeat apply Forall_cons_2; [..|apply Forall_nil_2]; intros m;
    unfold IsEKS, IsPKE, IsGKE, IsAKS, IsKIND, IsIKS, IsOpenShift, IsDistributionByLabel, with_node, with_provider;
    moves_tac.
Qed.
#[local] Hint Resolve keep_DetectDistribution : registry.

Lemma keep_GetClusterMetadata : moves same_resources GetClusterMetadata.
Proof. pose proof keep_DetectProvider. pose proof keep_DetectDistribution. unfold GetClusterMetadata. moves_tac. Qed.

Lemma keep_waitForSecret ref : moves same_resources (waitForSecretTokenGenerated ref).
Proof.
  set (R := λ a b : S * (option string * option string), same_resources a.1 b.1).
  assert (PreOrder R) as HR by (split; [by intros a|intros x y z ? ?; unfold R in *; by etrans]).
  assert (Ht : moves R (token_attempt ref)).
  { intros [s old]. unfold token_attempt. pose proof (keep_GetSecret ref s) as Hs.
    destruct (client_GetSecret ref s) as [[sec|e] s1]; [done|]. by destruct (IsNotFound e). }
  assert (Hb : ∀ n, moves R (ExponentialBackoff n (token_attempt ref))).
  { induction n as [|n IH]; simpl; moves_tac. }
  intros s. unfold waitForSecretTokenGenerated. specialize (Hb backoff_steps (s, (None, None))).
  by destruct (ExponentialBackoff _ _ _) as [err [s' [t c]]].
Qed.
#[local] Hint Resolve keep_GetClusterMetadata keep_waitForSecret : registry.

Lemma keep_GetReaderSecret k c r a : moves same_resources (GetReaderSecretForCluster k c r a).
Proof.
  unfold GetReaderSecretForCluster, GetReaderSecretTokenAndCACert, reader_address,
    GetExternalAddressOfAPIServer. moves_tac.
Qed.
#[local] Hint Resolve keep_GetReaderSecret : registry.

(** The reconciler keeps its configuration, keeps its queue and adds to it; its id, once
    known, is that of the system namespace. *)
Definition known_id (r : ClusterReconcilerState) : Prop := cr_clusterID r = "" ∨ cr_clusterID r = system_uid.

Definition keeps (w w' : W) : Prop :=
  same_resources (rw_env w) (rw_env w')
  ∧ (∀ q, cr_queue (rw_rec w) = Some q → ∃ q', cr_queue (rw_rec w') = Some q' ∧ q ⊆ q')
  ∧ (known_id (rw_rec w) → known_id (rw_rec w'))
  ∧ cr_config (rw_rec w') = cr_config (rw_rec w).

#[local] Instance keeps_preorder : PreOrder keeps.
Proof.
  split; [intros w; split_and!; [done|eauto|done|done]|].
  intros x y z (H1 & Q1 & I1 & C1) (H2 & Q2 & I2 & C2). split_and!; [by etrans| |auto|congruence].
  intros q Hq. destruct (Q1 q Hq) as (q1 & Hq1 & ?). destruct (Q2 q1 Hq1) as (q2 & ? & ?).
  exists q2. split; [done|by etrans].
Qed.

Lemma keeps_env {A} (c : ST S A) : moves same_resources c → moves keeps (env c).
Proof. intros Hc w. specialize (Hc (rw_env w)). unfold env. destruct (c (rw_env w)). split_and!; simpl in *; eauto. Qed.
Lemma registry_keeps_get_rec : moves keeps (@get_rec S).
Proof. intros w. reflexivity. Qed.
Lemma keeps_get_mgr : moves keeps (@get_mgr S).
Proof. intros w. reflexivity. Qed.
Lemma keeps_modify_mgr f : moves keeps (@modify_mgr S f).
Proof. intros w. split_and!; simpl; eauto; done. Qed.
Lemma keeps_trigger c : moves keeps (@triggerClusterReconcile S c).
Proof.
  intros w. unfold triggerClusterReconcile, modify_rec. split_and!; [done| |done|done].
  intros q Hq. simpl. rewrite Hq. eexists. split; [done|]. set_solver.
Qed.
#[local] Hint Resolve keeps_env registry_keeps_get_rec keeps_get_mgr keeps_modify_mgr keeps_trigger : registry.

Lemma keeps_setClusterID : moves keeps setClusterID.
Proof.
  intros w. unfold setClusterID, st_bind, get_rec. case_bool_decide; [|reflexivity].
  pose proof (keeps_env _ keep_GetClusterID w) as Hk. pose proof (NamespaceUID_fixed (rw_env w)) as Hid.
  unfold env, GetClusterID in *. destruct (client_GetNamespaceUID NamespaceSystem (rw_env w)) as [[id|e] s1]; [|exact Hk].
  etrans; [exact Hk|]. unfold modify_rec. split_and!; simpl; [done|eauto| |done]. intros _. right. by apply Hid.
Qed.
Lemma keeps_set_condition c rc : moves keeps (set_condition c rc).
Proof. unfold set_condition. moves_tac. Qed.
#[local] Hint Resolve keeps_setClusterID keeps_set_condition : registry.
Lemma keeps_conflict_loop rc items : moves keeps (conflict_loop rc items).
Proof. revert rc. induction items as [|c items IH]; intros rc; simpl; moves_tac. Qed.
Lemma keeps_core_loop cluster l : moves keeps (core_loop cluster l).
Proof. induction l as [|[o b] l IH]; simpl; moves_tac. Qed.
#[local] Hint Resolve keeps_conflict_loop keeps_core_loop : registry.

Lemma keeps_local rc : moves keeps (reconcileLocalCluster rc).
Proof.
  unfold reconcileLocalCluster, checkLocalClusterConflict, local_metadata, provisionLocalClusterReaderSecret,
    reconcileCoreSyncers, reconcileCoreSyncers_in. moves_tac.
Qed.
Lemma keeps_removeRemote n : moves keeps (removeRemoteCluster callback n).
Proof. unfold removeRemoteCluster. moves_tac. Qed.
Lemma keeps_create c k : moves keeps (create_remote_cluster callback c k).
Proof. unfold create_remote_cluster. moves_tac. Qed.
#[local] Hint Resolve keeps_local keeps_removeRemote keeps_create : registry.
Lemma keeps_remote rc : moves keeps (reconcileRemoteCluster callback rc).
Proof. unfold reconcileRemoteCluster, getRemoteCluster, getK8SConfigForCluster. moves_tac. Qed.
#[local] Hint Resolve keeps_remote : registry.

Lemma registry_keeps_Reconcile req : moves keeps (Reconcile_cluster callback req).
Proof.
  pose proof keeps_setClusterID. pose proof keeps_local. pose proof keeps_remote.
  unfold Reconcile_cluster, reconcile_gone, reconcile_disabled, reconcile_enabled, prepare_type, finish,
    triggerLocalClusterReconciles. moves_tac.
Qed.

(** ** The controller *)

Context `{EVL : EventLib} `{EV : !EventLaws}.

Definition set_env (s : S) (w : W) : W := mkRWorld (rw_rec w) (rw_mgr w) s.
Definition set_queue (f : list Request → list Request) (w : W) : W :=
  mkRWorld (mkClusterReconcilerState (cr_config (rw_rec w)) (cr_clusterID (rw_rec w)) (f <$> cr_queue (rw_rec w)))
    (rw_mgr w) (rw_env w).
Definition enqueue (rs : list Request) : W → W := set_queue (λ q, (q ++ rs)%list).

(** An event goes through all the watches of the reconciler. *)
Definition deliver_to (e : WEvent) (w : W) (wt : Watch) : W :=
  let '(rs, w) := enqueued cluster_map_func wt e w in enqueue rs w.
Definition deliver (e : WEvent) (w : W) : W := foldl (deliver_to e) w cluster_watches.

(** A request that is taken is no longer in the queue, which has no duplicates. *)
Definition dequeue (r : Request) : W → W := set_queue (filter (λ x, x ≠ r)).

(** controller-runtime puts a request back after an error and when it is asked to. *)
Definition comes_back (out : Result * option error) : bool :=
  match out.2 with Some _ => true | None => Requeue out.1 || Z.ltb 0 (RequeueAfter out.1) end.

(** A worker takes a request. *)
Definition work (r : Request) (w : W) : W :=
  let '(out, w') := Reconcile_cluster callback r (dequeue r w) in
  if comes_back out then enqueue [r] w' else w'.

Definition pending (n : string) (w : W) : Prop :=
  ∃ q r, cr_queue (rw_rec w) = Some q ∧ r ∈ q ∧ nn_Name r = n.

(** The steps: a [Cluster] resource comes, changes or goes, and the API server gives a new
    specification a new generation; anything else in the environment changes; a request
    comes from elsewhere (a secret, a rule, a cluster that died, a resync); the peers
    do something; a worker reconciles a request. *)
Inductive sys_step : W → W → Prop :=
| sys_create c w s' :
    resources (rw_env w) !! cl_Name c = None → resources s' = <[cl_Name c := c]> (resources (rw_env w)) →
    sys_step w (deliver (Created (WCluster c)) (set_env s' w))
| sys_update old new w s' :
    resources (rw_env w) !! cl_Name new = Some old → resources s' = <[cl_Name new := new]> (resources (rw_env w)) →
    (om_Generation (cl_meta new) = om_Generation (cl_meta old) → cl_Spec new = cl_Spec old) →
    sys_step w (deliver (Updated (WCluster old) (WCluster new)) (set_env s' w))
| sys_delete c w s' :
    resources (rw_env w) !! cl_Name c = Some c → resources s' = delete (cl_Name c) (resources (rw_env w)) →
    sys_step w (deliver (Deleted (WCluster c)) (set_env s' w))
| sys_other w s' : same_resources (rw_env w) s' → sys_step w (set_env s' w)
| sys_request r w : sys_step w (enqueue [r] w)
| sys_peers h w :
    heap_grows (peers (rw_mgr w)) h → sys_step w (mkRWorld (rw_rec w) (set_peers h (rw_mgr w)) (rw_env w))
| sys_work q r w : cr_queue (rw_rec w) = Some q → r ∈ q → sys_step w (work r w).

(** ** The invariant *)

(** A cluster that is not to be registered: it has no resource, or it is the local one,
    or it is disabled. *)
Definition unwanted (o : option Cluster) : Prop :=
  match o with
  | None => True
  | Some c => ClusterID (cl_Spec c) = system_uid
              ∨ is_Some (om_Annotations (cl_meta c) !! ClusterDisabledAnnotation)
  end.

Abbreviation names w := (m_clusters (mg (rw_mgr w))).

Definition in_step (w : W) : Prop :=
  manager_wf (rw_mgr w) ∧ known_id (rw_rec w) ∧ is_Some (cr_queue (rw_rec w))
  ∧ ∀ n, unwanted (resources (rw_env w) !! n) → names w !! n = None ∨ pending n w.

Lemma unwanted_same s s' n : same_resources s s' → unwanted (resources s' !! n) → unwanted (resources s !! n).
Proof.
  unfold same_resources. intros H. apply (f_equal (.!! n)) in H. rewrite !lookup_fmap in H.
  destruct (resources s !! n) as [c|], (resources s' !! n) as [c'|]; simpl in *; try done.
  injection H as Hs Ha. by rewrite Hs, Ha.
Qed.

Lemma pending_keeps n w w' : keeps w w' → pending n w → pending n w'.
Proof. intros (_ & Hq & _) (q & r & Hw & Hr & Hn). destruct (Hq q Hw) as (q' & Hq' & Hsub). exists q', r. set_solver. Qed.

(** What keeps the manager and the rest keeps the invariant. *)
Lemma in_step_keeps w w' : keeps w w' → same_manager w w' → in_step w → in_step w'.
Proof.
  intros Hk Hm (Hwf & Hid & [q Hq] & Hn). unfold same_manager in Hm. pose proof Hk as (Hs & Hqs & Hids & _).
  split_and!; [by rewrite Hm|auto|destruct (Hqs q Hq) as (q' & -> & _); done|].
  intros n Hu. rewrite Hm. destruct (Hn n) as [?|?]; [by eapply unwanted_same|by left|].
  right. by eapply pending_keeps.
Qed.

Lemma enqueue_keeps rs w : keeps w (enqueue rs w) ∧ same_manager w (enqueue rs w).
Proof.
  split; [|done]. split_and!; [done| |done|done]. intros q Hq. simpl. rewrite Hq. eexists. split; [done|]. set_solver.
Qed.

(** *** Events *)

Lemma handler_moves (R : relation W) `{!PreOrder R} f objs :
  (∀ o, moves R (f o)) → moves R (handler_requests f objs).
Proof. intros Hf. induction objs as [|o objs IH]; simpl; moves_tac. Qed.

Lemma enqueued_moves (R : relation W) `{!PreOrder R} wt e :
  (∀ f o, moves R (cluster_map_func f o)) → moves R (enqueued cluster_map_func wt e).
Proof.
  intros Hf. unfold enqueued. destruct (negb _); [apply moves_ret|]. destruct (negb _); [apply moves_ret|].
  destruct (wt_handler wt); [apply moves_ret| |apply moves_ret]. by apply handler_moves.
Qed.

Lemma map_func_keeps f o : moves keeps (cluster_map_func f o).
Proof.
  unfold cluster_map_func, conflictMapFunc, secretMapFunc, localClusterMapFunc. moves_tac.
Qed.
#[local] Instance same_manager_pre : PreOrder (@same_manager S).
Proof. split; [done|]. intros x y z H1 H2. unfold same_manager in *. congruence. Qed.

Lemma map_func_same f o : moves same_manager (cluster_map_func f o).
Proof.
  pose proof (@same_env S). unfold cluster_map_func, conflictMapFunc, secretMapFunc, localClusterMapFunc. moves_tac.
Qed.

Lemma deliver_to_keeps e w wt : keeps w (deliver_to e w wt) ∧ same_manager w (deliver_to e w wt).
Proof.
  unfold deliver_to. pose proof (enqueued_moves keeps wt e map_func_keeps w) as Hk.
  pose proof (enqueued_moves same_manager wt e map_func_same w) as Hm.
  destruct (enqueued cluster_map_func wt e w) as [rs w1]. simpl in *.
  destruct (enqueue_keeps rs w1) as [Hk1 Hm1]. split; by etrans.
Qed.

Lemma deliver_list_keeps e ws w :
  keeps w (foldl (deliver_to e) w ws) ∧ same_manager w (foldl (deliver_to e) w ws).
Proof.
  revert w. induction ws as [|wt ws IH]; intros w; simpl; [done|].
  destruct (deliver_to_keeps e w wt) as [Hk Hm], (IH (deliver_to e w wt)) as [Hk' Hm']. split; by etrans.
Qed.

Lemma deliver_wakes e ws w wt r :
  wt ∈ ws → is_Some (cr_queue (rw_rec w)) → (∀ w', wakes cluster_map_func wt e w' r) →
  pending (nn_Name r) (foldl (deliver_to e) w ws).
Proof.
  intros Hin Hq Hw. revert w Hq. induction ws as [|wt' ws IH]; intros w [q Hq]; [by apply elem_of_nil in Hin|].
  simpl. apply elem_of_cons in Hin as [<-|Hin].
  - eapply pending_keeps; [apply deliver_list_keeps|]. destruct (Hw w) as (l & Hl & Hr).
    unfold deliver_to. rewrite Hl. exists (q ++ l)%list, r. simpl. rewrite Hq. set_solver.
  - apply IH; [done|]. destruct (deliver_to_keeps e w wt') as [(_ & Hqs & _) _].
    destruct (Hqs q Hq) as (q' & -> & _). done.
Qed.

Lemma wakes_itself e c w :
  e = Created (WCluster c) ∨ e = Deleted (WCluster c) →
  wakes (cluster_map_func (S := S)) for_Cluster e w (object_request (WCluster c)).
Proof.
  intros [-> | ->]; [apply (wakes_object _ _ _ (Created _))|apply (wakes_object _ _ _ (Deleted _))];
    rewrite ?source_kind_typed; simpl; rewrite ?nil_func_true; done.
Qed.

(** A change that makes a cluster unwanted leads to a request for it. *)
Lemma deliver_in_step e w s' n :
  in_step w →
  (∀ m, m ≠ n → resources s' !! m = resources (rw_env w) !! m) →
  (unwanted (resources s' !! n) → unwanted (resources (rw_env w) !! n) ∨ pending n (deliver e (set_env s' w))) →
  in_step (deliver e (set_env s' w)).
Proof.
  intros (Hwf & Hid & [q Hq] & Hn) Ho Hp. unfold deliver in *.
  destruct (deliver_list_keeps e cluster_watches (set_env s' w)) as [Hk Hm].
  pose proof Hk as (Hs & Hqs & Hids & _). unfold same_manager in Hm. split_and!.
  - by rewrite Hm.
  - auto.
  - destruct (Hqs q Hq) as (q' & -> & _). done.
  - intros m Hu. apply (unwanted_same _ _ _ Hs) in Hu. rewrite Hm. simpl in *.
    assert (unwanted (resources (rw_env w) !! m) → names w !! m = None
      ∨ pending m (foldl (deliver_to e) (set_env s' w) cluster_watches)) as Hold.
    { intros Hu'. destruct (Hn m Hu') as [?|(q' & r & Hq' & ?)]; [by left|]. right.
      eapply pending_keeps; [exact Hk|]. by exists q', r. }
    destruct (decide (m = n)) as [->|Hne]; [|by rewrite Ho in Hu; auto].
    destruct (Hp Hu) as [?|?]; auto.
Qed.

(** *** Work *)

Lemma setClusterID_known w w1 :
  known_id (rw_rec w) → setClusterID w = (None, w1) → cr_clusterID (rw_rec w1) = system_uid.
Proof.
  intros Hid. unfold setClusterID, st_bind, get_rec. case_bool_decide as He.
  - unfold env, GetClusterID. pose proof (NamespaceUID_fixed (rw_env w)) as Hu.
    destruct (client_GetNamespaceUID NamespaceSystem (rw_env w)) as [[id|e] s1]; [|done].
    intros [= <-]. simpl. by apply Hu.
  - intros [= <-]. by destruct Hid.
Qed.

(** A reconciliation acts on its own name, and leaves an unwanted cluster unregistered or
    ends in an error. *)
Lemma Reconcile_settles r w out w' :
  manager_wf (rw_mgr w) → known_id (rw_rec w) → Reconcile_cluster callback r w = (out, w') →
  manager_wf (rw_mgr w') ∧ (∀ n, n ≠ nn_Name r → names w' !! n = names w !! n)
  ∧ (unwanted (resources (rw_env w) !! nn_Name r) → names w' !! nn_Name r = None ∨ is_Some out.2).
Proof.
  intros Hwf Hid. rewrite Reconcile_cluster_unfold. pose proof (keeps_setClusterID w) as (Hs & _).
  pose proof (same_setClusterID w) as Hm. pose proof (setClusterID_known w) as Hset.
  destruct (setClusterID w) as [[e|] w1]; simpl in Hm, Hs; unfold same_manager in Hm.
  { intros [= <- <-]. rewrite Hm. split_and!; [done|done|]. by right. }
  specialize (Hset w1 Hid eq_refl). unfold env.
  pose proof (GetCluster_found (nn_Name r) (rw_env w1)) as Hf.
  pose proof (GetCluster_missing (nn_Name r) (rw_env w1)) as Hmis.
  destruct (client_GetCluster (nn_Name r) (rw_env w1)) as [got s2]. simpl in Hf, Hmis.
  set (w2 := mkRWorld _ _ _). intros Hrun.
  assert (manager_wf (rw_mgr w2)) as Hwf2 by (simpl; by rewrite Hm).
  assert (Hname : ∀ c, got = Ok c → cl_Name c = nn_Name r) by (intros c Hc; eapply resources_name, Hf, Hc).
  destruct (only_got callback callback_grows r got Hname w2 Hwf2) as [Hwf' Ho].
  pose proof (got_absent callback callback_grows r got w2 Hname Hwf2) as Ha. rewrite Hrun in Hwf', Ho, Ha.
  cbn [snd] in Hwf', Ho, Ha. split_and!; [done|intros n Hn; rewrite Ho by done; simpl; by rewrite Hm|].
  intros Hu. destruct got as [c|e].
  - left. apply Ha. simpl. rewrite Hset. specialize (Hf c eq_refl).
    assert (unwanted (resources (rw_env w1) !! nn_Name r)) as Hu1.
    { eapply unwanted_same; [|exact Hu]. unfold same_resources in *. by rewrite Hs. }
    by rewrite Hf in Hu1.
  - destruct (IsNotFound e) eqn:He; [left; by apply Ha|]. right. unfold reconcile_got in Hrun.
    rewrite He in Hrun. by injection Hrun as <- <-.
Qed.

Lemma work_in_step r w : in_step w → in_step (work r w).
Proof.
  intros (Hwf & Hid & [q Hq] & Hn). unfold work. set (w0 := dequeue r w).
  pose proof (registry_keeps_Reconcile r w0) as Hk.
  destruct (Reconcile_cluster callback r w0) as [out w'] eqn:Hrun. simpl in Hk.
  destruct (Reconcile_settles r w0 out w' Hwf Hid Hrun) as (Hwf' & Ho & Hown).
  set (w2 := if comes_back out then enqueue [r] w' else w').
  assert (keeps w' w2 ∧ same_manager w' w2) as [Hk2 Hm2].
  { unfold w2. destruct (comes_back out); [apply enqueue_keeps|done]. }
  assert (keeps w0 w2) as Hk0 by (by etrans). pose proof Hk0 as (Hs & Hqs & Hids & _). unfold same_manager in Hm2.
  destruct (Hqs (filter (λ x, x ≠ r) q)) as (q2 & Hq2 & Hsub); [simpl; by rewrite Hq|].
  split_and!; [by rewrite Hm2|by apply Hids|by rewrite Hq2|].
  intros n Hu. rewrite Hm2. apply (unwanted_same _ _ _ Hs) in Hu.
  destruct (decide (n = nn_Name r)) as [->|Hne].
  - destruct (Hown Hu) as [?|[e He]]; [by left|]. right. unfold w2, comes_back. rewrite He.
    destruct Hk as (_ & Hqk & _). destruct (Hqk (filter (λ x, x ≠ r) q)) as (q' & Hq' & _); [simpl; by rewrite Hq|].
    exists (q' ++ [r])%list, r. simpl. rewrite Hq'. set_solver.
  - rewrite (Ho n Hne). destruct (Hn n Hu) as [?|(q' & x & Hq' & Hx & Hxn)]; [by left|]. right.
    simplify_eq. exists q2, x. split_and!; [done| |done]. apply Hsub, list_elem_of_filter. split; [congruence|done].
Qed.

Lemma sys_step_in_step w w' : sys_step w w' → in_step w → in_step w'.
Proof.
  assert (Hin : for_Cluster ∈ cluster_watches) by left.
  intros Hstep Hw. pose proof Hw as (Hwf & Hid & Hq & Hn).
  destruct Hstep as [c w s' Hnone Hs'|old new w s' Hold Hs' Hgen|c w s' Hc Hs'|w s' Hs|r w|h w Hh|q r w Hr Hin'].
  - apply (deliver_in_step _ _ _ (cl_Name c)); [done|intros m Hm; rewrite Hs'; by apply lookup_insert_ne|].
    intros _. left. by rewrite Hnone.
  - apply (deliver_in_step _ _ _ (cl_Name new)); [done|intros m Hm; rewrite Hs'; by apply lookup_insert_ne|].
    rewrite Hs', lookup_insert_eq, Hold. intros Hu.
    destruct (decide (cluster_changed old new)) as [Hch|Hch].
    + right. by apply (deliver_wakes _ _ _ for_Cluster (cluster_request new)); [..|intros w'; apply cluster_changes].
    + left. unfold cluster_changed in Hch. apply Decidable.not_or in Hch as [Hg Ha]. apply dec_stable in Hg, Ha.
      simpl in *. by rewrite <-(Hgen Hg), Ha.
  - apply (deliver_in_step _ _ _ (cl_Name c)); [done|intros m Hm; rewrite Hs'; by apply lookup_delete_ne|].
    intros _. right. by apply (deliver_wakes _ _ _ for_Cluster (object_request (WCluster c)));
      [..|intros w'; apply wakes_itself; right].
  - eapply in_step_keeps; [| |done]; [|done]. split_and!; simpl; eauto.
  - destruct (enqueue_keeps [r] w). by eapply in_step_keeps.
  - split_and!; [|done..]. unfold manager_wf. simpl. by eapply heap_grows_wf.
  - by apply work_in_step.
Qed.

(** ** Convergence *)

(** The requests of a list are worked off one by one, and none ends in an error. *)
Inductive round : list Request → W → W → Prop :=
| round_nil w : round [] w w
| round_cons r rs w w' :
    (Reconcile_cluster callback r (dequeue r w)).1.2 = None → round rs (work r w) w' → round (r :: rs) w w'.

(** Registered, and should not be. *)
Definition stale (n : string) (w : W) : Prop :=
  unwanted (resources (rw_env w) !! n) ∧ is_Some (names w !! n).

Lemma round_settles rs w w' :
  round rs w w' → manager_wf (rw_mgr w) → known_id (rw_rec w) →
  ∀ n, stale n w' → stale n w ∧ ∀ r, r ∈ rs → nn_Name r ≠ n.
Proof.
  induction 1 as [w|r rs w w2 Hok Hround IH]; intros Hwf Hid n Hst.
  { split; [done|]. by intros r ?%elem_of_nil. }
  unfold work in *. destruct (Reconcile_cluster callback r (dequeue r w)) as [out w1] eqn:Hrun. simpl in Hok.
  destruct (Reconcile_settles r (dequeue r w) out w1 Hwf Hid Hrun) as (Hwf1 & Ho & Hown).
  pose proof (registry_keeps_Reconcile r (dequeue r w)) as Hk. rewrite Hrun in Hk. simpl in Hk.
  set (w1' := if comes_back out then enqueue [r] w1 else w1) in *.
  assert (keeps w1 w1' ∧ same_manager w1 w1') as [Hk1 Hm1].
  { unfold w1'. destruct (comes_back out); [apply enqueue_keeps|done]. }
  unfold same_manager in Hm1. assert (keeps (dequeue r w) w1') as Hk2 by (by etrans).
  destruct (IH ltac:(by rewrite Hm1) ltac:(by apply Hk2) n Hst) as [[Hu Hreg] Hrs].
  apply (unwanted_same (rw_env w)) in Hu; [|apply Hk2]. rewrite Hm1 in Hreg.
  assert (nn_Name r ≠ n) as Hne.
  { intros <-. destruct (Hown Hu) as [Hnone|[e He]]; [by rewrite Hnone in Hreg; destruct Hreg|congruence]. }
  rewrite (Ho n) in Hreg by done. split; [by split|]. intros x [->|?]%elem_of_cons; [done|auto].
Qed.

Lemma in_step_rtc w w' : rtc sys_step w w' → in_step w → in_step w'.
Proof. induction 1; eauto using sys_step_in_step. Qed.

(** C9: the clusters manager converges to the [Cluster] resources. In every state that is
    reached from an empty manager by any sequence of resource changes, delivered through
    the watches of the reconciler, other changes, requests and reconciliations, some of
    which may fail, a cluster that is registered although its resource is gone, local or
    disabled has a request in the queue; and when the requests of the queue are worked
    off, and none fails, no such cluster is registered any more. *)
Theorem registry_converges w0 w :
  names w0 = ∅ → known_id (rw_rec w0) → is_Some (cr_queue (rw_rec w0)) → rtc sys_step w0 w →
  (∀ n, stale n w → pending n w)
  ∧ ∀ q w', cr_queue (rw_rec w) = Some q → round q w w' → ∀ n, ¬ stale n w'.
Proof.
  intros He Hid Hq Hrun.
  assert (in_step w) as (Hwf & Hid' & [q0 Hq0] & Hn).
  { apply (in_step_rtc w0); [done|]. split_and!; [|done..|].
    - intros n p. by rewrite He, lookup_empty.
    - intros n _. left. by rewrite He, lookup_empty. }
  split.
  - intros n [Hu [p Hp]]. destruct (Hn n Hu) as [?|?]; [congruence|done].
  - intros q w' Hq' Hr n Hst. destruct (round_settles q w w' Hr Hwf Hid' n Hst) as [[Hu [p Hp]] Hno].
    destruct (Hn n Hu) as [?|(q1 & r & Hq1 & Hin & Hname)]; [congruence|]. simplify_eq. by apply (Hno r).
Qed.
End system.
