(* ===== verification/Refresh.v ===== *)
(** * Resources are revisited

    Events can be missed, secrets and peers change, and permanent errors are not retried;
    what brings the cluster reconciler back to a resource is the refresh interval. With an
    interval that is positive as a duration, the request of an existing [Cluster]
    resource never leaves the queue for good. *)

From stdpp Require Import gmap strings list relations.
From S2P Require Import Prelude Errors Types Match Util Features Cluster Manager Conditions Meta Secret ClusterReconciler RegistryFacts RegistrySync Watches WatchFacts Converge.
Open Scope string_scope.
Open Scope go_scope.

#[local] Existing Instance keeps_preorder.

Section refresh.
Context {S : Type} `{CC : ClusterClient S} `{NE : !NodeEnv S} `{SE : !SecretEnv S} `{CE : !CtrlEnv S}.
Context `{EL : ErrorLib} `{UL : UrlLib} `{SL : SelectorLib} `{RS : !Resources S} `{RL : !ResourceLaws S}.
Context (callback : string → option Ptr → gmap Ptr CWorld → gmap Ptr CWorld).

Context (callback_grows : ∀ f c h, heap_grows h (callback f c h)).

Abbreviation W := (RWorld S).

(** ** Blocks that come back *)

(** The refresh of the configuration is a positive duration. *)
Definition refreshes (w : W) : Prop := (0 < RequeueAfter (refresh (cr_config (rw_rec w))))%Z.

(** The block ends with a result after which controller-runtime calls again. *)
Definition comes (c : ST W (Result * option error)) : Prop := ∀ w, refreshes w → comes_back (c w).1 = true.

Lemma refreshes_keeps w w' : keeps w w' → refreshes w → refreshes w'.
Proof. intros (_ & _ & _ & Hc). unfold refreshes. by rewrite Hc. Qed.

Lemma comes_bind {A} (c : ST W A) k : moves keeps c → (∀ a, comes (k a)) → comes (st_bind c k).
Proof.
  intros Hc Hk w Hw. unfold st_bind. specialize (Hc w). destruct (c w) as [a w']. simpl in Hc.
  apply Hk. by eapply refreshes_keeps.
Qed.

Lemma comes_error r e : comes (return! (r, Some e)).
Proof. by intros w. Qed.

#[local] Hint Resolve keeps_env registry_keeps_get_rec keeps_get_mgr keeps_modify_mgr keeps_trigger keeps_set_condition
  keeps_local keeps_removeRemote keeps_create keeps_remote keeps_setClusterID keep_UpdateCluster : registry.

Lemma keeps_prepare b c : moves keeps (prepare_type callback b c).
Proof. unfold prepare_type, triggerLocalClusterReconciles. moves_tac. Qed.
Lemma keeps_disabled rc : moves keeps (reconcile_disabled callback rc).
Proof. unfold reconcile_disabled. moves_tac. Qed.
Lemma keeps_enabled b e rc : moves keeps (reconcile_enabled callback b e rc).
Proof.
  unfold reconcile_enabled. apply moves_bind; [destruct b; [apply (keeps_local callback callback_grows)|apply keeps_remote]|]. intros out.
  apply moves_bind; [apply keeps_set_condition|]. intros rc'. apply moves_ret.
Qed.

(** ** The reconciliation *)

Lemma finish_comes b e rc : comes (finish b e rc).
Proof.
  intros w Hw. unfold finish, st_bind, get_rec. set (u := if _ || _ then _ else _). destruct (u w) as [[x|] w']; [done|].
  unfold comes_back. simpl. by apply Z.ltb_lt.
Qed.

(** An early return of the branch for disabled clusters is an error. *)
Lemma disabled_early rc w early : (reconcile_disabled callback rc w).1 = inl early → is_Some early.2.
Proof.
  unfold reconcile_disabled, st_bind. destruct (removeRemoteCluster callback _ w) as [e w1].
  destruct (removal_failed e); [intros [= <-]; by eexists|].
  match goal with |- context [env ?c w1] => destruct (env c w1) as [x w2] end.
  match goal with |- context [env ?c w2] => destruct (env c w2) as [[y|] w3] end; [|done].
  intros [= <-]. by eexists.
Qed.

Lemma after_prepare_comes b prep : comes (after_prepare callback b prep).
Proof.
  unfold after_prepare. destruct prep as [[e|] c]; [apply comes_error|].
  destruct (om_Annotations (cl_meta c) !! ClusterDisabledAnnotation).
  - intros w Hw. unfold st_bind. pose proof (disabled_early (c, GetCurrentConditions c) w) as He.
    pose proof (keeps_disabled (c, GetCurrentConditions c) w) as Hk.
    destruct (reconcile_disabled callback _ w) as [[early|rc] w1]; simpl in He, Hk.
    + destruct (He early eq_refl) as [e E]. unfold comes_back. simpl. by rewrite E.
    + apply finish_comes. by eapply refreshes_keeps.
  - apply comes_bind; [apply keeps_enabled|]. intros out. apply finish_comes.
Qed.

(** A reconciliation that is not called again found no resource. *)
Lemma Reconcile_comes_back r w :
  refreshes w → comes_back (Reconcile_cluster callback r w).1 = true ∨ resources (rw_env w) !! nn_Name r = None.
Proof.
  intros Hw. rewrite Reconcile_cluster_unfold. pose proof (keeps_setClusterID w) as Hk.
  destruct (setClusterID w) as [[e|] w1]; [by left|]. simpl in Hk. unfold env.
  pose proof (GetCluster_missing (nn_Name r) (rw_env w1)) as Hm.
  pose proof (keep_GetCluster (nn_Name r) (rw_env w1)) as Hs.
  destruct (client_GetCluster (nn_Name r) (rw_env w1)) as [[c|e] s2]; simpl in Hm, Hs.
  - left. unfold reconcile_got. apply (comes_bind get_rec); [apply registry_keeps_get_rec| |].
    + intros st. apply comes_bind; [apply keeps_prepare|]. intros prep. apply after_prepare_comes.
    + apply (refreshes_keeps w1); [split_and!; simpl; eauto|by apply (refreshes_keeps w)].
  - destruct (IsNotFound e) eqn:He; [|left; simpl; by rewrite He]. right. specialize (Hm e eq_refl He).
    destruct Hk as (Hsame & _). unfold same_resources in Hsame. apply (f_equal (.!! nn_Name r)) in Hsame.
    rewrite !lookup_fmap, Hm in Hsame. by destruct (resources (rw_env w) !! nn_Name r).
Qed.

(** ** The run *)

Context `{EVL : EventLib} `{EV : !EventLaws}.

Definition revisited (w : W) : Prop :=
  is_Some (cr_queue (rw_rec w)) ∧ refreshes w
  ∧ ∀ n, is_Some (resources (rw_env w) !! n) → pending n w.

Lemma same_resources_dom s s' n :
  same_resources s s' → is_Some (resources s' !! n) → is_Some (resources s !! n).
Proof.
  unfold same_resources. intros H. apply (f_equal (.!! n)) in H. rewrite !lookup_fmap in H.
  by destruct (resources s !! n), (resources s' !! n).
Qed.

Lemma revisited_keeps w w' : keeps w w' → revisited w → revisited w'.
Proof.
  intros Hk ([q Hq] & Hr & Hp). pose proof Hk as (Hs & Hqs & _). split_and!.
  - destruct (Hqs q Hq) as (q' & -> & _). done.
  - by eapply refreshes_keeps.
  - intros n Hn. eapply (pending_keeps callback callback_grows); [exact Hk|]. apply Hp. by eapply same_resources_dom.
Qed.

(** An event after which the resources are others: those that are new have a request. *)
Lemma revisited_deliver e w s' :
  revisited w →
  (∀ n, is_Some (resources s' !! n) → is_Some (resources (rw_env w) !! n) ∨ pending n (deliver e (set_env s' w))) →
  revisited (deliver e (set_env s' w)).
Proof.
  intros ([q Hq] & Hr & Hp) Hn. unfold deliver in *.
  destruct (deliver_list_keeps callback callback_grows e cluster_watches (set_env s' w)) as [Hk _]. pose proof Hk as (Hs & Hqs & _). split_and!.
  - destruct (Hqs q Hq) as (q' & -> & _). done.
  - by apply (refreshes_keeps (set_env s' w)).
  - intros n Hin. apply (same_resources_dom s') in Hin; [|exact Hs].
    destruct (Hn n Hin) as [Hold|?]; [|done]. by apply (pending_keeps callback callback_grows n (set_env s' w)), (Hp n).
Qed.

Lemma revisited_work r w : revisited w → revisited (work callback r w).
Proof.
  intros ([q Hq] & Hr & Hp). unfold work. set (w0 := dequeue r w).
  pose proof (registry_keeps_Reconcile callback callback_grows r w0) as Hk.
  pose proof (Reconcile_comes_back r w0 Hr) as Hback.
  destruct (Reconcile_cluster callback r w0) as [out w']. simpl in Hk, Hback. pose proof Hk as (Hs & Hqs & _).
  destruct (Hqs (filter (λ x, x ≠ r) q)) as (q' & Hq' & Hsub); [simpl; by rewrite Hq|].
  set (w2 := if comes_back out then _ else _).
  assert (keeps w' w2) as Hk2 by (unfold w2; destruct (comes_back out); [apply (enqueue_keeps callback callback_grows)|reflexivity]).
  pose proof Hk2 as (Hs2 & Hqs2 & _). destruct (Hqs2 q' Hq') as (q2 & Hq2 & Hsub2).
  assert (keeps w0 w2) as Hk0 by (by etrans). split_and!; [by rewrite Hq2|by apply (refreshes_keeps w0)|].
  intros n Hn. destruct (decide (n = nn_Name r)) as [->|Hne].
  - destruct Hback as [Hb|Hnone].
    + unfold w2. rewrite Hb. exists (q' ++ [r])%list, r. simpl. rewrite Hq'. set_solver.
    + apply (same_resources_dom (rw_env w0)) in Hn; [|apply Hk0].
      change (is_Some (resources (rw_env w) !! nn_Name r)) in Hn. rewrite Hnone in Hn. by destruct Hn.
  - apply (same_resources_dom (rw_env w0)) in Hn; [|apply Hk0]. destruct (Hp n Hn) as (q0 & x & Hq0 & Hx & Hxn).
    simplify_eq. exists q2, x. split_and!; [done| |done]. apply Hsub2, Hsub, list_elem_of_filter. split; [congruence|done].
Qed.

Lemma sys_step_revisited w w' : sys_step callback w w' → revisited w → revisited w'.
Proof.
  assert (Hin : for_Cluster ∈ cluster_watches) by left.
  intros Hstep Hw. pose proof Hw as (Hq & Hr & Hp).
  destruct Hstep as [c w s' Hnone Hs'|old new w s' Hold Hs' Hgen|c w s' Hc Hs'|w s' Hs|r w|h w Hh|q r w Hr' Hin'].
  - apply revisited_deliver; [done|]. intros n. rewrite Hs'. destruct (decide (n = cl_Name c)) as [->|Hne].
    + intros _. right. by apply (deliver_wakes callback callback_grows _ _ _ for_Cluster (object_request (WCluster c)));
        [..|intros w'; apply wakes_itself; left].
    + rewrite lookup_insert_ne by done. by left.
  - apply revisited_deliver; [done|]. intros n. rewrite Hs'. destruct (decide (n = cl_Name new)) as [->|Hne].
    + intros _. left. by rewrite Hold.
    + rewrite lookup_insert_ne by done. by left.
  - apply revisited_deliver; [done|]. intros n. rewrite Hs', lookup_delete_is_Some. intros [_ ?]. by left.
  - apply (revisited_keeps w); [|done]. split_and!; simpl; eauto.
  - apply (revisited_keeps w); [|done]. apply (enqueue_keeps callback callback_grows).
  - done.
  - by apply revisited_work.
Qed.

(** C10: existing resources are revisited for ever. With a refresh interval between one
    second and 9223372036 seconds, in every run from a state without resources, whatever
    events, changes, failures and permanent errors there are, each existing [Cluster]
    resource has a request in the queue, also right after it was reconciled; a request
    that does not come back belongs to a resource that is gone. *)
Theorem resources_are_revisited w0 w :
  (1 ≤ RefreshIntervalSeconds (cfg_ClusterController (cr_config (rw_rec w0))) ≤ 9223372036)%Z →
  is_Some (cr_queue (rw_rec w0)) → resources (rw_env w0) = ∅ → rtc (sys_step callback) w0 w →
  (∀ n, is_Some (resources (rw_env w) !! n) → pending n w)
  ∧ ∀ r, comes_back (Reconcile_cluster callback r w).1 = false → resources (rw_env w) !! nn_Name r = None.
Proof.
  intros Hi Hq He Hrun. assert (revisited w0) as Hw0.
  { split_and!; [done| |intros n Hn; rewrite He, lookup_empty in Hn; by destruct Hn].
    unfold refreshes, refresh, time_Second. simpl. rewrite wrap_signed_id; lia. }
  assert (revisited w) as (_ & Hr & Hp) by (clear -Hrun Hw0 callback_grows EV RL; induction Hrun; eauto using sys_step_revisited).
  split; [done|]. intros r Hback. destruct (Reconcile_comes_back r w Hr) as [?|?]; [congruence|done].
Qed.

(** Without a refresh interval nothing brings a peer back whose reconciliation reported
    success, or ended in a permanent error. *)
Lemma no_refresh_no_return b e rc w :
  RefreshIntervalSeconds (cfg_ClusterController (cr_config (rw_rec w))) = 0%Z → (finish (S := S) b e rc w).1.2 = None →
  comes_back (finish b e rc w).1 = false.
Proof.
  intros Hi. unfold finish, st_bind, get_rec. set (u := if _ || _ then _ else _). destruct (u w) as [[x|] w']; [done|].
  intros _. unfold comes_back, refresh. simpl. by rewrite Hi.
Qed.
End refresh.
