(* ===== verification/RulePeers.v ===== *)
(** * What a peer keeps of its controllers

    The name of a peer and what its controllers are survive whatever the peer does by
    itself: liveness checks, managers that start and stop, features that come and go. *)

From stdpp Require Import gmap strings list relations.
From S2P Require Import Prelude Errors Types Match Util Features Cluster ClusterGate Manager Conditions Meta RuleReconciler.
Open Scope string_scope.
Open Scope go_scope.

(** ** What a peer keeps *)

(** Its name, and what its controllers are. *)
Definition heap_recs (w w' : CWorld) : Prop :=
  c_name (cl w') = c_name (cl w)
  ∧ ∀ p c, heap w !! p = Some c → ∃ c', heap w' !! p = Some c' ∧ mc_reconciler c' = mc_reconciler c.

#[export] Instance heap_recs_preorder : PreOrder heap_recs.
Proof.
  split; [intros w; split; [done|eauto]|]. intros w1 w2 w3 [E1 H12] [E3 H23]. split; [congruence|]. intros p c Hp.
  destruct (H12 p c Hp) as (c2 & Hp2 & E2). destruct (H23 p c2 Hp2) as (c3 & ? & ?). exists c3. split; congruence.
Qed.

Lemma works_for_kept sr w w' :
  heap_recs w w' → registered w' !! om_Name (rsr_meta sr) = registered w !! om_Name (rsr_meta sr) →
  works_for sr w → works_for sr w'.
Proof.
  intros [_ Hh] Hr (p & c & Hp & Hc & Hs). destruct (Hh p c Hc) as (c' & Hc' & Hrec).
  exists p, c'. split_and!; [congruence|done|]. unfold rule_of in *. by rewrite Hrec.
Qed.

(** Another version of a rule with the same specification. *)
Lemma works_for_same_spec old new w :
  om_Name (rsr_meta new) = om_Name (rsr_meta old) → rsr_Spec new = rsr_Spec old → works_for old w → works_for new w.
Proof. intros Hn Hs (p & c & ? & ? & ?). exists p, c. by rewrite Hn, Hs. Qed.

(** ** The primitive changes *)

Lemma recs_ctx p c x xc w :
  heap w !! p = Some c → heap_recs w (set_heap (<[p := mc_set_ctx x xc c]> (heap w)) w).
Proof.
  intros Hp. split; [done|]. intros q d Hq. simpl. destruct (decide (p = q)) as [->|Hne].
  - rewrite lookup_insert_eq. eexists. split; [done|]. simpl. congruence.
  - rewrite lookup_insert_ne by done. eauto.
Qed.

(** The heap and the name are the same. *)
Lemma recs_same w w' : heap w' = heap w → c_name (cl w') = c_name (cl w) → heap_recs w w'.
Proof. intros Hh Hn. split; [done|]. rewrite Hh. eauto. Qed.

Lemma recs_cancel x w : heap_recs w (cancel x w).
Proof. by destruct x; apply recs_same. Qed.

Lemma recs_mcStart x p w : heap_recs w (managedController_Start x p w).
Proof.
  unfold managedController_Start. destruct (heap w !! p) as [c|] eqn:Hp; [|reflexivity].
  destruct (ctrlContextCancel c); [reflexivity|]. simpl.
  etrans; [apply (recs_same _ (mkCWorld (S (next w)) (cancelled w) (heap w) (cl w) (threads w) (func_runs w))); done|].
  etrans; [by apply (recs_ctx p c)|]. by apply recs_same.
Qed.

Lemma recs_mcStop p w : heap_recs w (managedController_Stop p w).
Proof.
  unfold managedController_Stop. destruct (heap w !! p) as [c|] eqn:Hp; [|reflexivity].
  destruct (ctrlContextCancel c) as [x|]; [|by apply recs_ctx].
  etrans; [apply (recs_cancel x)|]. apply recs_ctx. by destruct x.
Qed.

Create HintDb peer_recs.
#[export] Hint Resolve recs_cancel recs_mcStart recs_mcStop recs_same : peer_recs.
#[export] Hint Extern 1 (heap_recs _ (set_cl _ _)) => (by apply recs_same) : peer_recs.

(** ** The operations *)

Lemma RemoveControllerByName_recs n w : heap_recs w (RemoveControllerByName n w).
Proof.
  unfold RemoveControllerByName. etrans; [|case_match; [|reflexivity]].
  - unfold removePendingControllerByName. auto with peer_recs.
  - etrans; [apply recs_mcStop|]. auto with peer_recs.
Qed.

Section operations.
Context `{SL : SelectorLib}.

Lemma start_under_recs p w : heap_recs w (start_under_manager p w).
Proof. unfold start_under_manager. case_match; [apply recs_mcStart|reflexivity]. Qed.

Lemma addPending_recs p w : heap_recs w (addPendingController p w).
Proof. unfold addPendingController. case_match; [|reflexivity]. auto with peer_recs. Qed.

Lemma AddController_recs p w : heap_recs w (AddController p w).
Proof.
  unfold AddController. destruct (heap w !! p) as [c|] eqn:Hp; [|reflexivity].
  destruct (checkRequiredClusterFeatures c w); [|apply addPending_recs].
  unfold addController. rewrite Hp. destruct (GetController _ w); [reflexivity|]. cbv zeta.
  match goal with |- heap_recs _ (if _ then start_under_manager _ ?v else _) =>
    assert (heap_recs w v) as Hv by (by apply recs_same) end.
  case_match; [|exact Hv]. etrans; [exact Hv|apply start_under_recs].
Qed.

Lemma AddFeature_recs order f w : heap_recs w (AddFeature_in order f w).
Proof.
  unfold AddFeature_in. etrans; [|apply foldl_preorder; intros; apply AddController_recs]. by apply recs_same.
Qed.

Lemma RemoveFeature_recs order uid w : heap_recs w (RemoveFeature_in order uid w).
Proof.
  unfold RemoveFeature_in. etrans; [|apply foldl_preorder].
  - by apply recs_same.
  - intros v p. unfold demote_if_unmet. destruct (heap v !! p) as [c|] eqn:Hp; [|reflexivity].
    case_match; [reflexivity|]. unfold RemoveController. rewrite Hp.
    etrans; [apply RemoveControllerByName_recs|apply addPending_recs].
Qed.

Lemma StartManager_recs created w : heap_recs w (StartManager created w).
Proof.
  unfold StartManager, StartManager_in. destruct (mgrCtx (cl w)); [reflexivity|]. simpl.
  destruct created; simpl; [|by apply recs_same].
  etrans; [|apply foldl_preorder; intros; apply recs_mcStart]. by apply recs_same.
Qed.

Lemma stopManager_recs w : heap_recs w (stopManager w).
Proof. unfold stopManager. repeat case_match; try reflexivity. apply recs_cancel. Qed.

Lemma run_funcs_recs fs w : heap_recs w (foldl (λ w f, runClusterFunc f w) w fs).
Proof. apply foldl_preorder. intros. by apply recs_same. Qed.

Lemma setDead_recs w : heap_recs w (setDead w).
Proof.
  unfold setDead. case_match; [reflexivity|]. etrans; [apply stopManager_recs|].
  etrans; [apply (run_funcs_recs (onDeadFuncs (cl (stopManager w))))|]. by apply recs_same.
Qed.

Lemma livenessCheck_recs pr created w : heap_recs w (livenessCheck pr created w).2.
Proof.
  destruct pr; simpl; [apply setDead_recs..|]. etrans; [|by apply (recs_same (setAlive created w))]. unfold setAlive.
  destruct (alive (cl w)); [reflexivity|]. cbv zeta.
  set (w1 := if negb _ then _ else w).
  assert (heap_recs w w1) as H1 by (unfold w1; case_match; [apply StartManager_recs|reflexivity]).
  etrans; [exact H1|]. etrans; [apply (run_funcs_recs (onAliveFuncs (cl w1)))|]. by apply recs_same.
Qed.

Lemma background_recs w w' : background_step w w' → heap_recs w w'.
Proof.
  destruct 1; try (by apply recs_same).
  - apply livenessCheck_recs.
  - etrans; [apply setDead_recs|]. by apply recs_same.
  - unfold run_exit. case_match; [|reflexivity]. etrans; [by apply recs_ctx|]. by apply recs_same.
Qed.

(** ** What a peer does by itself *)

(** Its goroutines, the features it advertises, and its start and stop. *)
Inductive own_step : CWorld → CWorld → Prop :=
| own_background w w' : background_step w w' → own_step w w'
| own_AddFeature w f order :
    order ≡ₚ (map_to_list (pendingControllers (cl w))).*2 → own_step w (AddFeature_in order f w)
| own_RemoveFeature w uid order :
    order ≡ₚ (map_to_list (controllers (cl w))).*2 → own_step w (RemoveFeature_in order uid w)
| own_Start w pr created : own_step w (Start pr created w).2
| own_StartManager w created : own_step w (StartManager created w)
| own_StopManager w : own_step w (StopManager w)
| own_Stop w : own_step w (Stop w).

(** Controllers move between active and pending and start and stop; none is made or
    dropped. *)
Definition peer_moves (w w' : CWorld) : Prop :=
  (gated w → gated w' ∧ registered w' = registered w) ∧ heap_recs w w'.

#[export] Instance peer_moves_preorder : PreOrder peer_moves.
Proof.
  split; [intros w; split; [done|reflexivity]|].
  intros x y z [H1 ?] [H2 ?]. split; [|by etrans]. intros Hg. destruct (H1 Hg) as [Hy E]. rewrite <-E. auto.
Qed.

Lemma same_registry_moves w w' : same_registry w w' → heap_recs w w' → peer_moves w w'.
Proof.
  intros Hs Hr. split; [|done]. intros Hg. split; [by eapply same_registry_gated|].
  apply (f_equal reg_controllers (same_registry_of _ _ Hs)).
Qed.

Lemma own_step_moves w w' : own_step w w' → peer_moves w w'.
Proof.
  destruct 1 as [w w' Hb|w f order Ho|w uid order Ho|w pr created|w created|w|w].
  - by apply same_registry_moves; [apply same_registry_background|apply background_recs].
  - split; [|apply AddFeature_recs]. intros Hg.
    by destruct (AddFeature_gated _ order f w Hg (or_intror (λ _ _ _, I)) Ho) as (? & ? & _).
  - split; [|apply RemoveFeature_recs]. intros Hg. by destruct (RemoveFeature_gated _ (λ _, True) order uid w Hg Ho) as (? & ? & _).
  - unfold Start. pose proof (same_registry_livenessCheck pr created w) as Hl.
    pose proof (livenessCheck_recs pr created w) as Hr. destruct (livenessCheck pr created w) as [[] w1]; simpl in *.
    + by apply same_registry_moves.
    + apply same_registry_moves; [exact Hl|]. etrans; [exact Hr|]. by apply recs_same.
  - by apply same_registry_moves; [apply same_registry_StartManager|apply StartManager_recs].
  - apply same_registry_moves.
    + etrans; [apply same_registry_stopManager|]. done.
    + etrans; [apply stopManager_recs|]. by apply recs_same.
  - by apply same_registry_moves; [apply same_registry_cancel|apply recs_cancel].
Qed.
(** ** The peers of a manager *)

Definition heap_moves (h h' : gmap Ptr CWorld) : Prop :=
  ∀ p, match h !! p, h' !! p with
       | Some w, Some w' => peer_moves w w' | None, None => True | _, _ => False
       end.

#[export] Instance heap_moves_preorder : PreOrder heap_moves.
Proof.
  split; [intros h p; by destruct (h !! p)|]. intros x y z H1 H2 p. specialize (H1 p). specialize (H2 p).
  destruct (x !! p), (y !! p), (z !! p); try done. by etrans.
Qed.
End operations.
