(* ===== verification/RuleConverge.v ===== *)
(** * The rules converge

    The rule reconciler as it runs, together with the clusters manager: rules come, change
    and go, peers are added and removed, and the requests that the watches and the
    callback of the manager put into the queue are worked off. A peer that is out of step
    with a rule has a request of that rule waiting. *)

From stdpp Require Import gmap strings list relations.
From S2P Require Import Prelude Errors Types Match Util Features Cluster ClusterGate Manager Conditions Meta Secret ClusterReconciler RuleReconciler RulePeers Watches WatchFacts.
Open Scope string_scope.
Open Scope go_scope.

Section rule_system.
Context `{SL : SelectorLib} `{EL : ErrorLib} `{RL : RateLib}.
Context (spec_equal : ResourceSyncRuleSpec → ResourceSyncRuleSpec → bool).
Context (spec_equal_eq : ∀ a b, spec_equal a b = true → a = b).
Context (cfg : Configuration) (limiter_ok : rate_limiter cfg = None).

Lemma Init_recs sr w : heap_recs w (InitNewResourceSyncController cfg sr w).2.
Proof.
  unfold InitNewResourceSyncController. destruct (rate_limiter cfg); [reflexivity|]. cbn [snd]. split.
  { unfold AddController, addController, addPendingController, start_under_manager, managedController_Start.
    repeat (case_match; simplify_eq/=; try done). }
  intros q c Hq.
  apply AddController_keeps_rec. simpl. rewrite lookup_insert_ne; [done|].
  intros <-. assert (fresh (dom (heap w)) ∈ dom (heap w)) as H by (by apply elem_of_dom_2 in Hq).
  by apply is_fresh in H.
Qed.

Lemma syncClusterController_recs sr w err w' :
  syncClusterController spec_equal cfg sr w = Returned err w' → heap_recs w w'.
Proof.
  unfold syncClusterController. destruct (negb _).
  { pose proof (Init_recs sr w) as H. destruct (InitNewResourceSyncController cfg sr w). by intros [= <- <-]. }
  destruct (GetController _ w) as [p|]; [|done]. destruct (heap w !! p) as [c|] eqn:Hp; [|done].
  destruct (spec_equal _ _); [by intros [= <- <-]|].
  unfold RemoveController. rewrite Hp. set (w1 := RemoveControllerByName _ w).
  destruct (managedController_Stopped p w1) as [x|]; [|done]. destruct (Done x w1); [|done].
  pose proof (Init_recs sr w1) as H. destruct (InitNewResourceSyncController cfg sr w1). intros [= <- <-].
  etrans; [apply RemoveControllerByName_recs|exact H].
Qed.

Lemma sync_rule_recs sr order h h' p w :
  sync_rule spec_equal cfg sr order h = Some h' → h !! p = Some w → ∃ w', h' !! p = Some w' ∧ heap_recs w w'.
Proof.
  revert h w. induction order as [|q order IH]; intros h w Hs Hp; simpl in Hs; [simplify_eq; by exists w|].
  destruct (h !! q) as [v|] eqn:Hq; [|by apply (IH h)].
  destruct (syncClusterController spec_equal cfg sr v) as [err v'| |] eqn:Hv; [|done..].
  destruct (decide (p = q)) as [->|Hne].
  - simplify_eq. destruct (IH _ v' Hs (lookup_insert_eq _ _ _)) as (w' & ? & Hr). exists w'. split; [done|].
    etrans; [by eapply syncClusterController_recs|exact Hr].
  - apply (IH (<[q := v']> h)); [done|]. by rewrite lookup_insert_ne.
Qed.

Lemma remove_rule_recs name order h p w :
  h !! p = Some w → ∃ w', remove_rule name order h !! p = Some w' ∧ heap_recs w w'.
Proof.
  revert h w. induction order as [|q order IH]; intros h w Hp; [by exists w|]. unfold remove_rule in *. simpl.
  destruct (decide (p = q)) as [->|Hne].
  - destruct (IH (alter (RemoveControllerByName name) q h) (RemoveControllerByName name w)) as (w' & ? & Hr);
      [by rewrite lookup_alter_eq, Hp|]. exists w'. split; [done|].
    etrans; [apply RemoveControllerByName_recs|exact Hr].
  - apply IH. by rewrite lookup_alter_ne.
Qed.

Lemma sync_rule_dom sr order h h' p :
  sync_rule spec_equal cfg sr order h = Some h' → h !! p = None → h' !! p = None.
Proof.
  revert h. induction order as [|q order IH]; intros h Hs Hp; simpl in Hs; [by simplify_eq|].
  destruct (h !! q) as [v|] eqn:Hq; [|by apply (IH h)].
  destruct (syncClusterController spec_equal cfg sr v) as [err v'| |]; [|done..].
  apply (IH _ Hs). rewrite lookup_insert_ne; [done|congruence].
Qed.

Lemma remove_rule_dom name order h p : h !! p = None → remove_rule name order h !! p = None.
Proof.
  unfold remove_rule. revert h. induction order as [|q order IH]; intros h Hp; simpl; [done|].
  apply IH. destruct (decide (p = q)) as [->|]; [by rewrite lookup_alter_eq, Hp|by rewrite lookup_alter_ne].
Qed.

(** ** The manager *)

Context (callback : string → option Ptr → gmap Ptr CWorld → gmap Ptr CWorld).
Context (callback_moves : ∀ f c h, heap_moves h (callback f c h)).
Context (callback_grows : ∀ f c h, heap_grows h (callback f c h)).

Lemma run_callbacks_moves fs c m : heap_moves (peers m) (peers (run_callbacks callback fs c m)).
Proof.
  unfold run_callbacks. generalize (map_to_list fs).*2. intros l. revert m.
  induction l as [|f l IH]; intros m; simpl; [reflexivity|]. etrans; [apply (callback_moves f c)|].
  exact (IH (run_callback callback c m f)).
Qed.

Lemma Manager_Add_moves p m : heap_moves (peers m) (peers (Manager_Add callback p m)).
Proof.
  unfold Manager_Add. etrans; [exact (run_callbacks_moves (onBeforeAddFuncs (mg m)) (Some p) m)|].
  match goal with |- heap_moves _ (peers (run_callbacks _ ?fs ?c ?w)) => exact (run_callbacks_moves fs c w) end.
Qed.

Lemma heap_moves_stop p h : heap_moves h (alter Stop p h).
Proof.
  intros q. destruct (decide (p = q)) as [->|Hne].
  - rewrite lookup_alter_eq. destruct (h !! q); simpl; [apply own_step_moves, own_Stop|done].
  - rewrite lookup_alter_ne by done. by destruct (h !! q).
Qed.

Lemma Manager_Remove_moves c m : heap_moves (peers m) (peers (Manager_Remove callback c m)).
Proof.
  unfold Manager_Remove. destruct c as [p|]; [|reflexivity]. destruct (m_clusters (mg m) !! _); [|reflexivity].
  cbv zeta. etrans; [exact (run_callbacks_moves (onBeforeDeleteFuncs (mg m)) (Some p) m)|].
  etrans; [apply (heap_moves_stop p)|].
  match goal with |- heap_moves _ (peers (run_callbacks _ ?fs ?c ?w)) => exact (run_callbacks_moves fs c w) end.
Qed.

(** ** The controller *)

Context `{EVL : EventLib} `{EV : !EventLaws}.

(** The rules in the cache of the client, the clusters manager, the queue. *)
Record RSys := mkRSys { rs_rules : gmap string ResourceSyncRule; rs_mgr : MWorld; rs_queue : list Request }.

(** The requests an event leads to. *)
Definition rule_requests (e : WEvent) : list Request :=
  mjoin ((λ wt, (enqueued (W := unit) (λ _ _, return! []) wt e tt).1) <$> rule_watches).

Definition add_requests (q : list Request) (s : RSys) : RSys :=
  mkRSys (rs_rules s) (rs_mgr s) (rs_queue s ++ q)%list.
Definition set_rules (f : gmap string ResourceSyncRule → gmap string ResourceSyncRule) (s : RSys) : RSys :=
  mkRSys (f (rs_rules s)) (rs_mgr s) (rs_queue s).
Definition set_mgr (m : MWorld) (s : RSys) : RSys := mkRSys (rs_rules s) m (rs_queue s).

(** What reading a rule may give: what is in the cache, its absence, or another error,
    which is not permanent. *)
Definition rule_read (s : RSys) (n : string) (got : result error ResourceSyncRule) : Prop :=
  match got with
  | Ok sr => rs_rules s !! n = Some sr
  | Err e => IsPermanent e = false ∧ (IsNotFound e = true → rs_rules s !! n = None)
  end.

(** The controllers that every peer has from the start. *)
Definition reserved (n : string) : Prop := n = "remote-cluster" ∨ n = "remote-cluster-feature".

Abbreviation rname r := (om_Name (rsr_meta r)).
Abbreviation known s := (m_clusters (mg (rs_mgr s))).

Inductive rule_step : RSys → RSys → Prop :=
| rule_create sr s :
    rs_rules s !! rname sr = None → ¬ reserved (rname sr) →
    rule_step s (add_requests (rule_requests (Created (WRule sr))) (set_rules <[rname sr := sr]> s))
| rule_update old new s :
    rs_rules s !! rname new = Some old →
    (om_Generation (rsr_meta new) = om_Generation (rsr_meta old) → rsr_Spec new = rsr_Spec old) →
    rule_step s (add_requests (rule_requests (Updated (WRule old) (WRule new))) (set_rules <[rname new := new]> s))
| rule_delete sr s :
    rs_rules s !! rname sr = Some sr →
    rule_step s (add_requests (rule_requests (Deleted (WRule sr))) (set_rules (delete (rname sr)) s))
| rule_request r s : rule_step s (add_requests [r] s)
(** A new peer is added; the callback of the rule reconciler lists the rules. *)
| rule_add_cluster p cw l q s :
    peers (rs_mgr s) !! p = None → gated cw → (∀ n, ¬ reserved n → registered cw !! n = None) →
    (∀ n sr, rs_rules s !! n = Some sr → sr ∈ l) → requeue_rules (Some (rs_queue s)) (Ok l) = Some q →
    rule_step s (mkRSys (rs_rules s)
      (Manager_Add callback p (set_peers (<[p := cw]> (peers (rs_mgr s))) (rs_mgr s))) q)
| rule_remove_cluster n p s :
    known s !! n = Some p → rule_step s (set_mgr (Manager_Remove callback (Some p) (rs_mgr s)) s)
| rule_peer p w w' s :
    peers (rs_mgr s) !! p = Some w → own_step w w' →
    rule_step s (set_mgr (set_peers (<[p := w']> (peers (rs_mgr s))) (rs_mgr s)) s)
| rule_work r got err m s :
    r ∈ rs_queue s → rule_read s (nn_Name r) got →
    Reconcile_rule spec_equal cfg (nn_Name r) got (rs_mgr s) = Some (err, m) →
    rule_step s (mkRSys (rs_rules s) m
      (filter (λ x, x ≠ r) (rs_queue s) ++ match err with Some _ => [r] | None => [] end)%list).

(** ** The invariant *)

Definition queued (n : string) (s : RSys) : Prop := ∃ r, r ∈ rs_queue s ∧ nn_Name r = n.

(** The peer does for a name what the rules say. *)
Definition obeys (rules : gmap string ResourceSyncRule) (n : string) (w : CWorld) : Prop :=
  match rules !! n with Some sr => works_for sr w | None => registered w !! n = None end.

Record rules_ok (s : RSys) : Prop := {
  ro_wf : manager_wf (rs_mgr s);
  ro_gated : map_Forall (λ _, gated) (peers (rs_mgr s));
  ro_names n sr : rs_rules s !! n = Some sr → rname sr = n ∧ ¬ reserved n;
  ro_obey k p w n : known s !! k = Some p → peers (rs_mgr s) !! p = Some w → ¬ reserved n →
    queued n s ∨ obeys (rs_rules s) n w }.

Lemma obeys_kept rules n w w' :
  (∀ sr, rules !! n = Some sr → rname sr = n) → heap_recs w w' → registered w' !! n = registered w !! n →
  obeys rules n w → obeys rules n w'.
Proof.
  intros Hname Hh Hr. unfold obeys. destruct (rules !! n) as [sr|] eqn:E; [|by rewrite Hr].
  apply works_for_kept; [done|]. by rewrite (Hname sr eq_refl).
Qed.

Lemma queued_more n q s s' : rs_queue s' = (rs_queue s ++ q)%list → queued n s → queued n s'.
Proof. intros Hq (r & Hr & Hn). exists r. rewrite Hq. set_solver. Qed.

(** The manager moves: clusters may be forgotten, and do what they do by themselves. *)
Lemma rules_ok_mgr m' s :
  rules_ok s → manager_wf m' → heap_moves (peers (rs_mgr s)) (peers m') →
  (∀ k p, m_clusters (mg m') !! k = Some p → known s !! k = Some p) → rules_ok (set_mgr m' s).
Proof.
  intros [Hwf Hg Hnm Ho] Hwf' Hm Hk. split; simpl; [done| |done|].
  - intros p w' Hw'. specialize (Hm p). rewrite Hw' in Hm.
    destruct (peers (rs_mgr s) !! p) as [w|] eqn:Hw; [|done]. by apply Hm, (Hg p).
  - intros k p w' n Hp Hw' Hres. specialize (Hm p). rewrite Hw' in Hm.
    destruct (peers (rs_mgr s) !! p) as [w|] eqn:Hw; [|done]. destruct Hm as [[_ Hr] Hh]; [by apply (Hg p)|].
    destruct (Ho k p w n (Hk k p Hp) Hw Hres) as [?|Hob]; [by left|]. right.
    eapply obeys_kept; [intros sr; apply Hnm|done|by rewrite Hr|done].
Qed.

Lemma rule_event_queued e :
  watched_kind (event_object e) = "ResourceSyncRule" → GenerationChanged e = true →
  object_request (event_object e) ∈ rule_requests e.
Proof.
  intros Hk Hg. destruct (wakes_object (W := unit) (λ _ _, return! []) (SKind "ResourceSyncRule" "ResourceSyncRule")
    [PGenerationChanged] e tt) as (l & Hl & Hin).
  - by rewrite source_kind_typed, Hk.
  - simpl. by rewrite Hg.
  - unfold rule_requests. apply list_elem_of_join. exists l. split; [done|]. simpl.
    change for_ResourceSyncRule with (mkWatch (SKind "ResourceSyncRule" "ResourceSyncRule") EnqueueRequestForObject [PGenerationChanged]).
    rewrite Hl. left.
Qed.

(** A rule changes; unless the peers need not care, its request is queued. *)
Lemma rules_ok_change f e n s :
  rules_ok s → (∀ k sr, f (rs_rules s) !! k = Some sr → rname sr = k ∧ ¬ reserved k) →
  (∀ k, k ≠ n → f (rs_rules s) !! k = rs_rules s !! k) →
  (∃ r, r ∈ rule_requests e ∧ nn_Name r = n)
  ∨ (∀ w, obeys (rs_rules s) n w → obeys (f (rs_rules s)) n w) →
  rules_ok (add_requests (rule_requests e) (set_rules f s)).
Proof.
  intros [Hwf Hg Hnm Ho] Hnm' Hf Hor. split; simpl; [done..|]. intros k p w m Hp Hw Hres.
  destruct (Ho k p w m Hp Hw Hres) as [Hq|Hob]; [left; by eapply queued_more|].
  destruct (decide (m = n)) as [->|Hne]; [|right; unfold obeys in *; by rewrite Hf].
  destruct Hor as [(r & Hr & Hrn)|Hkeep]; [|right; by apply Hkeep].
  left. exists r. simpl. set_solver.
Qed.

Lemma rules_ok_add p cw l q s :
  rules_ok s → peers (rs_mgr s) !! p = None → gated cw → (∀ n, ¬ reserved n → registered cw !! n = None) →
  (∀ n sr, rs_rules s !! n = Some sr → sr ∈ l) → requeue_rules (Some (rs_queue s)) (Ok l) = Some q →
  rules_ok (mkRSys (rs_rules s)
    (Manager_Add callback p (set_peers (<[p := cw]> (peers (rs_mgr s))) (rs_mgr s))) q).
Proof.
  intros [Hwf Hg Hnm Ho] Hp Hgc Hnew Hl [= <-]. set (m1 := set_peers _ _).
  assert (Hp1 : peers m1 !! p = Some cw) by apply lookup_insert_eq.
  assert (Hwf1 : manager_wf m1).
  { intros k q Hq. destruct (Hwf k q Hq) as (w & Hw & <-). exists w. split; [|done]. simpl.
    rewrite lookup_insert_ne; [done|congruence]. }
  destruct (Manager_Add_effect callback callback_grows p m1) as (Hnames & _); [by rewrite Hp1|].
  pose proof (Manager_Add_moves p m1) as Hm.
  split; cbn [rs_rules rs_mgr rs_queue].
  - apply Manager_Add_wf; [done|by rewrite Hp1|done].
  - intros k w' Hw'. specialize (Hm k). rewrite Hw' in Hm. simpl in Hm.
    destruct (decide (p = k)) as [<-|Hne]; [rewrite lookup_insert_eq in Hm; by apply Hm|].
    rewrite lookup_insert_ne in Hm by done. destruct (peers (rs_mgr s) !! k) as [w|] eqn:Hw; [|done].
    by apply Hm, (Hg k).
  - done.
  - intros k q w' n Hq Hw' Hres. rewrite Hnames in Hq. specialize (Hm q). rewrite Hw' in Hm. simpl in Hm.
    destruct (decide (p = q)) as [<-|Hne].
    + rewrite lookup_insert_eq in Hm. destruct Hm as [[_ Hr] _]; [done|].
      destruct (rs_rules s !! n) as [sr|] eqn:E; [left|right; unfold obeys; rewrite E, Hr; by apply Hnew].
      exists (mkNamespacedName n ""). split; [|done]. simpl. apply elem_of_app. right.
      apply list_elem_of_fmap. exists sr. split; [by rewrite (proj1 (Hnm n sr E))|by eapply Hl].
    + rewrite lookup_insert_ne in Hm by done. apply lookup_insert_Some in Hq as [[_ <-]|[_ Hq]]; [done|].
      destruct (peers (rs_mgr s) !! q) as [w|] eqn:Hw; [|done]. destruct Hm as [[_ Hr] Hh]; [by apply (Hg q)|].
      destruct (Ho k q w n Hq Hw Hres) as [(r & Hin & Hrn)|Hob].
      * left. exists r. split; [simpl; set_solver|done].
      * right. eapply obeys_kept; [intros sr; apply Hnm|done|by rewrite Hr|done].
Qed.

(** *** Work *)

(** The controllers of one name are changed: what a reconciliation that returns does. *)
Lemma Reconcile_rule_effect s n got err m :
  rules_ok s → rule_read s n got → Reconcile_rule spec_equal cfg n got (rs_mgr s) = Some (err, m) →
  mg m = mg (rs_mgr s)
  ∧ (∀ p, peers (rs_mgr s) !! p = None → peers m !! p = None)
  ∧ ∀ p w, peers (rs_mgr s) !! p = Some w → ∃ w', peers m !! p = Some w' ∧ gated w' ∧ heap_recs w w'
      ∧ others_kept n w w'
      ∧ (is_Some err ∨ ∀ k, known s !! k = Some p → obeys (rs_rules s) n w').
Proof.
  intros [Hwf Hg Hnm Ho] Hread. unfold Reconcile_rule, reconcile_rule. destruct got as [sr|e]; simpl in Hread.
  - destruct (Hnm n sr Hread) as [Hn _].
    destruct (sync_rule spec_equal cfg sr _ (peers (rs_mgr s))) as [h'|] eqn:Hs; [|done]. intros [= <- <-].
    split_and!; [done|intros p; by apply (sync_rule_dom _ _ _ _ _ Hs)|]. intros p w Hw.
    destruct (sync_rule_spec spec_equal cfg sr _ _ _ limiter_ok spec_equal_eq Hs Hg p w Hw) as (w' & Hw' & Hg' & Hk & Hworks).
    destruct (sync_rule_recs sr _ _ _ p w Hs Hw) as (w'' & Hw'' & Hr). rewrite Hw' in Hw''. injection Hw'' as <-.
    exists w'. split_and!; [done..|by rewrite <-Hn|]. right. intros k Hk'. unfold obeys. rewrite Hread.
    apply Hworks. left. by eapply known_cluster_visited.
  - destruct Hread as [Hperm Hmiss]. destruct (IsNotFound e) eqn:He.
    + intros [= <- <-]. split_and!; [done|intros p; apply remove_rule_dom|]. intros p w Hw.
      destruct (remove_rule_spec n (map_to_list (GetAll (rs_mgr s))).*2 _ Hg p w Hw) as (w' & Hw' & Hg' & Hk).
      destruct (remove_rule_recs n (map_to_list (GetAll (rs_mgr s))).*2 _ p w Hw) as (w'' & Hw'' & Hr).
      rewrite Hw' in Hw''. injection Hw'' as <-. exists w'. split_and!; [done..|]. right. intros k Hk'.
      unfold obeys. rewrite Hmiss by done.
      destruct (remove_rule_removes n (map_to_list (GetAll (rs_mgr s))).*2 (peers (rs_mgr s)) p w) as (v & Hv & Hnone);
        [by eapply known_cluster_visited|done|]. rewrite Hw' in Hv. by injection Hv as ->.
    + rewrite Hperm. intros [= <- <-]. split_and!; [done..|]. intros p w Hw. exists w.
      split_and!; [done|by eapply Hg|reflexivity|by intros k|]. by left.
Qed.

Lemma rules_ok_work r got err m s :
  rules_ok s → rule_read s (nn_Name r) got → Reconcile_rule spec_equal cfg (nn_Name r) got (rs_mgr s) = Some (err, m) →
  rules_ok (mkRSys (rs_rules s) m
    (filter (λ x, x ≠ r) (rs_queue s) ++ match err with Some _ => [r] | None => [] end)%list).
Proof.
  intros Hok Hread Hrun. destruct (Reconcile_rule_effect _ _ _ _ _ Hok Hread Hrun) as (Hmg & Hdom & Hp).
  destruct Hok as [Hwf Hg Hnm Ho]. split; cbn [rs_rules rs_mgr rs_queue].
  - intros k p Hk. rewrite Hmg in Hk. destruct (Hwf k p Hk) as (w & Hw & <-).
    destruct (Hp p w Hw) as (w' & Hw' & _ & [Hc _] & _). eauto.
  - intros p w' Hw'. destruct (peers (rs_mgr s) !! p) as [w|] eqn:Hw; [|by rewrite Hdom in Hw'].
    destruct (Hp p w Hw) as (v & Hv & Hgv & _). by simplify_eq.
  - done.
  - intros k p w' n Hk Hw' Hres. rewrite Hmg in Hk.
    destruct (peers (rs_mgr s) !! p) as [w|] eqn:Hw; [|by rewrite Hdom in Hw'].
    destruct (Hp p w Hw) as (v & Hv & _ & Hrec & Hothers & Hor). simplify_eq.
    destruct (decide (n = nn_Name r)) as [->|Hne].
    + destruct Hor as [[e ->]|Hob]; [|right; by eapply Hob]. left. exists r. simpl. set_solver.
    + destruct (Ho k p w n Hk Hw Hres) as [(x & Hx & Hxn)|Hob].
      * left. exists x. split; [|done]. simpl. apply elem_of_app. left. apply list_elem_of_filter. split; [congruence|done].
      * right. eapply obeys_kept; [intros sr; apply Hnm|done|by apply Hothers|done].
Qed.

Lemma rule_step_ok s s' : rule_step s s' → rules_ok s → rules_ok s'.
Proof.
  intros Hstep Hok. pose proof Hok as [Hwf Hg Hnm Ho].
  destruct Hstep as [sr s Hnone Hres|old new s Hold Hgen|sr s Hsr|r s|p cw l q s Hp Hgc Hnew Hl Hq|n p s Hp
    |p w w' s Hp Hown|r got err m s Hr Hread Hrun].
  - apply (rules_ok_change _ _ (rname sr)); [done| |by intros k Hk; apply lookup_insert_ne|].
    + intros k sr' [[<- <-]|[_ Hk]]%lookup_insert_Some; [done|by apply Hnm].
    + left. eexists. split; [by apply (rule_event_queued (Created (WRule sr))); [|apply GenerationChanged_created]|done].
  - destruct (Hnm _ _ Hold) as [Hname Hres].
    apply (rules_ok_change _ _ (rname new)); [done| |by intros k Hk; apply lookup_insert_ne|].
    + intros k sr' [[<- <-]|[_ Hk]]%lookup_insert_Some; [done|by apply Hnm].
    + destruct (decide (om_Generation (rsr_meta new) = om_Generation (rsr_meta old))) as [Heq|Hne].
      * right. intros w. unfold obeys. rewrite lookup_insert_eq, Hold. by apply works_for_same_spec; [|apply Hgen].
      * left. eexists. split; [apply (rule_event_queued (Updated (WRule old) (WRule new))); [done|]|done].
        rewrite GenerationChanged_update. by apply bool_decide_eq_true.
  - apply (rules_ok_change _ _ (rname sr)); [done| |by intros k Hk; apply lookup_delete_ne|].
    + intros k sr' [_ Hk]%lookup_delete_Some. by apply Hnm.
    + left. eexists. split; [by apply (rule_event_queued (Deleted (WRule sr))); [|apply GenerationChanged_deleted]|done].
  - split; simpl; [done..|]. intros k p w n Hk Hw Hn. destruct (Ho k p w n Hk Hw Hn); [left; by eapply queued_more|by right].
  - by eapply rules_ok_add.
  - destruct (Hwf n p Hp) as (cw & Hcw & Hname). apply rules_ok_mgr; [done| |apply Manager_Remove_moves|].
    + apply Manager_Remove_wf; [done|by rewrite Hcw|done].
    + destruct (Manager_Remove_effect callback callback_grows p cw (rs_mgr s) Hcw) as (-> & _); [by rewrite Hname, Hp|].
      by intros k q [_ ?]%lookup_delete_Some.
  - apply rules_ok_mgr; [done| | |done].
    + destruct (own_step_moves _ _ Hown) as [_ [Hname _]].
      intros k q Hq. destruct (Hwf k q Hq) as (v & Hv & <-). simpl.
      destruct (decide (p = q)) as [->|Hne]; [rewrite lookup_insert_eq|rewrite lookup_insert_ne by done; eauto].
      exists w'. split; [done|]. congruence.
    + intros q. simpl. destruct (decide (p = q)) as [<-|Hne].
      * rewrite lookup_insert_eq, Hp. by apply own_step_moves.
      * rewrite lookup_insert_ne by done. by destruct (peers (rs_mgr s) !! q).
  - by eapply rules_ok_work.
Qed.

Lemma rule_steps_ok s s' : rtc rule_step s s' → rules_ok s → rules_ok s'.
Proof. induction 1; eauto using rule_step_ok. Qed.

(** C11: rules and peers converge. From a manager without peers and no rules, whatever the
    order in which rules come, change and go, peers are added, work and are removed, and
    requests are reconciled, some with errors: a known peer that has no controller for
    the present specification of a rule, or still has one for a rule that is gone, has a
    request of that rule in the queue. In particular, when the queue is empty every known
    peer works for every rule, and for no other. The runs are those in which the rules
    can be listed each time a peer is added, the rate limiter of a controller can be
    made, reading a rule fails at most with errors that are not permanent, a change of
    the specification of a rule changes its generation, and no rule has the name of one
    of the peer's own two controllers. *)
Theorem rules_converge s0 s :
  known s0 = ∅ → peers (rs_mgr s0) = ∅ → rs_rules s0 = ∅ → rtc rule_step s0 s →
  ∀ k p w, known s !! k = Some p → peers (rs_mgr s) !! p = Some w →
  (∀ n, ¬ reserved n → queued n s ∨ obeys (rs_rules s) n w)
  ∧ (rs_queue s = [] → ∀ n, ¬ reserved n →
       match rs_rules s !! n with Some sr => works_for sr w | None => registered w !! n = None end).
Proof.
  intros Hk0 Hp0 Hr0 Hrun k p w Hk Hp.
  assert (rules_ok s) as [_ _ _ Ho].
  { apply (rule_steps_ok s0); [done|]. split.
    - intros n q. by rewrite Hk0, lookup_empty.
    - rewrite Hp0. apply map_Forall_empty.
    - intros n sr. by rewrite Hr0, lookup_empty.
    - intros n q v m. by rewrite Hk0, lookup_empty. }
  split.
  - intros n. by apply Ho with k p.
  - intros Hq n Hres. destruct (Ho k p w n Hk Hp Hres) as [(r & Hr & _)|Hob]; [|exact Hob].
    rewrite Hq in Hr. by apply elem_of_nil in Hr.
Qed.
(** ** What the convergence rests on *)

(** The names of the peer's own controllers are not kept from the rules: a rule with such a
    name and another specification than the empty one replaces the controller. *)
Lemma rule_replaces_own_controller sr w p c err w' :
  gated w → controllers (cl w) !! rname sr = Some p → heap w !! p = Some c →
  spec_equal (rule_of c) (rsr_Spec sr) = false →
  syncClusterController spec_equal cfg sr w = Returned err w' →
  ∃ q d, registered w' !! rname sr = Some q ∧ heap w' !! q = Some d ∧ mc_reconciler d = SyncReconcilerOf sr.
Proof.
  intros Hg Hc Hp Hs. unfold syncClusterController, HasController, GetController. rewrite Hc, Hp, Hs. simpl.
  destruct (g_ctrl _ _ _ Hg _ _ Hc) as (req & Hid & _).
  assert (Hn : mc_name c = rname sr) by (rewrite (heap_ids_lookup _ _ _ Hp) in Hid; congruence).
  unfold RemoveController. rewrite Hp, Hn. destruct (managedController_Stopped p _) as [x|]; [|done].
  destruct (Done x _); [|done]. destruct (RemoveControllerByName_gated _ (rname sr) w Hg) as [Hg' _].
  destruct (RemoveControllerByName_effect (rname sr) w) as (_ & _ & Hct & _).
  pose proof (Init_registers cfg sr (RemoveControllerByName (rname sr) w) limiter_ok Hg') as Hi.
  destruct (InitNewResourceSyncController cfg sr _) as [e w1]. intros [= <- <-].
  destruct Hi as (_ & _ & q & d & Hr & Hd & Hrec).
  { unfold HasController. by rewrite Hct, lookup_delete_eq. }
  exists q, d. by rewrite Hr, lookup_insert_eq.
Qed.

(** When the rules cannot be listed as a peer is added, nothing is queued for it; the
    error is only logged. *)
Lemma failed_listing_queues_nothing q e : requeue_rules (Some q) (Err e) = Some q.
Proof. unfold requeue_rules. simpl. by rewrite app_nil_r. Qed.
End rule_system.
