(* ===== verification/Scheme.v ===== *)
(** * The scheme

    groupversion_info.go, the [init] functions of the API package that register the types,
    and the [init] of main.go that adds them to the scheme of the process. The scheme
    builder of controller-runtime and the runtime scheme are parameters, with what their
    documentation says of them as laws. *)

From stdpp Require Import gmap strings list.
From S2P Require Import Prelude Errors Types Match Util Features Cluster Manager Conditions Meta Secret ClusterReconciler Watches WatchFacts.
Open Scope string_scope.
Open Scope go_scope.

Record GV := mkGV { gv_Group : string; gv_Version : string }.

Definition GroupVersion : GV := mkGV "clusterregistry.k8s.cisco.com" "v1alpha1".

(** A type is registered by the name of its Go type. *)
Definition kind_of (gv : GV) (k : string) : GroupVersionKind := mkGVK (gv_Group gv) (gv_Version gv) k.

Class SchemeLib : Type := {
  Builder : Type;
  Scheme : Type;
  NewBuilder : GV → Builder;
  Register_ : list string → Builder → Builder;
  Builder_AddToScheme : Builder → Scheme → option error * Scheme;
  clientgo_AddToScheme : Scheme → option error * Scheme;
  NewScheme : Scheme;
  (** What a builder holds, and what a scheme recognizes. *)
  builder_types : Builder → GV * list string;
  Recognizes : Scheme → GroupVersionKind → bool }.

Class SchemeLaws `{SchemeLib} : Prop := {
  NewBuilder_empty gv : builder_types (NewBuilder gv) = (gv, []);
  Register_types l b : builder_types (Register_ l b) = ((builder_types b).1, (builder_types b).2 ++ l)%list;
  (** Without an error the types of the builder are known, and no other is new. *)
  AddToScheme_types b s s' : Builder_AddToScheme b s = (None, s') →
    ∀ k, Recognizes s' k = true ↔
      Recognizes s k = true ∨ ∃ t, t ∈ (builder_types b).2 ∧ k = kind_of (builder_types b).1 t;
  (** client-go registers the types of Kubernetes, among them the core group, and none of
      a group outside of it. *)
  clientgo_core s s' : clientgo_AddToScheme s = (None, s') →
    Recognizes s' (mkGVK "" "v1" "Secret") = true
    ∧ ∀ k, Group k = gv_Group GroupVersion → Recognizes s' k = Recognizes s k;
  NewScheme_empty k : Recognizes NewScheme k = false }.

Section scheme.
Context `{SL : SchemeLib}.

Definition SchemeBuilder : Builder := NewBuilder GroupVersion.

(** ** The init functions *)

Definition init_cluster_types (b : Builder) : Builder := Register_ ["Cluster"; "ClusterList"] b.
Definition init_cluster_feature_types (b : Builder) : Builder := Register_ ["ClusterFeature"; "ClusterFeatureList"] b.
Definition init_resourcesyncrule_types (b : Builder) : Builder :=
  Register_ ["ResourceSyncRule"; "ResourceSyncRuleList"] b.

Definition api_inits : list (Builder → Builder) :=
  [init_cluster_feature_types; init_cluster_types; init_resourcesyncrule_types].

(** The files of a package are initialized in an order the language leaves open. *)
Definition run_inits (order : list (Builder → Builder)) : Builder := foldl (λ b f, f b) SchemeBuilder order.

(** [AddToScheme] of the API package, bound to the builder. *)
Definition AddToScheme (b : Builder) (s : Scheme) : option error * Scheme := Builder_AddToScheme b s.

(** The [init] of main.go; both errors are dropped. *)
Definition main_init (b : Builder) : Scheme :=
  let '(_, s) := clientgo_AddToScheme NewScheme in
  let '(_, s) := AddToScheme b s in s.

Context `{!SchemeLaws}.

Definition api_kinds : list string :=
  ["Cluster"; "ClusterList"; "ClusterFeature"; "ClusterFeatureList"; "ResourceSyncRule"; "ResourceSyncRuleList"].

(** An init function registers some types. *)
Definition registers (f : Builder → Builder) (l : list string) : Prop := ∀ b, f b = Register_ l b.

Lemma run_registers fs ls b :
  Forall2 registers fs ls →
  builder_types (foldl (λ b f, f b) b fs) = ((builder_types b).1, (builder_types b).2 ++ mjoin ls)%list.
Proof.
  intros Hl. revert b. induction Hl as [|f l fs ls Hf _ IH]; intros b; simpl.
  - rewrite app_nil_r. by destruct (builder_types b).
  - rewrite IH, Hf, Register_types. simpl. by rewrite <-(assoc_L (++)).
Qed.

Lemma api_inits_register :
  Forall2 registers api_inits
    [["ClusterFeature"; "ClusterFeatureList"]; ["Cluster"; "ClusterList"]; ["ResourceSyncRule"; "ResourceSyncRuleList"]].
Proof. by repeat constructor. Qed.

Lemma run_inits_types order :
  order ≡ₚ api_inits → (builder_types (run_inits order)).1 = GroupVersion
  ∧ (builder_types (run_inits order)).2 ≡ₚ api_kinds.
Proof.
  intros Hperm. destruct (Permutation_Forall2 (symmetry Hperm) api_inits_register) as (ls & Hls & Hreg).
  unfold run_inits. rewrite (run_registers _ _ _ Hreg). unfold SchemeBuilder. rewrite NewBuilder_empty. simpl.
  split; [done|]. rewrite <-Hls. unfold api_kinds. simpl. apply (Permutation_app_tail ["ResourceSyncRule"; "ResourceSyncRuleList"] (Permutation_app_comm [_; _] [_; _])).
Qed.

(** The objects of the watches. *)
Definition watched_kinds (name : string) : list string :=
  omap (λ wt, match wt_source wt with SKind t _ | SInformer t => Some t | SMemory => None end)
    (cluster_watches ++ rule_watches ++ remote_watches name ++ feature_watches)%list.

Lemma watched_kinds_known name k : k ∈ watched_kinds name → k ∈ api_kinds ∨ k = "Secret".
Proof.
  change (watched_kinds name) with (watched_kinds ""). intros Hk.
  assert (Forall (λ k, k ∈ api_kinds ∨ k = "Secret") (watched_kinds "")) as Hall.
  { apply (bool_decide_unpack _). vm_compute. exact I. }
  by eapply Forall_forall in Hall.
Qed.

(** The kinds of the API group that the process recognizes are the six of the package,
    whatever the order of the [init] functions, provided neither registration fails (the
    program drops these errors), and the object of every watch is of a known kind. *)
Theorem scheme_knows_the_api order s1 s2 :
  order ≡ₚ api_inits →
  clientgo_AddToScheme NewScheme = (None, s1) → AddToScheme (run_inits order) s1 = (None, s2) →
  main_init (run_inits order) = s2
  ∧ (∀ k, Recognizes (main_init (run_inits order)) (kind_of GroupVersion k) = true ↔ k ∈ api_kinds)
  ∧ ∀ name k, k ∈ watched_kinds name →
      Recognizes (main_init (run_inits order)) (kind_of GroupVersion k) = true
      ∨ Recognizes (main_init (run_inits order)) (mkGVK "" "v1" k) = true.
Proof.
  intros Hperm H1 H2. destruct (run_inits_types order Hperm) as [Hgv Ht].
  assert (main_init (run_inits order) = s2) as -> by (unfold main_init; by rewrite H1, H2).
  pose proof (AddToScheme_types _ _ _ H2) as Ha. rewrite Hgv in Ha. destruct (clientgo_core _ _ H1) as [Hs Hc].
  assert (Hapi : ∀ k, Recognizes s2 (kind_of GroupVersion k) = true ↔ k ∈ api_kinds).
  { intros k. rewrite Ha, (Hc (kind_of GroupVersion k)), NewScheme_empty by done. setoid_rewrite Ht.
    split; [by intros [?|(t & Hin & [= ->])]|eauto]. }
  split_and!; [done|done|]. intros name k [Hk| ->]%watched_kinds_known; [left; by apply Hapi|].
  right. apply Ha. by left.
Qed.
End scheme.

(** ** A scheme that is a list *)

Definition list_scheme : SchemeLib := {|
  Builder := GV * list string;
  Scheme := list GroupVersionKind;
  NewBuilder gv := (gv, []);
  Register_ l b := (b.1, b.2 ++ l)%list;
  Builder_AddToScheme b s := (None, (kind_of b.1 <$> b.2) ++ s)%list;
  clientgo_AddToScheme s := (None, mkGVK "" "v1" "Secret" :: s);
  NewScheme := [];
  builder_types b := b;
  Recognizes s k := bool_decide (k ∈ s) |}.

#[local] Existing Instance list_scheme.

Lemma list_scheme_laws : SchemeLaws.
Proof.
  split; simpl; try done.
  - intros b s s' [= <-] k. rewrite !bool_decide_eq_true, elem_of_app, list_elem_of_fmap. set_solver.
  - intros s s' [= <-]. split; [by apply bool_decide_eq_true; left|]. intros k Hk. apply bool_decide_ext.
    split; [|by right]. intros [->|?]%elem_of_cons; [done|done].
Qed.

(** The files are initialized in the order of their names. *)
Example scheme_run :
  Recognizes (main_init (run_inits api_inits)) (kind_of GroupVersion "Cluster") = true
  ∧ Recognizes (main_init (run_inits api_inits)) (kind_of GroupVersion "Secret") = false.
Proof. split; vm_compute; reflexivity. Qed.
