(* ===== verification/WatchRun.v ===== *)
(** * The watches at work

    Concrete registrations and events at which the theorems on the watches apply: an API
    server that is a list of clusters, and controllers that keep the list of their
    watches. *)

From stdpp Require Import gmap strings list.
From S2P Require Import Prelude Errors Types Match Util Features Cluster ClusterLife ManagedReconciler Manager Conditions Meta Secret ClusterReconciler RuleReconciler RemoteReconciler RegistryRun Watches WatchFacts.
Open Scope string_scope.
Open Scope go_scope.

Existing Instance chain_lib.
#[local] Existing Instance reg_client.

(** The registered watches; nothing fails. *)
Definition keep_watches (ws : list Watch) : ST (list Watch) (option error) := λ s, (None, s ++ ws)%list.

#[local] Instance list_watches : WatchEnv (list Watch) := {|
  ctrl_Watch w := keep_watches [w];
  builder_Build ws _ := keep_watches ws;
  GetInformerForKind _ := keep_watches [] |}.
#[local] Instance cluster_world_watches : WatchEnv (RWorld (list Watch)) := {|
  ctrl_Watch w := env (keep_watches [w]);
  builder_Build ws _ := env (keep_watches ws);
  GetInformerForKind _ := env (keep_watches []) |}.
Definition rule_env {A} (c : ST (list Watch) A) : ST (RuleWorld (list Watch)) A :=
  λ w, let '(a, s) := c (ru_env w) in (a, mkRuleWorld (ru_rec w) (ru_mgr w) s).
#[local] Instance rule_world_watches : WatchEnv (RuleWorld (list Watch)) := {|
  ctrl_Watch w := rule_env (keep_watches [w]);
  builder_Build ws _ := rule_env (keep_watches ws);
  GetInformerForKind _ := rule_env (keep_watches []) |}.

#[local, refine] Instance list_watches_laws : WatchLaws (list Watch) := {| watches s := s |}.
Proof. all: intros; simpl; eauto using app_nil_r. Defined.
#[local, refine] Instance cluster_world_laws : WatchLaws (RWorld (list Watch)) := {| watches w := rw_env w |}.
Proof. all: intros; simpl; eauto using app_nil_r. Defined.
#[local, refine] Instance rule_world_laws : WatchLaws (RuleWorld (list Watch)) := {| watches w := ru_env w |}.
Proof. all: intros; simpl; eauto using app_nil_r. Defined.

Definition a_base : ManagedReconcilerBase := NewManagedReconciler "peer".
Definition one_peer : MWorld := NewManager [0] [] {[ 1 := NewCluster [0] "peer" None "kc" [] ]}.
Definition a_rule_world (queue : option (list Request)) : RuleWorld (list Watch) :=
  mkRuleWorld (mkRuleReconcilerState a_config queue) one_peer [].
Definition a_cluster_world : RWorld (list Watch) :=
  mkRWorld (mkClusterReconcilerState a_config "local-id" None) one_peer [].

Lemma list_watches_env r m r' m' (s : list Watch) : watches (mkRuleWorld r m s) = watches (mkRuleWorld r' m' s).
Proof. reflexivity. Qed.

(** The two reconcilers of the local cluster and the two of a peer are set up. *)
Lemma setups_are_complete_or_fail_witness :
  watches (SetupWithManager_cluster [0] 5 (a_base, a_cluster_world)).2.2 = cluster_watches
  ∧ watches (SetupWithManager_rule "now" [0] 5 (a_base, a_rule_world None)).2.2 = rule_watches
  ∧ watches (SetupWithController_remote [0] (a_base, [])).2.2 = remote_watches "peer".
Proof.
  destruct (setups_are_complete_or_fail (S := list Watch) (T := list Watch) (W := list Watch)
    list_watches_env "now" [0] 5 a_base) as (Hc & Hr & Hp & _).
  split_and!.
  - destruct (Hc a_cluster_world) as (l & Hl & Hm). rewrite Hl. exact (proj1 Hm).
  - destruct (Hr (a_rule_world None)) as (l & Hl & Hm). rewrite Hl. exact (proj1 Hm).
  - destruct (Hp []) as (l & Hl & Hm). rewrite Hl. exact Hm.
Defined.

(** A peer is added while the rule reconciler has an empty queue. *)
Definition rule_setup_done : ManagedReconcilerBase * RuleWorld (list Watch) :=
  (SetupWithController_rule "now" [0] (a_base, a_rule_world (Some []))).2.

Lemma new_clusters_requeue_rules_witness :
  ∃ q, rr_queue (ru_rec (Manager_Add_rules (λ s, (Ok [istio_rule], s)) idle 1 rule_setup_done.2)) = Some q
       ∧ mkNamespacedName "rule-a" "" ∈ q.
Proof.
  destruct (new_clusters_requeue_rules (λ s, (Ok [istio_rule], s)) "now" idle idle_grows [0] a_base
    (a_rule_world (Some [])) rule_setup_done.1 rule_setup_done.2 1 [] [istio_rule]) as (_ & q & Hq & _ & Hin).
  - reflexivity.
  - eexists. reflexivity.
  - reflexivity.
  - intros s. reflexivity.
  - exists q. split; [exact Hq|]. exact (Hin istio_rule (list_elem_of_here _ _)).
Defined.

(** ** Events *)

#[local] Instance plain_events : EventLib := {|
  source_kind s := match s with SKind t _ => Some t | SMemory => None | SInformer k => Some k end;
  nil_func := true;
  GenerationChanged e :=
    match e with
    | Updated old new => bool_decide (om_Generation (watched_meta new) ≠ om_Generation (watched_meta old))
    | _ => true
    end;
  updated_objects old new := [old; new] |}.
#[local] Instance plain_event_laws : EventLaws.
Proof. constructor; try done; intros; set_solver. Defined.

Lemma cluster_events_delivered_witness :
  ∃ wt, wt ∈ cluster_watches
        ∧ wakes (cluster_map_func (S := Reg)) wt (Created (WSecret peer_secret)) (reg_world peer_reg)
            (mkNamespacedName "peer" "").
Proof.
  destruct (cluster_events_delivered (S := Reg) (reg_world peer_reg) [peer_cluster "peer-id" "u1"])
    as (_ & _ & H & _).
  - reflexivity.
  - apply NoDup_singleton.
  - refine (H (Created (WSecret peer_secret)) peer_secret (peer_cluster "peer-id" "u1") eq_refl _ eq_refl _ _).
    + intros o Ho. exists peer_secret. apply list_elem_of_singleton in Ho. exact Ho.
    + left.
    + split; reflexivity.
Defined.
