(* ===== verification/ConvergeRun.v ===== *)
(** * Convergence on a concrete registry

    The registry of [RegistryRun] keeps the laws of [Converge]; a peer is registered, its
    resource is deleted, and the request that the event leads to removes it. *)

From stdpp Require Import gmap strings list relations.
From S2P Require Import Prelude Errors Types Match Util Features Cluster Manager Conditions Meta Secret ClusterReconciler RegistryFacts RegistrySync RegistryRun Watches WatchFacts WatchRun Converge Refresh.
Open Scope string_scope.
Open Scope go_scope.

#[local] Existing Instance reg_client.
#[local] Existing Instance reg_nodes.
#[local] Existing Instance reg_secrets_env.
#[local] Existing Instance reg_ctrl.
#[local] Existing Instance plain_urls.
#[local] Existing Instance chain_lib.
#[local] Existing Instance subset_selectors.

Definition by_name (l : list Cluster) : gmap string Cluster := list_to_map ((λ c, (cl_Name c, c)) <$> l).

#[local] Instance reg_resources : Resources Reg := {|
  resources s := by_name (reg_clusters s);
  system_uid := "local-id" |}.

Lemma by_name_lookup l n : by_name l !! n = head (filter (λ c, cl_Name c = n) l).
Proof.
  induction l as [|c l IH]; [done|]. unfold by_name in *. simpl.
  rewrite filter_cons. destruct (decide (cl_Name c = n)) as [<-|Hne].
  - by rewrite lookup_insert_eq.
  - by rewrite lookup_insert_ne.
Qed.

Lemma by_name_status c l :
  meaning <$> by_name ((λ d, if bool_decide (cl_Name d = cl_Name c) then with_status (cl_Status c) d else d) <$> l)
  = meaning <$> by_name l.
Proof.
  assert (Hcons : ∀ d l, by_name (d :: l) = <[cl_Name d := d]> (by_name l)) by done.
  induction l as [|d l IH]; [done|]. rewrite fmap_cons, !Hcons, !fmap_insert, IH. by case_bool_decide.
Qed.

#[local] Instance reg_resource_laws : ResourceLaws Reg.
Proof.
  split; try (by intros; intros s); simpl.
  - intros s n c Hc. rewrite by_name_lookup in Hc.
    destruct (filter _ _) as [|d l] eqn:E; [done|]. injection Hc as ->.
    assert (c ∈ filter (λ c, cl_Name c = n) (reg_clusters s)) as [? _]%list_elem_of_filter; [rewrite E; left|done].
  - intros n s c Hc. rewrite by_name_lookup. destruct (filter _ _); [done|]. by injection Hc as ->.
  - intros n s e He _. rewrite by_name_lookup. by destruct (filter _ _).
  - intros s id [= <-]. done.
  - intros c s. unfold same_resources. simpl. apply by_name_status.
Qed.

#[local] Existing Instance plain_events.
#[local] Existing Instance plain_event_laws.

Definition peer_request : Request := mkNamespacedName "peer" "".
(** The peer has a resource and a secret, and was created. *)
Definition run0 : RWorld Reg := reg_world peer_reg.
Definition run1 : RWorld Reg := enqueue [peer_request] run0.
Definition run2 : RWorld Reg := work idle peer_request run1.
(** Its resource is deleted. *)
Definition run3 : RWorld Reg :=
  deliver (Deleted (WCluster (peer_cluster "peer-id" "u1"))) (set_env (mkReg [] [peer_secret]) run2).

Lemma run_steps : rtc (sys_step idle) run0 run3.
Proof.
  eapply rtc_l; [apply (sys_request idle peer_request)|]. fold run1.
  eapply rtc_l; [apply (sys_work idle [peer_request] peer_request); [reflexivity|left]|]. fold run2.
  apply rtc_once. apply sys_delete; vm_compute; reflexivity.
Qed.

Lemma registry_converges_witness :
  stale "peer" run3 ∧ pending "peer" run3
  ∧ ∃ q w', cr_queue (rw_rec run3) = Some q ∧ round idle q run3 w' ∧ ¬ stale "peer" w'.
Proof.
  assert (Hst : stale "peer" run3) by (split; [vm_compute; exact I|vm_compute; eexists; reflexivity]).
  assert (Hid : known_id (S := Reg) (rw_rec run0)) by (right; reflexivity).
  destruct (registry_converges idle idle_grows run0 run3 eq_refl Hid (ex_intro _ [] eq_refl) run_steps)
    as [Hp Hr].
  split; [exact Hst|]. split; [exact (Hp "peer" Hst)|].
  destruct (cr_queue (rw_rec run3)) as [q|] eqn:Hq; [|vm_compute in Hq; discriminate].
  exists q. vm_compute in Hq. injection Hq as <-. eexists. split; [reflexivity|].
  match goal with |- ?P ∧ _ => assert (Hround : P) end.
  { eapply round_cons; [vm_compute; reflexivity|]. eapply round_cons; [vm_compute; reflexivity|]. apply round_nil. }
  split; [exact Hround|]. eapply Hr; [|exact Hround]. vm_compute. reflexivity.
Defined.

(** ** Revisits *)

(** No resource yet; the secret of the peer is there. *)
Definition visit0 : RWorld Reg := reg_world (mkReg [] [peer_secret]).
Definition visit1 : RWorld Reg :=
  deliver (Created (WCluster (peer_cluster "peer-id" "u1"))) (set_env peer_reg visit0).
(** Its request is worked off. *)
Definition visit2 : RWorld Reg := work idle peer_request visit1.

Lemma resources_are_revisited_witness :
  pending "peer" visit2 ∧ comes_back (Reconcile_cluster idle peer_request visit2).1 = true.
Proof.
  assert (Hrun : rtc (sys_step idle) visit0 visit2).
  { eapply rtc_l; [apply (sys_create idle (peer_cluster "peer-id" "u1") visit0 peer_reg); vm_compute; reflexivity|].
    fold visit1. apply rtc_once. eapply sys_work; [vm_compute; reflexivity|left]. }
  destruct (resources_are_revisited idle idle_grows visit0 visit2) as [Hp Hb].
  - vm_compute. split; discriminate.
  - eexists. reflexivity.
  - vm_compute. reflexivity.
  - exact Hrun.
  - split; [apply Hp; vm_compute; eexists; reflexivity|].
    destruct (comes_back (Reconcile_cluster idle peer_request visit2).1) eqn:E; [reflexivity|].
    specialize (Hb peer_request E). vm_compute in Hb. discriminate Hb.
Defined.
