(* ===== verification/RuleConvergeRun.v ===== *)
(** * A run of the rules

    A rule is created, a peer is added and the request of the rule is worked off; the rule
    goes, and its request waits. The theorem on the rules applies to both states. *)

From stdpp Require Import gmap strings list relations.
From S2P Require Import Prelude Errors Types Match Util Features Cluster ClusterGate Manager Conditions Meta Secret ClusterReconciler RuleReconciler RegistryRun RulePeers Watches WatchFacts WatchRun RuleConverge.
Open Scope string_scope.
Open Scope go_scope.

#[local] Existing Instance chain_lib.
#[local] Existing Instance subset_selectors.
#[local] Existing Instance no_limit.
#[local] Existing Instance plain_events.
#[local] Existing Instance plain_event_laws.

Definition rules0 : RSys := mkRSys ∅ (NewManager [0] [] ∅) [].
Definition rules1 : RSys :=
  add_requests (rule_requests (Created (WRule istio_rule))) (set_rules <["rule-a" := istio_rule]> rules0).
(** A peer comes that the rule has not reached. *)
Definition new_peer : CWorld := NewCluster [0] "peer" None "kc" [].
Definition rules2 : RSys :=
  mkRSys (rs_rules rules1)
    (Manager_Add idle 1 (set_peers (<[1 := new_peer]> (peers (rs_mgr rules1))) (rs_mgr rules1)))
    (rs_queue rules1 ++ [mkNamespacedName "rule-a" ""])%list.
Definition rule_request_a : Request := object_request (WRule istio_rule).
Definition reconciled : option (option error * MWorld) :=
  Reconcile_rule specs_by_kind a_config "rule-a" (Ok istio_rule) (rs_mgr rules2).
Definition rules3 : RSys :=
  match reconciled with
  | Some (err, m) =>
      mkRSys (rs_rules rules2) m
        (filter (λ x, x ≠ rule_request_a) (rs_queue rules2) ++ match err with Some _ => [rule_request_a] | None => [] end)%list
  | None => rules2
  end.
(** The rule goes. *)
Definition rules4 : RSys :=
  add_requests (rule_requests (Deleted (WRule istio_rule))) (set_rules (delete "rule-a") rules3).

Lemma idle_moves f c h : heap_moves h (idle f c h).
Proof. unfold idle. reflexivity. Qed.

Lemma specs_by_kind_eq a b : specs_by_kind a b = true → a = b.
Proof. discriminate. Qed.
Lemma unlimited : rate_limiter a_config = None.
Proof. reflexivity. Qed.
Lemma rule_a_unreserved : ¬ reserved "rule-a".
Proof. intros [H|H]; discriminate H. Qed.

Lemma rules_steps3 : rtc (rule_step specs_by_kind a_config idle) rules0 rules3.
Proof.
  eapply rtc_l; [apply (rule_create _ _ _ istio_rule); [reflexivity|exact rule_a_unreserved]|].
  change (om_Name (rsr_meta istio_rule)) with "rule-a". fold rules1.
  eapply rtc_l.
  { apply (rule_add_cluster _ _ _ 1 new_peer [istio_rule]
      (rs_queue rules1 ++ [mkNamespacedName "rule-a" ""])%list rules1);
      [reflexivity|apply NewCluster_gated|reflexivity| |reflexivity].
    intros n sr Hn. unfold rules1 in Hn. simpl in Hn.
    apply lookup_insert_Some in Hn as [[_ <-]|[_ Hn]]; [left|rewrite lookup_empty in Hn; discriminate]. }
  fold rules2. apply rtc_once. unfold rules3.
  destruct reconciled as [[err m]|] eqn:E; [|vm_compute in E; discriminate].
  apply (rule_work _ _ _ rule_request_a (Ok istio_rule)); [vm_compute; left|reflexivity|exact E].
Qed.

Lemma rules_converge_witness :
  (∃ w, peers (rs_mgr rules3) !! 1 = Some w ∧ works_for istio_rule w)
  ∧ queued "rule-a" rules4.
Proof.
  assert (Hrun4 : rtc (rule_step specs_by_kind a_config idle) rules0 rules4).
  { eapply rtc_r; [exact rules_steps3|]. apply (rule_delete _ _ _ istio_rule). vm_compute. reflexivity. }
  destruct (peers (rs_mgr rules3) !! 1) as [w|] eqn:Hw; [|vm_compute in Hw; discriminate]. split.
  - exists w. split; [reflexivity|].
    destruct (rules_converge specs_by_kind specs_by_kind_eq a_config unlimited idle idle_moves idle_grows
      rules0 rules3 eq_refl eq_refl eq_refl rules_steps3 "peer" 1 w eq_refl Hw) as [_ H].
    exact (H eq_refl "rule-a" rule_a_unreserved).
  - destruct (rules_converge specs_by_kind specs_by_kind_eq a_config unlimited idle idle_moves idle_grows
      rules0 rules4 eq_refl eq_refl eq_refl Hrun4 "peer" 1 w eq_refl Hw) as [H _].
    destruct (H "rule-a" rule_a_unreserved) as [Hq|Hob]; [exact Hq|]. exfalso. revert Hob Hw. clear.
    unfold obeys. intros Hob Hw. vm_compute in Hw. injection Hw as <-. vm_compute in Hob. discriminate Hob.
Defined.
