(* ===== verification/Certificate.v ===== *)
(** * Certificates of the webhook

    pkg/cert/certificate.go and pkg/cert/renewer.go: the self-signed certificate of
    the webhook server, its files, and the loop that renews it. *)

From stdpp Require Import gmap strings list.
From S2P Require Import Prelude Errors.
Open Scope string_scope.
Open Scope go_scope.

(** ** Data *)

(** Byte slices that may be nil. *)
Record Certificate := mkCertificate {
  CACertificate : option string;
  CAPrivateKey : option string;
  ServerCertificate : option string;
  ServerPrivateKey : option string }.

Definition caCertificateFileName : string := "ca.crt".
Definition caPrivateKeyFileName : string := "ca.key".
Definition serverCertificateFileName : string := "tls.crt".
Definition serverPrivateKeyFileName : string := "tls.key".

Definition certificate_files : list string :=
  [caCertificateFileName; caPrivateKeyFileName; serverCertificateFileName; serverPrivateKeyFileName].

(** The fields of [x509.Certificate] that a template sets. *)
Record CertTemplate := mkCertTemplate {
  ct_DNSNames : list string;
  ct_SerialNumber : Z;
  ct_CommonName : string;
  ct_NotBefore : Z;
  ct_NotAfter : Z;
  ct_SubjectKeyId : list Z;
  ct_ExtKeyUsage : list string;
  ct_KeyUsage : list string;
  ct_IsCA : bool;
  ct_BasicConstraintsValid : bool }.

(** The cryptographic packages, and the calendar. *)
Class CryptoLib : Type := {
  RSAKey : Type;
  CertPool : Type;
  ParsedCert : Type;
  x509_MarshalPKCS1PrivateKey : RSAKey → string;
  pem_EncodeToMemory : string → string → option string;
  pem_Decode : string → option string;
  tls_X509KeyPair : string → string → option error;
  pool_FromPEM : string → option CertPool;
  x509_ParseCertificate : string → result error ParsedCert;
  x509_Verify : ParsedCert → string → CertPool → Z → option error;
  (** [t.AddDate(years, months, days)] *)
  time_AddDate : Z → Z → Z → Z → Z }.

(** The host: clock, randomness and files. A file is named by its directory and its
    name. *)
Class HostEnv (S : Type) `{CryptoLib} : Type := {
  host_Now : ST S Z;
  rsa_GenerateKey : Z → ST S (result error RSAKey);
  (** template, parent, the key that is certified, the key that signs *)
  x509_CreateCertificate : CertTemplate → CertTemplate → RSAKey → RSAKey → ST S (result error string);
  os_MkdirAll : string → ST S (option error);
  os_ReadFile : string → string → ST S (result error string);
  os_WriteFile : string → string → string → ST S (option error) }.

Section certificate.
Context {S : Type} `{CL : CryptoLib} `{HE : !HostEnv S} `{EL : ErrorLib}.

(** ** certificate.go *)

Definition key_usages : list string := ["ClientAuth"; "ServerAuth"].

Definition commonName (dnsNames : list string) : string :=
  match dnsNames with [] => "unspecified" | d :: _ => d end.

Definition ca_template (dnsNames : list string) (from until : Z) : CertTemplate :=
  mkCertTemplate [] 2020 (commonName dnsNames) from until [] key_usages ["DigitalSignature"; "CertSign"] true true.

Definition server_template (dnsNames : list string) (from until : Z) : CertTemplate :=
  mkCertTemplate dnsNames 1658 (commonName dnsNames) from until [1; 2; 3; 4; 6]%Z key_usages
    ["DigitalSignature"] false false.

(** The clock is read for each of the two bounds. *)
Definition one_year (k : Z → Z → CertTemplate) : ST S CertTemplate :=
  let! from := host_Now in
  let! now := host_Now in
  return! (k from (time_AddDate now 1 0 0)).

(** [NewCertificate]. When the PEM encoding fails the code wraps an error that is
    nil, and so returns neither a certificate nor an error. *)
Definition NewCertificate (dnsNames : list string) : ST S (option Certificate * option error) :=
  let! k := rsa_GenerateKey 2048 in
  match k with
  | Err e => return! (None, Some (Wrap e "generating CA private key failed"))
  | Ok caPrivateKey =>
  match pem_EncodeToMemory "RSA PRIVATE KEY" (x509_MarshalPKCS1PrivateKey caPrivateKey) with
  | None => return! (None, Wrap_opt None "encoding CA private key failed")
  | Some caKeyPEM =>
  let! caConfiguration := one_year (ca_template dnsNames) in
  let! c := x509_CreateCertificate caConfiguration caConfiguration caPrivateKey caPrivateKey in
  match c with
  | Err e => return! (None, Some (Wrap e "creating CA certificate failed"))
  | Ok caCertificate =>
  match pem_EncodeToMemory "CERTIFICATE" caCertificate with
  | None => return! (None, Wrap_opt None "encoding CA certificate failed")
  | Some caPEM =>
  let! k := rsa_GenerateKey 4096 in
  match k with
  | Err e => return! (None, Some (Wrap e "generating server private key failed"))
  | Ok serverPrivateKey =>
  match pem_EncodeToMemory "RSA PRIVATE KEY" (x509_MarshalPKCS1PrivateKey serverPrivateKey) with
  | None => return! (None, Wrap_opt None "encoding server private key failed")
  | Some serverKeyPEM =>
  let! serverConfiguration := one_year (server_template dnsNames) in
  let! c := x509_CreateCertificate serverConfiguration caConfiguration serverPrivateKey caPrivateKey in
  match c with
  | Err e => return! (None, Some (Wrap e "creating server certificate failed"))
  | Ok serverCertificate =>
  match pem_EncodeToMemory "CERTIFICATE" serverCertificate with
  | None => return! (None, Wrap_opt None "encoding server certificate failed")
  | Some serverPEM =>
  return! (Some (mkCertificate (Some caPEM) (Some caKeyPEM) (Some serverPEM) (Some serverKeyPEM)), None)
  end end end end end end end end.

Definition NewCertificateFromFileContents (m : gmap string string) : Certificate :=
  mkCertificate (m !! caCertificateFileName) (m !! caPrivateKeyFileName)
    (m !! serverCertificateFileName) (m !! serverPrivateKeyFileName).

(** The files are read in the order of a map iteration; every failure is kept. *)
Fixpoint read_loop (dir : string) (order : list string) (contents : gmap string string) (errs : list error)
    : ST S (gmap string string * list error) :=
  match order with
  | [] => return! (contents, errs)
  | f :: order' =>
      let! c := os_ReadFile dir f in
      match c with
      | Err e => read_loop dir order' contents (errs ++ [Wrap e "reading certificate file failed"])%list
      | Ok c => read_loop dir order' (<[f := c]> contents) errs
      end
  end.

Definition NewCertificateFromDirectory_in (order : list string) (dir : string) : ST S (option Certificate * option error) :=
  let! r := read_loop dir order ∅ [] in
  if nonempty r.2 then return! (None, Combine r.2)
  else return! (Some (NewCertificateFromFileContents r.1), None).
Definition NewCertificateFromDirectory : string → ST S (option Certificate * option error) :=
  NewCertificateFromDirectory_in certificate_files.

(** [Certificate.Verify]; the receiver may be nil. *)
Definition Certificate_Verify (certificate : option Certificate) (dnsName : string) (checkTime : Z) : bool :=
  match certificate with
  | Some (mkCertificate (Some ca) _ (Some cert) (Some key)) =>
      match tls_X509KeyPair cert key with
      | Some _ => false
      | None =>
          match pool_FromPEM ca with
          | None => false
          | Some pool =>
              match pem_Decode cert with
              | None => false
              | Some block =>
                  match x509_ParseCertificate block with
                  | Err _ => false
                  | Ok x => match x509_Verify x dnsName pool checkTime with None => true | Some _ => false end
                  end
              end
          end
      end
  | _ => false
  end.

(** The content of the file of a name; nil is written as nothing. *)
Definition file_content (c : Certificate) (f : string) : string :=
  default "" (if bool_decide (f = caCertificateFileName) then CACertificate c
              else if bool_decide (f = caPrivateKeyFileName) then CAPrivateKey c
              else if bool_decide (f = serverCertificateFileName) then ServerCertificate c
              else ServerPrivateKey c).

Fixpoint write_loop (dir : string) (c : Certificate) (order : list string) : ST S (option error) :=
  match order with
  | [] => return! None
  | f :: order' =>
      let! err := os_WriteFile dir f (file_content c f) in
      match err with
      | Some e => return! Some (Wrap e "writing certificate file failed")
      | None => write_loop dir c order'
      end
  end.

Definition Certificate_Write_in (order : list string) (certificate : option Certificate) (dir : string) : ST S (option error) :=
  match certificate with
  | None => return! Some (errorString "invalid nil certificate")
  | Some c =>
      let! err := os_MkdirAll dir in
      match err with
      | Some e => return! Some (Wrap e "creating directory path failed")
      | None => write_loop dir c order
      end
  end.
Definition Certificate_Write : option Certificate → string → ST S (option error) :=
  Certificate_Write_in certificate_files.

(** ** renewer.go *)

(** What runs after a check: [None] is a nil pointer panic. *)
Definition AfterCheckFunction : Type := option Certificate → bool → ST S (option (option error)).

Record Renewer := mkRenewer {
  rn_dnsNames : list string;
  certificateDirectoryPath : string;
  afterCheckFunctions : list AfterCheckFunction }.

Definition WithAfterCheckFunctions (fs : list AfterCheckFunction) (r : Renewer) : Renewer :=
  mkRenewer (rn_dnsNames r) (certificateDirectoryPath r) (afterCheckFunctions r ++ fs)%list.
Definition WithDNSNames (dnsNames : list string) (r : Renewer) : Renewer :=
  mkRenewer dnsNames (certificateDirectoryPath r) (afterCheckFunctions r).

(** The loop of [verifyCertificate]: the clock is read for every name. *)
Fixpoint verify_loop (certificate : option Certificate) (dnsNames : list string) : ST S bool :=
  match dnsNames with
  | [] => return! true
  | dnsName :: dnsNames' =>
      let! now := host_Now in
      if Certificate_Verify certificate dnsName (time_AddDate now 0 6 0)
      then verify_loop certificate dnsNames' else return! false
  end.

Definition verifyCertificate (r : Renewer) : ST S (bool * option Certificate * option error) :=
  let! c := NewCertificateFromDirectory (certificateDirectoryPath r) in
  match c with
  | (_, Some e) => return! (false, None, Some (Wrap e "loading certificate from directory failed"))
  | (certificate, None) =>
      let dnsNames := if nonempty (rn_dnsNames r) then rn_dnsNames r else [""] in
      let! isValid := verify_loop certificate dnsNames in
      return! (isValid, certificate, None)
  end.

Definition renewCertificate (r : Renewer) : ST S (option Certificate * option error) :=
  let! c := NewCertificate (rn_dnsNames r) in
  match c with
  | (_, Some e) => return! (None, Some (Wrap e "creating new certificate for DNS names failed"))
  | (certificate, None) =>
      let! err := Certificate_Write certificate (certificateDirectoryPath r) in
      match err with
      | Some e => return! (None, Some (Wrap e "writing renewed certificate to directory failed"))
      | None => return! (certificate, None)
      end
  end.

(** The errors of the functions are only logged; [None] when one of them panics. *)
Fixpoint after_loop (fs : list AfterCheckFunction) (certificate : option Certificate) (needsUpdate : bool)
    : ST S (option (option error)) :=
  match fs with
  | [] => return! Some None
  | f :: fs' =>
      let! out := f certificate needsUpdate in
      match out with
      | None => return! None
      | Some _ => after_loop fs' certificate needsUpdate
      end
  end.

(** The certificate after a check, and whether it was renewed. *)
Definition current_certificate (r : Renewer) : ST S (option Certificate * bool) :=
  let! v := verifyCertificate r in
  let '(isValid, certificate, _) := v in
  if (isValid : bool) then return! (certificate, false)
  else let! c := renewCertificate r in return! (c.1, true).

Definition checkCertificate (r : Renewer) (wasTriggered : bool) : ST S (option (option error)) :=
  let! c := current_certificate r in
  after_loop (afterCheckFunctions r) c.1 (c.2 || wasTriggered).

Definition NewRenewer (dnsNames : list string) (dir : string) (shouldCheckCertificate : bool)
    (fs : list AfterCheckFunction) : ST S (option (result error Renewer)) :=
  let r := mkRenewer dnsNames dir fs in
  if shouldCheckCertificate then
    let! out := checkCertificate r true in
    match out with
    | None => return! None
    | Some (Some e) => return! Some (Err (Wrap e "checking certificate failed"))
    | Some None => return! Some (Ok r)
    end
  else return! Some (Ok r).

(** What the loop of [Start] sees until its context is done. *)
Inductive renewer_event := Triggered | Ticked.

Fixpoint renewer_loop (r : Renewer) (events : list renewer_event) : ST S (option (option error)) :=
  match events with
  | [] => return! Some None
  | e :: events' =>
      let! out := checkCertificate r (match e with Triggered => true | Ticked => false end) in
      match out with
      | None => return! None
      | Some _ => renewer_loop r events'
      end
  end.

Definition Renewer_Start (r : Renewer) (events : list renewer_event) : ST S (option (option error)) :=
  let! out := checkCertificate r true in
  match out with
  | None => return! None
  | Some (Some e) => return! Some (Some (Wrap e "checking certificate failed"))
  | Some None => renewer_loop r events
  end.
End certificate.
