(* ===== verification/CertFacts.v ===== *)
(** * Certificates: what the renewer guarantees

    Against a host whose files behave as documented, and a cryptographic library that
    accepts what it issued: the files of a certificate read back, and a renewed
    certificate passes the check that asked for it, so that renewals do not repeat. *)

From stdpp Require Import gmap strings list.
From S2P Require Import Prelude Errors Certificate.
Open Scope string_scope.
Open Scope go_scope.

(** Documented behaviour of the host: only [os.WriteFile] changes files, what was
    written can be read, and the clock does not go back. [ReadFile_stored] is an
    idealisation: it leaves out that the operating system may fail to read a file that
    is stored (permissions, a faulty disk), which the round trips below cannot survive. *)
Class HostLaws (S : Type) `{HE : HostEnv S} : Type := {
  files : S → gmap (string * string) string;
  clock : S → Z;
  quiet_host (s s' : S) : Prop := files s' = files s ∧ (clock s ≤ clock s')%Z;
  host_Now_quiet : moves quiet_host host_Now;
  host_Now_reads s : (host_Now s).1 = clock (host_Now s).2;
  GenerateKey_quiet n : moves quiet_host (rsa_GenerateKey n);
  CreateCertificate_quiet t p k sk : moves quiet_host (x509_CreateCertificate t p k sk);
  MkdirAll_quiet d : moves quiet_host (os_MkdirAll d);
  ReadFile_quiet d f : moves quiet_host (os_ReadFile d f);
  ReadFile_read d f s c : (os_ReadFile d f s).1 = Ok c → files s !! (d, f) = Some c;
  ReadFile_stored d f s c : files s !! (d, f) = Some c → (os_ReadFile d f s).1 = Ok c;
  WriteFile_clock d f c s : (clock s ≤ clock (os_WriteFile d f c s).2)%Z;
  WriteFile_stores d f c s :
    (os_WriteFile d f c s).1 = None → files (os_WriteFile d f c s).2 = <[(d, f) := c]> (files s) }.

(** Documented behaviour of the cryptographic packages on what they issued
    themselves. *)
Class CryptoLaws (S : Type) `{HE : HostEnv S} : Type := {
  (** template, parent, certified key, signing key, and the certificate *)
  issued : CertTemplate → CertTemplate → RSAKey → RSAKey → string → Prop;
  CreateCertificate_issues t p k sk s der s' :
    x509_CreateCertificate t p k sk s = (Ok der, s') → issued t p k sk der;
  pem_round_trip ty b p : pem_EncodeToMemory ty b = Some p → pem_Decode p = Some b;
  KeyPair_issued t p k sk der c kp :
    issued t p k sk der → pem_EncodeToMemory "CERTIFICATE" der = Some c →
    pem_EncodeToMemory "RSA PRIVATE KEY" (x509_MarshalPKCS1PrivateKey k) = Some kp →
    tls_X509KeyPair c kp = None;
  pool_issued t p k sk der c :
    issued t p k sk der → pem_EncodeToMemory "CERTIFICATE" der = Some c → is_Some (pool_FromPEM c);
  parse_issued t p k sk der : issued t p k sk der → ∃ x, x509_ParseCertificate der = Ok x;
  verify_issued ca k caDer caPEM pool srv sk der x d t :
    issued ca ca k k caDer → ct_IsCA ca = true → ct_BasicConstraintsValid ca = true →
    pem_EncodeToMemory "CERTIFICATE" caDer = Some caPEM → pool_FromPEM caPEM = Some pool →
    issued srv ca sk k der → x509_ParseCertificate der = Ok x →
    (d = "" ∨ d ∈ ct_DNSNames srv) →
    (ct_NotBefore ca ≤ t ≤ ct_NotAfter ca)%Z → (ct_NotBefore srv ≤ t ≤ ct_NotAfter srv)%Z →
    x509_Verify x d pool t = None }.

#[global] Instance quiet_host_preorder {S} `{HL : HostLaws S} : PreOrder quiet_host.
Proof.
  split; [by intros s|]. intros s1 s2 s3 [Hf1 Hc1] [Hf2 Hc2]. split; [congruence|]. etrans; eassumption.
Qed.

#[export] Hint Resolve host_Now_quiet GenerateKey_quiet CreateCertificate_quiet MkdirAll_quiet ReadFile_quiet : registry.

Section files.
Context {S : Type} `{HE : HostEnv S} `{EL : ErrorLib} `{HL : !HostLaws S}.

(** ** The files of a certificate *)

Lemma read_loop_stored dir order m s :
  (∀ f, f ∈ order → is_Some (files s !! (dir, f))) →
  ∃ m' s', read_loop dir order m [] s = ((m', []), s') ∧ quiet_host s s'
           ∧ ∀ f, m' !! f = if decide (f ∈ order) then files s !! (dir, f) else m !! f.
Proof.
  revert m s. induction order as [|f order IH]; intros m s Hst; simpl.
  { exists m, s. split_and!; [done|done|]. done. }
  destruct (Hst f ltac:(left)) as [c Hc]. unfold st_bind.
  pose proof (ReadFile_stored dir f s c Hc) as Hr. pose proof (ReadFile_quiet dir f s) as [Hf Hk].
  destruct (os_ReadFile dir f s) as [r s1]. simpl in Hr, Hf, Hk. subst r.
  destruct (IH (<[f:=c]> m) s1) as (m' & s' & -> & Hq & Hm).
  { intros g Hg. rewrite Hf. apply Hst. by right. }
  exists m', s'. split_and!; [done|by trans s1|]. intros g. rewrite Hm, Hf.
  destruct (decide (g = f)) as [->|Hne].
  - rewrite lookup_insert_eq, Hc, (decide_True (P := f ∈ f :: order)) by left. by case_decide.
  - rewrite lookup_insert_ne by done. repeat case_decide; set_solver.
Qed.

Lemma write_loop_stores dir c order s s' :
  write_loop dir c order s = (None, s') →
  (clock s ≤ clock s')%Z
  ∧ ∀ f, f ∈ order → files s' !! (dir, f) = Some (file_content c f).
Proof.
  assert (Hgen : ∀ order s s', write_loop dir c order s = (None, s') →
    (clock s ≤ clock s')%Z ∧ ∀ f, files s' !! (dir, f) =
      if decide (f ∈ order) then Some (file_content c f) else files s !! (dir, f)).
  { clear. induction order as [|f order IH]; intros s s' Hw; simpl in Hw.
    { injection Hw as <-. by split. }
    unfold st_bind in Hw. pose proof (WriteFile_stores dir f (file_content c f) s) as Hs.
    pose proof (WriteFile_clock dir f (file_content c f) s) as Hk.
    destruct (os_WriteFile dir f (file_content c f) s) as [[e|] s1]; [done|]. simpl in *.
    apply IH in Hw as [Hk' Hw]. split; [lia|]. intros g. rewrite Hw, (Hs eq_refl).
    destruct (decide (g = f)) as [->|Hne].
    - rewrite lookup_insert_eq, (decide_True (P := f ∈ f :: order)) by left. by case_decide.
    - rewrite lookup_insert_ne by congruence. repeat case_decide; set_solver. }
  intros Hw. apply Hgen in Hw as [Hk Hw]. split; [done|]. intros f Hf. by rewrite Hw, decide_True.
Qed.

(** What is read back: nil and empty files are the same. *)
Definition filled (c : Certificate) : Certificate :=
  mkCertificate (Some (default "" (CACertificate c))) (Some (default "" (CAPrivateKey c)))
    (Some (default "" (ServerCertificate c))) (Some (default "" (ServerPrivateKey c))).

Lemma read_written dir c order s :
  order ≡ₚ certificate_files →
  (∀ f, f ∈ certificate_files → files s !! (dir, f) = Some (file_content c f)) →
  ∃ s', NewCertificateFromDirectory_in order dir s = ((Some (filled c), None), s') ∧ quiet_host s s'.
Proof.
  intros Hp Hst. destruct (read_loop_stored dir order ∅ s) as (m & s' & Hr & Hq & Hm).
  { intros f Hf. rewrite Hp in Hf. rewrite Hst by done. eauto. }
  exists s'. unfold NewCertificateFromDirectory_in, st_bind. rewrite Hr. simpl. split; [|done].
  unfold NewCertificateFromFileContents, filled. rewrite !Hm.
  rewrite !decide_True by (rewrite Hp; set_solver).
  by rewrite !Hst by set_solver.
Qed.

Lemma written_files dir c order s s' :
  order ≡ₚ certificate_files → Certificate_Write_in order (Some c) dir s = (None, s') →
  (clock s ≤ clock s')%Z ∧ ∀ f, f ∈ certificate_files → files s' !! (dir, f) = Some (file_content c f).
Proof.
  intros Hp Hw. unfold Certificate_Write_in, st_bind in Hw. pose proof (MkdirAll_quiet dir s) as [_ Hk].
  destruct (os_MkdirAll dir s) as [[e|] s1]; [done|]. simpl in Hk.
  apply write_loop_stores in Hw as [Hk' Hw]. split; [lia|]. intros f Hf. apply Hw. by rewrite Hp.
Qed.

(** C37: a certificate that was written to a directory reads back as it was, a nil field
    as an empty one, whatever the order in which its files are written and read. *)
Theorem certificate_round_trip c dir order1 order2 s s1 s2 :
  order1 ≡ₚ certificate_files → order2 ≡ₚ certificate_files →
  Certificate_Write_in order1 (Some c) dir s = (None, s1) → files s2 = files s1 →
  (NewCertificateFromDirectory_in order2 dir s2).1 = (Some (filled c), None).
Proof.
  intros Hp1 Hp2 Hw Hf. destruct (written_files _ _ _ _ _ Hp1 Hw) as [_ Hst].
  destruct (read_written dir c order2 s2) as (s' & -> & _); [done| |done].
  intros f Hin. rewrite Hf. by apply Hst.
Qed.
End files.

(** ** What a check leaves *)

Section check.
Context {S : Type} `{HE : HostEnv S} `{EL : ErrorLib} `{HL : !HostLaws S}.

(** What was read is what the directory holds. *)
Lemma read_loop_read dir order m s m' s' :
  read_loop dir order m [] s = ((m', []), s') →
  quiet_host s s' ∧ ∀ f, f ∈ order → m' !! f = files s !! (dir, f) ∧ is_Some (files s !! (dir, f)).
Proof.
  assert (Herr : ∀ order m e errs s, nonempty (read_loop dir order m (e :: errs) s).1.2 = true).
  { clear. induction order as [|f order IH]; intros m e errs s; simpl; [done|]. unfold st_bind.
    destruct (os_ReadFile dir f s) as [[c|e'] s1]; apply IH. }
  assert (Hgen : ∀ order m s m' s', read_loop dir order m [] s = ((m', []), s') →
    quiet_host s s' ∧ (∀ f, f ∈ order → is_Some (files s !! (dir, f)))
    ∧ ∀ f, m' !! f = if decide (f ∈ order) then files s !! (dir, f) else m !! f).
  { induction order0 as [|f order0 IH]; intros m0 s0 m1 s1 Hr; simpl in Hr.
    { injection Hr as <- <-. split_and!; [done|set_solver|done]. }
    unfold st_bind in Hr. pose proof (ReadFile_quiet dir f s0) as Hq. pose proof (ReadFile_read dir f s0) as Hc.
    destruct (os_ReadFile dir f s0) as [[c|e] s2]; simpl in *.
    2: { specialize (Herr order0 m0 (Wrap e "reading certificate file failed") [] s2). rewrite Hr in Herr. done. }
    apply IH in Hr as (Hq' & Hs & Hm). pose proof Hq as [Hf _]. rewrite Hf in Hs. split_and!; [by trans s2| |].
    { intros g [->|Hg]%elem_of_cons; [rewrite (Hc c eq_refl); eauto|auto]. }
    intros g. rewrite Hm, Hf.
    destruct (decide (g = f)) as [->|Hne].
    - rewrite lookup_insert_eq, (Hc c eq_refl), (decide_True (P := f ∈ f :: order0)) by left. by case_decide.
    - rewrite lookup_insert_ne by done. repeat case_decide; set_solver. }
  intros Hr. apply Hgen in Hr as (Hq & Hs & Hm). split; [done|]. intros f Hf. rewrite Hm, decide_True by done. auto.
Qed.

Lemma verify_loop_quiet c names : moves quiet_host (verify_loop (S := S) c names).
Proof. induction names as [|d names IH]; simpl; [apply moves_ret|]. moves_tac. Qed.

(** A certificate that comes out of a check is the one in the directory. *)
Lemma current_certificate_stored r c b s s' :
  current_certificate r s = ((Some c, b), s') →
  files s' !! (certificateDirectoryPath r, caCertificateFileName) = Some (default "" (CACertificate c)).
Proof.
  unfold current_certificate. unfold st_bind at 1. destruct (verifyCertificate r s) as [[[v oc] oe] s1] eqn:Hv.
  destruct v.
  - intros [= -> <- <-]. unfold verifyCertificate, NewCertificateFromDirectory, NewCertificateFromDirectory_in, st_bind in Hv.
    destruct (read_loop (certificateDirectoryPath r) certificate_files ∅ [] s) as [[m errs] s2] eqn:Hr.
    destruct errs as [|e errs]; simpl in Hv; [|by destruct (Combine_cons e errs) as [? Hcomb]; rewrite Hcomb in Hv].
    apply read_loop_read in Hr as [[Hf _] Hm].
    match type of Hv with context [verify_loop ?c ?n s2] => pose proof (verify_loop_quiet c n s2) as [Hf' _];
      destruct (verify_loop c n s2) as [ok s3] end.
    injection Hv as -> <- <- <-. simpl in Hf'. rewrite Hf', Hf.
    destruct (Hm caCertificateFileName) as [Hca [ca Hst]]; [unfold certificate_files; set_solver|].
    unfold NewCertificateFromFileContents. simpl. by rewrite Hca, Hst.
  - unfold st_bind, renewCertificate. unfold st_bind at 1.
    destruct (NewCertificate (rn_dnsNames r) s1) as [[nc [e|]] s2]; [done|]. unfold st_bind.
    destruct (Certificate_Write nc (certificateDirectoryPath r) s2) as [[e|] s3] eqn:Hw; [done|].
    simpl. intros [= -> <- <-]. apply written_files in Hw as [_ Hw]; [|done].
    rewrite Hw by (unfold certificate_files; set_solver). done.
Qed.
End check.

(** ** Renewal *)

Section renewal.
Context {S : Type} `{HE : HostEnv S} `{EL : ErrorLib} `{HL : !HostLaws S} `{CLs : !CryptoLaws S}.

Lemma one_year_quiet k : moves quiet_host (one_year k).
Proof. unfold one_year. moves_tac. Qed.

(** The two clock readings of a template are taken while it is made. *)
Lemma one_year_bounds k s s' t :
  one_year k s = (t, s') →
  ∃ from now, t = k from (time_AddDate now 1 0 0)
    ∧ (from ≤ clock s')%Z ∧ (clock s ≤ now ≤ clock s')%Z ∧ quiet_host s s'.
Proof.
  intros Ht. pose proof (one_year_quiet k s) as Hq. rewrite Ht in Hq. simpl in Hq.
  unfold one_year, st_bind in Ht.
  pose proof (host_Now_reads s) as Hr1. pose proof (host_Now_quiet s) as [_ Hq1].
  destruct (host_Now s) as [from s1]. simpl in Hr1, Hq1.
  pose proof (host_Now_reads s1) as Hr2. pose proof (host_Now_quiet s1) as [_ Hq2].
  destruct (host_Now s1) as [now s2]. simpl in Hr2, Hq2. injection Ht as <- <-.
  exists from, now. split_and!; [done|lia|lia|lia|done].
Qed.

(** A new certificate is accepted for its names, until a year after it was made. *)
Lemma NewCertificate_accepted dnsNames s c s' :
  NewCertificate dnsNames s = ((Some c, None), s') →
  quiet_host s s' ∧ filled c = c
  ∧ ∃ now1 now2, (clock s ≤ now1 ≤ clock s')%Z ∧ (clock s ≤ now2 ≤ clock s')%Z
    ∧ ∀ d t, d = "" ∨ d ∈ dnsNames → (clock s' ≤ t)%Z →
        (t ≤ time_AddDate now1 1 0 0)%Z → (t ≤ time_AddDate now2 1 0 0)%Z →
        Certificate_Verify (Some c) d t = true.
Proof.
  unfold NewCertificate. unfold st_bind at 1.
  pose proof (GenerateKey_quiet 2048 s) as Hq1. destruct (rsa_GenerateKey 2048 s) as [[ck|e] s1]; [|done]. simpl in Hq1.
  destruct (pem_EncodeToMemory "RSA PRIVATE KEY" (x509_MarshalPKCS1PrivateKey ck)) as [ckp|]; [|done].
  unfold st_bind at 1. destruct (one_year (ca_template dnsNames) s1) as [ct s2] eqn:Hct.
  apply one_year_bounds in Hct as (f1 & n1 & -> & Hf1 & Hn1 & Hq2).
  unfold st_bind at 1. set (ca := ca_template dnsNames f1 _). pose proof (CreateCertificate_quiet ca ca ck ck s2) as Hq3.
  destruct (x509_CreateCertificate ca ca ck ck s2) as [[caDer|e] s3] eqn:Hca; [|done]. simpl in Hq3.
  apply CreateCertificate_issues in Hca.
  destruct (pem_EncodeToMemory "CERTIFICATE" caDer) as [caPEM|] eqn:HcaPEM; [|done].
  unfold st_bind at 1. pose proof (GenerateKey_quiet 4096 s3) as Hq4.
  destruct (rsa_GenerateKey 4096 s3) as [[sk|e] s4]; [|done]. simpl in Hq4.
  destruct (pem_EncodeToMemory "RSA PRIVATE KEY" (x509_MarshalPKCS1PrivateKey sk)) as [skp|] eqn:Hskp; [|done].
  unfold st_bind at 1. destruct (one_year (server_template dnsNames) s4) as [st s5] eqn:Hst.
  apply one_year_bounds in Hst as (f2 & n2 & -> & Hf2 & Hn2 & Hq5).
  unfold st_bind at 1. set (srv := server_template dnsNames f2 _). pose proof (CreateCertificate_quiet srv ca sk ck s5) as Hq6.
  destruct (x509_CreateCertificate srv ca sk ck s5) as [[der|e] s6] eqn:Hder; [|done]. simpl in Hq6.
  apply CreateCertificate_issues in Hder.
  destruct (pem_EncodeToMemory "CERTIFICATE" der) as [pem|] eqn:Hpem; [|done].
  intros [= <- <-].
  destruct Hq1 as [? ?], Hq2 as [? ?], Hq3 as [? ?], Hq4 as [? ?], Hq5 as [? ?], Hq6 as [? ?].
  split_and!; [split; [congruence|lia]|done|]. exists n1, n2. split_and!; [lia..|].
  intros d t Hd Hlow Hup1 Hup2. unfold Certificate_Verify.
  rewrite (KeyPair_issued _ _ _ _ _ _ _ Hder Hpem Hskp).
  destruct (pool_issued _ _ _ _ _ _ Hca HcaPEM) as [pool Hpool]. rewrite Hpool, (pem_round_trip _ _ _ Hpem).
  destruct (parse_issued _ _ _ _ _ Hder) as [x Hx]. rewrite Hx.
  rewrite (verify_issued ca ck caDer caPEM pool srv sk der x d t); simpl; first [done|lia|by destruct Hd; eauto|idtac].
Qed.

(** The names a renewer checks. *)
Definition checked_names (r : Renewer (S := S)) : list string :=
  if nonempty (rn_dnsNames r) then rn_dnsNames r else [""].

Lemma verify_loop_valid c names s :
  (∀ d t, d ∈ names → (clock s ≤ t ≤ clock (verify_loop c names s).2)%Z →
     Certificate_Verify c d (time_AddDate t 0 6 0) = true) →
  (verify_loop c names s).1 = true.
Proof.
  revert s. induction names as [|d names IH]; intros s Hv; [done|]. simpl in *. unfold st_bind in *.
  pose proof (host_Now_reads s) as Hr. pose proof (host_Now_quiet s) as [_ Hq].
  destruct (host_Now s) as [now s1]. simpl in Hr, Hq.
  assert (Hl : ∀ s, (clock s ≤ clock (verify_loop c names s).2)%Z).
  { assert (Hm : moves quiet_host (verify_loop c names)).
    { clear. induction names as [|d names IH]; simpl; [apply moves_ret|]. moves_tac. }
    intros s0. apply (Hm s0). }
  destruct (Certificate_Verify c d (time_AddDate now 0 6 0)) eqn:Hc.
  - apply IH. intros d' t Hd Ht. apply Hv; [by right|]. specialize (Hl s1). lia.
  - simpl in Hv. rewrite Hv in Hc; [done|left|]. lia.
Qed.

(** C36: renewing a certificate ends the renewals. A certificate that was renewed
    without an error is the one that the next check reads from the directory, and the
    check finds it valid for every name of the renewer, as long as six months from the
    check the year of the certificate has not passed: it is not renewed again. *)
Theorem renewed_certificate_is_valid r c s s1 s2 :
  renewCertificate r s = ((Some c, None), s1) →
  files s2 = files s1 →
  ∃ now1 now2, (clock s ≤ now1 ≤ clock s1)%Z ∧ (clock s ≤ now2 ≤ clock s1)%Z
  ∧ ((∀ t, (clock s2 ≤ t ≤ clock (verifyCertificate r s2).2)%Z →
        (clock s1 ≤ time_AddDate t 0 6 0)%Z
        ∧ (time_AddDate t 0 6 0 ≤ time_AddDate now1 1 0 0)%Z ∧ (time_AddDate t 0 6 0 ≤ time_AddDate now2 1 0 0)%Z) →
     (verifyCertificate r s2).1 = (true, Some c, None) ∧ (current_certificate r s2).1 = (Some c, false)).
Proof.
  intros Hr Hfs. unfold renewCertificate, st_bind in Hr.
  destruct (NewCertificate (rn_dnsNames r) s) as [[oc [e|]] s'] eqn:Hn; [done|].
  destruct (Certificate_Write oc (certificateDirectoryPath r) s') as [[e|] s''] eqn:Hw; [done|].
  injection Hr as -> ->. apply NewCertificate_accepted in Hn as (_ & Hc & now1 & now2 & H1 & H2 & Hv).
  apply written_files in Hw as [Hk Hst]; [|done]. exists now1, now2. split_and!; [lia..|]. intros Hwin.
  destruct (read_written (certificateDirectoryPath r) c certificate_files s2) as (s3 & Hrd & Hq & Hq'); [done| |].
  { intros f Hf. rewrite Hfs. by apply Hst. }
  rewrite Hc in Hrd.
  assert (Hver : (verifyCertificate r s2).1 = (true, Some c, None)).
  { unfold verifyCertificate, NewCertificateFromDirectory, st_bind in Hwin |- *. rewrite Hrd in Hwin |- *. fold (checked_names r) in Hwin |- *.
    pose proof (verify_loop_valid (Some c) (checked_names r) s3) as Hvl.
    destruct (verify_loop (Some c) (checked_names r) s3) as [b s4] eqn:Hb. simpl in Hvl, Hwin |- *.
    rewrite Hvl; [done|]. intros d t Hd Ht. destruct (Hwin t) as (Hw1 & Hw2 & Hw3); [lia|]. apply Hv; [|lia..].
    unfold checked_names in Hd. destruct (rn_dnsNames r); simpl in Hd; [left; set_solver|by right]. }
  split; [done|]. unfold current_certificate, st_bind. destruct (verifyCertificate r s2) as [v s4].
  simpl in Hver. by subst v.
Qed.
End renewal.
