(* ===== verification/Certifier.v ===== *)
(** * The certifier of the webhook

    pkg/cert/webhook_certifier.go: keeps the certificate authority of the current
    certificate in the webhook configuration, and reports readiness once it is there. *)

From stdpp Require Import gmap strings list.
From S2P Require Import Prelude Errors Types Certificate CertFacts.
Open Scope string_scope.
Open Scope go_scope.

(** ** Data *)

Record ServiceReference := mkServiceReference { svc_Name : string; svc_Namespace : string }.

(** The fields of a webhook that are read or set; the service may be nil. *)
Record AdmWebhook := mkAdmWebhook {
  aw_Name : string;
  aw_FailurePolicy : string;
  aw_Service : option ServiceReference;
  aw_CABundle : option string }.

(** A mutating or a validating webhook configuration. *)
Record WebhookConfig := mkWebhookConfig {
  wc_meta : ObjectMeta;
  wc_Webhooks : list AdmWebhook }.
Definition WebhookConfig_zero : WebhookConfig := mkWebhookConfig (named_meta "" "") [].

Inductive WebhookKind := MutatingWebhookConfiguration | ValidatingWebhookConfiguration.

Record WebhookCertifier := mkWebhookCertifier {
  webhookName : string;
  webhookNamespace : string;
  mutatingWebhookConfiguration : option WebhookConfig;
  validatingWebhookConfiguration : option WebhookConfig;
  webhookCertBundleReadyz : bool;
  triggersClosed : bool }.

Definition set_configs (m v : option WebhookConfig) (c : WebhookCertifier) : WebhookCertifier :=
  mkWebhookCertifier (webhookName c) (webhookNamespace c) m v (webhookCertBundleReadyz c) (triggersClosed c).
Definition set_readyz (b : bool) (c : WebhookCertifier) : WebhookCertifier :=
  mkWebhookCertifier (webhookName c) (webhookNamespace c) (mutatingWebhookConfiguration c)
    (validatingWebhookConfiguration c) b (triggersClosed c).
Definition close_triggers (c : WebhookCertifier) : WebhookCertifier :=
  mkWebhookCertifier (webhookName c) (webhookNamespace c) (mutatingWebhookConfiguration c)
    (validatingWebhookConfiguration c) (webhookCertBundleReadyz c) true.

(** The API server, the informers, and the patch library: whether the patch from the
    first object to the second is empty, and the annotation of the last applied state. *)
Class WebhookEnv (E : Type) : Type := {
  webhook_Get : WebhookKind → NamespacedName → ST E (result error WebhookConfig);
  webhook_Update : WebhookKind → WebhookConfig → ST E (result error WebhookConfig);
  webhook_GetInformer : WebhookKind → ST E (option error);
  patch_Calculate : WebhookConfig → WebhookConfig → result error bool;
  patch_SetLastAppliedAnnotation : WebhookConfig → result error WebhookConfig }.

(** The certifier and its environment; the host is part of the environment. *)
#[global] Instance certifier_host {E} `{CL : CryptoLib} `{HE : !HostEnv E} : HostEnv (WebhookCertifier * E) := {|
  host_Now w := let '(a, e) := host_Now w.2 in (a, (w.1, e));
  rsa_GenerateKey n w := let '(a, e) := rsa_GenerateKey n w.2 in (a, (w.1, e));
  x509_CreateCertificate t p k sk w := let '(a, e) := x509_CreateCertificate t p k sk w.2 in (a, (w.1, e));
  os_MkdirAll d w := let '(a, e) := os_MkdirAll d w.2 in (a, (w.1, e));
  os_ReadFile d f w := let '(a, e) := os_ReadFile d f w.2 in (a, (w.1, e));
  os_WriteFile d f c w := let '(a, e) := os_WriteFile d f c w.2 in (a, (w.1, e)) |}.

Section certifier.
Context {E : Type} `{CL : CryptoLib} `{HE : !HostEnv E} `{WE : !WebhookEnv E} `{EL : ErrorLib}.

Abbreviation W := (WebhookCertifier * E)%type.

Definition on_env {A} (c : ST E A) : ST W A := λ w, let '(a, e) := c w.2 in (a, (w.1, e)).
Definition get_certifier : ST W WebhookCertifier := λ w, (w.1, w).
Definition modify (f : WebhookCertifier → WebhookCertifier) : ST W unit := λ w, (tt, (f w.1, w.2)).

Definition NewWebhookCertifier (name namespace : string) (readyz : bool) : WebhookCertifier :=
  mkWebhookCertifier name namespace None None readyz false.

(** The configuration a certifier works on: a mutating one comes first. *)
Definition chosen (c : WebhookCertifier) : option (WebhookKind * WebhookConfig) :=
  match mutatingWebhookConfiguration c, validatingWebhookConfiguration c with
  | Some m, _ => Some (MutatingWebhookConfiguration, m)
  | None, Some v => Some (ValidatingWebhookConfiguration, v)
  | None, None => None
  end.

Definition set_chosen (k : WebhookKind) (wc : WebhookConfig) (c : WebhookCertifier) : WebhookCertifier :=
  match k with
  | MutatingWebhookConfiguration => set_configs (Some wc) (validatingWebhookConfiguration c) c
  | ValidatingWebhookConfiguration => set_configs (mutatingWebhookConfiguration c) (Some wc) c
  end.

(** The DNS names; [None] when a webhook has no service, which is dereferenced. *)
Definition webhook_dns (w : AdmWebhook) : option string :=
  (λ s, svc_Name s ++ "." ++ svc_Namespace s ++ ".svc") <$> aw_Service w.
Definition dnsNames (c : WebhookCertifier) : option (list string) :=
  match chosen c with
  | Some (_, wc) => mapM webhook_dns (wc_Webhooks wc)
  | None => Some []
  end.

Definition loadWebhookConfiguration : ST W (option error) :=
  let! c := get_certifier in
  let! m := on_env (webhook_Get MutatingWebhookConfiguration (mkNamespacedName (webhookName c) (webhookName c))) in
  match m with
  | Ok wc =>
      let! _ := modify (λ c, set_configs (Some wc) (validatingWebhookConfiguration c) c) in
      return! None
  | Err mutatingErr =>
      let! v := on_env (webhook_Get ValidatingWebhookConfiguration (mkNamespacedName (webhookName c) (webhookNamespace c))) in
      match v with
      | Ok wc => let! _ := modify (set_configs None (Some wc)) in return! None
      | Err validatingErr =>
          let! _ := modify (set_configs None (Some WebhookConfig_zero)) in
          return! Wrap_opt (Combine [mutatingErr; validatingErr])
                    "retrieving webhook configuration failed for each known webhook type"
      end
  end.

Definition no_configuration : error :=
  errorString "invalid certifier, all known webhook configurations are nil".

Definition startWebhookConfigurationInformer : ST W (option error) :=
  let! c := get_certifier in
  match chosen c with
  | None => return! Some no_configuration
  | Some (k, _) =>
      let! err := on_env (webhook_GetInformer k) in
      return! Wrap_opt err "retrieving informer for webhook failed"
  end.

(** The update handler of the informer, on a new object of a kind and a name. *)
Inductive HandlerOutcome := HandlerReturned | HandlerTriggered | HandlerPanicked.

Definition informer_update (k : WebhookKind) (name : string) : ST W HandlerOutcome :=
  let! c := get_certifier in
  match chosen c with
  | None => return! HandlerReturned
  | Some (k', _) =>
      let same := match k, k' with
                  | MutatingWebhookConfiguration, MutatingWebhookConfiguration
                  | ValidatingWebhookConfiguration, ValidatingWebhookConfiguration => true
                  | _, _ => false
                  end in
      if same && bool_decide (name = webhookName c) then
        let! cur := on_env (webhook_Get k (mkNamespacedName (webhookName c) (webhookNamespace c))) in
        match cur with
        | Err _ => return! HandlerReturned
        | Ok _ => if triggersClosed c then return! HandlerPanicked else return! HandlerTriggered
        end
      else return! HandlerReturned
  end.

(** [updateCertificate]. A configuration that is gone counts as the empty one. The
    object that is sent is the certifier's own, which is annotated and, after the
    update, holds what the server answered. *)
Definition updateCertificate : ST W (option error) :=
  let! c := get_certifier in
  match chosen c with
  | None => return! Some (errorString "invalid certifier, all webhook configurations are nil")
  | Some (k, desiredConfig) =>
      let! got := on_env (webhook_Get k (mkNamespacedName (webhookName c) (webhookNamespace c))) in
      match (match got with
             | Ok wc => Ok wc
             | Err e => if IsNotFound e then Ok WebhookConfig_zero else Err e
             end) with
      | Err e => return! Some (Wrap e "retrieving webhook configuration failed")
      | Ok currentConfig =>
          match patch_Calculate currentConfig desiredConfig with
          | Err e => return! Some (Wrap e "calculating config patch failed")
          | Ok true => return! None
          | Ok false =>
              match patch_SetLastAppliedAnnotation desiredConfig with
              | Err e => return! Some (Wrap e "setting last applied annotation on webhook configuration failed")
              | Ok desiredConfig =>
                  let desiredConfig :=
                    mkWebhookConfig (with_resource_version (om_ResourceVersion (wc_meta currentConfig)) (wc_meta desiredConfig))
                      (wc_Webhooks desiredConfig) in
                  let! _ := modify (set_chosen k desiredConfig) in
                  let! res := on_env (webhook_Update k desiredConfig) in
                  match res with
                  | Err e => return! Some (Wrap e "updating webhook configuration failed")
                  | Ok answer => let! _ := modify (set_chosen k answer) in return! None
                  end
              end
          end
      end
  end.

Definition Fail : string := "Fail".

(** One round of the loop over the webhooks. *)
Definition with_bundle (ca : option string) (w : AdmWebhook) : AdmWebhook :=
  mkAdmWebhook (aw_Name w) Fail (aw_Service w) ca.

(** The function that [Start] gives to the renewer. A nil certificate is dereferenced
    as soon as there is a webhook. *)
Definition after_check (certificate : option Certificate) (needsUpdate : bool) : ST W (option (option error)) :=
  let! c := get_certifier in
  match chosen c with
  | None => return! Some (Some no_configuration)
  | Some (k, wc) =>
      match certificate, wc_Webhooks wc with
      | None, _ :: _ => return! None
      | _, _ =>
          let ca := match certificate with Some x => CACertificate x | None => None end in
          let! _ := modify (set_chosen k (mkWebhookConfig (wc_meta wc) (with_bundle ca <$> wc_Webhooks wc))) in
          if needsUpdate then
            let! err := updateCertificate in
            match err with
            | Some e => return! Some (Some (Wrap e "updating webhook certificate failed"))
            | None => let! _ := modify (set_readyz true) in return! Some None
            end
          else return! Some None
      end
  end.

(** [Start] until its context is done; [None] is a panic. The channel of the triggers
    is closed when the renewer returns. *)
Definition Certifier_Start (r : Renewer (S := W)) (events : list renewer_event) : ST W (option (option error)) :=
  let! err := loadWebhookConfiguration in
  match err with
  | Some e => return! Some (Some (Wrap e "loading webhook configuration failed"))
  | None =>
      let! err := startWebhookConfigurationInformer in
      match err with
      | Some e => return! Some (Some (Wrap e "starting webhook configuration informer failed"))
      | None =>
          let! c := get_certifier in
          match dnsNames c with
          | None => return! None
          | Some names =>
              let r := WithAfterCheckFunctions [after_check] (WithDNSNames names r) in
              let! out := Renewer_Start r events in
              let! _ := modify close_triggers in
              return! out
          end
      end
  end.

Definition WebhookCertBundleReadyzChecker (c : WebhookCertifier) : option error :=
  if webhookCertBundleReadyz c then None else Some (errorString "webhook cert bundle is not ready yet").
End certifier.
