(* ===== verification/CertifierFacts.v ===== *)
(** * The certifier: what readiness means

    Against an API server that behaves as documented: when the certifier reports that
    the webhook is ready, the configuration of the webhook trusts the authority whose
    certificate is in the certificate directory. Runs on a concrete host close the
    file. *)

From stdpp Require Import gmap strings list.
From S2P Require Import Prelude Errors Types Certificate CertFacts Certifier.
Open Scope string_scope.
Open Scope go_scope.

(** A webhook that calls the server with a given authority, and does not let requests
    pass when it fails. *)
Definition trusts (ca : option string) (w : AdmWebhook) : Prop :=
  aw_CABundle w = ca ∧ aw_FailurePolicy w = Fail.

(** Documented behaviour of the API server and of the patch library. [configs] is what
    the server stores. Reads return it and change nothing; an update stores the
    webhooks it is given under the name of the object. An empty patch says that the
    current object has the settings of every webhook of the desired one. The webhooks
    of the server have nothing to do with the files of the host. *)
Class WebhookLaws (E : Type) `{HE : HostEnv E} `{WE : !WebhookEnv E} `{HL : !HostLaws E} : Type := {
  configs : E → WebhookKind → string → option WebhookConfig;
  webhook_Get_quiet k n e : (webhook_Get k n e).2 = e;
  webhook_Get_read k n e wc : (webhook_Get k n e).1 = Ok wc → configs e k (nn_Name n) = Some wc;
  webhook_Update_files k wc e : files (webhook_Update k wc e).2 = files e;
  webhook_Update_stores k wc e answer :
    (webhook_Update k wc e).1 = Ok answer →
    configs (webhook_Update k wc e).2 k (om_Name (wc_meta wc)) = Some answer ∧ wc_Webhooks answer = wc_Webhooks wc;
  patch_empty current desired w :
    patch_Calculate current desired = Ok true → w ∈ wc_Webhooks desired →
    ∃ w', w' ∈ wc_Webhooks current ∧ aw_Name w' = aw_Name w
          ∧ aw_CABundle w' = aw_CABundle w ∧ aw_FailurePolicy w' = aw_FailurePolicy w;
  annotation_keeps wc wc' :
    patch_SetLastAppliedAnnotation wc = Ok wc' →
    wc_Webhooks wc' = wc_Webhooks wc ∧ om_Name (wc_meta wc') = om_Name (wc_meta wc) }.

(** The certifier changes no file, so the laws of the host carry over. *)
#[global] Instance certifier_host_laws {E} `{HE : HostEnv E} `{HL : !HostLaws E} : HostLaws (WebhookCertifier * E).
Proof.
  refine {| files w := files w.2; clock w := clock w.2 |}.
  - intros [c e]. simpl. pose proof (host_Now_quiet e) as Hq. by destruct (host_Now e).
  - intros [c e]. simpl. pose proof (host_Now_reads e) as Hr. by destruct (host_Now e).
  - intros n [c e]. simpl. pose proof (GenerateKey_quiet n e) as Hq. by destruct (rsa_GenerateKey n e).
  - intros t p k sk [c e]. simpl. pose proof (CreateCertificate_quiet t p k sk e) as Hq.
    by destruct (x509_CreateCertificate t p k sk e).
  - intros d [c e]. simpl. pose proof (MkdirAll_quiet d e) as Hq. by destruct (os_MkdirAll d e).
  - intros d f [c e]. simpl. pose proof (ReadFile_quiet d f e) as Hq. by destruct (os_ReadFile d f e).
  - intros d f [c e] x. simpl. pose proof (ReadFile_read d f e x) as Hq. by destruct (os_ReadFile d f e).
  - intros d f [c e] x. simpl. pose proof (ReadFile_stored d f e x) as Hq. by destruct (os_ReadFile d f e).
  - intros d f x [c e]. simpl. pose proof (WriteFile_clock d f x e) as Hq. by destruct (os_WriteFile d f x e).
  - intros d f x [c e]. simpl. pose proof (WriteFile_stores d f x e) as Hq. by destruct (os_WriteFile d f x e).
Defined.

Section certifier_facts.
Context {E : Type} `{HE : HostEnv E} `{WE : !WebhookEnv E} `{EL : ErrorLib} `{HL : !HostLaws E} `{WL : !WebhookLaws E}.

Lemma chosen_set_chosen k wc wc' c :
  chosen c = Some (k, wc) → chosen (set_chosen k wc' c) = Some (k, wc').
Proof. unfold chosen. destruct c as [n ns [m|] [v|] b t]; simpl; intros [= <- <-]; done. Qed.

Lemma set_chosen_fields k wc c :
  webhookName (set_chosen k wc c) = webhookName c ∧ webhookNamespace (set_chosen k wc c) = webhookNamespace c
  ∧ webhookCertBundleReadyz (set_chosen k wc c) = webhookCertBundleReadyz c.
Proof. by destruct k. Qed.

(** The stored configuration has every webhook of [wc], with the authority [ca]. *)
Definition installed (e : E) (k : WebhookKind) (name : string) (wc : WebhookConfig) (ca : option string) : Prop :=
  ∀ w, w ∈ wc_Webhooks wc →
    ∃ cfg w', configs e k name = Some cfg ∧ w' ∈ wc_Webhooks cfg ∧ aw_Name w' = aw_Name w ∧ trusts ca w'.

Lemma updateCertificate_installs k wc ca c e c' e' :
  chosen c = Some (k, wc) → om_Name (wc_meta wc) = webhookName c →
  Forall (trusts ca) (wc_Webhooks wc) →
  updateCertificate (c, e) = (None, (c', e')) →
  installed e' k (webhookName c) wc ca ∧ files e' = files e.
Proof.
  intros Hch Hname Hca. unfold updateCertificate, st_bind, get_certifier. simpl. rewrite Hch. unfold on_env. simpl.
  set (key := mkNamespacedName _ _). pose proof (webhook_Get_quiet k key e) as Hq.
  pose proof (webhook_Get_read k key e) as Hrd. destruct (webhook_Get k key e) as [got e1]. simpl in Hq, Hrd. subst e1.
  destruct (match got with Ok wc0 => Ok wc0 | Err e0 => if IsNotFound e0 then Ok WebhookConfig_zero else Err e0 end)
    as [cur|] eqn:Hcur; [|done].
  destruct (patch_Calculate cur wc) as [[]|] eqn:Hp; [| |done].
  - intros [= <- <-]. split; [|done]. intros w Hw. destruct (patch_empty _ _ _ Hp Hw) as (w' & Hw' & Hn & Hb & Hpol).
    destruct got as [g|er]; [injection Hcur as ->|].
    + exists cur, w'. split_and!; [by apply Hrd|done|done|].
      rewrite Forall_forall in Hca. destruct (Hca w Hw) as [Hc1 Hc2]. split; congruence.
    + destruct (IsNotFound er); [|done]. injection Hcur as <-. by apply elem_of_nil in Hw'.
  - destruct (patch_SetLastAppliedAnnotation wc) as [wc1|] eqn:Ha; [|done].
    apply annotation_keeps in Ha as [Hws Hnm]. unfold modify. simpl. set (d := mkWebhookConfig _ _).
    pose proof (webhook_Update_files k d e) as Hf. pose proof (webhook_Update_stores k d e) as Hst.
    destruct (webhook_Update k d e) as [[answer|er] e1]; [|done]. simpl in *. intros [= <- <-]. split; [|done].
    destruct (Hst answer eq_refl) as [Hcfg Hsame]. rewrite Hnm, Hname in Hcfg. intros w Hw. exists answer, w.
    rewrite Hsame, Hws. rewrite Forall_forall in Hca. by split_and!; [|done| |apply Hca].
Qed.

Lemma after_check_installs k wc cert c e c' e' :
  chosen c = Some (k, wc) → om_Name (wc_meta wc) = webhookName c →
  after_check (Some cert) true (c, e) = (Some None, (c', e')) →
  webhookCertBundleReadyz c' = true ∧ installed e' k (webhookName c) wc (CACertificate cert) ∧ files e' = files e.
Proof.
  intros Hch Hname. unfold after_check, st_bind, get_certifier. simpl. rewrite Hch. unfold modify. simpl.
  set (wc1 := mkWebhookConfig _ (with_bundle _ <$> _)).
  destruct (updateCertificate (set_chosen k wc1 c, e)) as [[er|] [c1 e1]] eqn:Hu; [done|].
  destruct (set_chosen_fields k wc1 c) as (Hn & _).
  apply (updateCertificate_installs k wc1 (CACertificate cert)) in Hu as [Hin Hf].
  - simpl. intros [= <- <-]. split_and!; [done| |done]. rewrite Hn in Hin. intros w Hw.
    destruct (Hin (with_bundle (CACertificate cert) w)) as (cfg & w' & Hc & Hw' & Hnm & Ht); [|by exists cfg, w'].
    simpl. apply list_elem_of_fmap. eauto.
  - by eapply chosen_set_chosen.
  - by rewrite Hn.
  - simpl. apply Forall_fmap, Forall_forall. by intros.
Qed.

(** An update leaves the readiness alone. *)
Definition same_ready (w w' : WebhookCertifier * E) : Prop :=
  webhookCertBundleReadyz w'.1 = webhookCertBundleReadyz w.1.
#[local] Instance same_ready_preorder : PreOrder same_ready.
Proof. split; [by intros w|]. intros w1 w2 w3. unfold same_ready. congruence. Qed.

Lemma updateCertificate_ready : moves same_ready updateCertificate.
Proof.
  assert (Hget : moves same_ready (get_certifier (E := E))) by done.
  assert (Henv : ∀ A (c : ST E A), moves same_ready (on_env c)) by (intros A c [x e]; unfold on_env; simpl; by destruct (c e)).
  assert (Hset : ∀ k wc, moves same_ready (modify (set_chosen k wc))) by (intros k wc [x e]; by destruct k).
  unfold updateCertificate. moves_tac; apply Henv.
Qed.

(** Without a success of the update the certifier does not become ready. *)
Lemma after_check_not_ready cert b w :
  let '(out, w') := after_check cert b w in
  b = false ∨ out ≠ Some None → same_ready w w'.
Proof.
  destruct w as [c e]. unfold after_check. unfold st_bind at 1, get_certifier. simpl.
  destruct (chosen c) as [[k wc]|] eqn:Hch; [|done].
  assert (Hgo : ∀ wc1,
    let '(out, w') := (if b then st_bind updateCertificate (λ err, match err with
         | Some e => st_ret (Some (Some (Wrap e "updating webhook certificate failed")))
         | None => st_bind (modify (set_readyz true)) (λ _, st_ret (Some None)) end)
       else st_ret (Some None)) (set_chosen k wc1 c, e) in
    b = false ∨ out ≠ Some None → same_ready (c, e) w').
  { intros wc1. assert (Hs : same_ready (c, e) (set_chosen k wc1 c, e)) by (by destruct k).
    destruct b; [|by intros _]. unfold st_bind at 1. pose proof (updateCertificate_ready (set_chosen k wc1 c, e)) as Hu.
    destruct (updateCertificate _) as [[er|] w1]; simpl in *; [by intros _; trans (set_chosen k wc1 c, e)|].
    by intros [|]. }
  destruct cert as [x|]; [apply Hgo|]. destruct (wc_Webhooks wc) as [|w ws]; [apply Hgo|done].
Qed.

(** A check of the certificate does not touch the certifier before the functions run. *)
Definition same_certifier (w w' : WebhookCertifier * E) : Prop := w'.1 = w.1.
#[local] Instance same_certifier_preorder : PreOrder same_certifier.
Proof. split; [by intros w|]. intros w1 w2 w3. unfold same_certifier. congruence. Qed.

Lemma current_certificate_certifier r : moves same_certifier (current_certificate (S := WebhookCertifier * E) r).
Proof.
  assert (H1 : moves same_certifier host_Now) by (intros [c e]; simpl; by destruct (host_Now e)).
  assert (H2 : ∀ n, moves same_certifier (rsa_GenerateKey n)) by (intros n [c e]; simpl; by destruct (rsa_GenerateKey n e)).
  assert (H3 : ∀ t p k sk, moves same_certifier (x509_CreateCertificate t p k sk))
    by (intros t p k sk [c e]; simpl; by destruct (x509_CreateCertificate t p k sk e)).
  assert (H4 : ∀ d, moves same_certifier (os_MkdirAll d)) by (intros d [c e]; simpl; by destruct (os_MkdirAll d e)).
  assert (H5 : ∀ d f, moves same_certifier (os_ReadFile d f)) by (intros d f [c e]; simpl; by destruct (os_ReadFile d f e)).
  assert (H6 : ∀ d f x, moves same_certifier (os_WriteFile d f x)) by (intros d f x [c e]; simpl; by destruct (os_WriteFile d f x e)).
  assert (Hread : ∀ d o m errs, moves same_certifier (read_loop d o m errs)).
  { intros d o. induction o as [|f o IH]; intros m errs; simpl; [apply moves_ret|]. moves_tac. }
  assert (Hver : ∀ c names, moves same_certifier (verify_loop c names)).
  { intros c names. induction names as [|d names IH]; simpl; [apply moves_ret|]. moves_tac. }
  assert (Hwr : ∀ d c o, moves same_certifier (write_loop d c o)).
  { intros d c o. induction o as [|f o IH]; simpl; [apply moves_ret|]. moves_tac. }
  assert (Hyear : ∀ k, moves same_certifier (one_year k)) by (intros k; unfold one_year; moves_tac).
  assert (Hnew : ∀ names, moves same_certifier (NewCertificate names)).
  { intros names. unfold NewCertificate. moves_tac; apply H3. }
  unfold current_certificate, verifyCertificate, renewCertificate, NewCertificateFromDirectory,
    NewCertificateFromDirectory_in, Certificate_Write, Certificate_Write_in. moves_tac.
Qed.

(** C35: readiness means trust. When a check with the function of the certifier turns a
    certifier ready, the API server stores a configuration that has every webhook of
    the certifier's own, which fails closed and trusts the authority whose certificate
    is in the certificate directory, the one that signed the certificate the webhook
    server uses. *)
Theorem readiness_means_trust (r : Renewer (S := WebhookCertifier * E)) triggered k wc c e out c' e' :
  afterCheckFunctions r = [after_check] →
  chosen c = Some (k, wc) → om_Name (wc_meta wc) = webhookName c → wc_Webhooks wc ≠ [] →
  webhookCertBundleReadyz c = false →
  checkCertificate r triggered (c, e) = (out, (c', e')) →
  webhookCertBundleReadyz c' = true →
  ∃ ca, files e' !! (certificateDirectoryPath r, caCertificateFileName) = Some (default "" ca)
        ∧ installed e' k (webhookName c) wc ca.
Proof.
  intros Hfs Hch Hname Hne Hnot Hc Hready. unfold checkCertificate, st_bind in Hc. rewrite Hfs in Hc.
  pose proof (current_certificate_certifier r (c, e)) as Hsame.
  destruct (current_certificate r (c, e)) as [[oc renewed] [c1 e1]] eqn:Hcur. unfold same_certifier in Hsame.
  simpl in Hsame, Hc. subst c1. unfold st_bind in Hc.
  pose proof (after_check_not_ready oc (renewed || triggered) (c, e1)) as Hn.
  destruct (after_check oc (renewed || triggered) (c, e1)) as [o w2] eqn:Ha.
  assert (w2 = (c', e')) as -> by (by destruct o; injection Hc). clear Hc.
  destruct (renewed || triggered) eqn:Hb.
  2: { specialize (Hn (or_introl eq_refl)). unfold same_ready in Hn. simpl in Hn. congruence. }
  assert (o = Some None ∨ o ≠ Some None) as [->|Ho] by (destruct o as [[]|]; [by right|by left|by right]).
  2: { specialize (Hn (or_intror Ho)). unfold same_ready in Hn. simpl in Hn. congruence. }
  destruct oc as [cert|].
  - apply (after_check_installs k wc) in Ha as (_ & Hin & Hf); [|done..]. exists (CACertificate cert). split; [|done].
    rewrite Hf. apply current_certificate_stored in Hcur. exact Hcur.
  - unfold after_check, st_bind, get_certifier in Ha. simpl in Ha. rewrite Hch in Ha.
    by destruct (wc_Webhooks wc).
Qed.

(** A renewal that fails is fatal. When the certificate in the directory is not
    valid and no new one can be made or written, the check goes on with a nil
    certificate, and the function of the certifier dereferences it for its first
    webhook: the process ends, although the code means to log the error and retry. *)
Theorem failed_renewal_panics (r : Renewer (S := WebhookCertifier * E)) triggered k wc c e fs :
  afterCheckFunctions r = after_check :: fs →
  chosen c = Some (k, wc) → wc_Webhooks wc ≠ [] →
  (current_certificate r (c, e)).1.1 = None →
  (checkCertificate r triggered (c, e)).1 = None.
Proof.
  intros Hfs Hch Hne Hc. unfold checkCertificate, st_bind. rewrite Hfs.
  pose proof (current_certificate_certifier r (c, e)) as Hsame.
  destruct (current_certificate r (c, e)) as [[oc renewed] [c1 e1]]. unfold same_certifier in Hsame. simpl in *. subst.
  unfold st_bind, after_check, st_bind, get_certifier. simpl. rewrite Hch. by destruct (wc_Webhooks wc).
Qed.
End certifier_facts.

(** ** Runs *)

Section runs.

(** A host with files and a clock that advances with every reading, an API server with
    one validating configuration, and a cryptographic library that accepts everything. *)
Record Host := mkHost {
  h_files : gmap (string * string) string;
  h_clock : Z;
  h_full : bool;
  h_config : option WebhookConfig }.

#[local] Instance toy_crypto : CryptoLib := {|
  RSAKey := Z; CertPool := string; ParsedCert := string;
  x509_MarshalPKCS1PrivateKey k := if bool_decide (k = 2048)%Z then "ca-key" else "server-key";
  pem_EncodeToMemory ty b := Some b;
  pem_Decode p := Some p;
  tls_X509KeyPair _ _ := None;
  pool_FromPEM ca := Some ca;
  x509_ParseCertificate b := Ok b;
  x509_Verify _ _ _ _ := None;
  time_AddDate t y m d := (t + 365 * y + 30 * m + d)%Z |}.

(** The disk may be full. *)
#[local] Instance toy_host : HostEnv Host := {|
  host_Now h := (h_clock h + 1, mkHost (h_files h) (h_clock h + 1) (h_full h) (h_config h))%Z;
  rsa_GenerateKey n h := (Ok n, h);
  x509_CreateCertificate t p k sk h := (Ok (ct_CommonName t ++ if ct_IsCA t then "-ca" else "-server"), h);
  os_MkdirAll d h := (None, h);
  os_ReadFile d f h :=
    (match h_files h !! (d, f) with Some c => Ok c | None => Err (errorString "no such file") end, h);
  os_WriteFile d f c h :=
    if h_full h then (Some (errorString "no space left"), h)
    else (None, mkHost (<[(d, f) := c]> (h_files h)) (h_clock h) (h_full h) (h_config h)) |}.

#[local] Instance toy_webhooks : WebhookEnv Host := {|
  webhook_Get k n h :=
    (match k, h_config h with
     | ValidatingWebhookConfiguration, Some wc =>
         if bool_decide (om_Name (wc_meta wc) = nn_Name n) then Ok wc else Err (StatusError NotFound "")
     | _, _ => Err (StatusError NotFound "")
     end, h);
  webhook_Update k wc h :=
    match k with
    | ValidatingWebhookConfiguration => (Ok wc, mkHost (h_files h) (h_clock h) (h_full h) (Some wc))
    | MutatingWebhookConfiguration => (Err (StatusError NotFound ""), h)
    end;
  webhook_GetInformer _ h := (None, h);
  patch_Calculate cur des :=
    Ok (bool_decide (aw_Name <$> wc_Webhooks cur = aw_Name <$> wc_Webhooks des)
        && bool_decide (aw_CABundle <$> wc_Webhooks cur = aw_CABundle <$> wc_Webhooks des)
        && bool_decide (aw_FailurePolicy <$> wc_Webhooks cur = aw_FailurePolicy <$> wc_Webhooks des));
  patch_SetLastAppliedAnnotation wc := Ok wc |}.

Existing Instance chain_lib.

#[local] Instance toy_host_laws : HostLaws Host.
Proof.
  refine {| files := h_files; clock := h_clock |};
    try (intros; intros h; split; simpl; [done|lia]); try done.
  - intros d f s c Hr. simpl in Hr. destruct (h_files s !! (d, f)); [by injection Hr as ->|done].
  - intros d f s c Hc. simpl. by rewrite Hc.
  - intros d f c s. simpl. by destruct (h_full s).
  - intros d f c s. simpl. by destruct (h_full s).
Defined.

#[local] Instance toy_crypto_laws : CryptoLaws Host.
Proof. refine {| issued _ _ _ _ _ := True |}; naive_solver. Defined.

#[local] Instance toy_webhook_laws : WebhookLaws Host.
Proof.
  refine {| configs h k n := match k, h_config h with
    | ValidatingWebhookConfiguration, Some wc => if bool_decide (om_Name (wc_meta wc) = n) then Some wc else None
    | _, _ => None end |}.
  - done.
  - intros k n e wc. simpl. destruct k, (h_config e); try done. by case_bool_decide; intros [= ->].
  - by intros [].
  - intros k wc e answer. destruct k; simpl; [done|]. intros [= <-]. by rewrite bool_decide_true.
  - intros cur des w [= Hp] Hw. rewrite !andb_true_iff, !bool_decide_eq_true in Hp. destruct Hp as [[Hn Hb] Hf].
    apply list_elem_of_lookup in Hw as [i Hi].
    assert (Hl : ∀ A (g : AdmWebhook → A), g <$> wc_Webhooks cur = g <$> wc_Webhooks des → g <$> wc_Webhooks cur !! i = Some (g w)).
    { intros A g Hg. rewrite <-list_lookup_fmap, Hg, list_lookup_fmap, Hi. done. }
    apply Hl in Hn, Hb, Hf. destruct (wc_Webhooks cur !! i) as [w'|] eqn:Hw'; [|done]. exists w'.
    apply list_elem_of_lookup_2 in Hw'. naive_solver.
  - intros wc wc' [= <-]. done.
Defined.

Definition toy_certificate : Certificate := mkCertificate (Some "ca") (Some "cakey") (Some "srv") (Some "key").
Definition empty_host (full : bool) : Host := mkHost ∅ 0 full None.

Lemma certificate_round_trip_witness :
  let s1 := (Certificate_Write_in (reverse certificate_files) (Some toy_certificate) "dir" (empty_host false)).2 in
  (NewCertificateFromDirectory_in certificate_files "dir" s1).1 = (Some toy_certificate, None).
Proof.
  refine (certificate_round_trip toy_certificate "dir" (reverse certificate_files) certificate_files (empty_host false) _ _ _ _ _ _).
  - rewrite reverse_Permutation. reflexivity.
  - reflexivity.
  - reflexivity.
  - reflexivity.
Defined.

Definition toy_renewer : Renewer (S := Host) := mkRenewer ["svc"] "dir" [].

(** A certificate is made at the start, and checked a few ticks later. *)
Lemma renewed_certificate_is_valid_witness :
  let s1 := (renewCertificate toy_renewer (empty_host false)).2 in
  (current_certificate toy_renewer s1).1
  = (Some (mkCertificate (Some "svc-ca") (Some "ca-key") (Some "svc-server") (Some "server-key")), false).
Proof.
  set (s1 := (renewCertificate _ _).2). cbv zeta.
  assert (Hr : renewCertificate toy_renewer (empty_host false)
    = ((Some (mkCertificate (Some "svc-ca") (Some "ca-key") (Some "svc-server") (Some "server-key")), None), s1))
    by (unfold s1; vm_compute; reflexivity).
  destruct (renewed_certificate_is_valid toy_renewer
    (mkCertificate (Some "svc-ca") (Some "ca-key") (Some "svc-server") (Some "server-key"))
    (empty_host false) s1 s1 Hr eq_refl) as (n1 & n2 & H1 & H2 & H).
  refine (proj2 (H _)). intros t Ht.
  assert (Hs1 : clock s1 = 4%Z) by (unfold s1; vm_compute; reflexivity).
  assert (Hs2 : clock (verifyCertificate toy_renewer s1).2 = 5%Z) by (unfold s1; vm_compute; reflexivity).
  rewrite Hs1 in *. rewrite Hs2 in Ht. simpl in *. lia.
Defined.

Definition validating (bundle : option string) : WebhookConfig :=
  mkWebhookConfig (named_meta "hook" "") [mkAdmWebhook "v" "Ignore" (Some (mkServiceReference "svc" "ns")) bundle].
Definition certifier_now : WebhookCertifier :=
  set_configs None (Some (validating None)) (NewWebhookCertifier "hook" "ns" false).
Definition hook_renewer : Renewer (S := WebhookCertifier * Host) := mkRenewer ["svc.ns.svc"] "dir" [after_check].
Definition hook_host (full : bool) : Host := mkHost ∅ 0 full (Some (validating None)).

Lemma readiness_means_trust_witness :
  let w := checkCertificate hook_renewer true (certifier_now, hook_host false) in
  webhookCertBundleReadyz w.2.1 = true
  ∧ ∃ ca, h_files w.2.2 !! ("dir", "ca.crt") = Some (default "" ca)
          ∧ installed w.2.2 ValidatingWebhookConfiguration "hook" (validating None) ca.
Proof.
  set (w := checkCertificate _ _ _). assert (Hr : webhookCertBundleReadyz w.2.1 = true) by reflexivity.
  split; [exact Hr|].
  refine (readiness_means_trust hook_renewer true ValidatingWebhookConfiguration (validating None) certifier_now
    (hook_host false) w.1 w.2.1 w.2.2 eq_refl eq_refl eq_refl _ eq_refl eq_refl Hr). discriminate.
Defined.

Lemma failed_renewal_panics_witness :
  (checkCertificate hook_renewer false (certifier_now, hook_host true)).1 = None.
Proof.
  refine (failed_renewal_panics hook_renewer false ValidatingWebhookConfiguration (validating None) certifier_now
    (hook_host true) [] eq_refl eq_refl _ _); [discriminate|reflexivity].
Defined.
End runs.
