(* ===== verification/Config.v ===== *)
(** * Configuration of the command

    cmd/manager/config.go: the flags, the environment variables and the defaults that the
    command registers with viper, and how its configuration comes out of them. The type
    of internal/config is walked by reflection in [bindEnvs], which passes a slice around
    and appends to it: slices share their arrays here as in Go. *)

From stdpp Require Import gmap strings list.
From S2P Require Import Prelude Errors Types.
Open Scope string_scope.
Open Scope go_scope.

(** ** The configuration as reflection sees it *)

(** The kinds of the fields, and the fields of a struct with their mapstructure tags. *)
Inductive GoKind := KString | KBool | KInt | KInt8 | KUint.

#[export] Instance GoKind_eq_dec : EqDecision GoKind.
Proof. solve_decision. Defined.

Inductive GoType := TLeaf (k : GoKind) | TStruct (fs : Fields)
with Fields := FNil | FCons (tag : option string) (t : GoType) (fs : Fields).

Scheme GoType_ind2 := Induction for GoType Sort Prop
with Fields_ind2 := Induction for Fields Sort Prop.
Combined Scheme GoType_Fields_ind from GoType_ind2, Fields_ind2.

Definition tagged (tag : string) (k : GoKind) (fs : Fields) : Fields := FCons (Some tag) (TLeaf k) fs.
Definition nested (tag : string) (t : Fields) (fs : Fields) : Fields := FCons (Some tag) (TStruct t) fs.

(** internal/config: the structs, with their tags. *)
Definition ClusterValidatorWebhook_fields : Fields :=
  tagged "enabled" KBool (tagged "certificate-directory" KString (tagged "name" KString (tagged "port" KUint FNil))).
Definition ClusterController_fields : Fields :=
  tagged "workerCount" KInt (tagged "refreshIntervalSeconds" KInt FNil).
Definition SyncControllerRateLimit_fields : Fields :=
  tagged "maxKeys" KInt (tagged "maxRatePerSecond" KInt (tagged "maxBurst" KInt FNil)).
Definition SyncController_fields : Fields :=
  tagged "workerCount" KInt (nested "rateLimit" SyncControllerRateLimit_fields FNil).
Definition LeaderElection_fields : Fields :=
  tagged "enabled" KBool (tagged "name" KString (tagged "namespace" KString FNil)).
Definition Logging_fields : Fields := tagged "verbosity" KInt8 (tagged "format" KString FNil).
Definition Configuration_fields : Fields :=
  tagged "metrics-addr" KString (tagged "health-addr" KString (
  nested "leader-election" LeaderElection_fields (nested "log" Logging_fields (
  nested "clusterController" ClusterController_fields (nested "syncController" SyncController_fields (
  tagged "namespace" KString (tagged "provision-local-cluster" KString (
  tagged "manage-local-cluster-secret" KBool (tagged "reader-service-account-name" KString (
  tagged "network-name" KString (tagged "apiserver-endpoint-address" KString (
  tagged "core-resources-source-enabled" KBool (
  nested "cluster-validator-webhook" ClusterValidatorWebhook_fields FNil))))))))))))).

(** ** Slices of strings *)

(** A slice is an array with a length; the capacity is the length of the array. *)
Record Slice := mkSlice { sl_array : nat; sl_len : nat }.
Abbreviation Arrays := (gmap nat (list string)).

Definition slice_elems (h : Arrays) (s : Slice) : list string :=
  take (sl_len s) (default [] (h !! sl_array s)).

(** The capacity that the runtime chooses for an array that has to hold [n] elements. *)
Class Growth : Type := growslice : nat → nat.

(** [append(s, x)]: in place when there is room, otherwise into a new array. *)
Definition append `{Growth} (s : Slice) (x : string) (h : Arrays) : Slice * Arrays :=
  let a := default [] (h !! sl_array s) in
  if bool_decide (sl_len s < length a)%nat
  then (mkSlice (sl_array s) (Datatypes.S (sl_len s)), <[sl_array s := <[sl_len s := x]> a]> h)
  else
    let p := fresh (dom h) in
    let n := Datatypes.S (sl_len s) in
    (mkSlice p n, <[p := (take (sl_len s) a ++ [x] ++ replicate (growslice n - n) "")%list]> h).

(** ** bindEnvs *)

(** The arrays, and the keys bound so far. *)
Abbreviation BindState := (Arrays * list string)%type.

Definition joined (parts : list string) : string := String.concat "." parts.

Section bind.
Context `{G : Growth} (viper_BindEnv : string → option error) `{EL : ErrorLib}.

(** [viper.BindEnv]; an error makes [bindEnvs] panic with [Some]. *)
Definition bind_key (key : string) : ST BindState (option error) := λ w,
  match viper_BindEnv key with
  | Some e => (Some (WrapIf e "could not bind env variable"), w)
  | None => (None, (w.1, (w.2 ++ [key])%list))
  end.

Definition append_part (parts : Slice) (tv : string) : ST BindState Slice := λ w,
  let '(s, h) := append parts tv w.1 in (s, (h, w.2)).
Definition read_slice (s : Slice) : ST BindState (list string) := λ w, (slice_elems w.1 s, w).

Fixpoint bindEnvs (fs : Fields) (parts : Slice) : ST BindState (option error) :=
  match fs with
  | FNil => return! None
  | FCons tag t fs' =>
      let! err :=
        match tag with
        | None => return! None
        | Some tv => let! s := append_part parts tv in bind_type t s
        end in
      match err with Some e => return! Some e | None => bindEnvs fs' parts end
  end
with bind_type (t : GoType) (s : Slice) : ST BindState (option error) :=
  match t with
  | TStruct fs => bindEnvs fs s
  | TLeaf _ => let! parts := read_slice s in bind_key (joined parts)
  end.
End bind.

(** The paths of the tagged fields, without slices. *)
Fixpoint field_paths (fs : Fields) (parts : list string) : list (list string * GoKind) :=
  match fs with
  | FNil => []
  | FCons None _ fs' => field_paths fs' parts
  | FCons (Some tv) t fs' => (type_paths t (parts ++ [tv]) ++ field_paths fs' parts)%list
  end
with type_paths (t : GoType) (parts : list string) : list (list string * GoKind) :=
  match t with TStruct fs => field_paths fs parts | TLeaf k => [(parts, k)] end.

(** The keys of the configuration, with the kinds of the fields. *)
Definition config_keys : list (string * GoKind) :=
  (λ p, (joined p.1, p.2)) <$> field_paths Configuration_fields [].

(** ** Appending to shared slices is harmless *)

Definition slice_valid (s : Slice) (h : Arrays) : Prop :=
  ∃ a, h !! sl_array s = Some a ∧ (sl_len s ≤ length a)%nat.

(** Nothing that existed has changed, except behind the end of [s]. *)
Definition only_behind (s : Slice) (h h' : Arrays) : Prop :=
  (∀ p a, h !! p = Some a → p ≠ sl_array s → h' !! p = Some a)
  ∧ ∀ a, h !! sl_array s = Some a →
     ∃ a', h' !! sl_array s = Some a' ∧ length a' = length a ∧ take (sl_len s) a' = take (sl_len s) a.

#[export] Instance only_behind_preorder s : PreOrder (only_behind s).
Proof.
  split; [intros h; split; naive_solver|]. intros h1 h2 h3 [Ho1 Hs1] [Ho2 Hs2]. split; [naive_solver|].
  intros a Ha. destruct (Hs1 a Ha) as (a' & Ha' & Hl & Ht). destruct (Hs2 a' Ha') as (a'' & Ha'' & Hl' & Ht').
  exists a''. split_and!; congruence.
Qed.

Lemma only_behind_valid s h h' : only_behind s h h' → slice_valid s h → slice_valid s h'.
Proof. intros [_ H] (a & Ha & Hl). destruct (H a Ha) as (a' & Ha' & Hl' & _). exists a'. by rewrite Hl'. Qed.

Lemma only_behind_elems s h h' : only_behind s h h' → slice_valid s h → slice_elems h' s = slice_elems h s.
Proof.
  intros [_ H] (a & Ha & _). destruct (H a Ha) as (a' & Ha' & _ & Ht). unfold slice_elems. by rewrite Ha, Ha'.
Qed.

Section slices.
Context `{G : Growth}.

(** What [append] gives: one more element, and a slice whose room is not used by others. *)
Lemma append_spec s x h :
  slice_valid s h →
  slice_valid (append s x h).1 (append s x h).2
  ∧ slice_elems (append s x h).2 (append s x h).1 = (slice_elems h s ++ [x])%list
  ∧ ∀ h', only_behind (append s x h).1 (append s x h).2 h' → only_behind s h h'.
Proof.
  intros (a & Ha & Hl). unfold append. rewrite Ha. simpl. case_bool_decide as Hlt; simpl.
  - split_and!.
    + exists (<[sl_len s := x]> a). simpl. rewrite lookup_insert_eq, length_insert. split; [done|lia].
    + unfold slice_elems. simpl. rewrite lookup_insert_eq, Ha. simpl.
      rewrite (take_S_r _ _ x) by (by apply list_lookup_insert_eq). by rewrite take_insert_ge by done.
    + intros h' [Ho Hs]. simpl in *. split.
      * intros p b Hp Hne. apply Ho; [by rewrite lookup_insert_ne|done].
      * intros a0 Ha0. assert (a0 = a) as -> by congruence. destruct (Hs _ (lookup_insert_eq _ _ _)) as (a' & Ha' & Hl' & Ht).
        exists a'. rewrite length_insert in Hl'. split_and!; [done|done|].
        apply (f_equal (take (sl_len s))) in Ht. rewrite !take_take in Ht.
        by rewrite !Nat.min_l, take_insert_ge in Ht by lia.
  - assert (length a = sl_len s) as Hlen by lia. set (p := fresh _).
    assert (h !! p = None) as Hp by (apply not_elem_of_dom, is_fresh).
    rewrite take_ge by lia. split_and!.
    + eexists. simpl. rewrite lookup_insert_eq. split; [reflexivity|]. rewrite !length_app. simpl. lia.
    + unfold slice_elems. simpl. rewrite lookup_insert_eq, Ha. simpl.
      change (a ++ x :: ?r)%list with (a ++ [x] ++ r)%list. rewrite app_assoc, take_app_le; [|rewrite length_app; simpl; lia].
      rewrite take_ge; [|rewrite length_app; simpl; lia]. by rewrite take_ge by lia.
    + intros h' [Ho _]. simpl in *. split.
      * intros q b Hq Hne. assert (q ≠ p) by congruence. apply Ho; [by rewrite lookup_insert_ne|done].
      * intros a0 Ha0. assert (a0 = a) as -> by congruence. exists a. split; [|done].
        assert (sl_array s ≠ p) by congruence. apply Ho; [by rewrite lookup_insert_ne|done].
Qed.

Context (viper_BindEnv : string → option error) `{EL : ErrorLib}.
Context (BindEnv_ok : ∀ k, viper_BindEnv k = None).

Lemma bind_fields_spec :
  (∀ t s h b, slice_valid s h →
     ∃ h', bind_type viper_BindEnv t s (h, b)
           = (None, (h', (b ++ ((λ p, joined p.1) <$> type_paths t (slice_elems h s)))%list)) ∧ only_behind s h h')
  ∧ (∀ fs s h b, slice_valid s h →
     ∃ h', bindEnvs viper_BindEnv fs s (h, b)
           = (None, (h', (b ++ ((λ p, joined p.1) <$> field_paths fs (slice_elems h s)))%list)) ∧ only_behind s h h').
Proof.
  apply GoType_Fields_ind.
  - intros k s h b Hv. exists h. simpl. unfold st_bind, read_slice, bind_key. simpl. by rewrite BindEnv_ok.
  - intros fs IH s h b Hv. exact (IH s h b Hv).
  - intros s h b Hv. exists h. simpl. by rewrite app_nil_r.
  - intros [tv|] t IHt fs IHfs s h b Hv; simpl; [|exact (IHfs s h b Hv)].
    unfold st_bind, append_part. simpl. destruct (append_spec s tv h Hv) as (Hv1 & He1 & Hb1).
    destruct (append s tv h) as [s1 h1]. simpl in *.
    destruct (IHt s1 h1 b Hv1) as (h2 & -> & Hb2). rewrite He1.
    destruct (IHfs s h2 (b ++ ((λ p, joined p.1) <$> type_paths t (slice_elems h s ++ [tv])))%list
      (only_behind_valid _ _ _ (Hb1 h2 Hb2) Hv)) as (h3 & -> & Hb3).
    exists h3. rewrite (only_behind_elems _ _ _ (Hb1 h2 Hb2) Hv), fmap_app, app_assoc.
    split; [done|]. etrans; [by apply Hb1|done].
Qed.

(** C39: [bindEnvs] passes one slice through the whole walk and appends to it, so that
    several paths share an array; whatever capacities the runtime chooses, the keys
    bound are exactly the dotted paths of the tagged leaves of the configuration, in
    the order of the fields, and nothing panics. *)
Theorem bindEnvs_binds_all_keys fs :
  (bindEnvs viper_BindEnv fs (mkSlice 0 0) ({[ 0 := [] ]}, [])).1 = None
  ∧ (bindEnvs viper_BindEnv fs (mkSlice 0 0) ({[ 0 := [] ]}, [])).2.2
    = (λ p, joined p.1) <$> field_paths fs [].
Proof.
  destruct (proj2 bind_fields_spec fs (mkSlice 0 0) {[ 0 := [] ]} []) as (h' & -> & _); [|done].
  exists []. by rewrite lookup_singleton_eq.
Qed.
End slices.
