(* ===== verification/Configure.v ===== *)
(** * configure

    cmd/manager/config.go: the flags and defaults of [initConfiguration], and [configure],
    which parses the arguments, binds the environment and decodes the configuration. The
    registrations are recorded; what viper, pflag and mapstructure make of them are the
    classes [ViperLib] and [DecodeLib]. *)

From stdpp Require Import gmap strings list.
From S2P Require Import Prelude Errors Types Config.
Open Scope string_scope.
Open Scope go_scope.

(** ** Registrations *)

Inductive CValue := CString (s : string) | CBool (b : bool) | CInt (z : Z) | CUint (z : Z).

(** What has been set on viper. *)
Record Viper := mkViper {
  v_AllowEmptyEnv : bool;
  v_EnvKeyReplacer : list (string * string);
  v_AutomaticEnv : bool;
  v_pflags : gmap string string  (** the flag that a key is bound to *);
  v_defaults : gmap string CValue;
  v_env : list string  (** the keys that are bound to the environment *) }.
Definition NewViper : Viper := mkViper false [] false ∅ ∅ [].

(** The flags, with their defaults. *)
Abbreviation FlagSet := (list (string * CValue)).
Abbreviation VP := (Viper * FlagSet)%type.

Definition FriendlyServiceName : string := "cluster-registry".

Definition AllowEmptyEnv (b : bool) : ST VP unit := st_modify (λ w,
  (mkViper b (v_EnvKeyReplacer w.1) (v_AutomaticEnv w.1) (v_pflags w.1) (v_defaults w.1) (v_env w.1), w.2)).
Definition SetEnvKeyReplacer (r : list (string * string)) : ST VP unit := st_modify (λ w,
  (mkViper (v_AllowEmptyEnv w.1) r (v_AutomaticEnv w.1) (v_pflags w.1) (v_defaults w.1) (v_env w.1), w.2)).
Definition AutomaticEnv : ST VP unit := st_modify (λ w,
  (mkViper (v_AllowEmptyEnv w.1) (v_EnvKeyReplacer w.1) true (v_pflags w.1) (v_defaults w.1) (v_env w.1), w.2)).
Definition SetDefault (key : string) (d : CValue) : ST VP unit := st_modify (λ w,
  (mkViper (v_AllowEmptyEnv w.1) (v_EnvKeyReplacer w.1) (v_AutomaticEnv w.1) (v_pflags w.1)
     (<[key := d]> (v_defaults w.1)) (v_env w.1), w.2)).
Definition set_pflags (m : gmap string string) (w : VP) : VP :=
  (mkViper (v_AllowEmptyEnv w.1) (v_EnvKeyReplacer w.1) (v_AutomaticEnv w.1) m (v_defaults w.1) (v_env w.1), w.2).
Definition BindEnv_keys (keys : list string) (v : Viper) : Viper :=
  mkViper (v_AllowEmptyEnv v) (v_EnvKeyReplacer v) (v_AutomaticEnv v) (v_pflags v) (v_defaults v) (v_env v ++ keys)%list.

(** [p.String], [p.Bool], [p.Int] and [p.Uint] declare a flag. *)
Definition declare (name : string) (d : CValue) : ST VP unit := st_modify (λ w, (w.1, (w.2 ++ [(name, d)])%list)).

Definition flag_default (p : FlagSet) (name : string) : option CValue :=
  snd <$> head (filter (λ f, f.1 = name) p).

(** [viper.BindPFlag(key, p.Lookup(name))]: an unknown flag is an error, which is dropped. *)
Definition BindPFlag (key name : string) : ST VP unit := st_modify (λ w,
  match flag_default w.2 name with
  | Some _ => set_pflags (<[key := name]> (v_pflags w.1)) w
  | None => w
  end).
(** [v.BindPFlags(p)]: every flag under its own name. *)
Definition BindPFlags : ST VP unit := st_modify (λ w,
  set_pflags (foldl (λ m f, <[f.1 := f.1]> m) (v_pflags w.1) w.2) w).

Definition initConfiguration : ST VP unit :=
  AllowEmptyEnv true;;;
  SetEnvKeyReplacer [(".", "_"); ("-", "_")];;;
  AutomaticEnv;;;
  declare "metrics-addr" (CString ":8080");;;
  declare "health-addr" (CString ":8090");;;
  declare "devel-mode" (CBool false);;;
  declare "version" (CBool false);;;
  declare "dump-config" (CBool false);;;
  declare "enable-leader-election" (CBool false);;;
  BindPFlag "leader-election.enabled" "enable-leader-election";;;
  declare "leader-election-name" (CString "cluster-registry-leader-election");;;
  BindPFlag "leader-election.name" "leader-election-name";;;
  declare "leader-election-namespace" (CString "");;;
  BindPFlag "leader-election.namespace" "leader-election-namespace";;;
  declare "log-verbosity" (CInt 0);;;
  BindPFlag "log.verbosity" "log-verbosity";;;
  declare "log-format" (CString "json");;;
  BindPFlag "log.format" "log-format";;;
  declare "namespace" (CString "cluster-registry");;;
  BindPFlag "namespace" "namespace";;;
  declare "provision-local-cluster" (CString "");;;
  BindPFlag "provision-local-cluster" "provision-local-cluster";;;
  declare "manage-local-cluster-secret" (CBool true);;;
  BindPFlag "manage-local-cluster-secret" "manage-local-cluster-secret";;;
  declare "reader-service-account-name" (CString "cluster-registry-controller-reader");;;
  BindPFlag "reader-service-account-name" "reader-service-account-name";;;
  declare "network-name" (CString "default");;;
  BindPFlag "network-name" "network-name";;;
  declare "apiserver-endpoint-address" (CString "");;;
  BindPFlag "apiserver-endpoint-address" "apiserver-endpoint-address";;;
  declare "core-resources-source-enabled" (CBool true);;;
  BindPFlag "core-resources-source-enabled" "core-resources-source-enabled";;;
  declare "cluster-validator-webhook-enabled" (CBool true);;;
  BindPFlag "cluster-validator-webhook.enabled" "cluster-validator-webhook-enabled";;;
  declare "cluster-validator-webhook-name" (CString "cluster-validator-webhook");;;
  BindPFlag "cluster-validator-webhook.name" "cluster-validator-webhook-name";;;
  declare "cluster-validator-webhook-port" (CUint 9443);;;
  BindPFlag "cluster-validator-webhook.port" "cluster-validator-webhook-port";;;
  declare "cluster-validator-webhook-certificate-directory" (CString "/tmp/webhooks/clusterValidator/certificates");;;
  BindPFlag "cluster-validator-webhook.certificate-directory" "cluster-validator-webhook-certificate-directory";;;
  SetDefault "syncController.workerCount" (CInt 1);;;
  SetDefault "syncController.rateLimit.maxKeys" (CInt 1024);;;
  SetDefault "syncController.rateLimit.maxRatePerSecond" (CInt 5);;;
  SetDefault "syncController.rateLimit.maxBurst" (CInt 10);;;
  SetDefault "clusterController.workerCount" (CInt 2);;;
  SetDefault "clusterController.refreshIntervalSeconds" (CInt 0);;;
  BindPFlags.

Definition registrations : VP := (initConfiguration (NewViper, [])).2.

(** ** Reading the configuration *)

(** The outcome of parsing the arguments: the flags that were given, or the end of the
    process, since the flag set has [flag.ExitOnError]. *)
Inductive ParseOutcome := Parsed (given : gmap string CValue) | ParseExit (code : Z) | ParseError (e : error).

Class ViperLib : Type := {
  pflag_Parse : FlagSet → list string → ParseOutcome;
  viper_BindEnv : string → option error;
  (** the environment variable of a key *)
  env_name : Viper → string → string;
  (** the value of a key, from the flags that are given and the environment *)
  viper_find : Viper → FlagSet → gmap string CValue → gmap string string → string → option CValue }.

(** The kinds a value can be decoded to; [viper.GetBool]; marshalling for the dump. *)
Class DecodeLib : Type := {
  as_string : CValue → result error string;
  as_bool : CValue → result error bool;
  as_int : CValue → result error Z;
  as_int8 : CValue → result error Z;
  as_uint : CValue → result error Z;
  get_bool : option CValue → bool;
  yaml_Marshal_config : Configuration → result error string }.

Definition res_bind {E A B} (r : result E A) (k : A → result E B) : result E B :=
  match r with Ok a => k a | Err e => Err e end.
#[local] Notation "'let?' x := r 'in' k" := (res_bind r (λ x, k)) (at level 10, x pattern, r at level 100, k at level 200).

Section configure.
Context `{VL : ViperLib} `{DL : DecodeLib} `{EL : ErrorLib}.

(** A field that has no value keeps its zero value. *)
Definition field {A} (find : string → option CValue) (key : string) (decode : CValue → result error A) (zero : A)
    : result error A :=
  match find key with None => Ok zero | Some v => decode v end.

(** [viper.Unmarshal], along the mapstructure tags of internal/config. *)
Definition Unmarshal (find : string → option CValue) : result error Configuration :=
  let str key := field find key as_string "" in
  let bool_ key := field find key as_bool false in
  let int_ key := field find key as_int 0%Z in
  let? metrics := str "metrics-addr" in
  let? health := str "health-addr" in
  let? leEnabled := bool_ "leader-election.enabled" in
  let? leName := str "leader-election.name" in
  let? leNamespace := str "leader-election.namespace" in
  let? verbosity := field find "log.verbosity" as_int8 0%Z in
  let? format := str "log.format" in
  let? ccWorkers := int_ "clusterController.workerCount" in
  let? refresh := int_ "clusterController.refreshIntervalSeconds" in
  let? scWorkers := int_ "syncController.workerCount" in
  let? maxKeys := int_ "syncController.rateLimit.maxKeys" in
  let? maxRate := int_ "syncController.rateLimit.maxRatePerSecond" in
  let? maxBurst := int_ "syncController.rateLimit.maxBurst" in
  let? namespace := str "namespace" in
  let? provision := str "provision-local-cluster" in
  let? manage := bool_ "manage-local-cluster-secret" in
  let? reader := str "reader-service-account-name" in
  let? network := str "network-name" in
  let? endpoint := str "apiserver-endpoint-address" in
  let? core := bool_ "core-resources-source-enabled" in
  let? whEnabled := bool_ "cluster-validator-webhook.enabled" in
  let? whDir := str "cluster-validator-webhook.certificate-directory" in
  let? whName := str "cluster-validator-webhook.name" in
  let? whPort := field find "cluster-validator-webhook.port" as_uint 0%Z in
  Ok (mkConfiguration metrics health (mkLeaderElection leEnabled leName leNamespace) (mkLogging verbosity format)
        (mkClusterController ccWorkers refresh)
        (mkSyncController scWorkers (mkSyncControllerRateLimit maxKeys maxRate maxBurst))
        namespace provision manage reader network endpoint core
        (mkClusterValidatorWebhook whEnabled whDir whName whPort)).

(** How [configure] ends: with the configuration, by leaving the process after some
    output, or in a panic. *)
Inductive ConfigureOutcome :=
| Configured (c : Configuration) | ConfigExit (code : Z) (output : string) | ConfigPanic (e : error).

(** The variables of build.go, set by the linker. *)
Record BuildInfo := mkBuildInfo { version : string; commitHash : string; buildDate : string }.

Definition nl : string := String (Ascii.ascii_of_nat 10) EmptyString.
Definition version_line (b : BuildInfo) : string :=
  FriendlyServiceName ++ " version " ++ version b ++ " (" ++ commitHash b ++ ") built on " ++ buildDate b ++ nl.

Context `{G : Growth}.

(** The keys that [bindEnvs] binds, or the error it panics with. *)
Definition bound_keys : option error * list string :=
  let '(err, (_, keys)) := bindEnvs viper_BindEnv Configuration_fields (mkSlice 0 0) ({[ 0 := [] ]}, []) in (err, keys).

Definition configure (b : BuildInfo) (args : list string) (environ : gmap string string) : ConfigureOutcome :=
  let '(v, p) := registrations in
  match pflag_Parse p args with
  | ParseExit code => ConfigExit code ""
  | ParseError e => ConfigPanic (WrapIf e "failed to parse arguments")
  | Parsed given =>
      match bound_keys with
      | (Some e, _) => ConfigPanic e
      | (None, keys) =>
          let find := viper_find (BindEnv_keys keys v) p given environ in
          match Unmarshal find with
          | Err e => ConfigPanic (WrapIf e "failed to unmarshal configuration")
          | Ok c =>
              if get_bool (find "version") then ConfigExit 0 (version_line b)
              else if get_bool (find "dump-config") then
                match yaml_Marshal_config c with
                | Err e => ConfigPanic (WrapIf e "failed to dump configuration")
                | Ok t => ConfigExit 0 t
                end
              else Configured c
          end
      end
  end.
End configure.

(** ** Where a value comes from *)

(** A value of the kind of a field; an [int8] field takes a flag of type [int]. *)
Definition has_kind (x : CValue) (k : GoKind) : bool :=
  match x, k with
  | CString _, KString | CBool _, KBool | CUint _, KUint => true
  | CInt z, KInt => bool_decide (- 2 ^ 63 ≤ z < 2 ^ 63)%Z
  | CInt z, KInt8 => bool_decide (- 2 ^ 7 ≤ z < 2 ^ 7)%Z
  | _, _ => false
  end.

(** The flag of a key, and the default: that of viper, or that of the flag. *)
Definition flag_of (k : string) : option string := v_pflags registrations.1 !! k.
Definition default_value (k : string) : option CValue :=
  match v_defaults registrations.1 !! k with
  | Some d => Some d
  | None => flag_of k ≫= flag_default registrations.2
  end.

(** Documented behaviour of viper: a flag that is given wins over the environment, the
    environment wins over the defaults, and empty variables count when they are allowed
    to; the default of the flag comes last. Binding a key succeeds. *)
Class ViperLaws `{ViperLib} : Prop := {
  BindEnv_None k : viper_BindEnv k = None;
  find_flag v p given environ k f x :
    v_pflags v !! k = Some f → given !! f = Some x → viper_find v p given environ k = Some x;
  find_env v p given environ k s :
    (v_pflags v !! k ≫= λ f, given !! f) = None → k ∈ v_env v → environ !! env_name v k = Some s →
    v_AllowEmptyEnv v = true → viper_find v p given environ k = Some (CString s);
  find_default v p given environ k d :
    (v_pflags v !! k ≫= λ f, given !! f) = None → environ !! env_name v k = None →
    v_defaults v !! k = Some d → viper_find v p given environ k = Some d;
  find_flag_default v p given environ k f d :
    v_pflags v !! k = Some f → given !! f = None → environ !! env_name v k = None →
    v_defaults v !! k = None → flag_default p f = Some d → viper_find v p given environ k = Some d }.

(** Values of the right kind are decoded as they are. *)
Class DecodeLaws `{DecodeLib} : Prop := {
  as_string_ok s : as_string (CString s) = Ok s;
  as_bool_ok b : as_bool (CBool b) = Ok b;
  as_int_ok z : (- 2 ^ 63 ≤ z < 2 ^ 63)%Z → as_int (CInt z) = Ok z;
  as_int8_ok z : (- 2 ^ 7 ≤ z < 2 ^ 7)%Z → as_int8 (CInt z) = Ok z;
  as_uint_ok z : as_uint (CUint z) = Ok z;
  get_bool_ok b : get_bool (Some (CBool b)) = b }.

(** Every key has a default of its kind. *)
Definition default_typed (kk : string * GoKind) : bool :=
  match default_value kk.1 with Some d => has_kind d kk.2 | None => false end.
Lemma defaults_typed : forallb default_typed config_keys = true.
Proof. vm_compute. reflexivity. Qed.

Lemma default_of_key k kind : (k, kind) ∈ config_keys → ∃ d, default_value k = Some d ∧ has_kind d kind = true.
Proof.
  intros Hk. pose proof defaults_typed as H. rewrite forallb_forall in H.
  specialize (H _ (proj1 (list_elem_of_In _ _) Hk)). unfold default_typed in H. cbn [fst snd] in H.
  destruct (default_value k) as [d|]; [by exists d|done].
Qed.

Lemma AllowEmptyEnv_registered : v_AllowEmptyEnv registrations.1 = true.
Proof. vm_compute. reflexivity. Qed.

Lemma field_typed {A} find key kind (decode : CValue → result error A) zero :
  (key, kind) ∈ config_keys →
  (∀ k kd, (k, kd) ∈ config_keys → ∃ x, find k = Some x ∧ has_kind x kd = true) →
  (∀ x, has_kind x kind = true → ∃ a, decode x = Ok a) → ∃ a, field find key decode zero = Ok a.
Proof.
  intros Hk Hf Hd. destruct (Hf _ _ Hk) as (x & Hx & Ht). unfold field. rewrite Hx. by apply Hd.
Qed.

Section configure_facts.
Context `{VL : ViperLib} `{VW : !ViperLaws} `{DL : DecodeLib} `{DW : !DecodeLaws} `{EL : ErrorLib} `{G : Growth}.

Lemma bound_keys_all : bound_keys = (None, config_keys.*1).
Proof.
  unfold bound_keys.
  destruct (proj2 (bind_fields_spec viper_BindEnv BindEnv_None) Configuration_fields (mkSlice 0 0) {[ 0 := [] ]} [])
    as (h' & -> & _); [exists []; by rewrite lookup_singleton_eq|].
  reflexivity.
Qed.

(** The order of the sources, for any registrations. *)
Lemma find_spec v p given environ k d :
  v_AllowEmptyEnv v = true → k ∈ v_env v →
  match v_defaults v !! k with Some d => Some d | None => v_pflags v !! k ≫= flag_default p end = Some d →
  viper_find v p given environ k
  = match v_pflags v !! k ≫= λ f, given !! f with
    | Some x => Some x
    | None =>
        match environ !! env_name v k with
        | Some s => Some (CString s)
        | None => match v_defaults v !! k with Some d => Some d | None => v_pflags v !! k ≫= flag_default p end
        end
    end.
Proof.
  intros Hemp Henv Hd. destruct (v_pflags v !! k ≫= λ f, given !! f) as [x|] eqn:Hx.
  - destruct (v_pflags v !! k) as [f|] eqn:Hf; [|done]. by eapply find_flag.
  - destruct (environ !! env_name v k) as [s|] eqn:Hs; [by apply find_env|].
    rewrite Hd. destruct (v_defaults v !! k) as [d'|] eqn:Hd'; [apply find_default; congruence|].
    destruct (v_pflags v !! k) as [f|] eqn:Hf; [|done]. by eapply find_flag_default.
Qed.

(** The lookup function that [configure] decodes. *)
Definition configured_find (given : gmap string CValue) (environ : gmap string string) : string → option CValue :=
  viper_find (BindEnv_keys (config_keys.*1) registrations.1) registrations.2 given environ.

Lemma find_typed given environ k kind :
  (k, kind) ∈ config_keys →
  (∃ d, default_value k = Some d ∧ has_kind d kind = true)
  ∧ configured_find given environ k
    = match flag_of k ≫= λ f, given !! f with
      | Some x => Some x
      | None =>
          match environ !! env_name (BindEnv_keys (config_keys.*1) registrations.1) k with
          | Some s => Some (CString s)
          | None => default_value k
          end
      end.
Proof.
  intros Hk. destruct (default_of_key k kind Hk) as (d & Hd & Ht).
  split; [exists d; split; [exact Hd|exact Ht]|].
  assert (k ∈ config_keys.*1) as Hin by (apply list_elem_of_fmap; exists (k, kind); split; [reflexivity|exact Hk]).
  pose proof AllowEmptyEnv_registered as He. revert He Hd Hin. clear - VW.
  unfold configured_find, default_value, flag_of. generalize registrations config_keys.*1. intros [v p] keys He Hd Hin.
  apply (find_spec (BindEnv_keys keys v) p given environ k d He); [|exact Hd].
  apply elem_of_app. right. exact Hin.
Qed.
(** Every key of the configuration is bound to the environment and has a default of
    the type of its field; its value is that of the flag bound to it when the flag is
    given, else the one of its environment variable when that is set (even to the empty
    string), else the default. *)
Theorem configuration_precedence given environ k kind :
  (k, kind) ∈ config_keys →
  (∃ d, default_value k = Some d ∧ has_kind d kind = true)
  ∧ configured_find given environ k
    = match flag_of k ≫= λ f, given !! f with
      | Some x => Some x
      | None =>
          match environ !! env_name (BindEnv_keys (config_keys.*1) registrations.1) k with
          | Some s => Some (CString s)
          | None => default_value k
          end
      end.
Proof. exact (find_typed given environ k kind). Qed.

(** ** Decoding *)

(** The kind of a key, by computation. *)
Definition key_kind (k : string) : option GoKind := snd <$> head (filter (λ kk, kk.1 = k) config_keys).

Lemma key_kind_elem k kind : key_kind k = Some kind → (k, kind) ∈ config_keys.
Proof.
  unfold key_kind. destruct (filter _ config_keys) as [|[k' kd] l] eqn:E; [discriminate|]. intros [= <-].
  assert ((k', kd) ∈ filter (λ kk, kk.1 = k) config_keys) as H by (rewrite E; left).
  apply list_elem_of_filter in H as [Hk H]. cbn [fst] in Hk. subst k'. exact H.
Qed.

Lemma decode_string x : has_kind x KString = true → ∃ a, as_string x = Ok a.
Proof. destruct x; try discriminate. eexists. apply as_string_ok. Qed.
Lemma decode_bool x : has_kind x KBool = true → ∃ a, as_bool x = Ok a.
Proof. destruct x; try discriminate. eexists. apply as_bool_ok. Qed.
Lemma decode_int x : has_kind x KInt = true → ∃ a, as_int x = Ok a.
Proof. destruct x; try discriminate. intros H%bool_decide_eq_true. eexists. by apply as_int_ok. Qed.
Lemma decode_int8 x : has_kind x KInt8 = true → ∃ a, as_int8 x = Ok a.
Proof. destruct x; try discriminate. intros H%bool_decide_eq_true. eexists. by apply as_int8_ok. Qed.
Lemma decode_uint x : has_kind x KUint = true → ∃ a, as_uint x = Ok a.
Proof. destruct x; try discriminate. eexists. apply as_uint_ok. Qed.

(** Values of the right kinds make a configuration. *)
Lemma Unmarshal_typed find :
  (∀ k kd, (k, kd) ∈ config_keys → ∃ x, find k = Some x ∧ has_kind x kd = true) → ∃ c, Unmarshal find = Ok c.
Proof.
  intros Hf. unfold Unmarshal.
  repeat match goal with
  | |- ∃ c, res_bind (field find ?k ?d ?z) _ = Ok c =>
      let kd := eval vm_compute in (key_kind k) in
      match kd with
      | Some ?kd =>
          let H := fresh in
          destruct (field_typed find k kd d z) as [? H];
            [apply key_kind_elem; vm_compute; reflexivity | exact Hf
            | first [exact decode_string | exact decode_bool | exact decode_int | exact decode_int8 | exact decode_uint]
            | rewrite H; clear H; cbn [res_bind]]
      end
  end.
  by eexists.
Qed.

(** Decoding looks at the keys of the configuration only. *)
Lemma Unmarshal_ext f g : (∀ k kd, (k, kd) ∈ config_keys → f k = g k) → Unmarshal f = Unmarshal g.
Proof.
  intros H. unfold Unmarshal, field. repeat match goal with
  | |- context [f ?k] =>
      let kd := eval vm_compute in (key_kind k) in
      match kd with Some ?kd => rewrite (H k kd) by (apply key_kind_elem; vm_compute; reflexivity) end
  end. reflexivity.
Qed.

(** The configuration of a command without arguments in an empty environment. *)
Definition default_configuration : Configuration :=
  mkConfiguration ":8080" ":8090" (mkLeaderElection false "cluster-registry-leader-election" "")
    (mkLogging 0 LogFormatJSON) (mkClusterController 2 0) (mkSyncController 1 (mkSyncControllerRateLimit 1024 5 10))
    "cluster-registry" "" true "cluster-registry-controller-reader" "default" "" true
    (mkClusterValidatorWebhook true "/tmp/webhooks/clusterValidator/certificates" "cluster-validator-webhook" 9443).

Lemma Unmarshal_defaults : Unmarshal default_value = Ok default_configuration.
Proof.
  unfold Unmarshal, field. repeat match goal with
  | |- context [default_value ?k] =>
      let d := eval vm_compute in (default_value k) in
      replace (default_value k) with d by (vm_compute; reflexivity)
  end.
  rewrite !as_string_ok. cbn [res_bind]. rewrite !as_bool_ok. cbn [res_bind].
  repeat (rewrite ?as_string_ok, ?as_bool_ok, ?as_uint_ok, ?as_int_ok, ?as_int8_ok by lia; cbn [res_bind]).
  reflexivity.
Qed.

Lemma configure_unfold b args environ given :
  pflag_Parse registrations.2 args = Parsed given →
  configure b args environ
  = match Unmarshal (configured_find given environ) with
    | Err e => ConfigPanic (WrapIf e "failed to unmarshal configuration")
    | Ok c =>
        if get_bool (configured_find given environ "version") then ConfigExit 0 (version_line b)
        else if get_bool (configured_find given environ "dump-config") then
          match yaml_Marshal_config c with
          | Err e => ConfigPanic (WrapIf e "failed to dump configuration")
          | Ok t => ConfigExit 0 t
          end
        else Configured c
    end.
Proof.
  intros Hp. unfold configure, configured_find. rewrite bound_keys_all. revert Hp.
  generalize registrations config_keys.*1. intros [v p] keys Hp. cbn [fst snd] in *. rewrite Hp. reflexivity.
Qed.

(** C38: when every flag that is given has the kind of the fields it is bound to, and no
    variable of the environment overrides a key, the configuration is decoded and
    [configure] does not panic: the defaults that the flags and viper hold for all the
    other fields are of the right kinds. *)
Theorem configure_well_typed b args environ given :
  pflag_Parse registrations.2 args = Parsed given →
  (∀ k kd f x, (k, kd) ∈ config_keys → flag_of k = Some f → given !! f = Some x → has_kind x kd = true) →
  (∀ k kd, (k, kd) ∈ config_keys →
     environ !! env_name (BindEnv_keys (config_keys.*1) registrations.1) k = None) →
  (∀ c, ∃ t, yaml_Marshal_config c = Ok t) →
  (∃ c, Unmarshal (configured_find given environ) = Ok c) ∧ ∀ e, configure b args environ ≠ ConfigPanic e.
Proof.
  intros Hp Hg He Hy.
  assert (∃ c, Unmarshal (configured_find given environ) = Ok c) as [c Hc].
  { apply Unmarshal_typed. intros k kd Hk.
    destruct (find_typed given environ k kd Hk) as [(d & Hd & Ht) ->].
    destruct (flag_of k) as [f|] eqn:Hf; cbn [mbind option_bind].
    - destruct (given !! f) as [x|] eqn:Hx; [exists x; split; [reflexivity|exact (Hg k kd f x Hk Hf Hx)]|].
      rewrite (He k kd Hk). exists d. split; [exact Hd|exact Ht].
    - rewrite (He k kd Hk). exists d. split; [exact Hd|exact Ht]. }
  split; [exists c; exact Hc|]. intros e. rewrite (configure_unfold b args environ given Hp), Hc.
  destruct (get_bool _); [discriminate|]. destruct (get_bool _); [|discriminate].
  destruct (Hy c) as [t ->]. discriminate.
Qed.

(** The switches that end the process are off by default. *)
Lemma switch_off k :
  v_pflags registrations.1 !! k = Some k → v_defaults registrations.1 !! k = None →
  flag_default registrations.2 k = Some (CBool false) → get_bool (configured_find ∅ ∅ k) = false.
Proof.
  unfold configured_find. generalize registrations config_keys.*1. intros [v p] keys. cbn [fst snd]. intros Hf Hd Hp.
  rewrite (find_flag_default (BindEnv_keys keys v) p ∅ ∅ k k (CBool false)); [apply get_bool_ok|exact Hf| | |exact Hd|exact Hp];
    apply lookup_empty.
Qed.

(** Without arguments and in an empty environment, the command runs with the
    configuration that the flags and defaults document. *)
Theorem configure_defaults b args :
  pflag_Parse registrations.2 args = Parsed ∅ → configure b args ∅ = Configured default_configuration.
Proof.
  intros Hp. rewrite (configure_unfold b args ∅ ∅ Hp).
  rewrite (Unmarshal_ext _ default_value).
  - rewrite Unmarshal_defaults. rewrite !switch_off by (vm_compute; reflexivity). reflexivity.
  - intros k kd Hk. destruct (find_typed ∅ ∅ k kd Hk) as [_ ->].
    destruct (flag_of k) as [f|]; cbn [mbind option_bind]; rewrite ?lookup_empty; reflexivity.
Qed.
End configure_facts.
