(* ===== verification/Signals.v ===== *)
(** * Signals

    pkg/signals/signals.go: [NotifyContext] gives a context that the first signal cancels,
    and ends the process at the second one. The channel holds one signal; a signal that
    arrives while it is full is dropped, as [signal.Notify] does. *)

From stdpp Require Import base list relations.
From S2P Require Import Prelude.

(** Where the goroutine is: in the select, after the first receive, at the second
    receive, before the exit, and at its end. *)
Inductive Phase := PSelect | PFirst | PAwait | PSecond | PEnd.

(** [sent] and [received] count the signals, for the statements. *)
Record SigState := mkSigState {
  sg_phase : Phase;
  sg_chan : nat;
  sg_parent : bool  (** the parent context is done *);
  sg_done : bool  (** the context is done *);
  sg_exited : bool;
  sg_sent : nat;
  sg_received : nat }.

Definition NotifyContext (parent_done : bool) : SigState := mkSigState PSelect 0 parent_done parent_done false 0 0.

(** What happens to the process from outside. *)
Definition signal (s : SigState) : SigState :=
  mkSigState (sg_phase s) 1 (sg_parent s) (sg_done s) (sg_exited s) (S (sg_sent s)) (sg_received s).
Definition cancel_parent (s : SigState) : SigState :=
  mkSigState (sg_phase s) (sg_chan s) true true (sg_exited s) (sg_sent s) (sg_received s).

Inductive env_step : relation SigState :=
| env_signal s : sg_exited s = false → env_step s (signal s)
| env_parent s : sg_exited s = false → env_step s (cancel_parent s).

(** The goroutine; the select takes any case that is ready. *)
Inductive go_step : relation SigState :=
| go_first c p d n m : go_step (mkSigState PSelect (S c) p d false n m) (mkSigState PFirst c p d false n (S m))
| go_done c p n m : go_step (mkSigState PSelect c p true false n m) (mkSigState PEnd c p true false n m)
| go_cancel c p d n m : go_step (mkSigState PFirst c p d false n m) (mkSigState PAwait c p true false n m)
| go_second c p d n m : go_step (mkSigState PAwait (S c) p d false n m) (mkSigState PSecond c p d false n (S m))
| go_exit c p d n m : go_step (mkSigState PSecond c p d false n m) (mkSigState PEnd c p d true n m).

Definition sig_step (s s' : SigState) : Prop := env_step s s' ∨ go_step s s'.

(** The goroutine waits, or is at its end. *)
Definition idle (s : SigState) : Prop := ∀ s', ¬ go_step s s'.

Definition phase_rank (p : Phase) : nat :=
  match p with PSelect => 4 | PFirst => 3 | PAwait => 2 | PSecond => 1 | PEnd => 0 end.

(** ** Invariant *)

Record sig_ok (s : SigState) : Prop := {
  so_count : sg_received s + sg_chan s ≤ sg_sent s;
  so_done : sg_done s = true → sg_parent s = true ∨ 1 ≤ sg_received s;
  so_exited : sg_exited s = true → sg_done s = true ∧ 2 ≤ sg_received s;
  so_phase : match sg_phase s with
             | PSelect => sg_received s = 0 ∧ sg_exited s = false ∧ (sg_sent s = 0 ∨ sg_chan s = 1)
             | PFirst => sg_received s = 1 ∧ sg_exited s = false
             | PAwait => sg_received s = 1 ∧ sg_done s = true ∧ sg_exited s = false
             | PSecond => sg_received s = 2 ∧ sg_done s = true ∧ sg_exited s = false
             | PEnd => sg_done s = true
             end;
  so_chan : sg_chan s ≤ 1 }.

Lemma NotifyContext_ok b : sig_ok (NotifyContext b).
Proof. split; simpl; try lia; auto. Qed.

Lemma env_step_ok s s' : env_step s s' → sig_ok s → sig_ok s'.
Proof.
  intros Hs [Hc Hd He Hp Hch]. destruct Hs as [s Hx|s Hx]; split; simpl in *; [lia|done|done| |lia|done| | | |done].
  - destruct (sg_phase s); naive_solver.
  - by left.
  - naive_solver.
  - destruct (sg_phase s); naive_solver.
Qed.

Lemma go_step_ok s s' : go_step s s' → sig_ok s → sig_ok s'.
Proof.
  intros Hs [Hc Hd He Hp Hch]. destruct Hs; simpl in *; split; simpl in *; try lia; auto; naive_solver lia.
Qed.

Lemma reachable_ok b s : rtc sig_step (NotifyContext b) s → sig_ok s.
Proof.
  intros Hr. remember (NotifyContext b) as s0 eqn:E. assert (sig_ok s0) as Hok by (subst; apply NotifyContext_ok).
  clear E. induction Hr as [s|s s1 s' [H|H] _ IH]; [done|..]; apply IH;
    [by eapply env_step_ok|by eapply go_step_ok].
Qed.

(** ** The goroutine ends *)

Lemma go_step_rank s s' : go_step s s' → phase_rank (sg_phase s') < phase_rank (sg_phase s).
Proof. destruct 1; simpl; lia. Qed.

Lemma go_runs_to_idle s : ∃ s', rtc go_step s s' ∧ idle s'.
Proof.
  remember (phase_rank (sg_phase s)) as n eqn:En. revert s En.
  induction (lt_wf n) as [n _ IH]. intros s ->.
  destruct s as [ph c p d x n' m]. destruct x; [exists (mkSigState ph c p d true n' m); split; [done|by inversion 1]|].
  assert (idle (mkSigState ph c p d false n' m) ∨ ∃ s1, go_step (mkSigState ph c p d false n' m) s1) as [Hi|[s1 H1]].
  { destruct ph; [destruct c; [destruct d|]| |destruct c| |];
      first [right; eexists; by constructor | left; by inversion 1]. }
  - eexists. by split.
  - destruct (IH _ (go_step_rank _ _ H1) s1 eq_refl) as (s' & Hr & Hi). exists s'.
    split; [by eapply rtc_l|done].
Qed.

(** The second signal, once the first one is handled. *)
Lemma second_signal_exits s s' :
  sg_phase s = PAwait → sg_exited s = false → rtc go_step (signal s) s' → idle s' → sg_exited s' = true.
Proof.
  destruct s as [ph c p d x n m]. simpl. intros -> -> Hr Hi. unfold signal in Hr. simpl in Hr.
  inversion Hr as [|a b e H1 H2]; subst; [edestruct Hi; constructor|].
  inversion H1; subst. inversion H2 as [|a b e H3 H4]; subst; [edestruct Hi; constructor|].
  inversion H3; subst. inversion H4 as [|a b e H5 H6]; subst; [done|]. inversion H5.
Qed.

(** C23: the context is cancelled only by its parent or after a signal, and the process is
    ended only after two signals were received; the goroutine never runs on without an
    event: from every state it comes to rest, and at rest, a signal that was sent has
    cancelled the context; a signal sent after that first one was handled ends the process. *)
Theorem signals_stop_the_process b s :
  rtc sig_step (NotifyContext b) s →
  (sg_done s = true → sg_parent s = true ∨ 1 ≤ sg_sent s)
  ∧ (sg_exited s = true → sg_done s = true ∧ 2 ≤ sg_sent s)
  ∧ (∃ s', rtc go_step s s' ∧ idle s')
  ∧ (idle s → 1 ≤ sg_sent s → sg_done s = true)
  ∧ (sg_phase s = PAwait → ∀ s', rtc go_step (signal s) s' → idle s' → sg_exited s' = true).
Proof.
  intros Hr. pose proof (reachable_ok b s Hr) as [Hc Hd He Hp Hch]. split_and!.
  - intros H. destruct (Hd H); [by left|right; lia].
  - intros H. destruct (He H). split; [done|lia].
  - apply go_runs_to_idle.
  - intros Hi Hs. destruct s as [ph c p d x n m]. simpl in *.
    destruct ph; [| |by destruct Hp as (_ & H & _)..|exact Hp].
    + destruct Hp as (-> & -> & [-> | ->]); [lia|]. edestruct Hi. constructor.
    + destruct Hp as (-> & ->). edestruct Hi. constructor.
  - intros Hph s'. rewrite Hph in Hp. destruct Hp as (_ & _ & Hx). by apply second_signal_exits.
Qed.

(** Two signals, handled one after the other, end the process. *)
Lemma signals_stop_the_process_witness :
  ∃ s, rtc sig_step (NotifyContext false) s ∧ sg_exited s = true ∧ sg_done s = true.
Proof.
  set (s := mkSigState PEnd 0 false true true 2 2).
  assert (rtc sig_step (NotifyContext false) s) as Hr.
  { eapply rtc_l; [left; by apply env_signal|]. eapply rtc_l; [right; apply go_first|].
    eapply rtc_l; [right; apply go_cancel|]. eapply rtc_l; [left; by apply env_signal|].
    eapply rtc_l; [right; apply go_second|]. eapply rtc_l; [right; apply go_exit|]. apply rtc_refl. }
  exists s. split_and!; [exact Hr|reflexivity|].
  exact (proj1 (proj1 (proj2 (signals_stop_the_process false s Hr)) eq_refl)).
Defined.
