(* ===== verification/Main.v ===== *)
(** * The command

    cmd/manager/main.go: from the configuration to the running manager, over the
    operations of the other components: the provisioning of the local cluster, the
    certificate renewer, the webhook certifier, the clusters manager and the setups of
    the two reconcilers. The calls are recorded in the order they are made. *)

From stdpp Require Import gmap strings list.
From S2P Require Import Prelude Errors Types Util Cluster ManagedReconciler Manager Conditions Meta Secret ClusterReconciler RuleReconciler RemoteReconciler Watches Config Configure Certificate Certifier.
Open Scope string_scope.
Open Scope go_scope.

(** ** Options, loggers and readiness *)

Record Options := mkOptions {
  MetricsBindAddress : string; opt_LeaderElection : bool; LeaderElectionID : string;
  LeaderElectionNamespace : string; HealthProbeBindAddress : string; CertDir : string; opt_Port : Z }.

(** The console logger with the global level, the zap logger with its level. *)
Inductive Logger := ConsoleLogger (level : Z) | ZapLogger (level : Z).

(** The check that answers the readiness probe. *)
Inductive Readyz := ReadyPing | ReadyCertifier (c : WebhookCertifier).

(** The negation of an [int8] and the conversion of [uint] to [int] wrap around. *)
Definition zap_level (verbosity : Z) : Z := int8 (0 - verbosity).
Definition int_of_uint (port : Z) : Z := int64 port.

Definition logger_for (c : Configuration) : Logger :=
  if bool_decide (Format (cfg_Logging c) = LogFormatConsole) then ConsoleLogger (Verbosity (cfg_Logging c))
  else ZapLogger (zap_level (Verbosity (cfg_Logging c))).

Definition options_for (c : Configuration) : Options :=
  let le := cfg_LeaderElection c in
  let wh := cfg_ClusterValidatorWebhook c in
  mkOptions (MetricsAddr c) (le_Enabled le) (le_Name le) (le_Namespace le) (HealthAddr c)
    (if Enabled wh then CertificateDirectory wh else "") (if Enabled wh then int_of_uint (Port wh) else 0%Z).

(** ** The environment of the command *)

(** The calls of controller-runtime. [GetConfigOrDie] ends the process when there is no
    configuration of the API server. *)
Class MainEnv (S : Type) : Type := {
  GetConfigOrDie : ST S bool;
  client_New : ST S (option error);
  ctrl_NewManager : Options → ST S (option error);
  webhook_Register : string → ST S unit;
  mgr_Add : WebhookCertifier → ST S (option error);
  mgr_AddReadyzCheck : string → Readyz → ST S (option error);
  mgr_Start : ST S (option error) }.

(** The watches of a reconciler are kept by the environment. *)
Section lift.
Context {S : Type} `{WE : WatchEnv S}.
Definition rule_env {A} (c : ST S A) : ST (RuleWorld S) A :=
  λ w, let '(a, s) := c (ru_env w) in (a, mkRuleWorld (ru_rec w) (ru_mgr w) s).
#[export] Instance rule_watch_env : WatchEnv (RuleWorld S) := {|
  ctrl_Watch w := rule_env (ctrl_Watch w);
  builder_Build ws n := rule_env (builder_Build ws n);
  GetInformerForKind k := rule_env (GetInformerForKind k) |}.
#[export] Instance cluster_watch_env : WatchEnv (RWorld S) := {|
  ctrl_Watch w := env (ctrl_Watch w);
  builder_Build ws n := env (builder_Build ws n);
  GetInformerForKind k := env (GetInformerForKind k) |}.
End lift.

Inductive MainCall :=
| CLogger (l : Logger) | CProvision (name : string) | CManager (o : Options) | CWebhook (path : string)
| CCertifier (c : WebhookCertifier) | CRules | CClusters | CReadyz (r : Readyz) | CStart.

(** The calls so far, the clusters manager, and the rest. *)
Record MainWorld (S : Type) := mkMainWorld { mw_calls : list MainCall; mw_mgr : MWorld; mw_env : S }.
Arguments mkMainWorld {S} _ _ _.
Arguments mw_calls {S} _.
Arguments mw_mgr {S} _.
Arguments mw_env {S} _.

Inductive MainOutcome := MainReturned | MainExited (code : Z) | MainPanicked.

(** The root context of the process, and its manager. *)
Definition signal_ctx : ctx := [0].
Definition the_manager : nat := 0.

Section main.
Context {S : Type} `{CC : ClusterClient S} `{NE : !NodeEnv S} `{SE : !SecretEnv S} `{CE : !CtrlEnv S}.
Context `{CL : CryptoLib} `{HE : !HostEnv S} `{ME : !MainEnv S} `{WE : !WatchEnv S} `{EL : ErrorLib}.
(** The time stamp of a registration. *)
Context (now : string).

Abbreviation W := (MainWorld S).

Definition call (c : MainCall) : ST W unit :=
  st_modify (λ w, mkMainWorld (mw_calls w ++ [c])%list (mw_mgr w) (mw_env w)).
Definition ext {A} (c : ST S A) : ST W A :=
  λ w, let '(a, s) := c (mw_env w) in (a, mkMainWorld (mw_calls w) (mw_mgr w) s).
Definition set_mgr (m : MWorld) : ST W unit := st_modify (λ w, mkMainWorld (mw_calls w) m (mw_env w)).

(** [if err != nil { log; os.Exit(1) }]: [Some] leaves the process. *)
Definition or_exit (c : ST W (option error)) (k : ST W MainOutcome) : ST W MainOutcome :=
  let! err := c in
  match err with Some _ => return! MainExited 1 | None => k end.
Definition or_die (k : ST W MainOutcome) : ST W MainOutcome :=
  let! ok := ext GetConfigOrDie in
  if (ok : bool) then k else return! MainExited 1.

Definition provision (c : Configuration) : ST W MainOutcome → ST W MainOutcome := λ k,
  if bool_decide (ProvisionLocalCluster c = "") then k
  else
    or_die (or_exit (ext client_New) (
    let! _ := call (CProvision (ProvisionLocalCluster c)) in
    or_exit (ext (ProvisionLocalClusterObject c)) k)).

(** The webhook, its certificate renewer and its certifier; the readiness check. *)
Definition setup_webhook (c : Configuration) (k : Readyz → ST W MainOutcome) : ST W MainOutcome :=
  let wh := cfg_ClusterValidatorWebhook c in
  if Enabled wh then
    let! _ := call (CWebhook "/validate-cluster") in
    let! _ := ext (webhook_Register "/validate-cluster") in
    let! renewer := ext (NewRenewer [] (CertificateDirectory wh) true []) in
    match renewer with
    | None => return! MainPanicked
    | Some (Err _) => return! MainExited 1
    | Some (Ok _) =>
        let certifier := NewWebhookCertifier (cvw_Name wh) (cfg_Namespace c) false in
        let! _ := call (CCertifier certifier) in
        or_exit (ext (mgr_Add certifier)) (k (ReadyCertifier certifier))
    end
  else k ReadyPing.

(** The setups of the two reconcilers, which share the clusters manager. *)
Definition setup_rules (c : Configuration) : ST W (option error) := λ w,
  let '(b, r) := NewResourceSyncRuleReconciler "resource-sync-rules" c in
  let '(err, (_, rw)) := SetupWithManager_rule now signal_ctx the_manager (b, mkRuleWorld r (mw_mgr w) (mw_env w)) in
  (err, mkMainWorld (mw_calls w) (ru_mgr rw) (ru_env rw)).
Definition setup_clusters (c : Configuration) : ST W (option error) := λ w,
  let '(b, r) := NewClusterReconciler "clusters" c in
  let '(err, (_, cw)) := SetupWithManager_cluster signal_ctx the_manager (b, mkRWorld r (mw_mgr w) (mw_env w)) in
  (err, mkMainWorld (mw_calls w) (rw_mgr cw) (rw_env cw)).

Definition main (configured : ConfigureOutcome) : ST W MainOutcome :=
  match configured with
  | ConfigExit code _ => return! MainExited code
  | ConfigPanic _ => return! MainPanicked
  | Configured c =>
      let! _ := call (CLogger (logger_for c)) in
      provision c (
      or_die (
      let! _ := call (CManager (options_for c)) in
      or_exit (ext (ctrl_NewManager (options_for c))) (
      setup_webhook c (λ readyz,
      let! _ := set_mgr (NewManager signal_ctx [] ∅) in
      let! _ := call CRules in
      or_exit (setup_rules c) (
      let! _ := call CClusters in
      or_exit (setup_clusters c) (
      let! _ := call (CReadyz readyz) in
      or_exit (ext (mgr_AddReadyzCheck "readyz" readyz)) (
      let! _ := call CStart in
      or_exit (ext mgr_Start) (
      return! MainReturned))))))))
  end.
End main.
