(* ===== verification/MainFacts.v ===== *)
(** * What holds when the manager is started

    The calls of [main] come in one order, every error before the start ends the process,
    and a manager that is started has all its watches, the callback that queues the rules
    for new clusters, and the readiness check that fits the configuration. *)

From stdpp Require Import gmap strings list.
From S2P Require Import Prelude Errors Types Util Cluster ClusterLife ManagedReconciler Manager Conditions Meta Secret ClusterReconciler RuleReconciler RemoteReconciler Watches WatchFacts Config Configure Certificate Certifier Main.
Open Scope string_scope.
Open Scope go_scope.

Section lifted_laws.
Context {S : Type} `{WE : WatchEnv S} `{WL : !WatchLaws S}.

#[export, refine] Instance rule_watch_laws : WatchLaws (RuleWorld S) := {| watches w := watches (ru_env w) |}.
Proof.
  - intros w s. destruct (ctrl_Watch_watches w (ru_env s)) as (l & Hl & H). exists l. simpl. unfold rule_env.
    by destruct (ctrl_Watch w (ru_env s)).
  - intros ws n s. destruct (builder_Build_watches ws n (ru_env s)) as (l & Hl & H). exists l. simpl. unfold rule_env.
    by destruct (builder_Build ws n (ru_env s)).
  - intros k s. pose proof (GetInformer_watches k (ru_env s)) as H. simpl. unfold rule_env.
    by destruct (GetInformerForKind k (ru_env s)).
Defined.

#[export, refine] Instance cluster_watch_laws : WatchLaws (RWorld S) := {| watches w := watches (rw_env w) |}.
Proof.
  - intros w s. destruct (ctrl_Watch_watches w (rw_env s)) as (l & Hl & H). exists l. simpl. unfold env.
    by destruct (ctrl_Watch w (rw_env s)).
  - intros ws n s. destruct (builder_Build_watches ws n (rw_env s)) as (l & Hl & H). exists l. simpl. unfold env.
    by destruct (builder_Build ws n (rw_env s)).
  - intros k s. pose proof (GetInformer_watches k (rw_env s)) as H. simpl. unfold env.
    by destruct (GetInformerForKind k (rw_env s)).
Defined.

Lemma rule_watches_env r m r' m' (s : S) : watches (mkRuleWorld r m s) = watches (mkRuleWorld r' m' s).
Proof. reflexivity. Qed.
End lifted_laws.

(** The readiness check of a configuration, and the calls that [main] makes. *)
Definition readyz_for (c : Configuration) : Readyz :=
  let wh := cfg_ClusterValidatorWebhook c in
  if Enabled wh then ReadyCertifier (NewWebhookCertifier (cvw_Name wh) (cfg_Namespace c) false) else ReadyPing.

Definition expected_calls (c : Configuration) : list MainCall :=
  let wh := cfg_ClusterValidatorWebhook c in
  ([CLogger (logger_for c)]
   ++ (if bool_decide (ProvisionLocalCluster c = "") then [] else [CProvision (ProvisionLocalCluster c)])
   ++ [CManager (options_for c)]
   ++ (if Enabled wh
       then [CWebhook "/validate-cluster"; CCertifier (NewWebhookCertifier (cvw_Name wh) (cfg_Namespace c) false)]
       else [])
   ++ [CRules; CClusters; CReadyz (readyz_for c); CStart])%list.

Section main_facts.
Context {S : Type} `{CC : ClusterClient S} `{NE : !NodeEnv S} `{SE : !SecretEnv S} `{CE : !CtrlEnv S}.
Context `{CL : CryptoLib} `{HE : !HostEnv S} `{ME : !MainEnv S} `{WE : !WatchEnv S} `{WL : !WatchLaws S} `{EL : ErrorLib}.
Context (now : string).
(** The readiness check and the start keep the registrations. *)
Context (AddReadyzCheck_watches : ∀ n r (s : S), watches (mgr_AddReadyzCheck n r s).2 = watches s).
Context (Start_watches : ∀ s : S, watches (mgr_Start s).2 = watches s).

Abbreviation W := (MainWorld S).

(** The rules are registered: their watches, and the callback for new clusters. *)
Definition rules_ready (w : W) : Prop :=
  onAfterAddFuncs (mg (mw_mgr w)) !! requeue_id = Some requeue_id ∧ rule_watches ⊆ watches (mw_env w).
Definition all_ready (w : W) : Prop := rules_ready w ∧ cluster_watches ⊆ watches (mw_env w).

(** Where [P] holds, the rest of [main] makes the calls [l], or the first of them before
    it exits with 1; when it starts the manager, everything is ready. *)
Definition runs (P : W → Prop) (k : ST W MainOutcome) (l : list MainCall) : Prop :=
  ∀ w, P w → ∃ pre, mw_calls (k w).2 = (mw_calls w ++ pre)%list ∧ pre `prefix_of` l
    ∧ ((k w).1 = MainReturned ∧ pre = l ∨ (k w).1 = MainExited 1)
    ∧ (CStart ∈ pre → all_ready (k w).2).

Lemma runs_call P P' c k l :
  c ≠ CStart → (∀ w, P w → P' (call c w).2) → runs P' k l → runs P (let! _ := call c in k) (c :: l).
Proof.
  intros Hc HP Hk w Hw. destruct (Hk _ (HP w Hw)) as (pre & Hp & Hl & Ho & Hs). exists (c :: pre).
  unfold st_bind. change (call c w) with (tt, (call c w).2). cbv iota beta.
  split_and!.
  - rewrite Hp. simpl. by rewrite <-app_assoc.
  - by apply prefix_cons.
  - naive_solver.
  - intros [?|?]%elem_of_cons; [congruence|by apply Hs].
Qed.

(** A call that keeps the record of the calls, and gives [P'] when it succeeds. *)
Definition gives (P : W → Prop) (c : ST W (option error)) (P' : W → Prop) : Prop :=
  ∀ w, P w → mw_calls (c w).2 = mw_calls w ∧ ((c w).1 = None → P' (c w).2).

Lemma runs_or_exit P P' c k l : gives P c P' → runs P' k l → runs P (or_exit c k) l.
Proof.
  intros Hc Hk w Hw. destruct (Hc w Hw) as [Hcalls HP]. unfold or_exit, st_bind.
  destruct (c w) as [[e|] w1]; simpl in *.
  - exists []. rewrite app_nil_r. split_and!; [done|apply prefix_nil|by right|by intros ?%elem_of_nil].
  - destruct (Hk w1 (HP eq_refl)) as (pre & Hp & Hl & Ho & Hs). exists pre. by rewrite Hp, Hcalls.
Qed.

Lemma runs_exit (P : W → Prop) l : runs P (return! MainExited 1) l.
Proof.
  intros w _. exists []. rewrite app_nil_r. split_and!; [done|apply prefix_nil|by right|by intros ?%elem_of_nil].
Qed.

Lemma runs_ext {A} (c : ST S A) (ok : A → Prop) (k : A → ST W MainOutcome) l :
  (∀ s, ok (c s).1) → (∀ a, ok a → runs (λ _, True) (k a) l) → runs (λ _, True) (let! a := ext c in k a) l.
Proof.
  intros Hok Hk w _. unfold st_bind, ext. specialize (Hok (mw_env w)).
  destruct (c (mw_env w)) as [a s]. exact (Hk a Hok _ I).
Qed.

Lemma runs_or_die (k : ST W MainOutcome) l : runs (λ _, True) k l → runs (λ _, True) (or_die k) l.
Proof.
  intros Hk. apply (runs_ext _ (λ _, True)); [done|]. intros [|] _; [exact Hk|apply runs_exit].
Qed.

Lemma gives_ext (c : ST S (option error)) : gives (λ _, True) (ext c) (λ _, True).
Proof. intros w _. unfold ext. by destruct (c (mw_env w)). Qed.

Lemma runs_start : runs all_ready (let! _ := call CStart in or_exit (ext mgr_Start) (return! MainReturned)) [CStart].
Proof.
  intros w ((Hcb & Hr) & Hw). unfold st_bind, call, st_modify, or_exit, ext, st_bind, all_ready, rules_ready. simpl.
  pose proof (Start_watches (mw_env w)) as Hs. destruct (mgr_Start (mw_env w)) as [[e|] s]; simpl in *;
    exists [CStart]; rewrite Hs; split_and!; naive_solver.
Qed.

Lemma gives_readyz r : gives all_ready (ext (mgr_AddReadyzCheck "readyz" r)) all_ready.
Proof.
  intros w Hw. unfold ext. pose proof (AddReadyzCheck_watches "readyz" r (mw_env w)) as Hs.
  destruct (mgr_AddReadyzCheck "readyz" r (mw_env w)) as [e s]. simpl in *. split; [done|]. intros _.
  unfold all_ready, rules_ready in *. simpl. by rewrite Hs.
Qed.

(** The setup of the rules. *)
Lemma SetupWithManager_rule_registers x mgr b (w : RuleWorld S) b' w' :
  SetupWithManager_rule now x mgr (b, w) = (None, (b', w')) →
  onAfterAddFuncs (mg (ru_mgr w')) !! requeue_id = Some requeue_id.
Proof.
  unfold SetupWithManager_rule, on_error, st_bind, base_call, on_world. simpl.
  destruct (rule_env _ w) as [[e|] w1]; simpl; [done|].
  destruct (SetupWithController_rule now x _) as [[e|] [b2 w2]] eqn:E; simpl; [done|].
  intros [= <- <-]. by eapply SetupWithController_rule_registers.
Qed.

Lemma gives_rules c : gives (λ _, True) (setup_rules now c) rules_ready.
Proof.
  intros w _. unfold setup_rules. simpl.
  set (w0 := mkRuleWorld (mkRuleReconcilerState c None) (mw_mgr w) (mw_env w)).
  destruct (SetupWithManager_rule_ok rule_watches_env now signal_ctx the_manager
    (NewManagedReconciler "resource-sync-rules") w0) as (l & Hl & H).
  pose proof (SetupWithManager_rule_registers signal_ctx the_manager (NewManagedReconciler "resource-sync-rules") w0) as Hr.
  destruct (SetupWithManager_rule now signal_ctx the_manager _) as [err [b' w']]. simpl in *.
  split; [done|]. intros ->. split; [by eapply Hr|]. simpl. rewrite Hl. destruct H as [-> _]. set_solver.
Qed.

(** The setup of the cluster reconciler does not touch the clusters manager. *)
Definition same_mgr (w w' : ManagedReconcilerBase * RWorld S) : Prop := rw_mgr w'.2 = rw_mgr w.2.
#[local] Instance same_mgr_preorder : PreOrder same_mgr.
Proof. split; [done|]. intros x y z H1 H2. unfold same_mgr in *. congruence. Qed.

Lemma same_mgr_env {A} (c : ST S A) : moves same_mgr (on_world (env c)).
Proof. intros [b w]. unfold on_world, env, same_mgr. simpl. by destruct (c (rw_env w)). Qed.
Lemma same_mgr_base f : moves same_mgr (base_call f).
Proof. intros [b w]. unfold base_call, same_mgr. simpl. by destruct (f b). Qed.
Lemma same_mgr_on_base f : moves same_mgr (on_base f).
Proof. by intros [b w]. Qed.
Lemma same_mgr_read : moves same_mgr (on_world (λ w, (rw_rec w, w))).
Proof. by intros [b w]. Qed.

Lemma SetupWithManager_cluster_mgr x mgr : moves same_mgr (SetupWithManager_cluster x mgr).
Proof.
  unfold SetupWithManager_cluster, SetupWithController_cluster, on_error, watch_all, on_error.
  simpl ctrl_Watch. simpl builder_Build.
  moves_tac; first [apply same_mgr_env | apply same_mgr_base | apply same_mgr_on_base | apply same_mgr_read].
Qed.

Lemma gives_clusters c : gives rules_ready (setup_clusters c) all_ready.
Proof.
  intros w [Hcb Hr]. unfold setup_clusters. simpl.
  set (w0 := mkRWorld (mkClusterReconcilerState c "" None) (mw_mgr w) (mw_env w)).
  destruct (SetupWithManager_cluster_ok signal_ctx the_manager (NewManagedReconciler "clusters") w0) as (l & Hl & H).
  pose proof (SetupWithManager_cluster_mgr signal_ctx the_manager (NewManagedReconciler "clusters", w0)) as Hm.
  destruct (SetupWithManager_cluster signal_ctx the_manager _) as [err [b' w']]. unfold same_mgr in Hm. simpl in *.
  split; [done|]. intros ->. unfold all_ready, rules_ready. simpl. rewrite Hm, Hl. simpl. destruct H as [-> _].
  split_and!; [done|set_solver..].
Qed.

(** ** The blocks of main *)

Lemma runs_provision c k l :
  runs (λ _, True) k l →
  runs (λ _, True) (provision c k)
    ((if bool_decide (ProvisionLocalCluster c = "") then [] else [CProvision (ProvisionLocalCluster c)]) ++ l).
Proof.
  intros Hk. unfold provision. case_bool_decide; [done|].
  apply runs_or_die. eapply runs_or_exit; [apply gives_ext|].
  apply (runs_call _ (λ _, True)); [done..|]. eapply runs_or_exit; [apply gives_ext|done].
Qed.

(** Without functions to call afterwards, the renewer is created unless the check fails. *)
Lemma NewRenewer_returns dir (s : S) : (NewRenewer [] dir true [] s).1 ≠ None.
Proof.
  unfold NewRenewer, checkCertificate, st_bind. destruct (current_certificate _ s) as [[a b] s']. by simpl.
Qed.

Lemma runs_webhook c (k : Readyz → ST W MainOutcome) l :
  runs (λ _, True) (k (readyz_for c)) l →
  runs (λ _, True) (setup_webhook c k)
    ((if Enabled (cfg_ClusterValidatorWebhook c)
      then [CWebhook "/validate-cluster";
            CCertifier (NewWebhookCertifier (cvw_Name (cfg_ClusterValidatorWebhook c)) (cfg_Namespace c) false)]
      else []) ++ l).
Proof.
  unfold setup_webhook, readyz_for. destruct (Enabled _); [|done]. intros Hk.
  apply (runs_call _ (λ _, True)); [done..|]. apply (runs_ext _ (λ _, True)); [done|]. intros u _.
  apply (runs_ext _ (λ r, r ≠ None)); [apply NewRenewer_returns|]. intros [[r|e]|] Hr; [|apply runs_exit|done].
  apply (runs_call _ (λ _, True)); [done..|]. eapply runs_or_exit; [apply gives_ext|done].
Qed.

Lemma runs_set_mgr (P : W → Prop) m k l :
  runs (λ _, True) k l → runs P (let! _ := set_mgr m in k) l.
Proof. intros Hk w _. exact (Hk (mkMainWorld (mw_calls w) m (mw_env w)) I). Qed.

Lemma rules_ready_call c w : rules_ready w → rules_ready (call c w).2.
Proof. done. Qed.
Lemma all_ready_call c w : all_ready w → all_ready (call c w).2.
Proof. done. Qed.

Lemma main_runs c : runs (λ _, True) (main now (Configured c)) (expected_calls c).
Proof.
  unfold main, expected_calls. apply (runs_call _ (λ _, True)); [done..|].
  apply runs_provision, runs_or_die. apply (runs_call _ (λ _, True)); [done..|].
  eapply runs_or_exit; [apply gives_ext|]. apply runs_webhook, runs_set_mgr.
  apply (runs_call _ (λ _, True)); [done..|]. eapply runs_or_exit; [apply gives_rules|].
  apply (runs_call _ rules_ready); [done|apply rules_ready_call|]. eapply runs_or_exit; [apply gives_clusters|].
  apply (runs_call _ all_ready); [done|apply all_ready_call|]. eapply runs_or_exit; [apply gives_readyz|].
  apply runs_start.
Qed.

(** *** The steps one by one *)

(** A step of [main], and whether it went well. *)
Definition Step : Type := ST W bool.
Definition always {A} (c : ST W A) : Step := λ w, (true, (c w).2).
Definition config_known : Step := ext GetConfigOrDie.
Definition no_error (c : ST W (option error)) : Step :=
  λ w, (match (c w).1 with None => true | Some _ => false end, (c w).2).
Definition after {A} (c : ST W A) (s : Step) : Step := λ w, s (c w).2.
Definition renewer_made (dir : string) : Step :=
  λ w, (match (ext (NewRenewer [] dir true []) w).1 with Some (Ok _) => true | _ => false end,
        (ext (NewRenewer [] dir true []) w).2).

(** All that a start does, in order; each step is a call that may fail, with the entry
    of the record that is made before it. *)
Definition main_steps (c : Configuration) : list Step :=
  let wh := cfg_ClusterValidatorWebhook c in
  let certifier := NewWebhookCertifier (cvw_Name wh) (cfg_Namespace c) false in
  ([always (call (CLogger (logger_for c)))]
   ++ (if bool_decide (ProvisionLocalCluster c = "") then []
       else [config_known; no_error (ext client_New);
             after (call (CProvision (ProvisionLocalCluster c))) (no_error (ext (ProvisionLocalClusterObject c)))])
   ++ [config_known; after (call (CManager (options_for c))) (no_error (ext (ctrl_NewManager (options_for c))))]
   ++ (if Enabled wh
       then [always (call (CWebhook "/validate-cluster")); always (ext (webhook_Register "/validate-cluster"));
             renewer_made (CertificateDirectory wh); after (call (CCertifier certifier)) (no_error (ext (mgr_Add certifier)))]
       else [])
   ++ [always (set_mgr (NewManager signal_ctx [] ∅));
       after (call CRules) (no_error (setup_rules now c));
       after (call CClusters) (no_error (setup_clusters c));
       after (call (CReadyz (readyz_for c))) (no_error (ext (mgr_AddReadyzCheck "readyz" (readyz_for c))));
       after (call CStart) (no_error (ext mgr_Start))])%list.

(** Steps are made until one does not go well, which ends the process with code 1; when
    all of them went well, [main] returns. *)
Inductive executes : list Step → W → MainOutcome → W → Prop :=
| exec_done w : executes [] w MainReturned w
| exec_fails s l w w' : s w = (false, w') → executes (s :: l) w (MainExited 1) w'
| exec_next s l w w1 out w' : s w = (true, w1) → executes l w1 out w' → executes (s :: l) w out w'.

Definition does (k : ST W MainOutcome) (l : list Step) : Prop := ∀ w, executes l w (k w).1 (k w).2.

Lemma does_always {A} (c : ST W A) k l : does k l → does (let! _ := c in k) (always c :: l).
Proof.
  intros Hk w. eapply exec_next; [reflexivity|]. unfold st_bind. specialize (Hk (c w).2).
  by destruct (c w) as [a w1].
Qed.

Lemma does_or_exit c k l : does k l → does (or_exit c k) (no_error c :: l).
Proof.
  intros Hk w. unfold or_exit, st_bind. specialize (Hk (c w).2). destruct (c w) as [[e|] w1] eqn:E; simpl in *.
  - apply exec_fails. unfold no_error. by rewrite E.
  - eapply exec_next; [|exact Hk]. unfold no_error. by rewrite E.
Qed.

Lemma does_after {A} (c : ST W A) k s l : does k (s :: l) → does (let! _ := c in k) (after c s :: l).
Proof.
  intros Hk w. unfold st_bind. specialize (Hk (c w).2). destruct (c w) as [a w1] eqn:E. simpl in *.
  inversion Hk as [|s' l' v v' Hs|s' l' v v1 out v' Hs Hl]; subst.
  - apply exec_fails. unfold after. by rewrite E.
  - eapply exec_next; [|exact Hl]. unfold after. by rewrite E.
Qed.

Lemma does_or_die k l : does k l → does (or_die k) (config_known :: l).
Proof.
  intros Hk w. unfold or_die, st_bind. specialize (Hk (ext GetConfigOrDie w).2).
  destruct (ext GetConfigOrDie w) as [[] w1] eqn:E; simpl in *; [by eapply exec_next|by apply exec_fails].
Qed.

Lemma does_renewer dir (k : ST W MainOutcome) l :
  does k l →
  does (let! r := ext (NewRenewer [] dir true []) in
        match r with None => return! MainPanicked | Some (Err _) => return! MainExited 1 | Some (Ok _) => k end)
    (renewer_made dir :: l).
Proof.
  intros Hk w. unfold st_bind. pose proof (NewRenewer_returns dir (mw_env w)) as Hr.
  specialize (Hk (ext (NewRenewer [] dir true []) w).2). unfold ext in *.
  assert (Hm : ∀ b w1, match (let '(a, s) := NewRenewer [] dir true [] (mw_env w) in (a, mkMainWorld (mw_calls w) (mw_mgr w) s)).1
      with Some (Ok _) => true | _ => false end = b →
      (let '(a, s) := NewRenewer [] dir true [] (mw_env w) in (a, mkMainWorld (mw_calls w) (mw_mgr w) s)).2 = w1 →
      renewer_made dir w = (b, w1)) by (intros b w1 <- <-; reflexivity).
  destruct (NewRenewer [] dir true [] (mw_env w)) as [[[r|e]|] s1]; simpl in *; [| |done].
  - eapply exec_next; [by apply Hm|done].
  - apply exec_fails. by apply Hm.
Qed.

Lemma main_does c : does (main now (Configured c)) (main_steps c).
Proof.
  unfold main, main_steps. apply does_always.
  assert (Hend : does (let! _ := set_mgr (NewManager signal_ctx [] ∅) in
      let! _ := call CRules in
      or_exit (setup_rules now c) (
      let! _ := call CClusters in
      or_exit (setup_clusters c) (
      let! _ := call (CReadyz (readyz_for c)) in
      or_exit (ext (mgr_AddReadyzCheck "readyz" (readyz_for c))) (
      let! _ := call CStart in
      or_exit (ext mgr_Start) (return! MainReturned)))))
    [always (set_mgr (NewManager signal_ctx [] ∅)); after (call CRules) (no_error (setup_rules now c));
     after (call CClusters) (no_error (setup_clusters c));
     after (call (CReadyz (readyz_for c))) (no_error (ext (mgr_AddReadyzCheck "readyz" (readyz_for c))));
     after (call CStart) (no_error (ext mgr_Start))]).
  { apply does_always. do 4 apply does_after, does_or_exit. intros w. apply exec_done. }
  assert (Hprov : ∀ k l, does k l → does (provision c k) ((if bool_decide (ProvisionLocalCluster c = "") then []
       else [config_known; no_error (ext client_New);
             after (call (CProvision (ProvisionLocalCluster c))) (no_error (ext (ProvisionLocalClusterObject c)))]) ++ l)%list).
  { intros k l Hk. unfold provision. case_bool_decide; [done|]. by apply does_or_die, does_or_exit, does_after, does_or_exit. }
  apply Hprov, does_or_die, does_after, does_or_exit.
  unfold setup_webhook, readyz_for in *. destruct (Enabled _); [|exact Hend].
  do 2 apply does_always. by apply does_renewer, does_after, does_or_exit.
Qed.

(** C22: with a configuration, [main] executes its steps in one order: the logger, the
    provisioning of the local cluster when it is configured, the manager, the webhook
    with its certificates and its certifier when it is enabled, the two reconcilers, the
    readiness check and the start. The first step that fails ends the process with code
    1, and no step is made after it; [main] returns only when all of them succeeded.
    Whenever the manager is started, the rule and the cluster reconcilers have all their
    watches, and new clusters queue the rules. *)
Theorem main_starts_only_when_ready c w :
  mw_calls w = [] →
  let '(out, w') := main now (Configured c) w in
  executes (main_steps c) w out w'
  ∧ mw_calls w' `prefix_of` expected_calls c
  ∧ (out = MainReturned ∧ mw_calls w' = expected_calls c ∨ out = MainExited 1)
  ∧ (CStart ∈ mw_calls w' →
       onAfterAddFuncs (mg (mw_mgr w')) !! requeue_id = Some requeue_id
       ∧ rule_watches ⊆ watches (mw_env w') ∧ cluster_watches ⊆ watches (mw_env w')).
Proof.
  intros Hw. destruct (main_runs c w I) as (pre & Hp & Hl & Ho & Hs). pose proof (main_does c w) as Hd.
  destruct (main now (Configured c) w) as [out w']. rewrite Hw in Hp. simpl in *. rewrite Hp.
  split_and!; [done|done|naive_solver|]. intros Hst. destruct (Hs Hst) as [[H1 H2] H3]. done.
Qed.
End main_facts.

(** ** Machine integers *)

(** C40: the logger of zap gets the negated verbosity for every [int8] but -128, which
    wraps around to itself; the port of the webhook is kept below 2^63 and turns
    negative above; the refresh interval is exact up to 9223372036 seconds (292 years),
    and overflows to a negative duration right above. *)
Theorem main_integer_bounds c :
  let v := Verbosity (cfg_Logging c) in
  let port := Port (cfg_ClusterValidatorWebhook c) in
  let n := RefreshIntervalSeconds (cfg_ClusterController c) in
  (Format (cfg_Logging c) ≠ LogFormatConsole → (- 2 ^ 7 ≤ v < 2 ^ 7)%Z →
     logger_for c = ZapLogger (if bool_decide (v = - 2 ^ 7)%Z then v else - v)%Z)
  ∧ (Enabled (cfg_ClusterValidatorWebhook c) = true → (0 ≤ port < 2 ^ 64)%Z →
       opt_Port (options_for c) = (if bool_decide (port < 2 ^ 63)%Z then port else port - 2 ^ 64)%Z)
  ∧ ((0 ≤ n ≤ 9223372036)%Z → RequeueAfter (refresh c) = (n * time_Second)%Z)
  ∧ ((9223372037 ≤ n ≤ 18446744073)%Z → (RequeueAfter (refresh c) < 0)%Z).
Proof.
  intros v port n. split_and!.
  - intros Hf Hv. unfold logger_for. rewrite bool_decide_false by done. f_equal. unfold zap_level. fold v.
    case_bool_decide as Hm; [by rewrite Hm|]. rewrite wrap_signed_id; lia.
  - intros He Hp. unfold options_for. simpl. rewrite He. fold port. unfold int_of_uint.
    case_bool_decide as Hlt; [apply wrap_signed_id; lia|]. unfold wrap_signed.
    replace (port + 2 ^ (64 - 1))%Z with ((port - 2 ^ 63) + 1 * 2 ^ 64)%Z by lia.
    rewrite Z.mod_add by lia. rewrite Z.mod_small; lia.
  - intros Hn. unfold refresh, time_Second. simpl. fold n. rewrite wrap_signed_id; lia.
  - intros Hn. unfold refresh, time_Second. simpl. fold n. unfold wrap_signed.
    replace (1000000000 * n + 2 ^ (64 - 1))%Z with ((1000000000 * n - 2 ^ 63) + 1 * 2 ^ 64)%Z by lia.
    rewrite Z.mod_add by lia. rewrite Z.mod_small; lia.
Qed.
