(* ===== verification/MainRun.v ===== *)
(** * The command at work

    A process with a registry, a host and the watches of its controllers, and simple
    versions of viper and mapstructure: the command is configured from its defaults, and
    runs up to the start of the manager. *)

From stdpp Require Import gmap strings list.
From S2P Require Import Prelude Errors Types Util Cluster ClusterLife ManagedReconciler Manager Conditions Meta Secret ClusterReconciler RuleReconciler RemoteReconciler RegistryRun Watches WatchFacts Config Configure Certificate Certifier CertifierFacts Main MainFacts.
Open Scope string_scope.
Open Scope go_scope.

Existing Instance chain_lib.
#[local] Existing Instance reg_client.
#[local] Existing Instance reg_secrets_env.
#[local] Existing Instance toy_crypto.
#[local] Existing Instance toy_host.

(** ** Configuration *)

#[local] Instance doubling : Growth := λ n, (2 * n)%nat.

(** The sources in their order; variables are named by their keys. *)
Definition source_of (v : Viper) (p : FlagSet) (given : gmap string CValue) (environ : gmap string string) (k : string)
    : option CValue :=
  match v_pflags v !! k ≫= λ f, given !! f with
  | Some x => Some x
  | None =>
      match environ !! k with
      | Some s => Some (CString s)
      | None => match v_defaults v !! k with Some d => Some d | None => v_pflags v !! k ≫= flag_default p end
      end
  end.

#[local] Instance simple_viper : ViperLib := {|
  pflag_Parse _ args :=
    match args with
    | [] => Parsed ∅
    | "--log-format=console" :: _ => Parsed {[ "log-format" := CString "console" ]}
    | _ => ParseExit 2
    end;
  viper_BindEnv _ := None;
  env_name _ k := k;
  viper_find := source_of |}.
#[local] Instance simple_viper_laws : ViperLaws.
Proof.
  constructor; [done|..]; simpl; unfold source_of; intros *.
  - intros -> Hx. simpl. by rewrite Hx.
  - by intros -> _ ->.
  - by intros -> -> ->.
  - intros -> Hg -> ->. simpl. by rewrite Hg.
Qed.

#[local] Instance simple_decode : DecodeLib := {|
  as_string x := match x with CString s => Ok s | _ => Err (errorString "not a string") end;
  as_bool x := match x with CBool b => Ok b | _ => Err (errorString "not a bool") end;
  as_int x := match x with CInt z => Ok z | _ => Err (errorString "not an int") end;
  as_int8 x := match x with CInt z => Ok (int8 z) | _ => Err (errorString "not an int") end;
  as_uint x := match x with CUint z => Ok z | _ => Err (errorString "not a uint") end;
  get_bool x := match x with Some (CBool b) => b | _ => false end;
  yaml_Marshal_config _ := Ok "yaml" |}.
#[local] Instance simple_decode_laws : DecodeLaws.
Proof. constructor; try done. intros z Hz. simpl. by rewrite wrap_signed_id by lia. Qed.

(** Four levels of nesting, so that paths share arrays. *)
Lemma bindEnvs_binds_all_keys_witness :
  (bindEnvs viper_BindEnv Configuration_fields (mkSlice 0 0) ({[ 0 := [] ]}, [])).2.2
  = (λ p, joined p.1) <$> field_paths Configuration_fields [].
Proof. exact (proj2 (bindEnvs_binds_all_keys viper_BindEnv (λ _, eq_refl) Configuration_fields)). Defined.

Lemma configuration_precedence_witness :
  configured_find {[ "log-format" := CString "console" ]} {[ "log.format" := "json" ]} "log.format"
  = Some (CString "console")
  ∧ configured_find ∅ {[ "log.format" := "x" ]} "log.format" = Some (CString "x").
Proof.
  assert (("log.format", KString) ∈ config_keys) as Hk by (apply key_kind_elem; vm_compute; reflexivity).
  split.
  - rewrite (proj2 (configuration_precedence {[ "log-format" := CString "console" ]} {[ "log.format" := "json" ]} _ _ Hk)).
    vm_compute. reflexivity.
  - rewrite (proj2 (configuration_precedence ∅ {[ "log.format" := "x" ]} _ _ Hk)). vm_compute. reflexivity.
Defined.

Lemma configure_well_typed_witness :
  ∃ c, Unmarshal (configured_find {[ "log-format" := CString "console" ]} ∅) = Ok c.
Proof.
  refine (proj1 (configure_well_typed (mkBuildInfo "" "" "") ["--log-format=console"] ∅ {[ "log-format" := CString "console" ]}
    eq_refl _ _ _)).
  - intros k kd f x Hk Hf Hx. apply lookup_singleton_Some in Hx as [<- <-].
    assert (forallb (λ kk, match flag_of kk.1 with
      | Some f => negb (bool_decide (f = "log-format")) || has_kind (CString "console") kk.2 | None => true end) config_keys = true)
      as Hall by (vm_compute; reflexivity).
    rewrite forallb_forall in Hall. specialize (Hall _ (proj1 (list_elem_of_In _ _) Hk)). cbn [fst snd] in Hall.
    rewrite Hf, bool_decide_true in Hall by reflexivity. exact Hall.
  - intros. apply lookup_empty.
  - intros c. exists "yaml". reflexivity.
Defined.

Lemma configure_defaults_witness :
  configure (mkBuildInfo "" "" "") [] ∅ = Configured default_configuration.
Proof. exact (configure_defaults (mkBuildInfo "" "" "") [] eq_refl). Defined.

(** ** main *)

Record Proc := mkProc { pr_reg : Reg; pr_host : Host; pr_watches : list Watch }.
Definition at_reg {A} (c : ST Reg A) : ST Proc A :=
  λ p, let '(a, r) := c (pr_reg p) in (a, mkProc r (pr_host p) (pr_watches p)).
Definition at_host {A} (c : ST Host A) : ST Proc A :=
  λ p, let '(a, h) := c (pr_host p) in (a, mkProc (pr_reg p) h (pr_watches p)).
Definition keep (ws : list Watch) : ST Proc (option error) :=
  λ p, (None, mkProc (pr_reg p) (pr_host p) (pr_watches p ++ ws)).

#[local] Instance proc_clusters : ClusterClient Proc := {|
  client_GetCluster n := at_reg (client_GetCluster n);
  client_ListClusters := at_reg client_ListClusters;
  client_StatusUpdate c := at_reg (client_StatusUpdate c);
  client_GetNamespaceUID n := at_reg (client_GetNamespaceUID n) |}.
#[local] Instance proc_secrets : SecretEnv Proc := {|
  client_GetSecret k := at_reg (client_GetSecret k);
  client_GetServiceAccountNamespace k := at_reg (client_GetServiceAccountNamespace k);
  client_ListSecrets n := at_reg (client_ListSecrets n);
  client_CreateSecret x := at_reg (client_CreateSecret x);
  discovery_ServerAddresses c := at_reg (discovery_ServerAddresses c);
  yaml_Marshal k := yaml_Marshal (S := Reg) k;
  client_GetWebhook n := at_reg (client_GetWebhook n);
  client_UpdateWebhook w := at_reg (client_UpdateWebhook w);
  client_CreateCluster c := at_reg (client_CreateCluster c) |}.
#[local] Instance proc_host : HostEnv Proc := {|
  host_Now := at_host host_Now;
  rsa_GenerateKey n := at_host (rsa_GenerateKey n);
  x509_CreateCertificate t p k sk := at_host (x509_CreateCertificate t p k sk);
  os_MkdirAll d := at_host (os_MkdirAll d);
  os_ReadFile d f := at_host (os_ReadFile d f);
  os_WriteFile d f c := at_host (os_WriteFile d f c) |}.
#[local] Instance proc_watches : WatchEnv Proc := {|
  ctrl_Watch w := keep [w];
  builder_Build ws _ := keep ws;
  GetInformerForKind _ := keep [] |}.
#[local, refine] Instance proc_watch_laws : WatchLaws Proc := {| watches := pr_watches |}.
Proof. all: intros; simpl; eauto using app_nil_r. Defined.
#[local] Instance proc_main : MainEnv Proc := {|
  GetConfigOrDie p := (true, p);
  client_New p := (None, p);
  ctrl_NewManager _ p := (None, p);
  webhook_Register _ p := (tt, p);
  mgr_Add _ p := (None, p);
  mgr_AddReadyzCheck _ _ p := (None, p);
  mgr_Start p := (None, p) |}.

Definition boot : MainWorld Proc :=
  mkMainWorld [] (NewManager [0] [] ∅) (mkProc (mkReg [] []) (mkHost ∅ 0 false None) []).

(** The default configuration: the webhook is enabled, and the manager is started. *)
Lemma main_starts_only_when_ready_witness :
  (main "now" (Configured default_configuration) boot).1 = MainReturned
  ∧ cluster_watches ⊆ watches (mw_env (main "now" (Configured default_configuration) boot).2).
Proof.
  pose proof (main_starts_only_when_ready "now" (λ _ _ _, eq_refl) (λ _, eq_refl) default_configuration boot eq_refl) as H.
  assert ((main "now" (Configured default_configuration) boot).1 = MainReturned) as Hret by (vm_compute; reflexivity).
  destruct (main "now" (Configured default_configuration) boot) as [out w'].
  destruct H as (_ & _ & Ho & Hst). split; [exact Hret|].
  refine (proj2 (proj2 (Hst _))). destruct Ho as [[_ ->]|Hx]; [|simpl in Hret; congruence].
  unfold expected_calls. rewrite !elem_of_app. do 4 right. do 3 right. left.
Defined.
